(** * CertificateSet controller: a shallow embedding of the reconciliation
      engine and the properties of its specification.

    The Go packages of the controller are rendered as modules:
    [metav1], [cmmeta], [certmanagerv1], [corev1], [v1alpha1] hold the data
    model, [apierrors], [schema], [base64], [meta] and [controllerutil] hold
    the library functions the controller calls, [cluster] models the API
    server the client talks to, and [controller] holds the functions of
    [internal/controller]. *)

From Stdlib Require Import ZArith NArith List Ascii String Bool.
From stdpp Require Import base decidable option list gmap strings.

Local Open Scope string_scope.
Local Open Scope Z_scope.

(** ** Errors

    A Go [error] is either a status error of the API machinery, an error of
    [controllerutil.SetControllerReference], a plain [fmt.Errorf] message
    ([Errorf]) or a [fmt.Errorf] message that wraps another error with [%w]
    ([Wrapf]). *)
Module apierrors.

Inductive StatusReason :=
| StatusReasonNotFound
| StatusReasonAlreadyExists
| StatusReasonInternalError.

Inductive error :=
| StatusError (reason : StatusReason) (message : string)
| AlreadyOwnedError (message : string)
| Errorf (message : string)
| Wrapf (message : string) (wrapped : error).

(** [err.Error()]: every wrapping format of the controller ends in
    [": %w"]. *)
Fixpoint Error (e : error) : string :=
  match e with
  | StatusError _ m => m
  | AlreadyOwnedError m => m
  | Errorf m => m
  | Wrapf m e' => m +:+ ": " +:+ Error e'
  end.

(** [apierrors.IsNotFound] looks through the wrapping chain. *)
Fixpoint IsNotFound (e : error) : bool :=
  match e with
  | StatusError StatusReasonNotFound _ => true
  | StatusError _ _ => false
  | AlreadyOwnedError _ => false
  | Errorf _ => false
  | Wrapf _ e' => IsNotFound e'
  end.

Fixpoint IsAlreadyExists (e : error) : bool :=
  match e with
  | StatusError StatusReasonAlreadyExists _ => true
  | StatusError _ _ => false
  | AlreadyOwnedError _ => false
  | Errorf _ => false
  | Wrapf _ e' => IsAlreadyExists e'
  end.

Definition NewNotFound (kind name : string) : error :=
  StatusError StatusReasonNotFound (kind +:+ " " +:+ name +:+ " not found").

Definition NewAlreadyExists (kind name : string) : error :=
  StatusError StatusReasonAlreadyExists
              (kind +:+ " " +:+ name +:+ " already exists").

End apierrors.
Export apierrors.

(** The result of a fallible call: Go's [(value, error)] pair. *)
Inductive res (A : Type) :=
| Ok (a : A)
| Err (e : error).
Arguments Ok {A} a.
Arguments Err {A} e.

(** ** [k8s.io/apimachinery/pkg/runtime/schema] *)
Module schema.

Definition slash : ascii := "/"%char.

(** [strings.Count(gv, "/")] *)
Fixpoint Count (s : string) : nat :=
  match s with
  | EmptyString => O
  | String c s' => if Ascii.eqb c slash then S (Count s') else Count s'
  end.

(** [gv[:i]] for [i := strings.Index(gv, "/")] *)
Fixpoint before_slash (s : string) : string :=
  match s with
  | EmptyString => EmptyString
  | String c s' => if Ascii.eqb c slash then EmptyString
                   else String c (before_slash s')
  end.

(** [gv[i+1:]] *)
Fixpoint after_slash (s : string) : string :=
  match s with
  | EmptyString => EmptyString
  | String c s' => if Ascii.eqb c slash then s' else after_slash s'
  end.

Record GroupVersion := { Group : string; Version : string }.

(** [ParseGroupVersion]: the value and whether an error came with it.
    The zero [GroupVersion] is returned on an empty string and on ["/"]
    (without error) and on a string with two or more slashes (with an
    error). *)
Definition ParseGroupVersion (gv : string) : GroupVersion * bool :=
  if (String.length gv =? 0)%nat || String.eqb gv "/" then
    ({| Group := EmptyString; Version := EmptyString |}, false)
  else
    match Count gv with
    | O => ({| Group := EmptyString; Version := gv |}, false)
    | S O => ({| Group := before_slash gv; Version := after_slash gv |}, false)
    | _ => ({| Group := EmptyString; Version := EmptyString |}, true)
    end.

End schema.

(** ** [encoding/base64], [StdEncoding.EncodeToString] *)
Module base64.

Definition encodeStd : string :=
  "ABCDEFGHIJKLMNOPQRSTUVWXYZabcdefghijklmnopqrstuvwxyz0123456789+/".

Definition digit (n : N) : ascii :=
  match String.get (N.to_nat n) encodeStd with
  | Some c => c
  | None => "="%char
  end.

(** Three input bytes give four digits; a tail of one or two bytes is
    padded with [=]. *)
Fixpoint EncodeToString (src : string) : string :=
  match src with
  | EmptyString => EmptyString
  | String a EmptyString =>
    let v := (N_of_ascii a * 65536)%N in
    String (digit (v / 262144)) (String (digit ((v / 4096) mod 64)) "==")
  | String a (String b EmptyString) =>
    let v := (N_of_ascii a * 65536 + N_of_ascii b * 256)%N in
    String (digit (v / 262144)) (String (digit ((v / 4096) mod 64))
      (String (digit ((v / 64) mod 64)) "="))
  | String a (String b (String c rest)) =>
    let v := (N_of_ascii a * 65536 + N_of_ascii b * 256 + N_of_ascii c)%N in
    String (digit (v / 262144)) (String (digit ((v / 4096) mod 64))
      (String (digit ((v / 64) mod 64)) (String (digit (v mod 64))
        (EncodeToString rest))))
  end.

End base64.



(** ** The data model

    Durations and timestamps are integers (nanoseconds); a Go map is a
    [gmap] (the API machinery does not tell a nil map from an empty one);
    a pointer field that may be nil is an [option]. *)
Module metav1.

Definition ConditionStatus := string.
Definition ConditionTrue : ConditionStatus := "True".
Definition ConditionFalse : ConditionStatus := "False".
Definition ConditionUnknown : ConditionStatus := "Unknown".

Record Condition := {
  Type_ : string;
  Status : ConditionStatus;
  ObservedGeneration : Z;
  LastTransitionTime : Z;
  Reason : string;
  Message : string
}.

Record OwnerReference := {
  OwnerAPIVersion : string;
  OwnerKind : string;
  OwnerName : string;
  OwnerUID : string;
  Controller : bool;
  BlockOwnerDeletion : bool
}.

Record ObjectMeta := {
  Name : string;
  Namespace : string;
  UID : string;
  Generation : Z;
  DeletionTimestamp : option Z;
  Labels : gmap string string;
  Annotations : gmap string string;
  OwnerReferences : list OwnerReference;
  Finalizers : list string
}.

#[global] Instance Condition_eq_dec : EqDecision Condition.
Proof. solve_decision. Defined.
#[global] Instance OwnerReference_eq_dec : EqDecision OwnerReference.
Proof. solve_decision. Defined.
#[global] Instance ObjectMeta_eq_dec : EqDecision ObjectMeta.
Proof. solve_decision. Defined.

(** [metav1.ObjectMeta{Name: .., Namespace: .., Labels: .., Annotations: ..}] *)
Definition newObjectMeta (name namespace : string)
           (labels annotations : gmap string string) : ObjectMeta :=
  {| Name := name; Namespace := namespace; UID := EmptyString;
     Generation := 0; DeletionTimestamp := None;
     Labels := labels; Annotations := annotations;
     OwnerReferences := []; Finalizers := [] |}.

Definition withLabels (m : ObjectMeta) (l : gmap string string) :=
  {| Name := Name m; Namespace := Namespace m; UID := UID m;
     Generation := Generation m; DeletionTimestamp := DeletionTimestamp m;
     Labels := l; Annotations := Annotations m;
     OwnerReferences := OwnerReferences m; Finalizers := Finalizers m |}.

Definition withAnnotations (m : ObjectMeta) (a : gmap string string) :=
  {| Name := Name m; Namespace := Namespace m; UID := UID m;
     Generation := Generation m; DeletionTimestamp := DeletionTimestamp m;
     Labels := Labels m; Annotations := a;
     OwnerReferences := OwnerReferences m; Finalizers := Finalizers m |}.

Definition withOwnerReferences (m : ObjectMeta) (o : list OwnerReference) :=
  {| Name := Name m; Namespace := Namespace m; UID := UID m;
     Generation := Generation m; DeletionTimestamp := DeletionTimestamp m;
     Labels := Labels m; Annotations := Annotations m;
     OwnerReferences := o; Finalizers := Finalizers m |}.

Definition withFinalizers (m : ObjectMeta) (f : list string) :=
  {| Name := Name m; Namespace := Namespace m; UID := UID m;
     Generation := Generation m; DeletionTimestamp := DeletionTimestamp m;
     Labels := Labels m; Annotations := Annotations m;
     OwnerReferences := OwnerReferences m; Finalizers := f |}.

Definition withGeneration (m : ObjectMeta) (g : Z) :=
  {| Name := Name m; Namespace := Namespace m; UID := UID m;
     Generation := g; DeletionTimestamp := DeletionTimestamp m;
     Labels := Labels m; Annotations := Annotations m;
     OwnerReferences := OwnerReferences m; Finalizers := Finalizers m |}.

End metav1.

Module cmmeta.

Definition ConditionStatus := string.
Definition ConditionTrue : ConditionStatus := "True".

Record ObjectReference := {
  Name : string;
  Kind : string;
  Group : string
}.

#[global] Instance ObjectReference_eq_dec : EqDecision ObjectReference.
Proof. solve_decision. Defined.

(** The zero value [cmmeta.ObjectReference{}]. *)
Definition emptyObjectReference : ObjectReference :=
  {| Name := EmptyString; Kind := EmptyString; Group := EmptyString |}.

End cmmeta.

Module certmanagerv1.

Definition KeyUsage := string.
Definition UsageCertSign : KeyUsage := "cert sign".
Definition UsageKeyEncipherment : KeyUsage := "key encipherment".
Definition UsageDigitalSignature : KeyUsage := "digital signature".
Definition UsageClientAuth : KeyUsage := "client auth".
Definition UsageDataEncipherment : KeyUsage := "data encipherment".

Definition RSAKeyAlgorithm : string := "RSA".
Definition RotationPolicyNever : string := "Never".
Definition RotationPolicyAlways : string := "Always".
Definition IssuerKind : string := "Issuer".
Definition SchemeGroupVersionGroup : string := "cert-manager.io".
Definition CertificateConditionReady : string := "Ready".
Definition IssuerConditionReady : string := "Ready".

Record CertificatePrivateKey := {
  Algorithm : string;
  RotationPolicy : string;
  Size : Z
}.

Record CertificateSecretTemplate := {
  TemplateLabels : gmap string string
}.

Record X509Subject := {
  Organizations : list string
}.

Record CertificateSpec := {
  CommonName : string;
  Duration : option Z;
  IsCA : bool;
  IssuerRef : cmmeta.ObjectReference;
  PrivateKey : option CertificatePrivateKey;
  RenewBefore : option Z;
  SecretName : string;
  SecretTemplate : option CertificateSecretTemplate;
  Subject : option X509Subject;
  Usages : list KeyUsage
}.

(** [CertificateCondition] and [IssuerCondition] have the same fields; the
    controller reads [Type] and [Status]. *)
Record Condition := {
  Type_ : string;
  Status : cmmeta.ConditionStatus;
  Reason : string;
  Message : string
}.

Record Certificate := {
  ObjectMeta : metav1.ObjectMeta;
  Spec : CertificateSpec;
  StatusConditions : list Condition
}.

Record CAIssuer := {
  CASecretName : string
}.

Record IssuerSpec := {
  CA : option CAIssuer
}.

Record Issuer := {
  IssuerObjectMeta : metav1.ObjectMeta;
  IssuerSpec_ : IssuerSpec;
  IssuerStatusConditions : list Condition
}.

#[global] Instance CertificatePrivateKey_eq_dec : EqDecision CertificatePrivateKey.
Proof. solve_decision. Defined.
#[global] Instance CertificateSecretTemplate_eq_dec : EqDecision CertificateSecretTemplate.
Proof. solve_decision. Defined.
#[global] Instance X509Subject_eq_dec : EqDecision X509Subject.
Proof. solve_decision. Defined.
#[global] Instance CertificateSpec_eq_dec : EqDecision CertificateSpec.
Proof. solve_decision. Defined.
#[global] Instance Condition_eq_dec : EqDecision Condition.
Proof. solve_decision. Defined.
#[global] Instance Certificate_eq_dec : EqDecision Certificate.
Proof. solve_decision. Defined.
#[global] Instance CAIssuer_eq_dec : EqDecision CAIssuer.
Proof. solve_decision. Defined.
#[global] Instance IssuerSpec_eq_dec : EqDecision IssuerSpec.
Proof. solve_decision. Defined.
#[global] Instance Issuer_eq_dec : EqDecision Issuer.
Proof. solve_decision. Defined.

End certmanagerv1.

Module corev1.

Definition SecretTypeOpaque : string := "Opaque".

(** [Data] maps a key to a byte string. *)
Record Secret := {
  ObjectMeta : metav1.ObjectMeta;
  Type_ : string;
  Data : gmap string string
}.

Record Namespace := {
  NamespaceObjectMeta : metav1.ObjectMeta
}.

#[global] Instance Secret_eq_dec : EqDecision Secret.
Proof. solve_decision. Defined.
#[global] Instance Namespace_eq_dec : EqDecision Namespace.
Proof. solve_decision. Defined.

End corev1.

(** [api/v1alpha1/certificateset_types.go] *)
Module v1alpha1.

Definition EnvironmentType := string.
Definition EnvironmentClient : EnvironmentType := "client".
Definition EnvironmentSystem : EnvironmentType := "system".
Definition EnvironmentInfra : EnvironmentType := "infra".

Record IssuerReference := {
  APIVersion : string;
  Kind : string;
  Name : string
}.

Record CertificateSetSpec := {
  ArgocdCluster : bool;
  Environment : EnvironmentType;
  Kubeconfig : bool;
  IssuerRef : IssuerReference;
  IssuerRefOidc : option IssuerReference;
  KubeconfigEndpoint : string
}.

Record CertificateSetStatus := {
  Conditions : list metav1.Condition
}.

Record CertificateSet := {
  ObjectMeta : metav1.ObjectMeta;
  Spec : CertificateSetSpec;
  Status : CertificateSetStatus
}.

#[global] Instance IssuerReference_eq_dec : EqDecision IssuerReference.
Proof. solve_decision. Defined.
#[global] Instance CertificateSetSpec_eq_dec : EqDecision CertificateSetSpec.
Proof. solve_decision. Defined.
#[global] Instance CertificateSetStatus_eq_dec : EqDecision CertificateSetStatus.
Proof. solve_decision. Defined.
#[global] Instance CertificateSet_eq_dec : EqDecision CertificateSet.
Proof. solve_decision. Defined.

(** The promoted fields of the embedded [metav1.ObjectMeta]. *)
Definition GetName (cs : CertificateSet) : string := metav1.Name (ObjectMeta cs).
Definition GetNamespace (cs : CertificateSet) : string :=
  metav1.Namespace (ObjectMeta cs).
Definition GetGeneration (cs : CertificateSet) : Z :=
  metav1.Generation (ObjectMeta cs).

End v1alpha1.

(** ** [k8s.io/apimachinery/pkg/api/meta]: status conditions *)
Module meta.
Import metav1.

(** [FindStatusCondition]: the first condition of the given type. *)
Fixpoint FindStatusCondition (conditions : list Condition) (conditionType : string)
  : option Condition :=
  match conditions with
  | [] => None
  | c :: rest =>
    if String.eqb (Type_ c) conditionType then Some c
    else FindStatusCondition rest conditionType
  end.

(** The in-place update [SetStatusCondition] makes of an existing
    condition; the transition time moves only when the status changes. *)
Definition updateCondition (now : Z) (existing new : Condition) : Condition :=
  {| Type_ := Type_ existing;
     Status := Status new;
     ObservedGeneration := ObservedGeneration new;
     LastTransitionTime :=
       if String.eqb (Status existing) (Status new)
       then LastTransitionTime existing
       else if LastTransitionTime new =? 0 then now else LastTransitionTime new;
     Reason := Reason new;
     Message := Message new |}.

Fixpoint replaceFirst (now : Z) (conditions : list Condition) (new : Condition)
  : list Condition :=
  match conditions with
  | [] => []
  | c :: rest =>
    if String.eqb (Type_ c) (Type_ new) then updateCondition now c new :: rest
    else c :: replaceFirst now rest new
  end.

(** [SetStatusCondition(&conditions, newCondition)] at time [now]: append
    a condition of a new type (stamping a zero transition time), else
    update the first one of that type. *)
Definition SetStatusCondition (now : Z) (conditions : list Condition)
           (newCondition : Condition) : list Condition :=
  match FindStatusCondition conditions (Type_ newCondition) with
  | None =>
    conditions ++
      [ {| Type_ := Type_ newCondition;
           Status := Status newCondition;
           ObservedGeneration := ObservedGeneration newCondition;
           LastTransitionTime :=
             if LastTransitionTime newCondition =? 0 then now
             else LastTransitionTime newCondition;
           Reason := Reason newCondition;
           Message := Message newCondition |} ]
  | Some _ => replaceFirst now conditions newCondition
  end.

End meta.

(** ** The API server behind [client.Client] and [client.Reader]

    The world holds the stored objects of each kind, keyed by
    (namespace, name).  Every request takes one tick; [faults] says which
    requests fail for a reason of their own (time-out, conflict, refusal):
    such a failure is never a not-found or an already-exists, which come
    from the store alone.  [calls] is the log of the requests made, oldest
    first.  The cached client and the direct [APIReader] read the same
    store. *)
Module client.

(** [types.NamespacedName]: a namespace and a name. *)
Abbreviation NamespacedName := (string * string)%type (only parsing).

Inductive Verb := VGet | VCreate | VUpdate | VDelete | VStatusPatch.

Record Call := {
  verb : Verb;
  kind : string;
  key : NamespacedName
}.

#[global] Instance Verb_eq_dec : EqDecision Verb.
Proof. solve_decision. Defined.
#[global] Instance Call_eq_dec : EqDecision Call.
Proof. solve_decision. Defined.

Record World := {
  certificateSets : gmap NamespacedName v1alpha1.CertificateSet;
  certificates : gmap NamespacedName certmanagerv1.Certificate;
  issuers : gmap NamespacedName certmanagerv1.Issuer;
  secrets : gmap NamespacedName corev1.Secret;
  namespaces : gmap NamespacedName corev1.Namespace;
  tick : nat;
  faults : nat -> option string;
  calls : list Call
}.

(** State passing over the world. *)
Definition M (A : Type) : Type := World -> A * World.

Definition ret {A} (a : A) : M A := fun w => (a, w).

Definition bind {A B} (m : M A) (k : A -> M B) : M B :=
  fun w => let (a, w') := m w in k a w'.

(** One request: log it, take a tick, and report the fault of that tick. *)
Definition request (v : Verb) (k : string) (n : NamespacedName)
  : M (option error) :=
  fun w =>
    (match faults w (tick w) with
     | Some msg => Some (StatusError StatusReasonInternalError msg)
     | None => None
     end,
     {| certificateSets := certificateSets w;
        certificates := certificates w;
        issuers := issuers w;
        secrets := secrets w;
        namespaces := namespaces w;
        tick := S (tick w);
        faults := faults w;
        calls := calls w ++ [ {| verb := v; kind := k; key := n |} ] |}).

(** [client.Object]: a kind of stored object with its metadata. *)
Class Object (T : Type) := {
  KindOf : string;
  GetObjectMeta : T -> metav1.ObjectMeta;
  SetObjectMeta : T -> metav1.ObjectMeta -> T;
  objects : World -> gmap NamespacedName T;
  setObjects : gmap NamespacedName T -> World -> World
}.

Definition ObjectKeyFromObject {T} `{Object T} (obj : T) : NamespacedName :=
  (metav1.Namespace (GetObjectMeta obj), metav1.Name (GetObjectMeta obj)).

Section Requests.
Context {T : Type} `{Object T}.

Definition Get (n : NamespacedName) : M (res T) :=
  bind (request VGet KindOf n) (fun fault w =>
    match fault with
    | Some e => (Err e, w)
    | None =>
      match objects w !! n with
      | Some obj => (Ok obj, w)
      | None => (Err (NewNotFound KindOf (snd n)), w)
      end
    end).

Definition Create (obj : T) : M (option error) :=
  let n := ObjectKeyFromObject obj in
  bind (request VCreate KindOf n) (fun fault w =>
    match fault with
    | Some e => (Some e, w)
    | None =>
      match objects w !! n with
      | Some _ => (Some (NewAlreadyExists KindOf (snd n)), w)
      | None => (None, setObjects (<[n := obj]> (objects w)) w)
      end
    end).

Definition Update (obj : T) : M (option error) :=
  let n := ObjectKeyFromObject obj in
  bind (request VUpdate KindOf n) (fun fault w =>
    match fault with
    | Some e => (Some e, w)
    | None =>
      match objects w !! n with
      | Some _ => (None, setObjects (<[n := obj]> (objects w)) w)
      | None => (Some (NewNotFound KindOf (snd n)), w)
      end
    end).

Definition Delete (obj : T) : M (option error) :=
  let n := ObjectKeyFromObject obj in
  bind (request VDelete KindOf n) (fun fault w =>
    match fault with
    | Some e => (Some e, w)
    | None =>
      match objects w !! n with
      | Some _ => (None, setObjects (delete n (objects w)) w)
      | None => (Some (NewNotFound KindOf (snd n)), w)
      end
    end).

End Requests.

#[global] Instance CertificateSet_Object : Object v1alpha1.CertificateSet := {|
  KindOf := "CertificateSet";
  GetObjectMeta := v1alpha1.ObjectMeta;
  SetObjectMeta cs m :=
    {| v1alpha1.ObjectMeta := m; v1alpha1.Spec := v1alpha1.Spec cs;
       v1alpha1.Status := v1alpha1.Status cs |};
  objects := certificateSets;
  setObjects m w :=
    {| certificateSets := m; certificates := certificates w;
       issuers := issuers w; secrets := secrets w;
       namespaces := namespaces w; tick := tick w; faults := faults w;
       calls := calls w |}
|}.

#[global] Instance Certificate_Object : Object certmanagerv1.Certificate := {|
  KindOf := "Certificate";
  GetObjectMeta := certmanagerv1.ObjectMeta;
  SetObjectMeta c m :=
    {| certmanagerv1.ObjectMeta := m;
       certmanagerv1.Spec := certmanagerv1.Spec c;
       certmanagerv1.StatusConditions := certmanagerv1.StatusConditions c |};
  objects := certificates;
  setObjects m w :=
    {| certificateSets := certificateSets w; certificates := m;
       issuers := issuers w; secrets := secrets w;
       namespaces := namespaces w; tick := tick w; faults := faults w;
       calls := calls w |}
|}.

#[global] Instance Issuer_Object : Object certmanagerv1.Issuer := {|
  KindOf := "Issuer";
  GetObjectMeta := certmanagerv1.IssuerObjectMeta;
  SetObjectMeta i m :=
    {| certmanagerv1.IssuerObjectMeta := m;
       certmanagerv1.IssuerSpec_ := certmanagerv1.IssuerSpec_ i;
       certmanagerv1.IssuerStatusConditions :=
         certmanagerv1.IssuerStatusConditions i |};
  objects := issuers;
  setObjects m w :=
    {| certificateSets := certificateSets w; certificates := certificates w;
       issuers := m; secrets := secrets w;
       namespaces := namespaces w; tick := tick w; faults := faults w;
       calls := calls w |}
|}.

#[global] Instance Secret_Object : Object corev1.Secret := {|
  KindOf := "Secret";
  GetObjectMeta := corev1.ObjectMeta;
  SetObjectMeta s m :=
    {| corev1.ObjectMeta := m; corev1.Type_ := corev1.Type_ s;
       corev1.Data := corev1.Data s |};
  objects := secrets;
  setObjects m w :=
    {| certificateSets := certificateSets w; certificates := certificates w;
       issuers := issuers w; secrets := m;
       namespaces := namespaces w; tick := tick w; faults := faults w;
       calls := calls w |}
|}.

#[global] Instance Namespace_Object : Object corev1.Namespace := {|
  KindOf := "Namespace";
  GetObjectMeta := corev1.NamespaceObjectMeta;
  SetObjectMeta _ m := {| corev1.NamespaceObjectMeta := m |};
  objects := namespaces;
  setObjects m w :=
    {| certificateSets := certificateSets w; certificates := certificates w;
       issuers := issuers w; secrets := secrets w;
       namespaces := m; tick := tick w; faults := faults w;
       calls := calls w |}
|}.

(** [r.Status().Patch(ctx, cs, client.MergeFrom(original))]: the merge
    patch carries the difference between [original] and [cs]; the status
    endpoint applies its status part to the stored object.  A list is
    replaced as a whole, and nothing is changed when the two statuses are
    equal (an empty patch).  The answer is the stored object after the
    patch. *)
Definition StatusPatch (cs original : v1alpha1.CertificateSet)
  : M (res v1alpha1.CertificateSet) :=
  let n := ObjectKeyFromObject cs in
  bind (request VStatusPatch "CertificateSet" n) (fun fault w =>
    match fault with
    | Some e => (Err e, w)
    | None =>
      match certificateSets w !! n with
      | None => (Err (NewNotFound "CertificateSet" (snd n)), w)
      | Some stored =>
        if decide (v1alpha1.Status cs = v1alpha1.Status original)
        then (Ok stored, w)
        else
          let stored' :=
            {| v1alpha1.ObjectMeta := v1alpha1.ObjectMeta stored;
               v1alpha1.Spec := v1alpha1.Spec stored;
               v1alpha1.Status := v1alpha1.Status cs |} in
          (Ok stored', setObjects (<[n := stored']> (certificateSets w)) w)
      end
    end).

End client.

(** ** [sigs.k8s.io/controller-runtime/pkg/controller/controllerutil] *)
Module controllerutil.
Import metav1 client.

Section Finalizers.
Context {T : Type} `{Object T}.

Definition ContainsFinalizer (o : T) (finalizer : string) : bool :=
  existsb (String.eqb finalizer) (Finalizers (GetObjectMeta o)).

Definition AddFinalizer (o : T) (finalizer : string) : T :=
  if ContainsFinalizer o finalizer then o
  else SetObjectMeta o
         (withFinalizers (GetObjectMeta o)
                         (Finalizers (GetObjectMeta o) ++ [finalizer])).

Definition RemoveFinalizer (o : T) (finalizer : string) : T :=
  SetObjectMeta o
    (withFinalizers (GetObjectMeta o)
       (List.filter (fun f => negb (String.eqb f finalizer))
                    (Finalizers (GetObjectMeta o)))).
End Finalizers.

Definition referSameObject (a b : OwnerReference) : bool :=
  let (aGV, aErr) := schema.ParseGroupVersion (OwnerAPIVersion a) in
  if aErr then false else
  let (bGV, bErr) := schema.ParseGroupVersion (OwnerAPIVersion b) in
  if bErr then false else
  String.eqb (schema.Group aGV) (schema.Group bGV)
  && String.eqb (OwnerKind a) (OwnerKind b)
  && String.eqb (OwnerName a) (OwnerName b).

(** [metav1.GetControllerOf] *)
Definition GetControllerOf (refs : list OwnerReference) : option OwnerReference :=
  List.find Controller refs.

(** [upsertOwnerRef]: replace the reference to the same object, else
    append. *)
Fixpoint upsertOwnerRef (ref : OwnerReference) (owners : list OwnerReference)
  : list OwnerReference :=
  match owners with
  | [] => [ref]
  | r :: rest =>
    if referSameObject r ref then ref :: rest
    else r :: upsertOwnerRef ref rest
  end.

(** [SetControllerReference(owner, controlled, scheme)] for an owner of
    the given registered group-version and kind. *)
Definition SetControllerReference {O T : Type} `{Object O} `{Object T}
           (ownerAPIVersion : string) (owner : O) (controlled : T) : res T :=
  let ownerNs := Namespace (GetObjectMeta owner) in
  let objNs := Namespace (GetObjectMeta controlled) in
  if negb (String.eqb ownerNs EmptyString) && String.eqb objNs EmptyString then
    Err (Errorf ("cluster-scoped resource must not have a namespace-scoped owner, owner's namespace "
                 +:+ ownerNs))
  else if negb (String.eqb ownerNs EmptyString) && negb (String.eqb ownerNs objNs) then
    Err (Errorf ("cross-namespace owner references are disallowed, owner's namespace "
                 +:+ ownerNs +:+ ", obj's namespace " +:+ objNs))
  else
    let ref := {| OwnerAPIVersion := ownerAPIVersion;
                  OwnerKind := KindOf (T := O);
                  OwnerName := Name (GetObjectMeta owner);
                  OwnerUID := UID (GetObjectMeta owner);
                  Controller := true;
                  BlockOwnerDeletion := true |} in
    match GetControllerOf (OwnerReferences (GetObjectMeta controlled)) with
    | Some existing =>
      if referSameObject existing ref then
        Ok (SetObjectMeta controlled
              (withOwnerReferences (GetObjectMeta controlled)
                 (upsertOwnerRef ref (OwnerReferences (GetObjectMeta controlled)))))
      else
        Err (AlreadyOwnedError
               ("Object " +:+ objNs +:+ "/" +:+ Name (GetObjectMeta controlled)
                +:+ " is already owned by another " +:+ OwnerKind existing
                +:+ " controller " +:+ OwnerName existing))
    | None =>
      Ok (SetObjectMeta controlled
            (withOwnerReferences (GetObjectMeta controlled)
               (upsertOwnerRef ref (OwnerReferences (GetObjectMeta controlled)))))
    end.

Inductive OperationResult :=
| OperationResultNone
| OperationResultCreated
| OperationResultUpdated.

(** [mutate]: run the mutate function and refuse a change of the key. *)
Definition mutate {T : Type} `{Object T} (f : T -> res T)
           (key : NamespacedName) (obj : T) : res T :=
  match f obj with
  | Err e => Err e
  | Ok obj' =>
    if decide (ObjectKeyFromObject obj' = key) then Ok obj'
    else Err (Errorf "MutateFn cannot mutate object name and/or object namespace")
  end.

(** [CreateOrUpdate(ctx, c, obj, f)]: read the object; when it is absent,
    mutate the given skeleton and create it; when it is present, mutate
    what was read and update the store unless nothing changed. *)
Definition CreateOrUpdate {T : Type} `{Object T} `{EqDecision T}
           (obj : T) (f : T -> res T) : M (OperationResult * option error) :=
  let key := ObjectKeyFromObject obj in
  bind (Get key) (fun got =>
    match got with
    | Err e =>
      if negb (IsNotFound e) then ret (OperationResultNone, Some e)
      else
        match mutate f key obj with
        | Err e' => ret (OperationResultNone, Some e')
        | Ok obj' =>
          bind (Create obj') (fun err =>
            match err with
            | Some e' => ret (OperationResultNone, Some e')
            | None => ret (OperationResultCreated, None)
            end)
        end
    | Ok existing =>
      match mutate f key existing with
      | Err e' => ret (OperationResultNone, Some e')
      | Ok obj' =>
        if decide (existing = obj') then ret (OperationResultNone, None)
        else
          bind (Update obj') (fun err =>
            match err with
            | Some e' => ret (OperationResultNone, Some e')
            | None => ret (OperationResultUpdated, None)
            end)
      end
    end).

End controllerutil.

(** ** [sigs.k8s.io/controller-runtime]: the answer of a reconciliation *)
Module ctrl.

Record Result := {
  Requeue : bool;
  RequeueAfter : Z
}.

(** [ctrl.Result{}] *)
Definition zero : Result := {| Requeue := false; RequeueAfter := 0 |}.

End ctrl.

Module time.
Definition Second : Z := 1000000000.
Definition Hour : Z := 3600 * Second.

(** [IsZero] of a [metav1.Time] pointer: nil or the zero time, written 0. *)
Definition IsZero (t : option Z) : bool :=
  match t with
  | None => true
  | Some v => v =? 0
  end.
End time.

(** ** [internal/controller] *)
Module controller.
Import client controllerutil.
Import v1alpha1.

Notation "'let*' x ':=' m 'in' k" := (bind m (fun x => k))
  (at level 10, x pattern, m at level 200, k at level 200, only parsing).

(** *** names.go *)
Definition suffixCA := "-ca".
Definition suffixSuperAdmin := "-super-admin".
Definition suffixETCD := "-etcd".
Definition suffixProxy := "-proxy".
Definition suffixCAOIDC := "-ca-oidc".
Definition suffixKubeconfig := "-kubeconfig".
Definition suffixArgoCDCluster := "-argocd-cluster".

Definition CAName (cs : CertificateSet) : string := GetName cs +:+ suffixCA.
Definition SuperAdminName (cs : CertificateSet) : string :=
  GetName cs +:+ suffixSuperAdmin.
Definition ETCDName (cs : CertificateSet) : string := GetName cs +:+ suffixETCD.
Definition ProxyName (cs : CertificateSet) : string := GetName cs +:+ suffixProxy.
Definition CAOIDCName (cs : CertificateSet) : string :=
  GetName cs +:+ suffixCAOIDC.
Definition KubeconfigName (cs : CertificateSet) : string :=
  GetName cs +:+ suffixKubeconfig.
Definition ArgoCDClusterName (cs : CertificateSet) : string :=
  GetName cs +:+ suffixArgoCDCluster.

Definition isSystemOrInfra (environment : EnvironmentType) : bool :=
  String.eqb environment EnvironmentSystem
  || String.eqb environment EnvironmentInfra.

Definition AllCertificateNames (cs : CertificateSet) : list string :=
  let names := [CAName cs] in
  let names :=
    if isSystemOrInfra (Environment (Spec cs))
    then (names ++ [ETCDName cs; ProxyName cs; CAOIDCName cs])%list
    else names in
  let names :=
    if Kubeconfig (Spec cs) || ArgocdCluster (Spec cs)
    then (names ++ [SuperAdminName cs])%list
    else names in
  names.

(** *** Constants of the controller *)
Definition ConditionTypeReady := "Ready".
Definition ConditionTypeProgressing := "Progressing".
Definition ConditionTypeDegraded := "Degraded".
Definition finalizerName := "certificateset.in-cloud.io/cleanup".
Definition ArgoCDNamespace := "beget-argocd".
Definition defaultRequeueAfter : Z := 5 * time.Second.

(** The group-version under which [CertificateSet] is registered in the
    scheme. *)
Definition GroupVersion := "in-cloud.io/v1alpha1".

(** *** Certificate and Issuer builders *)
Definition CertDuration20Years : Z := 175200 * time.Hour.
Definition CertDuration1Year : Z := 8760 * time.Hour.
Definition CertRenewBefore30Days : Z := 720 * time.Hour.

Definition copyAnnotationsForChildResource (source : gmap string string)
  : gmap string string :=
  delete "kubectl.kubernetes.io/last-applied-configuration" source.

Definition buildObjectMeta (cs : CertificateSet) (name : string)
  : metav1.ObjectMeta :=
  metav1.newObjectMeta name (GetNamespace cs)
    (metav1.Labels (ObjectMeta cs))
    (copyAnnotationsForChildResource (metav1.Annotations (ObjectMeta cs))).

Definition defaultCAPrivateKey : certmanagerv1.CertificatePrivateKey :=
  {| certmanagerv1.Algorithm := certmanagerv1.RSAKeyAlgorithm;
     certmanagerv1.RotationPolicy := certmanagerv1.RotationPolicyNever;
     certmanagerv1.Size := 2048 |}.

Definition caUsages : list certmanagerv1.KeyUsage :=
  [certmanagerv1.UsageCertSign; certmanagerv1.UsageKeyEncipherment;
   certmanagerv1.UsageDigitalSignature].

(** The issuer reference built from an [IssuerReference] of the spec. *)
Definition objectReference (ref : IssuerReference) : cmmeta.ObjectReference :=
  let gv := fst (schema.ParseGroupVersion (APIVersion ref)) in
  {| cmmeta.Name := Name ref; cmmeta.Kind := Kind ref;
     cmmeta.Group := schema.Group gv |}.

Definition buildCACertificateWithName (cs : CertificateSet) (name : string)
  : certmanagerv1.Certificate :=
  {| certmanagerv1.ObjectMeta := buildObjectMeta cs name;
     certmanagerv1.Spec :=
       {| certmanagerv1.CommonName := name;
          certmanagerv1.Duration := Some CertDuration20Years;
          certmanagerv1.IsCA := true;
          certmanagerv1.IssuerRef := objectReference (IssuerRef (Spec cs));
          certmanagerv1.PrivateKey := Some defaultCAPrivateKey;
          certmanagerv1.RenewBefore := Some CertRenewBefore30Days;
          certmanagerv1.SecretName := name;
          certmanagerv1.SecretTemplate :=
            Some {| certmanagerv1.TemplateLabels := metav1.Labels (ObjectMeta cs) |};
          certmanagerv1.Subject := None;
          certmanagerv1.Usages := caUsages |};
     certmanagerv1.StatusConditions := [] |}.

Definition buildCACertificate (cs : CertificateSet) :=
  buildCACertificateWithName cs (CAName cs).
Definition buildETCDCertificate (cs : CertificateSet) :=
  buildCACertificateWithName cs (ETCDName cs).
Definition buildProxyCertificate (cs : CertificateSet) :=
  buildCACertificateWithName cs (ProxyName cs).

Definition buildIssuer (cs : CertificateSet) : certmanagerv1.Issuer :=
  let name := CAName cs in
  {| certmanagerv1.IssuerObjectMeta := buildObjectMeta cs name;
     certmanagerv1.IssuerSpec_ :=
       {| certmanagerv1.CA := Some {| certmanagerv1.CASecretName := name |} |};
     certmanagerv1.IssuerStatusConditions := [] |}.

Definition buildSuperAdminCertificate (cs : CertificateSet) (issuerName : string)
  : certmanagerv1.Certificate :=
  let name := SuperAdminName cs in
  {| certmanagerv1.ObjectMeta := buildObjectMeta cs name;
     certmanagerv1.Spec :=
       {| certmanagerv1.CommonName := name;
          certmanagerv1.Duration := Some CertDuration1Year;
          certmanagerv1.IsCA := false;
          certmanagerv1.IssuerRef :=
            {| cmmeta.Name := issuerName;
               cmmeta.Kind := certmanagerv1.IssuerKind;
               cmmeta.Group := certmanagerv1.SchemeGroupVersionGroup |};
          certmanagerv1.PrivateKey :=
            Some {| certmanagerv1.Algorithm := certmanagerv1.RSAKeyAlgorithm;
                    certmanagerv1.RotationPolicy := certmanagerv1.RotationPolicyAlways;
                    certmanagerv1.Size := 2048 |};
          certmanagerv1.RenewBefore := Some CertRenewBefore30Days;
          certmanagerv1.SecretName := name;
          certmanagerv1.SecretTemplate :=
            Some {| certmanagerv1.TemplateLabels := metav1.Labels (ObjectMeta cs) |};
          certmanagerv1.Subject :=
            Some {| certmanagerv1.Organizations := ["system:masters"] |};
          certmanagerv1.Usages :=
            [certmanagerv1.UsageClientAuth; certmanagerv1.UsageDataEncipherment;
             certmanagerv1.UsageKeyEncipherment] |};
     certmanagerv1.StatusConditions := [] |}.

(** The assignments [cert.Spec.IsCA = ..], [cert.Spec.IssuerRef = ..]
    and [cert.Spec.Usages = ..]. *)
Definition setIsCA (cert : certmanagerv1.Certificate) (isCA : bool) :=
  let sp := certmanagerv1.Spec cert in
  {| certmanagerv1.ObjectMeta := certmanagerv1.ObjectMeta cert;
     certmanagerv1.Spec :=
       {| certmanagerv1.CommonName := certmanagerv1.CommonName sp;
          certmanagerv1.Duration := certmanagerv1.Duration sp;
          certmanagerv1.IsCA := isCA;
          certmanagerv1.IssuerRef := certmanagerv1.IssuerRef sp;
          certmanagerv1.PrivateKey := certmanagerv1.PrivateKey sp;
          certmanagerv1.RenewBefore := certmanagerv1.RenewBefore sp;
          certmanagerv1.SecretName := certmanagerv1.SecretName sp;
          certmanagerv1.SecretTemplate := certmanagerv1.SecretTemplate sp;
          certmanagerv1.Subject := certmanagerv1.Subject sp;
          certmanagerv1.Usages := certmanagerv1.Usages sp |};
     certmanagerv1.StatusConditions := certmanagerv1.StatusConditions cert |}.

Definition setIssuerRef (cert : certmanagerv1.Certificate)
           (ref : cmmeta.ObjectReference) :=
  let sp := certmanagerv1.Spec cert in
  {| certmanagerv1.ObjectMeta := certmanagerv1.ObjectMeta cert;
     certmanagerv1.Spec :=
       {| certmanagerv1.CommonName := certmanagerv1.CommonName sp;
          certmanagerv1.Duration := certmanagerv1.Duration sp;
          certmanagerv1.IsCA := certmanagerv1.IsCA sp;
          certmanagerv1.IssuerRef := ref;
          certmanagerv1.PrivateKey := certmanagerv1.PrivateKey sp;
          certmanagerv1.RenewBefore := certmanagerv1.RenewBefore sp;
          certmanagerv1.SecretName := certmanagerv1.SecretName sp;
          certmanagerv1.SecretTemplate := certmanagerv1.SecretTemplate sp;
          certmanagerv1.Subject := certmanagerv1.Subject sp;
          certmanagerv1.Usages := certmanagerv1.Usages sp |};
     certmanagerv1.StatusConditions := certmanagerv1.StatusConditions cert |}.

Definition setUsages (cert : certmanagerv1.Certificate)
           (usages : list certmanagerv1.KeyUsage) :=
  let sp := certmanagerv1.Spec cert in
  {| certmanagerv1.ObjectMeta := certmanagerv1.ObjectMeta cert;
     certmanagerv1.Spec :=
       {| certmanagerv1.CommonName := certmanagerv1.CommonName sp;
          certmanagerv1.Duration := certmanagerv1.Duration sp;
          certmanagerv1.IsCA := certmanagerv1.IsCA sp;
          certmanagerv1.IssuerRef := certmanagerv1.IssuerRef sp;
          certmanagerv1.PrivateKey := certmanagerv1.PrivateKey sp;
          certmanagerv1.RenewBefore := certmanagerv1.RenewBefore sp;
          certmanagerv1.SecretName := certmanagerv1.SecretName sp;
          certmanagerv1.SecretTemplate := certmanagerv1.SecretTemplate sp;
          certmanagerv1.Subject := certmanagerv1.Subject sp;
          certmanagerv1.Usages := usages |};
     certmanagerv1.StatusConditions := certmanagerv1.StatusConditions cert |}.

(** [buildOIDCCertificate]: the certificate is built without [IsCA],
    [IssuerRef] and [Usages] (their zero values); the [switch] on the
    environment then assigns them. *)
Definition buildOIDCCertificate (cs : CertificateSet) : certmanagerv1.Certificate :=
  let name := CAOIDCName cs in
  let cert :=
    {| certmanagerv1.ObjectMeta := buildObjectMeta cs name;
       certmanagerv1.Spec :=
         {| certmanagerv1.CommonName := name;
            certmanagerv1.Duration := Some CertDuration20Years;
            certmanagerv1.IsCA := false;
            certmanagerv1.IssuerRef := cmmeta.emptyObjectReference;
            certmanagerv1.PrivateKey := Some defaultCAPrivateKey;
            certmanagerv1.RenewBefore := Some CertRenewBefore30Days;
            certmanagerv1.SecretName := name;
            certmanagerv1.SecretTemplate :=
              Some {| certmanagerv1.TemplateLabels := metav1.Labels (ObjectMeta cs) |};
            certmanagerv1.Subject := None;
            certmanagerv1.Usages := [] |};
       certmanagerv1.StatusConditions := [] |} in
  if String.eqb (Environment (Spec cs)) EnvironmentSystem then
    let cert := setIsCA cert true in
    let cert := setIssuerRef cert (objectReference (IssuerRef (Spec cs))) in
    setUsages cert caUsages
  else if String.eqb (Environment (Spec cs)) EnvironmentInfra then
    match IssuerRefOidc (Spec cs) with
    | Some oidc =>
      let cert := setIsCA cert false in
      setIssuerRef cert (objectReference oidc)
    | None => cert
    end
  else cert.

(** *** secret_builders.go *)
Record CertificateData := {
  CACert : string;
  TLSCert : string;
  TLSKey : string
}.

Record kubeconfigData := {
  ClusterName : string;
  Server : string;
  kCACert : string;
  kTLSCert : string;
  kTLSKey : string
}.

Definition nl : string := String "010"%char EmptyString.
Definition dq : string := String "034"%char EmptyString.

(** [kubeconfigTemplate.Execute]: the text of the template with the
    fields of the data put in; with string fields the rendering has no
    failing case. *)
Definition kubeconfigTemplate (d : kubeconfigData) : string :=
  "apiVersion: v1" +:+ nl +:+
  "clusters:" +:+ nl +:+
  "    - cluster:" +:+ nl +:+
  "        certificate-authority-data: " +:+ kCACert d +:+ nl +:+
  "        server: " +:+ Server d +:+ nl +:+
  "      name: " +:+ ClusterName d +:+ nl +:+
  "contexts:" +:+ nl +:+
  "    - context:" +:+ nl +:+
  "        cluster: " +:+ ClusterName d +:+ nl +:+
  "        user: " +:+ ClusterName d +:+ "-super-admin" +:+ nl +:+
  "      name: " +:+ ClusterName d +:+ "-super-admin@" +:+ ClusterName d +:+ nl +:+
  "current-context: " +:+ ClusterName d +:+ "-super-admin@" +:+ ClusterName d +:+ nl +:+
  "kind: Config" +:+ nl +:+
  "users:" +:+ nl +:+
  "    - name: " +:+ ClusterName d +:+ "-super-admin" +:+ nl +:+
  "      user:" +:+ nl +:+
  "        client-certificate-data: " +:+ kTLSCert d +:+ nl +:+
  "        client-key-data: " +:+ kTLSKey d.

Definition argoCDConfigTemplate (d : CertificateData) : string :=
  "{" +:+ nl +:+
  "  " +:+ dq +:+ "tlsClientConfig" +:+ dq +:+ ": {" +:+ nl +:+
  "    " +:+ dq +:+ "caData" +:+ dq +:+ ": " +:+ dq +:+ CACert d +:+ dq +:+ "," +:+ nl +:+
  "    " +:+ dq +:+ "certData" +:+ dq +:+ ": " +:+ dq +:+ TLSCert d +:+ dq +:+ "," +:+ nl +:+
  "    " +:+ dq +:+ "insecure" +:+ dq +:+ ": false," +:+ nl +:+
  "    " +:+ dq +:+ "keyData" +:+ dq +:+ ": " +:+ dq +:+ TLSKey d +:+ dq +:+ nl +:+
  "  }" +:+ nl +:+
  "}".

Definition buildKubeconfigSecret (cs : CertificateSet) (certData : CertificateData)
  : res corev1.Secret :=
  let kubeconfigContent :=
    kubeconfigTemplate
      {| ClusterName := GetName cs;
         Server := KubeconfigEndpoint (Spec cs);
         kCACert := CACert certData;
         kTLSCert := TLSCert certData;
         kTLSKey := TLSKey certData |} in
  let labels := metav1.Labels (ObjectMeta cs) in
  Ok {| corev1.ObjectMeta :=
          metav1.newObjectMeta (KubeconfigName cs) (GetNamespace cs) labels
            (copyAnnotationsForChildResource (metav1.Annotations (ObjectMeta cs)));
        corev1.Type_ := corev1.SecretTypeOpaque;
        corev1.Data := {[ "value" := kubeconfigContent ]} |}.

Definition buildArgoCDClusterSecret (cs : CertificateSet) (certData : CertificateData)
  : res corev1.Secret :=
  let config := argoCDConfigTemplate certData in
  let labels := metav1.Labels (ObjectMeta cs) in
  let labels := <[ "argocd.argoproj.io/secret-type" := "cluster" ]> labels in
  Ok {| corev1.ObjectMeta :=
          metav1.newObjectMeta (ArgoCDClusterName cs) ArgoCDNamespace labels
            (copyAnnotationsForChildResource (metav1.Annotations (ObjectMeta cs)));
        corev1.Type_ := corev1.SecretTypeOpaque;
        corev1.Data :=
          <[ "config" := config ]>
          (<[ "name" := GetName cs ]>
          {[ "server" := KubeconfigEndpoint (Spec cs) ]}) |}.

(** *** certificateset_helpers.go

    The reconciler reads through [r.APIReader] and writes through the
    embedded [client.Client]; both are the requests of [client]. *)

(** [isSecretReady]: the secret exists and has the three fields. *)
Definition isSecretReady (namespace name : string) : M (bool * option error) :=
  let* got := Get (T := corev1.Secret) (namespace, name) in
  match got with
  | Err e => if IsNotFound e then ret (false, None) else ret (false, Some e)
  | Ok secret =>
    let hasCACrt := bool_decide (is_Some (corev1.Data secret !! "ca.crt")) in
    let hasTLSCrt := bool_decide (is_Some (corev1.Data secret !! "tls.crt")) in
    let hasTLSKey := bool_decide (is_Some (corev1.Data secret !! "tls.key")) in
    ret (hasCACrt && hasTLSCrt && hasTLSKey, None)
  end.

(** The loop over the conditions: the answer of the first condition of
    type [conditionType], false when there is none. *)
Fixpoint conditionIsTrue (conditionType : string)
         (conditions : list certmanagerv1.Condition) : bool :=
  match conditions with
  | [] => false
  | cond :: rest =>
    if String.eqb (certmanagerv1.Type_ cond) conditionType
    then String.eqb (certmanagerv1.Status cond) cmmeta.ConditionTrue
    else conditionIsTrue conditionType rest
  end.

Definition isCertificateReady (namespace name : string) : M (bool * option error) :=
  let* got := Get (T := certmanagerv1.Certificate) (namespace, name) in
  match got with
  | Err e => if IsNotFound e then ret (false, None) else ret (false, Some e)
  | Ok cert =>
    ret (conditionIsTrue certmanagerv1.CertificateConditionReady
           (certmanagerv1.StatusConditions cert), None)
  end.

Definition isIssuerReady (namespace name : string) : M (bool * option error) :=
  let* got := Get (T := certmanagerv1.Issuer) (namespace, name) in
  match got with
  | Err e => if IsNotFound e then ret (false, None) else ret (false, Some e)
  | Ok issuer =>
    ret (conditionIsTrue certmanagerv1.IssuerConditionReady
           (certmanagerv1.IssuerStatusConditions issuer), None)
  end.

(** The loop of [checkAllResourcesReady] over the certificate names:
    [Some] is the early return of the loop body, [None] its normal end. *)
Fixpoint checkCertificatesReady (namespace : string) (certNames : list string)
  : M (option (string * option error)) :=
  match certNames with
  | [] => ret None
  | name :: rest =>
    let* (ready, err) := isCertificateReady namespace name in
    match err with
    | Some e =>
      ret (Some ("error checking Certificate " +:+ name +:+ ": " +:+ Error e,
                 Some e))
    | None =>
      if negb ready
      then ret (Some ("Certificate " +:+ name +:+ " is not ready", None))
      else checkCertificatesReady namespace rest
    end
  end.

(** [checkAllResourcesReady]: (allReady, notReadyReason, error). *)
Definition checkAllResourcesReady (cs : CertificateSet)
  : M (bool * string * option error) :=
  let certNames := AllCertificateNames cs in
  let* stopped := checkCertificatesReady (GetNamespace cs) certNames in
  match stopped with
  | Some (reason, err) => ret (false, reason, err)
  | None =>
    let needsClientCerts := Kubeconfig (Spec cs) || ArgocdCluster (Spec cs) in
    if needsClientCerts then
      let issuerName := CAName cs in
      let* (ready, err) := isIssuerReady (GetNamespace cs) issuerName in
      match err with
      | Some e =>
        ret (false, "error checking Issuer " +:+ issuerName +:+ ": " +:+ Error e,
             Some e)
      | None =>
        if negb ready
        then ret (false, "Issuer " +:+ issuerName +:+ " is not ready", None)
        else ret (true, EmptyString, None)
      end
    else ret (true, EmptyString, None)
  end.

(** A missing key of [secret.Data] reads as the empty byte string. *)
Definition dataOf (data : gmap string string) (k : string) : string :=
  default EmptyString (data !! k).

Definition getCertificateData (namespace name : string) : M (res CertificateData) :=
  let* got := Get (T := corev1.Secret) (namespace, name) in
  match got with
  | Err e => ret (Err e)
  | Ok secret =>
    ret (Ok {| CACert := base64.EncodeToString (dataOf (corev1.Data secret) "ca.crt");
               TLSCert := base64.EncodeToString (dataOf (corev1.Data secret) "tls.crt");
               TLSKey := base64.EncodeToString (dataOf (corev1.Data secret) "tls.key") |})
  end.

(** The zero [CertificateSpec] of the skeleton handed to [CreateOrUpdate]. *)
Definition zeroCertificateSpec : certmanagerv1.CertificateSpec :=
  {| certmanagerv1.CommonName := EmptyString;
     certmanagerv1.Duration := None;
     certmanagerv1.IsCA := false;
     certmanagerv1.IssuerRef := cmmeta.emptyObjectReference;
     certmanagerv1.PrivateKey := None;
     certmanagerv1.RenewBefore := None;
     certmanagerv1.SecretName := EmptyString;
     certmanagerv1.SecretTemplate := None;
     certmanagerv1.Subject := None;
     certmanagerv1.Usages := [] |}.

(** The mutate function of [createOrUpdateCertificate]: set the owner
    reference, then copy labels, annotations and spec from [desired]. *)
Definition mutateCertificate (cs : CertificateSet) (desired existing : certmanagerv1.Certificate)
  : res certmanagerv1.Certificate :=
  match SetControllerReference GroupVersion cs existing with
  | Err e => Err e
  | Ok existing =>
    let m := certmanagerv1.ObjectMeta existing in
    let m := metav1.withLabels m (metav1.Labels (certmanagerv1.ObjectMeta desired)) in
    let m := metav1.withAnnotations m
               (metav1.Annotations (certmanagerv1.ObjectMeta desired)) in
    Ok {| certmanagerv1.ObjectMeta := m;
          certmanagerv1.Spec := certmanagerv1.Spec desired;
          certmanagerv1.StatusConditions := certmanagerv1.StatusConditions existing |}
  end.

Definition createOrUpdateCertificate (cs : CertificateSet)
           (desired : certmanagerv1.Certificate) : M (option error) :=
  let existing :=
    {| certmanagerv1.ObjectMeta :=
         metav1.newObjectMeta (metav1.Name (certmanagerv1.ObjectMeta desired))
           (metav1.Namespace (certmanagerv1.ObjectMeta desired)) ∅ ∅;
       certmanagerv1.Spec := zeroCertificateSpec;
       certmanagerv1.StatusConditions := [] |} in
  let* (op, err) := CreateOrUpdate existing (mutateCertificate cs desired) in
  match err with
  | Some e =>
    ret (Some (Wrapf ("failed to create/update Certificate "
                      +:+ metav1.Name (certmanagerv1.ObjectMeta desired)) e))
  | None => ret None
  end.

Definition mutateIssuer (cs : CertificateSet) (desired existing : certmanagerv1.Issuer)
  : res certmanagerv1.Issuer :=
  match SetControllerReference GroupVersion cs existing with
  | Err e => Err e
  | Ok existing =>
    let m := certmanagerv1.IssuerObjectMeta existing in
    let m := metav1.withLabels m
               (metav1.Labels (certmanagerv1.IssuerObjectMeta desired)) in
    let m := metav1.withAnnotations m
               (metav1.Annotations (certmanagerv1.IssuerObjectMeta desired)) in
    Ok {| certmanagerv1.IssuerObjectMeta := m;
          certmanagerv1.IssuerSpec_ := certmanagerv1.IssuerSpec_ desired;
          certmanagerv1.IssuerStatusConditions :=
            certmanagerv1.IssuerStatusConditions existing |}
  end.

Definition createOrUpdateIssuer (cs : CertificateSet)
           (desired : certmanagerv1.Issuer) : M (option error) :=
  let existing :=
    {| certmanagerv1.IssuerObjectMeta :=
         metav1.newObjectMeta (metav1.Name (certmanagerv1.IssuerObjectMeta desired))
           (metav1.Namespace (certmanagerv1.IssuerObjectMeta desired)) ∅ ∅;
       certmanagerv1.IssuerSpec_ := {| certmanagerv1.CA := None |};
       certmanagerv1.IssuerStatusConditions := [] |} in
  let* (op, err) := CreateOrUpdate existing (mutateIssuer cs desired) in
  match err with
  | Some e =>
    ret (Some (Wrapf ("failed to create/update Issuer "
                      +:+ metav1.Name (certmanagerv1.IssuerObjectMeta desired)) e))
  | None => ret None
  end.

(** [secretDataEqualForKeys] *)
Fixpoint secretDataEqualForKeys (existing new : gmap string string)
         (keys : list string) : bool :=
  match keys with
  | [] => true
  | k :: rest =>
    match existing !! k, new !! k with
    | Some ev, Some nv =>
      if String.eqb ev nv then secretDataEqualForKeys existing new rest else false
    | None, None => secretDataEqualForKeys existing new rest
    | _, _ => false
    end
  end.

(** The loop [existing.Data[k] = secret.Data[k]] over the managed keys. *)
Fixpoint copyKeys (existing new : gmap string string) (keys : list string)
  : gmap string string :=
  match keys with
  | [] => existing
  | k :: rest => copyKeys (<[ k := dataOf new k ]> existing) new rest
  end.

Definition createOrUpdateSecret (secret : corev1.Secret) (managedKeys : list string)
  : M (option error) :=
  let* got := Get (T := corev1.Secret) (ObjectKeyFromObject secret) in
  match got with
  | Err e =>
    if IsNotFound e then Create secret
    else ret (Some e)
  | Ok existing =>
    if negb (secretDataEqualForKeys (corev1.Data existing) (corev1.Data secret)
                                    managedKeys)
    then
      Update {| corev1.ObjectMeta := corev1.ObjectMeta existing;
                corev1.Type_ := corev1.Type_ existing;
                corev1.Data := copyKeys (corev1.Data existing) (corev1.Data secret)
                                        managedKeys |}
    else ret None
  end.

(** [deleteSecretIfExists] *)
Definition deleteSecretIfExists (namespace name : string) : M (option error) :=
  let* got := Get (T := corev1.Secret) (namespace, name) in
  match got with
  | Err e => if IsNotFound e then ret None else ret (Some e)
  | Ok secret =>
    let* err := Delete secret in
    match err with
    | Some e => if negb (IsNotFound e) then ret (Some e) else ret None
    | None => ret None
    end
  end.

(** [setCondition]: true when the condition was written.  The function
    works on the object in memory alone; [now] is the time at which
    [SetStatusCondition] stamps a transition. *)
Definition setCondition (now : Z) (cs : CertificateSet) (condType : string)
           (status : metav1.ConditionStatus) (reason message : string)
  : bool * CertificateSet :=
  let existing := meta.FindStatusCondition (Conditions (Status cs)) condType in
  let same :=
    match existing with
    | Some c =>
      String.eqb (metav1.Status c) status
      && String.eqb (metav1.Reason c) reason
      && String.eqb (metav1.Message c) message
      && (metav1.ObservedGeneration c =? GetGeneration cs)
    | None => false
    end in
  if same then (false, cs)
  else
    (true,
     {| ObjectMeta := ObjectMeta cs;
        Spec := Spec cs;
        Status :=
          {| Conditions :=
               meta.SetStatusCondition now (Conditions (Status cs))
                 {| metav1.Type_ := condType;
                    metav1.Status := status;
                    metav1.ObservedGeneration := GetGeneration cs;
                    metav1.LastTransitionTime := 0;
                    metav1.Reason := reason;
                    metav1.Message := message |} |} |}).

(** [patchStatus]: the error of the status patch and the object in memory
    afterwards (the answer of the server on success). *)
Definition patchStatus (cs original : CertificateSet)
  : M (option error * CertificateSet) :=
  let* answer := StatusPatch cs original in
  match answer with
  | Err e => ret (Some e, cs)
  | Ok cs' => ret (None, cs')
  end.

(** *** The phases of the reconciliation *)

Definition reconcileCACertificates (cs : CertificateSet) : M (option error) :=
  let* err := createOrUpdateCertificate cs (buildCACertificate cs) in
  match err with
  | Some e => ret (Some (Wrapf "failed to create CA Certificate" e))
  | None =>
    if isSystemOrInfra (Environment (Spec cs)) then
      let* err := createOrUpdateCertificate cs (buildETCDCertificate cs) in
      match err with
      | Some e => ret (Some (Wrapf "failed to create ETCD Certificate" e))
      | None =>
        let* err := createOrUpdateCertificate cs (buildProxyCertificate cs) in
        match err with
        | Some e => ret (Some (Wrapf "failed to create Proxy Certificate" e))
        | None =>
          let* err := createOrUpdateCertificate cs (buildOIDCCertificate cs) in
          match err with
          | Some e => ret (Some (Wrapf "failed to create OIDC Certificate" e))
          | None => ret None
          end
        end
      end
    else ret None
  end.

Definition reconcileClientCertificates (cs : CertificateSet) : M (option error) :=
  let issuer := buildIssuer cs in
  let* err := createOrUpdateIssuer cs issuer in
  match err with
  | Some e => ret (Some (Wrapf "failed to create Issuer" e))
  | None =>
    let* err :=
      createOrUpdateCertificate cs
        (buildSuperAdminCertificate cs
           (metav1.Name (certmanagerv1.IssuerObjectMeta issuer))) in
    match err with
    | Some e => ret (Some (Wrapf "failed to create super-admin Certificate" e))
    | None => ret None
    end
  end.

(** The second half of [reconcileDerivedSecrets]: the ArgoCD cluster
    secret, behind the check of its namespace. *)
Definition reconcileArgoCDClusterSecret (cs : CertificateSet)
           (certData : CertificateData) : M (option error) :=
  if ArgocdCluster (Spec cs) then
    let* got := Get (T := corev1.Namespace) (EmptyString, ArgoCDNamespace) in
    match got with
    | Err e =>
      if IsNotFound e
      then ret (Some (Errorf ("ArgoCD namespace " +:+ dq +:+ ArgoCDNamespace
                              +:+ dq +:+ " does not exist")))
      else ret (Some (Wrapf "failed to check ArgoCD namespace" e))
    | Ok argocdNs =>
      match buildArgoCDClusterSecret cs certData with
      | Err e => ret (Some (Wrapf "failed to build ArgoCD cluster Secret" e))
      | Ok argocdSecret =>
        let* err := createOrUpdateSecret argocdSecret ["config"; "name"; "server"] in
        match err with
        | Some e => ret (Some (Wrapf "failed to create ArgoCD cluster Secret" e))
        | None => ret None
        end
      end
    end
  else ret None.

Definition reconcileDerivedSecrets (cs : CertificateSet)
           (certData : CertificateData) : M (option error) :=
  if Kubeconfig (Spec cs) then
    match buildKubeconfigSecret cs certData with
    | Err e => ret (Some (Wrapf "failed to build kubeconfig Secret" e))
    | Ok kubeconfigSecret =>
      match SetControllerReference GroupVersion cs kubeconfigSecret with
      | Err e =>
        ret (Some (Wrapf "failed to set owner reference on kubeconfig Secret" e))
      | Ok kubeconfigSecret =>
        let* err := createOrUpdateSecret kubeconfigSecret ["value"] in
        match err with
        | Some e => ret (Some (Wrapf "failed to create kubeconfig Secret" e))
        | None => reconcileArgoCDClusterSecret cs certData
        end
      end
    end
  else reconcileArgoCDClusterSecret cs certData.

(** *** Reconcile

    Besides Go's [(ctrl.Result, error)], the outcome lists the calls of
    [setCondition] made in the attempt, in order, each with the boolean it
    returned: [Reconcile] drops these booleans, the list keeps them for
    the statements below.  The body of [Reconcile] is cut at two points
    that every path through its second half passes:
    [reconcileClientCredentials] is the code from step 3 on,
    [reconcileCleanup] the code from the removal of a stale ArgoCD secret
    on, [reconcileReadiness] the code from step 6 on. *)
Record ConditionWrite := {
  condType : string;
  condStatus : metav1.ConditionStatus;
  condReason : string;
  condMessage : string;
  changed : bool
}.

Record Outcome := {
  result : ctrl.Result;
  err : option error;
  writes : list ConditionWrite
}.

(** The object in memory together with the writes made so far. *)
Definition Local := (CertificateSet * list ConditionWrite)%type.

(** [r.setCondition(cs, ...)] on the object in memory. *)
Definition set (now : Z) (l : Local) (condType : string)
           (status : metav1.ConditionStatus) (reason message : string) : Local :=
  let (ch, cs') := setCondition now (fst l) condType status reason message in
  (cs', (snd l ++ [ {| condType := condType; condStatus := status;
                       condReason := reason; condMessage := message;
                       changed := ch |} ])%list).

(** The exit of a failed phase: mark [Degraded], patch the status (a
    failure of the patch is only logged) and return the error. *)
Definition degraded (now : Z) (l : Local) (csOriginal : CertificateSet)
           (reason : string) (e : error) : M Outcome :=
  let l := set now l ConditionTypeDegraded metav1.ConditionTrue reason (Error e) in
  let* _ := patchStatus (fst l) csOriginal in
  ret {| result := ctrl.zero; err := Some e; writes := snd l |}.

(** [reconcileDelete] *)
Definition reconcileDelete (cs : CertificateSet) : M Outcome :=
  let argocdSecretName := ArgoCDClusterName cs in
  let* err := deleteSecretIfExists ArgoCDNamespace argocdSecretName in
  match err with
  | Some e => ret {| result := ctrl.zero; err := Some e; writes := [] |}
  | None =>
    let cs := RemoveFinalizer cs finalizerName in
    let* err := Update cs in
    match err with
    | Some e => ret {| result := ctrl.zero; err := Some e; writes := [] |}
    | None => ret {| result := ctrl.zero; err := None; writes := [] |}
    end
  end.

(** Step 6 and step 7 of [Reconcile]: the readiness of all resources and
    the conditions that report it. *)
Definition reconcileReadiness (now : Z) (cs csOriginal : CertificateSet)
  : M Outcome :=
  let* (allReady_notReadyReason, err) := checkAllResourcesReady cs in
  let (allReady, notReadyReason) := allReady_notReadyReason in
  match err with
  | Some e =>
    let l := (cs, []) in
    let l := set now l ConditionTypeReady metav1.ConditionFalse "CheckFailed" (Error e) in
    let l := set now l ConditionTypeDegraded metav1.ConditionTrue "Error" (Error e) in
    let* _ := patchStatus (fst l) csOriginal in
    ret {| result := ctrl.zero; err := Some e; writes := snd l |}
  | None =>
    if negb allReady then
      let l := (cs, []) in
      let l := set now l ConditionTypeReady metav1.ConditionFalse
                   "WaitingForResources" notReadyReason in
      let l := set now l ConditionTypeProgressing metav1.ConditionTrue
                   "ResourcesPending" notReadyReason in
      let l := set now l ConditionTypeDegraded metav1.ConditionFalse
                   "Healthy" "No errors" in
      let* (err, _) := patchStatus (fst l) csOriginal in
      match err with
      | Some e => ret {| result := ctrl.zero; err := Some e; writes := snd l |}
      | None =>
        ret {| result := {| ctrl.Requeue := false;
                            ctrl.RequeueAfter := defaultRequeueAfter |};
               err := None; writes := snd l |}
      end
    else
      let l := (cs, []) in
      let l := set now l ConditionTypeReady metav1.ConditionTrue
                   "AllResourcesReady" "All certificate resources created and ready" in
      let l := set now l ConditionTypeDegraded metav1.ConditionFalse
                   "Healthy" "No errors" in
      let l := set now l ConditionTypeProgressing metav1.ConditionFalse
                   "Complete" "Reconciliation complete" in
      let* (err, _) := patchStatus (fst l) csOriginal in
      match err with
      | Some e => ret {| result := ctrl.zero; err := Some e; writes := snd l |}
      | None => ret {| result := ctrl.zero; err := None; writes := snd l |}
      end
  end.

(** The removal of the ArgoCD cluster secret when [argocdCluster] is off,
    followed by the readiness steps. *)
Definition reconcileCleanup (now : Z) (cs csOriginal : CertificateSet)
  : M Outcome :=
  if negb (ArgocdCluster (Spec cs)) then
    let argocdSecretName := ArgoCDClusterName cs in
    let* err := deleteSecretIfExists ArgoCDNamespace argocdSecretName in
    match err with
    | Some e => degraded now (cs, []) csOriginal "ArgoCDCleanupFailed" e
    | None => reconcileReadiness now cs csOriginal
    end
  else reconcileReadiness now cs csOriginal.

(** Steps 3 to 5 of [Reconcile], the block under [if needsClientCerts],
    followed by the rest of the function. *)
Definition reconcileClientCredentials (now : Z) (cs csOriginal : CertificateSet)
  : M Outcome :=
  let needsClientCerts := Kubeconfig (Spec cs) || ArgocdCluster (Spec cs) in
  if needsClientCerts then
    (* Step 3 *)
    let* err := reconcileClientCertificates cs in
    match err with
    | Some e => degraded now (cs, []) csOriginal "ClientCertificatesFailed" e
    | None =>
      (* Step 4 *)
      let superAdminSecretName := SuperAdminName cs in
      let* (superAdminReady, err) :=
        isSecretReady (GetNamespace cs) superAdminSecretName in
      match err with
      | Some e => ret {| result := ctrl.zero; err := Some e; writes := [] |}
      | None =>
        if negb superAdminReady then
          ret {| result := {| ctrl.Requeue := false;
                              ctrl.RequeueAfter := defaultRequeueAfter |};
                 err := None; writes := [] |}
        else
          let* data := getCertificateData (GetNamespace cs) superAdminSecretName in
          match data with
          | Err e => ret {| result := ctrl.zero; err := Some e; writes := [] |}
          | Ok certData =>
            (* Step 5 *)
            let* err := reconcileDerivedSecrets cs certData in
            match err with
            | Some e => degraded now (cs, []) csOriginal "DerivedSecretsFailed" e
            | None => reconcileCleanup now cs csOriginal
            end
          end
      end
    end
  else reconcileCleanup now cs csOriginal.

Definition Reconcile (now : Z) (req : NamespacedName) : M Outcome :=
  let* got := Get (T := CertificateSet) req in
  match got with
  | Err e =>
    if IsNotFound e
    then ret {| result := ctrl.zero; err := None; writes := [] |}
    else ret {| result := ctrl.zero; err := Some e; writes := [] |}
  | Ok cs =>
    if negb (time.IsZero (metav1.DeletionTimestamp (ObjectMeta cs))) then
      reconcileDelete cs
    else if negb (ContainsFinalizer cs finalizerName) then
      let cs := AddFinalizer cs finalizerName in
      let* err := Update cs in
      match err with
      | Some e => ret {| result := ctrl.zero; err := Some e; writes := [] |}
      | None =>
        ret {| result := {| ctrl.Requeue := true; ctrl.RequeueAfter := 0 |};
               err := None; writes := [] |}
      end
    else
      let csOriginal := cs in
      (* Step 1 *)
      let* err := reconcileCACertificates cs in
      match err with
      | Some e => degraded now (cs, []) csOriginal "CACertificatesFailed" e
      | None =>
        (* Step 2 *)
        let* (caSecretReady, err) := isSecretReady (GetNamespace cs) (CAName cs) in
        match err with
        | Some e => ret {| result := ctrl.zero; err := Some e; writes := [] |}
        | None =>
          if negb caSecretReady then
            ret {| result := {| ctrl.Requeue := false;
                                ctrl.RequeueAfter := defaultRequeueAfter |};
                   err := None; writes := [] |}
          else reconcileClientCredentials now cs csOriginal
        end
      end
  end.

End controller.

(** * Properties *)

Import client controllerutil controller.

(** ** Example objects used to instantiate the statements *)
Module demo.

Definition objectMeta (finalizers : list string) (deletion : option Z)
  : metav1.ObjectMeta :=
  {| metav1.Name := "demo"; metav1.Namespace := "default";
     metav1.UID := "5b2c"; metav1.Generation := 1;
     metav1.DeletionTimestamp := deletion;
     metav1.Labels := {[ "team" := "platform" ]};
     metav1.Annotations := ∅;
     metav1.OwnerReferences := []; metav1.Finalizers := finalizers |}.

Definition issuerRef (name : string) : v1alpha1.IssuerReference :=
  {| v1alpha1.APIVersion := "cert-manager.io/v1";
     v1alpha1.Kind := "ClusterIssuer";
     v1alpha1.Name := name |}.

(** A CertificateSet [default/demo] of the given environment and flags. *)
Definition certificateSet (environment : string) (kubeconfig argocd : bool)
           (issuer : string) (finalizers : list string) (deletion : option Z)
           (conditions : list metav1.Condition) : v1alpha1.CertificateSet :=
  {| v1alpha1.ObjectMeta := objectMeta finalizers deletion;
     v1alpha1.Spec :=
       {| v1alpha1.ArgocdCluster := argocd;
          v1alpha1.Environment := environment;
          v1alpha1.Kubeconfig := kubeconfig;
          v1alpha1.IssuerRef := issuerRef issuer;
          v1alpha1.IssuerRefOidc := None;
          v1alpha1.KubeconfigEndpoint := "https://demo.example.com:6443" |};
     v1alpha1.Status := {| v1alpha1.Conditions := conditions |} |}.

Definition req : NamespacedName := ("default", "demo").

(** The map that stores each object of the list under its own name. *)
Definition stored {T : Type} `{Object T} (l : list T) : gmap NamespacedName T :=
  list_to_map (List.map (fun obj => (ObjectKeyFromObject obj, obj)) l).

(** A world that stores the given objects and answers every request. *)
Definition world (css : list v1alpha1.CertificateSet)
           (certs : list certmanagerv1.Certificate)
           (iss : list certmanagerv1.Issuer)
           (scrts : list corev1.Secret)
           (nss : list corev1.Namespace) : World :=
  {| certificateSets := stored css;
     certificates := stored certs;
     issuers := stored iss;
     secrets := stored scrts;
     namespaces := stored nss;
     tick := 0;
     faults := fun _ => None;
     calls := [] |}.

(** A secret of the namespace [default] with a credential bundle. *)
Definition bundle (name : string) : corev1.Secret :=
  {| corev1.ObjectMeta := metav1.newObjectMeta name "default" ∅ ∅;
     corev1.Type_ := "kubernetes.io/tls";
     corev1.Data :=
       <[ "ca.crt" := "ca" ]> (<[ "tls.crt" := "cert" ]> {[ "tls.key" := "key" ]}) |}.

(** The certificate [desired] as stored once the issuing backend has
    marked it ready. *)
Definition issued (desired : certmanagerv1.Certificate) : certmanagerv1.Certificate :=
  {| certmanagerv1.ObjectMeta := certmanagerv1.ObjectMeta desired;
     certmanagerv1.Spec := certmanagerv1.Spec desired;
     certmanagerv1.StatusConditions :=
       [ {| certmanagerv1.Type_ := "Ready"; certmanagerv1.Status := "True";
            certmanagerv1.Reason := "Ready";
            certmanagerv1.Message := "Certificate is up to date and has not expired" |} ] |}.

(** The issuing backend at work: every stored certificate becomes
    ready. *)
Definition markReady (w : World) : World :=
  {| certificateSets := certificateSets w;
     certificates := issued <$> certificates w;
     issuers := issuers w;
     secrets := secrets w;
     namespaces := namespaces w;
     tick := tick w;
     faults := faults w;
     calls := calls w |}.

(** The same world, in which the request of tick [n] fails. *)
Definition failing (n : nat) (w : World) : World :=
  {| certificateSets := certificateSets w;
     certificates := certificates w;
     issuers := issuers w;
     secrets := secrets w;
     namespaces := namespaces w;
     tick := tick w;
     faults := fun t => if (t =? n)%nat then Some "context deadline exceeded" else None;
     calls := calls w |}.

(** The world after an edit of the parent: [cs] takes the place of the
    stored CertificateSet of its name. *)
Definition replaceSet (cs : v1alpha1.CertificateSet) (w : World) : World :=
  {| certificateSets := <[ ObjectKeyFromObject cs := cs ]> (certificateSets w);
     certificates := certificates w;
     issuers := issuers w;
     secrets := secrets w;
     namespaces := namespaces w;
     tick := tick w;
     faults := faults w;
     calls := calls w |}.

(** A converged world, reached as a cluster reaches it: a first attempt
    creates the CA certificate, the issuing backend marks it ready, a
    second attempt records [Ready].  The log of calls starts afresh. *)
Definition convergedWorld : World :=
  Eval vm_compute in
    (let cs := certificateSet "client" false false "selfsigned"
                              [finalizerName] None [] in
     let first := snd (Reconcile 100 req (world [cs] [] [] [bundle "demo-ca"] [])) in
     let second := snd (Reconcile 200 req (markReady first)) in
     {| certificateSets := certificateSets second;
        certificates := certificates second;
        issuers := issuers second;
        secrets := secrets second;
        namespaces := namespaces second;
        tick := 0;
        faults := fun _ => None;
        calls := [] |}).

(** The CertificateSet stored in the converged world. *)
Definition convergedSet : v1alpha1.CertificateSet :=
  Eval vm_compute in
    (default (certificateSet "client" false false "selfsigned" [] None [])
             (certificateSets convergedWorld !! req)).

End demo.

(** ** Notions used in the statements *)

(** The test of [setCondition] on the condition found. *)
Definition matches (cs : v1alpha1.CertificateSet) (st rs msg : string) (c : metav1.Condition) : Prop :=
  metav1.Status c = st /\ metav1.Reason c = rs /\ metav1.Message c = msg
  /\ metav1.ObservedGeneration c = v1alpha1.GetGeneration cs.


(** [isWrite]: the requests that may change the store. *)
Definition isWrite (c : Call) : Prop := verb c <> VGet.

(** The store [proj] of the objects of kind [k] differs between [w] and
    [w'] at most at the keys written by the calls [l]. *)
Definition untouched {T : Type} (proj : World -> gmap NamespacedName T)
           (k : string) (l : list Call) (w w' : World) : Prop :=
  forall n : NamespacedName,
    (forall c, In c l -> isWrite c -> kind c = k -> key c <> n) ->
    proj w' !! n = proj w !! n.

(** Every object of the map is stored under its own namespace and name. *)
Definition keyed {T : Type} `{Object T} (m : gmap NamespacedName T) : Prop :=
  forall n obj, m !! n = Some obj -> ObjectKeyFromObject obj = n.

(** A well-formed world: all its stores are keyed by the objects' names,
    as the stores of an API server are. *)
Record wf (w : World) : Prop := {
  wf_certificateSets : keyed (certificateSets w);
  wf_certificates : keyed (certificates w);
  wf_issuers : keyed (issuers w);
  wf_secrets : keyed (secrets w);
  wf_namespaces : keyed (namespaces w)
}.

(** [run l w w']: the world [w'] comes from [w] by the calls [l]: they
    are logged in order, each takes a tick, the stores change only where a
    call has written, and they stay well-formed. *)
Record run (l : list Call) (w w' : World) : Prop := {
  run_wf : wf w -> wf w';
  run_faults : faults w' = faults w;
  run_calls : calls w' = (calls w ++ l)%list;
  run_tick : tick w' = (tick w + length l)%nat;
  run_certificateSets : untouched certificateSets "CertificateSet" l w w';
  run_certificates : untouched certificates "Certificate" l w w';
  run_issuers : untouched issuers "Issuer" l w w';
  run_secrets : untouched secrets "Secret" l w w';
  run_namespaces : untouched namespaces "Namespace" l w w'
}.

(** [emits P m]: from a well-formed world, every run of [m] makes only
    calls that satisfy [P]. *)
Definition emits {A : Type} (P : Call -> Prop) (m : M A) : Prop :=
  forall w a w', wf w -> m w = (a, w') -> exists l, run l w w' /\ Forall P l.

(** What the instances of [Object] have in common: a request leaves the
    store alone, and [setObjects] changes nothing but the store of the
    kind, where the new map differs from the old one. *)
Record Lawful (T : Type) `{Object T} : Prop := {
  law_keyed : forall w, wf w -> keyed (objects (T := T) w);
  law_wf : forall (m : gmap NamespacedName T) w, wf w -> keyed m -> wf (setObjects m w);
  law_request : forall v k n w, objects (T := T) (snd (request v k n w)) = objects w;
  law_faults : forall (m : gmap NamespacedName T) w, faults (setObjects m w) = faults w;
  law_calls : forall (m : gmap NamespacedName T) w, calls (setObjects m w) = calls w;
  law_tick : forall (m : gmap NamespacedName T) w, tick (setObjects m w) = tick w;
  law_objects : forall (m : gmap NamespacedName T) w, objects (setObjects m w) = m;
  law_stores : forall (m : gmap NamespacedName T) w c,
      isWrite c -> kind c = KindOf (T := T) ->
      (forall n, n <> key c -> m !! n = objects w !! n) ->
      untouched certificateSets "CertificateSet" [c] w (setObjects m w)
      /\ untouched certificates "Certificate" [c] w (setObjects m w)
      /\ untouched issuers "Issuer" [c] w (setObjects m w)
      /\ untouched secrets "Secret" [c] w (setObjects m w)
      /\ untouched namespaces "Namespace" [c] w (setObjects m w)
}.

(** The call of verb [v] on the object [n] of kind [T]. *)
Definition theCall {T : Type} `{Object T} (v : Verb) (n : NamespacedName) : Call :=
  {| verb := v; kind := KindOf (T := T); key := n |}.

(** A call on the object [n] of kind [k]. *)
Definition onObject (k : string) (n : NamespacedName) (c : Call) : Prop :=
  kind c = k /\ key c = n.

(** The calls of the derived-secrets phase. *)
Definition derivedCall (cs : v1alpha1.CertificateSet) (c : Call) : Prop :=
  onObject "Secret" (v1alpha1.GetNamespace cs, KubeconfigName cs) c
  \/ (verb c = VGet /\ kind c = "Namespace")
  \/ onObject "Secret" (ArgoCDNamespace, ArgoCDClusterName cs) c.


(** A resource reports a condition of type [Ready] with status [True]. *)
Definition reportsReady (conditions : list certmanagerv1.Condition) : Prop :=
  exists cond, In cond conditions
               /\ certmanagerv1.Type_ cond = "Ready"
               /\ certmanagerv1.Status cond = "True".

(** The secret holds the three fields of a credential bundle. *)
Definition hasBundle (secret : corev1.Secret) : Prop :=
  is_Some (corev1.Data secret !! "ca.crt")
  /\ is_Some (corev1.Data secret !! "tls.crt")
  /\ is_Some (corev1.Data secret !! "tls.key").

(** [reach Q w w']: [w'] comes from [w] by calls that all satisfy [Q]. *)
Definition reach (Q : Call -> Prop) (w w' : World) : Prop :=
  exists l, run l w w' /\ Forall Q l.

(** The attempt reads the object [cs], which is not being deleted and
    carries the cleanup finalizer; [w1] is the world after the read. *)
Definition fetched (req : NamespacedName) (w : World)
           (cs : v1alpha1.CertificateSet) (w1 : World) : Prop :=
  Get req w = (Ok cs, w1)
  /\ time.IsZero (metav1.DeletionTimestamp (v1alpha1.ObjectMeta cs)) = true
  /\ ContainsFinalizer cs finalizerName = true.

(** Steps 1 and 2 succeed: the CA certificates are in place and the CA
    secret holds its bundle. *)
Definition passesGateA (cs : v1alpha1.CertificateSet) (w1 w3 : World) : Prop :=
  exists w2,
    reconcileCACertificates cs w1 = (None, w2)
    /\ isSecretReady (v1alpha1.GetNamespace cs) (CAName cs) w2 = ((true, None), w3).

Definition needsClientCerts (cs : v1alpha1.CertificateSet) : bool :=
  v1alpha1.Kubeconfig (v1alpha1.Spec cs) || v1alpha1.ArgocdCluster (v1alpha1.Spec cs).

(** Steps 3 and 4 succeed: Issuer and super-admin certificate are in place,
    the super-admin secret holds its bundle and [certData] was read from
    it. *)
Definition passesGateB (cs : v1alpha1.CertificateSet) (w3 : World)
           (certData : CertificateData) (w6 : World) : Prop :=
  exists w4 w5,
    reconcileClientCertificates cs w3 = (None, w4)
    /\ isSecretReady (v1alpha1.GetNamespace cs) (SuperAdminName cs) w4
       = ((true, None), w5)
    /\ getCertificateData (v1alpha1.GetNamespace cs) (SuperAdminName cs) w5
       = (Ok certData, w6).

(** The attempt on [cs] gets as far as step 6 in the world [w8]: every
    phase before it has succeeded. *)
Definition reachesReadiness (req : NamespacedName) (w : World)
           (cs : v1alpha1.CertificateSet) (w8 : World) : Prop :=
  exists w1 w3 w7,
    fetched req w cs w1
    /\ passesGateA cs w1 w3
    /\ (if needsClientCerts cs
        then exists certData w6,
            passesGateB cs w3 certData w6
            /\ reconcileDerivedSecrets cs certData w6 = (None, w7)
        else w7 = w3)
    /\ (if v1alpha1.ArgocdCluster (v1alpha1.Spec cs)
        then w8 = w7
        else deleteSecretIfExists ArgoCDNamespace (ArgoCDClusterName cs) w7
             = (None, w8)).

(** The calls of steps 1 to 4: reads, and writes of certificates and
    issuers. *)
Definition certificateCall (c : Call) : Prop :=
  verb c = VGet \/ kind c = "Certificate" \/ kind c = "Issuer".

(** The calls of the phases before step 6: reads, and writes of
    certificates, issuers and secrets. *)
Definition childCall (c : Call) : Prop :=
  verb c = VGet \/ kind c = "Certificate" \/ kind c = "Issuer" \/ kind c = "Secret".

(** The call is no write of a CertificateSet: neither an update nor a
    status patch. *)
Definition leavesParent (c : Call) : Prop :=
  isWrite c -> kind c <> "CertificateSet".

(** The certificate [name] of [namespace] is stored and reports a condition
    of type [Ready] with status [True]. *)
Definition certificateReady (w : World) (namespace name : string) : Prop :=
  exists cert, certificates w !! (namespace, name) = Some cert
               /\ reportsReady (certmanagerv1.StatusConditions cert).

Definition issuerReady (w : World) (namespace name : string) : Prop :=
  exists issuer, issuers w !! (namespace, name) = Some issuer
                 /\ reportsReady (certmanagerv1.IssuerStatusConditions issuer).

(** The read of the certificate [name] by the readiness check. *)
Definition readCertificate (namespace name : string) : Call :=
  {| verb := VGet; kind := "Certificate"; key := (namespace, name) |}.

Definition readIssuer (namespace name : string) : Call :=
  {| verb := VGet; kind := "Issuer"; key := (namespace, name) |}.

(** A call of [setCondition] that sets [Ready] to true. *)
Definition setsReadyTrue (wr : ConditionWrite) : Prop :=
  condType wr = ConditionTypeReady /\ condStatus wr = metav1.ConditionTrue.

(** The object has a condition of the given type with these values,
    recorded against its current generation. *)
Definition hasCondition (cs : v1alpha1.CertificateSet)
           (condType status reason message : string) : Prop :=
  exists c, meta.FindStatusCondition (v1alpha1.Conditions (v1alpha1.Status cs)) condType
            = Some c
            /\ matches cs status reason message c.

(** A converged object: it carries the three conditions of a complete
    reconciliation, recorded against its current generation. *)
Definition converged (cs : v1alpha1.CertificateSet) : Prop :=
  hasCondition cs ConditionTypeReady metav1.ConditionTrue "AllResourcesReady"
               "All certificate resources created and ready"
  /\ hasCondition cs ConditionTypeDegraded metav1.ConditionFalse "Healthy" "No errors"
  /\ hasCondition cs ConditionTypeProgressing metav1.ConditionFalse "Complete"
                  "Reconciliation complete".

(** The three calls of [setCondition] at the end of a complete
    reconciliation, each with the boolean it returned. *)
Definition terminalWrites (ready degraded progressing : bool) : list ConditionWrite :=
  [ {| condType := ConditionTypeReady; condStatus := metav1.ConditionTrue;
       condReason := "AllResourcesReady";
       condMessage := "All certificate resources created and ready";
       changed := ready |};
    {| condType := ConditionTypeDegraded; condStatus := metav1.ConditionFalse;
       condReason := "Healthy"; condMessage := "No errors";
       changed := degraded |};
    {| condType := ConditionTypeProgressing; condStatus := metav1.ConditionFalse;
       condReason := "Complete"; condMessage := "Reconciliation complete";
       changed := progressing |} ].

(** The call writes no certificate under the name [n]: it is a read, a
    request on an object of another kind, or a request on a certificate of
    another name. *)
Definition sparesCertificate (n : NamespacedName) (c : Call) : Prop :=
  isWrite c -> kind c = "Certificate" -> key c <> n.
(** * Further notions and example objects *)

(** The names of all the children of a CertificateSet, by [names.go]. *)
Definition childNames (cs : v1alpha1.CertificateSet) : list string :=
  [ CAName cs; SuperAdminName cs; ETCDName cs; ProxyName cs; CAOIDCName cs;
    KubeconfigName cs; ArgoCDClusterName cs ].

(** The owner reference that [SetControllerReference] writes for the
    parent [cs]. *)
Definition controllerReference (cs : v1alpha1.CertificateSet) : metav1.OwnerReference :=
  {| metav1.OwnerAPIVersion := GroupVersion;
     metav1.OwnerKind := "CertificateSet";
     metav1.OwnerName := v1alpha1.GetName cs;
     metav1.OwnerUID := metav1.UID (v1alpha1.ObjectMeta cs);
     metav1.Controller := true;
     metav1.BlockOwnerDeletion := true |}.

(** The object is controlled by [cs]: the first owner reference marked as
    controller is the reference to [cs]. *)
Definition controlledBy (cs : v1alpha1.CertificateSet) (m : metav1.ObjectMeta) : Prop :=
  GetControllerOf (metav1.OwnerReferences m) = Some (controllerReference cs).

Module sample.

(** A kubeconfig secret left by an earlier attempt, with a key of its
    own besides. *)
Definition staleKubeconfig : corev1.Secret :=
  {| corev1.ObjectMeta :=
       metav1.newObjectMeta "demo-kubeconfig" "default" {[ "owner" := "ops" ]} ∅;
     corev1.Type_ := corev1.SecretTypeOpaque;
     corev1.Data := <[ "value" := "old" ]> {[ "note" := "keep" ]} |}.

(** The kubeconfig secret an attempt wants to see. *)
Definition freshKubeconfig : corev1.Secret :=
  {| corev1.ObjectMeta :=
       metav1.newObjectMeta "demo-kubeconfig" "default" {[ "team" := "platform" ]} ∅;
     corev1.Type_ := corev1.SecretTypeOpaque;
     corev1.Data := {[ "value" := "new" ]} |}.

(** The parent [default/demo] in the environment [client], with the
    cleanup finalizer, signed by the issuer of the given name. *)
Definition parent (issuer : string) : v1alpha1.CertificateSet :=
  demo.certificateSet "client" false false issuer [finalizerName] None [].

(** A controller reference to a CertificateSet of another name. *)
Definition foreignReference : metav1.OwnerReference :=
  {| metav1.OwnerAPIVersion := GroupVersion;
     metav1.OwnerKind := "CertificateSet";
     metav1.OwnerName := "other";
     metav1.OwnerUID := "77aa";
     metav1.Controller := true;
     metav1.BlockOwnerDeletion := true |}.

(** The certificate [default/demo-ca] under the control of that other
    CertificateSet. *)
Definition foreignCertificate : certmanagerv1.Certificate :=
  {| certmanagerv1.ObjectMeta :=
       metav1.withOwnerReferences
         (metav1.newObjectMeta "demo-ca" "default" ∅ ∅) [foreignReference];
     certmanagerv1.Spec := certmanagerv1.Spec (buildCACertificate (parent "selfsigned"));
     certmanagerv1.StatusConditions := [] |}.

End sample.

(** ** The outcomes of an attempt *)

(** Every outcome of [m] satisfies [P], whatever the world. *)
Definition always {A : Type} (P : A -> Prop) (m : M A) : Prop :=
  forall w, P (fst (m w)).

(** What the attempt has said through [setCondition], in order: type,
    status, reason and message of each call. *)
Definition said (o : Outcome) : list (string * string * string * string) :=
  List.map (fun wr => (condType wr, condStatus wr, condReason wr, condMessage wr))
           (writes o).

(** [ctrl.Result{Requeue: true}] and
    [ctrl.Result{RequeueAfter: defaultRequeueAfter}]. *)
Definition requeueNow : ctrl.Result :=
  {| ctrl.Requeue := true; ctrl.RequeueAfter := 0 |}.
Definition requeueLater : ctrl.Result :=
  {| ctrl.Requeue := false; ctrl.RequeueAfter := defaultRequeueAfter |}.

(** The reasons under which a failed phase is reported. *)
Definition phaseReasons : list string :=
  [ "CACertificatesFailed"; "ClientCertificatesFailed"; "DerivedSecretsFailed";
    "ArgoCDCleanupFailed" ].

(** The shapes an outcome of [Reconcile] can have. *)
Inductive outcomeShape (o : Outcome) : Prop :=
| shape_quiet :
    (* nothing to report: the object is gone or released, the finalizer
       was attached, or a secret is awaited *)
    said o = [] -> err o = None ->
    result o = ctrl.zero \/ result o = requeueNow \/ result o = requeueLater ->
    outcomeShape o
| shape_error (e : error) :
    (* a request outside the phases failed *)
    said o = [] -> err o = Some e -> result o = ctrl.zero -> outcomeShape o
| shape_degraded (e : error) (reason : string) :
    (* a phase failed *)
    In reason phaseReasons ->
    said o = [ (ConditionTypeDegraded, metav1.ConditionTrue, reason, Error e) ] ->
    err o = Some e -> result o = ctrl.zero -> outcomeShape o
| shape_check_failed (e : error) :
    (* the readiness check failed *)
    said o = [ (ConditionTypeReady, metav1.ConditionFalse, "CheckFailed", Error e);
               (ConditionTypeDegraded, metav1.ConditionTrue, "Error", Error e) ] ->
    err o = Some e -> result o = ctrl.zero -> outcomeShape o
| shape_waiting (notReadyReason : string) :
    (* a resource is not ready *)
    said o = [ (ConditionTypeReady, metav1.ConditionFalse, "WaitingForResources",
                notReadyReason);
               (ConditionTypeProgressing, metav1.ConditionTrue, "ResourcesPending",
                notReadyReason);
               (ConditionTypeDegraded, metav1.ConditionFalse, "Healthy", "No errors") ] ->
    (err o = None /\ result o = requeueLater)
    \/ (err o <> None /\ result o = ctrl.zero) ->
    outcomeShape o
| shape_ready :
    (* all resources are ready *)
    said o = [ (ConditionTypeReady, metav1.ConditionTrue, "AllResourcesReady",
                "All certificate resources created and ready");
               (ConditionTypeDegraded, metav1.ConditionFalse, "Healthy", "No errors");
               (ConditionTypeProgressing, metav1.ConditionFalse, "Complete",
                "Reconciliation complete") ] ->
    result o = ctrl.zero -> outcomeShape o.

(** ** The requests of an attempt *)

(** A request of one of the [verbs] on the object [n] of kind [k]. *)
Definition writeTo (verbs : list Verb) (k : string) (n : NamespacedName) (c : Call) : Prop :=
  In (verb c) verbs /\ kind c = k /\ key c = n.

(** The parent is not being deleted. *)
Definition live (cs : v1alpha1.CertificateSet) : Prop :=
  time.IsZero (metav1.DeletionTimestamp (v1alpha1.ObjectMeta cs)) = true.

(** The requests that an attempt on the parent [cs] may make: reads; for a
    live parent, the creation or update of the certificates listed by
    [AllCertificateNames], of the issuer and of the two derived secrets,
    each only when the spec asks for it; the removal of the ArgoCD cluster
    secret, when the parent is being deleted or asks for no such secret;
    the update and the status patch of the parent itself. *)
Definition attemptCall (cs : v1alpha1.CertificateSet) (c : Call) : Prop :=
  let namespace := v1alpha1.GetNamespace cs in
  verb c = VGet
  \/ (live cs /\ exists name, In name (AllCertificateNames cs)
                              /\ writeTo [VCreate; VUpdate] "Certificate" (namespace, name) c)
  \/ (live cs /\ needsClientCerts cs = true
      /\ writeTo [VCreate; VUpdate] "Issuer" (namespace, CAName cs) c)
  \/ (live cs /\ v1alpha1.Kubeconfig (v1alpha1.Spec cs) = true
      /\ writeTo [VCreate; VUpdate] "Secret" (namespace, KubeconfigName cs) c)
  \/ (live cs /\ v1alpha1.ArgocdCluster (v1alpha1.Spec cs) = true
      /\ writeTo [VCreate; VUpdate] "Secret" (ArgoCDNamespace, ArgoCDClusterName cs) c)
  \/ ((~ live cs \/ v1alpha1.ArgocdCluster (v1alpha1.Spec cs) = false)
      /\ writeTo [VDelete] "Secret" (ArgoCDNamespace, ArgoCDClusterName cs) c)
  \/ writeTo [VUpdate; VStatusPatch] "CertificateSet" (ObjectKeyFromObject cs) c.

(** ** The children an attempt wants to see *)

(** The certificates of the first phase, as [reconcileCACertificates]
    builds them, and all the certificates of an attempt, in the order of
    [AllCertificateNames]. *)
Definition caCertificates (cs : v1alpha1.CertificateSet) : list certmanagerv1.Certificate :=
  buildCACertificate cs
  :: (if isSystemOrInfra (v1alpha1.Environment (v1alpha1.Spec cs))
      then [buildETCDCertificate cs; buildProxyCertificate cs; buildOIDCCertificate cs]
      else []).

Definition desiredCertificates (cs : v1alpha1.CertificateSet)
  : list certmanagerv1.Certificate :=
  (caCertificates cs
   ++ (if needsClientCerts cs then [buildSuperAdminCertificate cs (CAName cs)] else []))%list.

(** The certificate wanted is in place: the stored certificate of its name
    is one on which the mutate function of [createOrUpdateCertificate]
    finds nothing to change. *)
Definition certificateInPlace (cs : v1alpha1.CertificateSet) (w : World)
           (desired : certmanagerv1.Certificate) : Prop :=
  exists stored,
    certificates w !! ObjectKeyFromObject desired = Some stored
    /\ mutateCertificate cs desired stored = Ok stored.

Definition issuerInPlace (cs : v1alpha1.CertificateSet) (w : World)
           (desired : certmanagerv1.Issuer) : Prop :=
  exists stored,
    issuers w !! ObjectKeyFromObject desired = Some stored
    /\ mutateIssuer cs desired stored = Ok stored.

(** The secret wanted is in place: the stored secret of its name agrees
    with it on the managed keys. *)
Definition secretInPlace (w : World) (desired : corev1.Secret)
           (managedKeys : list string) : Prop :=
  exists stored,
    secrets w !! ObjectKeyFromObject desired = Some stored
    /\ forall k, In k managedKeys ->
                 corev1.Data stored !! k = corev1.Data desired !! k.

(** The kubeconfig secret and the ArgoCD cluster secret as
    [reconcileDerivedSecrets] hands them to [createOrUpdateSecret]. *)
Definition desiredKubeconfigSecret (cs : v1alpha1.CertificateSet)
           (certData : CertificateData) : res corev1.Secret :=
  match buildKubeconfigSecret cs certData with
  | Err e => Err e
  | Ok secret => SetControllerReference GroupVersion cs secret
  end.

(** The credentials that [getCertificateData] reads from a secret. *)
Definition credentialsOf (secret : corev1.Secret) : CertificateData :=
  {| CACert := base64.EncodeToString (dataOf (corev1.Data secret) "ca.crt");
     TLSCert := base64.EncodeToString (dataOf (corev1.Data secret) "tls.crt");
     TLSKey := base64.EncodeToString (dataOf (corev1.Data secret) "tls.key") |}.

(** [w'] comes from [w] by reads alone. *)
Definition onlyReads (w w' : World) : Prop := reach (fun c => verb c = VGet) w w'.

(** No request fails from [w] on. *)
Definition faultless (w : World) : Prop := forall t, faults w t = None.

(** Everything that the spec of [cs] asks for is in place in [w]: the
    certificates; the CA secret with its bundle; when client certificates
    are needed, the issuer, the super-admin secret with its bundle and the
    derived secrets made from the credentials of that secret; and no
    ArgoCD cluster secret when the spec asks for none. *)
Record inPlace (cs : v1alpha1.CertificateSet) (w : World) : Prop := {
  inPlace_certificates :
    Forall (certificateInPlace cs w) (desiredCertificates cs);
  inPlace_caSecret :
    exists ca, secrets w !! (v1alpha1.GetNamespace cs, CAName cs) = Some ca
               /\ hasBundle ca;
  inPlace_client :
    needsClientCerts cs = true ->
    issuerInPlace cs w (buildIssuer cs)
    /\ exists superAdmin,
        secrets w !! (v1alpha1.GetNamespace cs, SuperAdminName cs) = Some superAdmin
        /\ hasBundle superAdmin
        /\ (v1alpha1.Kubeconfig (v1alpha1.Spec cs) = true ->
            exists secret,
              desiredKubeconfigSecret cs (credentialsOf superAdmin) = Ok secret
              /\ secretInPlace w secret ["value"])
        /\ (v1alpha1.ArgocdCluster (v1alpha1.Spec cs) = true ->
            is_Some (namespaces w !! (EmptyString, ArgoCDNamespace))
            /\ exists secret,
                buildArgoCDClusterSecret cs (credentialsOf superAdmin) = Ok secret
                /\ secretInPlace w secret ["config"; "name"; "server"]);
  inPlace_cleanup :
    v1alpha1.ArgocdCluster (v1alpha1.Spec cs) = false ->
    secrets w !! (ArgoCDNamespace, ArgoCDClusterName cs) = None
}.

(** Every resource that [checkAllResourcesReady] looks at passes its
    test: the first condition of type [Ready] is true. *)
Definition allReady (cs : v1alpha1.CertificateSet) (w : World) : Prop :=
  (forall name, In name (AllCertificateNames cs) ->
                exists cert,
                  certificates w !! (v1alpha1.GetNamespace cs, name) = Some cert
                  /\ conditionIsTrue certmanagerv1.CertificateConditionReady
                                     (certmanagerv1.StatusConditions cert) = true)
  /\ (needsClientCerts cs = true ->
      exists issuer,
        issuers w !! (v1alpha1.GetNamespace cs, CAName cs) = Some issuer
        /\ conditionIsTrue certmanagerv1.IssuerConditionReady
                           (certmanagerv1.IssuerStatusConditions issuer) = true).

(** The stores of two worlds agree. *)
Definition sameStores (w w' : World) : Prop :=
  certificateSets w' = certificateSets w
  /\ certificates w' = certificates w
  /\ issuers w' = issuers w
  /\ secrets w' = secrets w
  /\ namespaces w' = namespaces w.
(** ** Runs of the client: the log of calls and the frame of the stores *)

Section Runs.

Lemma untouched_refl {T} (proj : World -> gmap NamespacedName T) k w :
  untouched proj k [] w w.
Proof. intros n _. reflexivity. Qed.

Lemma untouched_trans {T} (proj : World -> gmap NamespacedName T) k l1 l2 w w1 w2 :
  untouched proj k l1 w w1 -> untouched proj k l2 w1 w2 ->
  untouched proj k (l1 ++ l2) w w2.
Proof.
  intros H1 H2 n Hn. rewrite H2, H1; [reflexivity| |];
    intros c Hc; apply Hn; apply in_or_app; auto.
Qed.

Lemma run_refl w : run [] w w.
Proof.
  constructor; try apply untouched_refl; try reflexivity.
  - trivial.
  - symmetry. apply app_nil_r.
  - simpl. lia.
Qed.

Lemma run_trans l1 l2 w w1 w2 :
  run l1 w w1 -> run l2 w1 w2 -> run (l1 ++ l2) w w2.
Proof.
  intros [] []. constructor; try (eapply untouched_trans; eassumption).
  - auto.
  - congruence.
  - rewrite run_calls1, run_calls0. symmetry. apply app_assoc.
  - rewrite length_app. lia.
Qed.

(** A store of a kind that no call of [l] writes is left as it was. *)
Lemma untouched_eq {T} (proj : World -> gmap NamespacedName T) k l w w' :
  untouched proj k l w w' ->
  Forall (fun c => isWrite c -> kind c <> k) l ->
  proj w' = proj w.
Proof.
  intros Hu Hf. apply map_eq. intros n. apply Hu.
  intros c Hin Hw Hk. rewrite List.Forall_forall in Hf.
  exfalso. apply (Hf c); auto.
Qed.

Lemma emits_ret {A} (P : Call -> Prop) (a : A) : emits P (ret a).
Proof.
  intros w a' w' _ [= <- <-]. exists []. split; [apply run_refl | constructor].
Qed.

(** The rule of sequence; [Q] is what is known of the first result. *)
Lemma emits_bind_post {A B} (Q : A -> Prop) (P : Call -> Prop)
      (m : M A) (k : A -> M B) :
  (forall w a w', wf w -> m w = (a, w') -> Q a) ->
  emits P m -> (forall a, Q a -> emits P (k a)) -> emits P (bind m k).
Proof.
  intros HQ Hm Hk w b w' Hwf. unfold bind.
  destruct (m w) as [a w1] eqn:E. intros Hb.
  destruct (Hm _ _ _ Hwf E) as (l1 & R1 & F1).
  destruct (Hk a (HQ _ _ _ Hwf E) _ _ _ (run_wf _ _ _ R1 Hwf) Hb) as (l2 & R2 & F2).
  exists (l1 ++ l2)%list. split; [eapply run_trans; eassumption|].
  apply List.Forall_app; auto.
Qed.

Lemma emits_bind {A B} (P : Call -> Prop) (m : M A) (k : A -> M B) :
  emits P m -> (forall a, emits P (k a)) -> emits P (bind m k).
Proof.
  intros Hm Hk. apply (emits_bind_post (fun _ => True)); auto.
Qed.

Lemma emits_weaken {A} (P Q : Call -> Prop) (m : M A) :
  emits P m -> (forall c, P c -> Q c) -> emits Q m.
Proof.
  intros Hm HPQ w a w' Hwf E. destruct (Hm _ _ _ Hwf E) as (l & R & F).
  exists l. split; [exact R|]. eapply List.Forall_impl; eassumption.
Qed.

Lemma request_run v k n w :
  run [ {| verb := v; kind := k; key := n |} ] w (snd (request v k n w)).
Proof.
  constructor; simpl; try reflexivity; try lia; try (intros ? _; reflexivity).
  intros []. constructor; assumption.
Qed.

Ltac lawful :=
  constructor; try reflexivity;
  [ intros w []; assumption
  | intros m w [] Hm; constructor; assumption
  | intros m w c Hw Hk Hm; repeat split; intros n Hn; simpl; try reflexivity;
    destruct (decide (n = key c)) as [->|Hne]; [|rewrite Hm; auto];
    exfalso; apply (Hn c); simpl; auto ].

Lemma Lawful_CertificateSet : Lawful v1alpha1.CertificateSet.
Proof. lawful. Qed.
Lemma Lawful_Certificate : Lawful certmanagerv1.Certificate.
Proof. lawful. Qed.
Lemma Lawful_Issuer : Lawful certmanagerv1.Issuer.
Proof. lawful. Qed.
Lemma Lawful_Secret : Lawful corev1.Secret.
Proof. lawful. Qed.
Lemma Lawful_Namespace : Lawful corev1.Namespace.
Proof. lawful. Qed.

End Runs.

Section Requests.
Context {T : Type} `{Object T} (L : Lawful T).

Lemma write_run (m : gmap NamespacedName T) v n w :
  v <> VGet ->
  (forall n', n' <> n -> m !! n' = objects w !! n') ->
  (wf w -> keyed m) ->
  run [theCall v n] w (setObjects m (snd (request v KindOf n w))).
Proof.
  intros Hv Hm Hkeyed. set (w1 := snd (request v KindOf n w)).
  assert (Hm1 : forall n', n' <> key (theCall v n) -> m !! n' = objects w1 !! n').
  { intros n' Hn'. unfold w1. rewrite (law_request T L). auto. }
  destruct (law_stores T L m w1 (theCall v n) Hv eq_refl Hm1)
    as (H1 & H2 & H3 & H4 & H5).
  constructor.
  - intros Hwf. apply (law_wf T L); [|auto].
    apply (run_wf _ _ _ (request_run v KindOf n w)). exact Hwf.
  - rewrite (law_faults T L). reflexivity.
  - rewrite (law_calls T L). reflexivity.
  - rewrite (law_tick T L). simpl. lia.
  - exact H1.
  - exact H2.
  - exact H3.
  - exact H4.
  - exact H5.
Qed.

(** What [Get] answers is stored under the key asked for. *)
Lemma Get_Ok_key n w obj w' :
  wf w -> Get (T := T) n w = (Ok obj, w') -> ObjectKeyFromObject obj = n.
Proof.
  intros Hwf. unfold Get, bind.
  destruct (request VGet KindOf n w) as [f w1] eqn:E.
  assert (Hw1 : w1 = snd (request VGet KindOf n w)) by (rewrite E; reflexivity).
  destruct f; [discriminate|].
  destruct (objects w1 !! n) as [o|] eqn:El; [|discriminate].
  intros [= <- _]. rewrite Hw1, (law_request T L) in El.
  exact (law_keyed T L w Hwf _ _ El).
Qed.

Lemma emits_Get n : emits (fun c => c = theCall VGet n) (Get (T := T) n).
Proof.
  intros w r w' _. unfold Get, bind.
  destruct (request VGet KindOf n w) as [f w1] eqn:E.
  assert (Hw1 : w1 = snd (request VGet KindOf n w)) by (rewrite E; reflexivity).
  intros Hr. assert (w' = w1) as ->.
  { destruct f; [|destruct (objects w1 !! n)]; congruence. }
  exists [theCall VGet n]. split; [|repeat constructor].
  rewrite Hw1. apply request_run.
Qed.

Lemma keyed_insert (m : gmap NamespacedName T) obj :
  keyed m -> keyed (<[ObjectKeyFromObject obj := obj]> m).
Proof.
  intros Hm n o. rewrite lookup_insert. case_decide.
  - intros [= <-]. congruence.
  - apply Hm.
Qed.

Lemma keyed_delete (m : gmap NamespacedName T) n :
  keyed m -> keyed (delete n m).
Proof.
  intros Hm n' o. rewrite lookup_delete. case_decide; [discriminate|apply Hm].
Qed.

Lemma emits_Create obj :
  emits (fun c => c = theCall VCreate (ObjectKeyFromObject obj)) (Create obj).
Proof.
  intros w r w' _. unfold Create, bind.
  destruct (request VCreate KindOf (ObjectKeyFromObject obj) w) as [f w1] eqn:E.
  assert (Hw1 : w1 = snd (request VCreate KindOf (ObjectKeyFromObject obj) w))
    by (rewrite E; reflexivity).
  intros Hr. exists [theCall VCreate (ObjectKeyFromObject obj)].
  split; [|repeat constructor].
  destruct f; [|destruct (objects w1 !! ObjectKeyFromObject obj) eqn:El];
    injection Hr as <- <-; rewrite Hw1; try apply request_run.
  apply write_run; [discriminate| |].
  - intros n' Hn'. rewrite (law_request T L). apply lookup_insert_ne. congruence.
  - intros Hwf. apply keyed_insert. rewrite (law_request T L).
    apply (law_keyed T L). exact Hwf.
Qed.

Lemma emits_Update obj :
  emits (fun c => c = theCall VUpdate (ObjectKeyFromObject obj)) (Update obj).
Proof.
  intros w r w' _. unfold Update, bind.
  destruct (request VUpdate KindOf (ObjectKeyFromObject obj) w) as [f w1] eqn:E.
  assert (Hw1 : w1 = snd (request VUpdate KindOf (ObjectKeyFromObject obj) w))
    by (rewrite E; reflexivity).
  intros Hr. exists [theCall VUpdate (ObjectKeyFromObject obj)].
  split; [|repeat constructor].
  destruct f; [|destruct (objects w1 !! ObjectKeyFromObject obj) eqn:El];
    injection Hr as <- <-; rewrite Hw1; try apply request_run.
  apply write_run; [discriminate| |].
  - intros n' Hn'. rewrite (law_request T L). apply lookup_insert_ne. congruence.
  - intros Hwf. apply keyed_insert. rewrite (law_request T L).
    apply (law_keyed T L). exact Hwf.
Qed.

Lemma emits_Delete obj :
  emits (fun c => c = theCall VDelete (ObjectKeyFromObject obj)) (Delete obj).
Proof.
  intros w r w' _. unfold Delete, bind.
  destruct (request VDelete KindOf (ObjectKeyFromObject obj) w) as [f w1] eqn:E.
  assert (Hw1 : w1 = snd (request VDelete KindOf (ObjectKeyFromObject obj) w))
    by (rewrite E; reflexivity).
  intros Hr. exists [theCall VDelete (ObjectKeyFromObject obj)].
  split; [|repeat constructor].
  destruct f; [|destruct (objects w1 !! ObjectKeyFromObject obj) eqn:El];
    injection Hr as <- <-; rewrite Hw1; try apply request_run.
  apply write_run; [discriminate| |].
  - intros n' Hn'. rewrite (law_request T L). apply lookup_delete_ne. congruence.
  - intros Hwf. apply keyed_delete. rewrite (law_request T L).
    apply (law_keyed T L). exact Hwf.
Qed.

(** [CreateOrUpdate] talks about the object of its key only. *)
Lemma emits_CreateOrUpdate `{EqDecision T} (obj : T) (f : T -> res T) :
  emits (onObject KindOf (ObjectKeyFromObject obj)) (CreateOrUpdate obj f).
Proof.
  unfold CreateOrUpdate. apply emits_bind.
  - eapply emits_weaken; [apply emits_Get|]. intros c ->. split; reflexivity.
  - intros [existing|e].
    + unfold mutate. destruct (f existing) as [obj'|e']; [|apply emits_ret].
      destruct (decide (ObjectKeyFromObject obj' = ObjectKeyFromObject obj)) as [Hk|];
        [|apply emits_ret].
      destruct (decide (existing = obj')); [apply emits_ret|].
      apply emits_bind.
      * eapply emits_weaken; [apply emits_Update|]. intros c ->. rewrite Hk.
        split; reflexivity.
      * intros [?|]; apply emits_ret.
    + destruct (negb (IsNotFound e)); [apply emits_ret|].
      unfold mutate. destruct (f obj) as [obj'|e']; [|apply emits_ret].
      destruct (decide (ObjectKeyFromObject obj' = ObjectKeyFromObject obj)) as [Hk|];
        [|apply emits_ret].
      apply emits_bind.
      * eapply emits_weaken; [apply emits_Create|]. intros c ->. rewrite Hk.
        split; reflexivity.
      * intros [?|]; apply emits_ret.
Qed.

End Requests.

Section Controller.

Ltac step :=
  match goal with
  | |- emits _ (ret _) => apply emits_ret
  | |- emits _ (bind _ _) => apply emits_bind
  | |- forall _, _ => intro
  | |- emits _ (match ?x with _ => _ end) => destruct x
  | |- emits _ (let (_, _) := ?x in _) => destruct x
  end.

Lemma emits_GetSecret n :
  emits (fun c => verb c = VGet /\ onObject "Secret" n c) (Get (T := corev1.Secret) n).
Proof.
  eapply emits_weaken; [apply emits_Get|].
  intros c ->. repeat split.
Qed.

Lemma emits_isSecretReady namespace name :
  emits (fun c => verb c = VGet /\ onObject "Secret" (namespace, name) c)
        (isSecretReady namespace name).
Proof.
  unfold isSecretReady. apply emits_bind; [apply emits_GetSecret|].
  repeat step.
Qed.

Lemma emits_getCertificateData namespace name :
  emits (fun c => verb c = VGet /\ onObject "Secret" (namespace, name) c)
        (getCertificateData namespace name).
Proof.
  unfold getCertificateData. apply emits_bind; [apply emits_GetSecret|].
  repeat step.
Qed.

Lemma emits_isCertificateReady namespace name :
  emits (fun c => verb c = VGet) (isCertificateReady namespace name).
Proof.
  unfold isCertificateReady. apply emits_bind.
  - eapply emits_weaken; [apply emits_Get|]. intros c ->. reflexivity.
  - repeat step.
Qed.

Lemma emits_isIssuerReady namespace name :
  emits (fun c => verb c = VGet) (isIssuerReady namespace name).
Proof.
  unfold isIssuerReady. apply emits_bind.
  - eapply emits_weaken; [apply emits_Get|]. intros c ->. reflexivity.
  - repeat step.
Qed.

Lemma emits_checkCertificatesReady namespace certNames :
  emits (fun c => verb c = VGet) (checkCertificatesReady namespace certNames).
Proof.
  induction certNames as [|name rest IH]; simpl; [apply emits_ret|].
  apply emits_bind; [apply emits_isCertificateReady|].
  intros [ready [e|]]; [apply emits_ret|].
  destruct (negb ready); [apply emits_ret | exact IH].
Qed.

Lemma emits_checkAllResourcesReady cs :
  emits (fun c => verb c = VGet) (checkAllResourcesReady cs).
Proof.
  unfold checkAllResourcesReady.
  apply emits_bind; [apply emits_checkCertificatesReady|].
  intros [[reason e]|]; [apply emits_ret|].
  destruct (_ || _); [|apply emits_ret].
  apply emits_bind; [apply emits_isIssuerReady|]. repeat step.
Qed.

Lemma emits_createOrUpdateCertificate cs desired :
  emits (fun c => kind c = "Certificate") (createOrUpdateCertificate cs desired).
Proof.
  unfold createOrUpdateCertificate. apply emits_bind.
  - eapply emits_weaken; [apply (emits_CreateOrUpdate Lawful_Certificate)|].
    intros c [Hk _]. exact Hk.
  - repeat step.
Qed.

Lemma emits_createOrUpdateIssuer cs desired :
  emits (fun c => kind c = "Issuer") (createOrUpdateIssuer cs desired).
Proof.
  unfold createOrUpdateIssuer. apply emits_bind.
  - eapply emits_weaken; [apply (emits_CreateOrUpdate Lawful_Issuer)|].
    intros c [Hk _]. exact Hk.
  - repeat step.
Qed.

Lemma emits_reconcileCACertificates cs :
  emits (fun c => kind c = "Certificate") (reconcileCACertificates cs).
Proof.
  unfold reconcileCACertificates.
  repeat first [ apply emits_createOrUpdateCertificate | step ].
Qed.

Lemma emits_reconcileClientCertificates cs :
  emits (fun c => kind c = "Issuer" \/ kind c = "Certificate")
        (reconcileClientCertificates cs).
Proof.
  unfold reconcileClientCertificates.
  apply emits_bind.
  - eapply emits_weaken; [apply emits_createOrUpdateIssuer|]. auto.
  - intros [e|]; [apply emits_ret|]. apply emits_bind.
    + eapply emits_weaken; [apply emits_createOrUpdateCertificate|]. auto.
    + repeat step.
Qed.

Lemma emits_createOrUpdateSecret secret managedKeys :
  emits (onObject "Secret" (ObjectKeyFromObject secret))
        (createOrUpdateSecret secret managedKeys).
Proof.
  unfold createOrUpdateSecret.
  apply (emits_bind_post
           (fun got => match got with
                       | Ok existing => ObjectKeyFromObject existing
                                        = ObjectKeyFromObject secret
                       | Err _ => True
                       end)).
  - intros w [existing|e] w' Hwf Hg; [|trivial].
    exact (Get_Ok_key Lawful_Secret _ _ _ _ Hwf Hg).
  - eapply emits_weaken; [apply emits_GetSecret|]. intros c [_ Hc]. exact Hc.
  - intros [existing|e] Hk.
    + destruct (negb _); [|apply emits_ret].
      eapply emits_weaken; [apply (emits_Update Lawful_Secret)|].
      intros c ->. split; [reflexivity|exact Hk].
    + destruct (IsNotFound e); [|apply emits_ret].
      eapply emits_weaken; [apply (emits_Create Lawful_Secret)|].
      intros c ->. split; reflexivity.
Qed.

Lemma emits_deleteSecretIfExists namespace name :
  emits (fun c => (verb c = VGet \/ verb c = VDelete)
                  /\ onObject "Secret" (namespace, name) c)
        (deleteSecretIfExists namespace name).
Proof.
  unfold deleteSecretIfExists.
  apply (emits_bind_post
           (fun got => match got with
                       | Ok existing => ObjectKeyFromObject existing = (namespace, name)
                       | Err _ => True
                       end)).
  - intros w [existing|e] w' Hwf Hg; [|trivial].
    exact (Get_Ok_key Lawful_Secret _ _ _ _ Hwf Hg).
  - eapply emits_weaken; [apply emits_GetSecret|].
    intros c [Hv Hc]. split; [left; exact Hv | exact Hc].
  - intros [secret|e] Hk; [|repeat step].
    apply emits_bind; [|repeat step].
    eapply emits_weaken; [apply (emits_Delete Lawful_Secret)|].
    intros c ->. split; [right; reflexivity|]. split; [reflexivity|exact Hk].
Qed.

Lemma emits_patchStatus cs original :
  emits (fun c => c = theCall (T := v1alpha1.CertificateSet) VStatusPatch
                            (ObjectKeyFromObject cs))
        (patchStatus cs original).
Proof.
  unfold patchStatus. apply emits_bind; [|repeat step].
  intros w r w' _. unfold StatusPatch, bind.
  set (n := ObjectKeyFromObject cs).
  destruct (request VStatusPatch "CertificateSet" n w) as [f w1] eqn:E.
  assert (Hw1 : w1 = snd (request VStatusPatch "CertificateSet" n w))
    by (rewrite E; reflexivity).
  intros Hr. exists [theCall (T := v1alpha1.CertificateSet) VStatusPatch n].
  split; [|repeat constructor].
  destruct f; [|destruct (certificateSets w1 !! n) as [stored|] eqn:El;
                [destruct (decide _)|]];
    injection Hr as <- <-; rewrite Hw1; try apply request_run.
  apply (write_run Lawful_CertificateSet); [discriminate| |].
  - intros n' Hn'. apply lookup_insert_ne. congruence.
  - intros Hwf. intros n' o. rewrite lookup_insert. case_decide.
    + intros [= <-]. subst n'. rewrite Hw1 in El. simpl in El.
      apply (wf_certificateSets _ Hwf) in El. exact El.
    + simpl. apply (wf_certificateSets _ Hwf).
Qed.

Lemma SetControllerReference_key {O T : Type} `{Object O} `{Object T}
      (L : forall (o : T) m, GetObjectMeta (SetObjectMeta o m) = m)
      gv (owner : O) (controlled controlled' : T) :
  SetControllerReference gv owner controlled = Ok controlled' ->
  ObjectKeyFromObject controlled' = ObjectKeyFromObject controlled.
Proof.
  unfold SetControllerReference.
  repeat match goal with
         | |- context [if ?b then _ else _] => destruct b
         | |- context [match ?x with _ => _ end] => destruct x
         end; try discriminate;
    intros [= <-]; unfold ObjectKeyFromObject; rewrite L; reflexivity.
Qed.

Lemma emits_reconcileArgoCDClusterSecret cs certData :
  emits (derivedCall cs) (reconcileArgoCDClusterSecret cs certData).
Proof.
  unfold reconcileArgoCDClusterSecret.
  destruct (v1alpha1.ArgocdCluster _); [|apply emits_ret].
  apply emits_bind.
  - eapply emits_weaken; [apply emits_Get|]. intros c ->. right. left. split; reflexivity.
  - intros [ns|e]; [|repeat step].
    simpl. apply emits_bind; [|repeat step].
    eapply emits_weaken; [apply emits_createOrUpdateSecret|].
    intros c Hc. right. right. exact Hc.
Qed.

Lemma emits_reconcileDerivedSecrets cs certData :
  emits (derivedCall cs) (reconcileDerivedSecrets cs certData).
Proof.
  unfold reconcileDerivedSecrets.
  destruct (v1alpha1.Kubeconfig _); [|apply emits_reconcileArgoCDClusterSecret].
  simpl.
  destruct (SetControllerReference _ _ _) as [secret|e] eqn:E; [|apply emits_ret].
  apply SetControllerReference_key in E; [|reflexivity].
  apply emits_bind.
  - eapply emits_weaken; [apply emits_createOrUpdateSecret|].
    intros c Hc. left. rewrite E in Hc. exact Hc.
  - intros [e|]; [apply emits_ret|apply emits_reconcileArgoCDClusterSecret].
Qed.

End Controller.

(** What [Get] answers in a given world. *)
Lemma Get_eq {T} `{Object T} n w :
  Get (T := T) n w =
  (match faults w (tick w) with
   | Some msg => Err (StatusError StatusReasonInternalError msg)
   | None => match objects (snd (request VGet KindOf n w)) !! n with
             | Some obj => Ok obj
             | None => Err (NewNotFound KindOf (snd n))
             end
   end, snd (request VGet KindOf n w)).
Proof.
  unfold Get, bind. simpl. destruct (faults w (tick w)); [reflexivity|].
  destruct (objects _ !! n); reflexivity.
Qed.

Section Reach.

Lemma reach_refl Q w : reach Q w w.
Proof. exists []. split; [apply run_refl | constructor]. Qed.

Lemma reach_trans Q w w1 w2 : reach Q w w1 -> reach Q w1 w2 -> reach Q w w2.
Proof.
  intros (l1 & R1 & F1) (l2 & R2 & F2). exists (l1 ++ l2)%list.
  split; [eapply run_trans; eassumption | apply List.Forall_app; auto].
Qed.

Lemma reach_weaken (P Q : Call -> Prop) w w' :
  reach P w w' -> (forall c, P c -> Q c) -> reach Q w w'.
Proof.
  intros (l & R & F) HPQ. exists l. split; [exact R|].
  eapply List.Forall_impl; eassumption.
Qed.

Lemma reach_wf Q w w' : reach Q w w' -> wf w -> wf w'.
Proof. intros (l & R & _). exact (run_wf _ _ _ R). Qed.

Lemma emits_reach {A} (P Q : Call -> Prop) (m : M A) w a w' :
  emits P m -> (forall c, P c -> Q c) -> wf w -> m w = (a, w') -> reach Q w w'.
Proof.
  intros Hm HPQ Hwf E. destruct (Hm _ _ _ Hwf E) as (l & R & F).
  exists l. split; [exact R|]. eapply List.Forall_impl; eassumption.
Qed.

(** The stores of the kinds that the calls do not write are unchanged. *)
Lemma reach_certificateSets Q w w' :
  reach Q w w' -> (forall c, Q c -> isWrite c -> kind c <> "CertificateSet") ->
  certificateSets w' = certificateSets w.
Proof.
  intros (l & R & F) HQ. apply (untouched_eq _ _ _ _ _ (run_certificateSets _ _ _ R)).
  eapply List.Forall_impl; [|exact F]. exact HQ.
Qed.

Lemma reach_certificates Q w w' :
  reach Q w w' -> (forall c, Q c -> isWrite c -> kind c <> "Certificate") ->
  certificates w' = certificates w.
Proof.
  intros (l & R & F) HQ. apply (untouched_eq _ _ _ _ _ (run_certificates _ _ _ R)).
  eapply List.Forall_impl; [|exact F]. exact HQ.
Qed.

Lemma reach_issuers Q w w' :
  reach Q w w' -> (forall c, Q c -> isWrite c -> kind c <> "Issuer") ->
  issuers w' = issuers w.
Proof.
  intros (l & R & F) HQ. apply (untouched_eq _ _ _ _ _ (run_issuers _ _ _ R)).
  eapply List.Forall_impl; [|exact F]. exact HQ.
Qed.

Lemma reach_namespaces Q w w' :
  reach Q w w' -> (forall c, Q c -> isWrite c -> kind c <> "Namespace") ->
  namespaces w' = namespaces w.
Proof.
  intros (l & R & F) HQ. apply (untouched_eq _ _ _ _ _ (run_namespaces _ _ _ R)).
  eapply List.Forall_impl; [|exact F]. exact HQ.
Qed.

(** A secret that no call writes is unchanged. *)
Lemma reach_secret Q w w' n :
  reach Q w w' -> (forall c, Q c -> isWrite c -> kind c = "Secret" -> key c <> n) ->
  secrets w' !! n = secrets w !! n.
Proof.
  intros (l & R & F) HQ. apply (run_secrets _ _ _ R).
  intros c Hin. rewrite List.Forall_forall in F. apply HQ. apply F. exact Hin.
Qed.

End Reach.

(** The example worlds are well-formed. *)
Section Demo.

Lemma keyed_stored {T} `{Object T} (l : list T) : keyed (demo.stored l).
Proof.
  unfold demo.stored. induction l as [|obj l IH]; simpl.
  - intros n o. rewrite lookup_empty. discriminate.
  - apply keyed_insert. exact IH.
Qed.

Lemma wf_demo_world css certs iss scrts nss :
  wf (demo.world css certs iss scrts nss).
Proof. constructor; apply keyed_stored. Qed.

Lemma wf_demo_failing n w : wf w -> wf (demo.failing n w).
Proof. intros []. constructor; assumption. Qed.

End Demo.
(** ** The paths through [Reconcile] *)

Section Paths.

Lemma childCall_leavesParent c : childCall c -> leavesParent c.
Proof.
  intros [Hv|[Hk|[Hk|Hk]]] Hw; [contradiction| | |]; rewrite Hk; discriminate.
Qed.

Lemma Reconcile_gateA now req w cs w1 w3 :
  fetched req w cs w1 -> passesGateA cs w1 w3 ->
  Reconcile now req w = reconcileClientCredentials now cs cs w3.
Proof.
  intros (Hget & Hdel & Hfin) (w2 & Hca & Hready).
  unfold Reconcile, bind. rewrite Hget, Hdel, Hfin. simpl.
  rewrite Hca, Hready. reflexivity.
Qed.

Lemma reconcileClientCredentials_gateB now cs csOriginal w3 certData w6 :
  needsClientCerts cs = true -> passesGateB cs w3 certData w6 ->
  reconcileClientCredentials now cs csOriginal w3
  = (let (err, w7) := reconcileDerivedSecrets cs certData w6 in
     match err with
     | Some e => degraded now (cs, []) csOriginal "DerivedSecretsFailed" e w7
     | None => reconcileCleanup now cs csOriginal w7
     end).
Proof.
  unfold needsClientCerts. intros Hneeds (w4 & w5 & Hclient & Hready & Hdata).
  unfold reconcileClientCredentials, bind. rewrite Hneeds, Hclient, Hready. simpl.
  rewrite Hdata. destruct (reconcileDerivedSecrets cs certData w6) as [[e|] w7];
    reflexivity.
Qed.

Lemma Reconcile_reachesReadiness now req w cs w8 :
  reachesReadiness req w cs w8 ->
  Reconcile now req w = reconcileReadiness now cs cs w8.
Proof.
  intros (w1 & w3 & w7 & Hfetched & HgateA & Hclient & Hcleanup).
  rewrite (Reconcile_gateA now req w cs w1 w3 Hfetched HgateA).
  assert (Hc : reconcileCleanup now cs cs w7 = reconcileReadiness now cs cs w8).
  { unfold reconcileCleanup, bind.
    destruct (v1alpha1.ArgocdCluster (v1alpha1.Spec cs)); simpl.
    - rewrite Hcleanup. reflexivity.
    - rewrite Hcleanup. reflexivity. }
  destruct (needsClientCerts cs) eqn:Hneeds.
  - destruct Hclient as (certData & w6 & HgateB & Hderived).
    rewrite (reconcileClientCredentials_gateB now cs cs w3 certData w6 Hneeds HgateB).
    rewrite Hderived. exact Hc.
  - subst w7. unfold reconcileClientCredentials.
    unfold needsClientCerts in Hneeds. rewrite Hneeds. exact Hc.
Qed.

Lemma fetched_stored req w cs w1 :
  wf w -> fetched req w cs w1 ->
  certificateSets w !! req = Some cs
  /\ ObjectKeyFromObject cs = req
  /\ w1 = snd (request VGet "CertificateSet" req w).
Proof.
  intros Hwf (Hget & _). assert (Hget' := Hget). rewrite Get_eq in Hget'.
  injection Hget' as Hgot <-. simpl in Hgot.
  destruct (faults w (tick w)); [discriminate|].
  destruct (certificateSets w !! req) as [cs'|] eqn:Hs; [|discriminate].
  injection Hgot as <-. split; [reflexivity|]. split; [|reflexivity].
  exact (wf_certificateSets _ Hwf _ _ Hs).
Qed.

Lemma certificateCall_childCall c : certificateCall c -> childCall c.
Proof.
  intros [Hv|[Hk|Hk]]; [left; exact Hv | right; left; exact Hk
                        | right; right; left; exact Hk].
Qed.

Lemma fetched_reach req w cs w1 :
  wf w -> fetched req w cs w1 -> reach certificateCall w w1.
Proof.
  intros Hwf (Hget & _).
  eapply emits_reach;
    [apply (emits_Get (T := v1alpha1.CertificateSet) req)
    | intros c ->; left; reflexivity | exact Hwf | exact Hget].
Qed.

Lemma reconcileCACertificates_reach cs w r w' :
  wf w -> reconcileCACertificates cs w = (r, w') -> reach certificateCall w w'.
Proof.
  apply (emits_reach _ _ _ _ _ _ (emits_reconcileCACertificates cs)).
  intros c Hk. right. left. exact Hk.
Qed.

Lemma isSecretReady_reach namespace name w r w' :
  wf w -> isSecretReady namespace name w = (r, w') -> reach certificateCall w w'.
Proof.
  apply (emits_reach _ _ _ _ _ _ (emits_isSecretReady namespace name)).
  intros c [Hv _]. left. exact Hv.
Qed.

Lemma passesGateA_reach cs w1 w3 :
  wf w1 -> passesGateA cs w1 w3 -> reach certificateCall w1 w3.
Proof.
  intros Hwf (w2 & Hca & Hready).
  assert (R1 := reconcileCACertificates_reach _ _ _ _ Hwf Hca).
  eapply reach_trans; [exact R1|].
  eapply isSecretReady_reach; [|exact Hready].
  exact (reach_wf _ _ _ R1 Hwf).
Qed.

Lemma passesGateB_reach cs w3 certData w6 :
  wf w3 -> passesGateB cs w3 certData w6 -> reach certificateCall w3 w6.
Proof.
  intros Hwf (w4 & w5 & Hclient & Hready & Hdata).
  assert (R1 : reach certificateCall w3 w4).
  { eapply emits_reach;
      [apply (emits_reconcileClientCertificates cs)
      | intros c [Hk|Hk]; right; [right|left]; exact Hk
      | exact Hwf | exact Hclient]. }
  assert (Hwf4 := reach_wf _ _ _ R1 Hwf).
  assert (R2 := isSecretReady_reach _ _ _ _ _ Hwf4 Hready).
  assert (Hwf5 := reach_wf _ _ _ R2 Hwf4).
  assert (R3 : reach certificateCall w5 w6).
  { eapply emits_reach;
      [apply emits_getCertificateData
      | intros c [Hv _]; left; exact Hv | exact Hwf5 | exact Hdata]. }
  eapply reach_trans; [exact R1|]. eapply reach_trans; [exact R2|exact R3].
Qed.

Lemma derivedCall_childCall cs c : derivedCall cs c -> childCall c.
Proof.
  intros [[Hk _]|[[Hv _]|[Hk _]]]; [right; right; right; exact Hk
                                    | left; exact Hv
                                    | right; right; right; exact Hk].
Qed.

Lemma reachesReadiness_reach req w cs w8 :
  wf w -> reachesReadiness req w cs w8 -> reach childCall w w8.
Proof.
  intros Hwf (w1 & w3 & w7 & Hfetched & HgateA & Hclient & Hcleanup).
  assert (R1 := reach_weaken _ _ _ _ (fetched_reach _ _ _ _ Hwf Hfetched)
                              certificateCall_childCall).
  assert (Hwf1 := reach_wf _ _ _ R1 Hwf).
  assert (R2 := reach_weaken _ _ _ _ (passesGateA_reach _ _ _ Hwf1 HgateA)
                              certificateCall_childCall).
  assert (Hwf3 := reach_wf _ _ _ R2 Hwf1).
  assert (R3 : reach childCall w3 w7).
  { destruct (needsClientCerts cs).
    - destruct Hclient as (certData & w6 & HgateB & Hderived).
      assert (R := reach_weaken _ _ _ _ (passesGateB_reach _ _ _ _ Hwf3 HgateB)
                                 certificateCall_childCall).
      eapply reach_trans; [exact R|].
      apply (emits_reach _ _ _ _ _ _ (emits_reconcileDerivedSecrets cs certData)
               (derivedCall_childCall cs) (reach_wf _ _ _ R Hwf3) Hderived).
    - subst w7. apply reach_refl. }
  assert (Hwf7 := reach_wf _ _ _ R3 Hwf3).
  assert (R4 : reach childCall w7 w8).
  { destruct (v1alpha1.ArgocdCluster (v1alpha1.Spec cs)).
    - subst w8. apply reach_refl.
    - eapply emits_reach;
        [apply emits_deleteSecretIfExists
        | intros c (_ & Hk & _); right; right; right; exact Hk
        | exact Hwf7 | exact Hcleanup]. }
  eapply reach_trans; [exact R1|]. eapply reach_trans; [exact R2|].
  eapply reach_trans; [exact R3|exact R4].
Qed.

End Paths.
(** ** The OIDC certificate of an infra environment without OIDC issuer *)

(** C10. For a CertificateSet with environment [infra] and a nil
    [issuerRefOidc], [buildOIDCCertificate] returns (it has no failing
    case) a Certificate whose spec carries the empty issuer reference (no
    group, kind or name) and [IsCA = false]: the infra branch assigns
    nothing. *)
Theorem buildOIDCCertificate_infra_without_oidc_issuer :
  forall cs : v1alpha1.CertificateSet,
    v1alpha1.Environment (v1alpha1.Spec cs) = v1alpha1.EnvironmentInfra ->
    v1alpha1.IssuerRefOidc (v1alpha1.Spec cs) = None ->
    let spec := certmanagerv1.Spec (buildOIDCCertificate cs) in
    cmmeta.Group (certmanagerv1.IssuerRef spec) = EmptyString
    /\ cmmeta.Kind (certmanagerv1.IssuerRef spec) = EmptyString
    /\ cmmeta.Name (certmanagerv1.IssuerRef spec) = EmptyString
    /\ certmanagerv1.IsCA spec = false
    /\ certmanagerv1.Usages spec = [].
Proof.
  intros cs Henv Hoidc. unfold buildOIDCCertificate.
  rewrite Henv, Hoidc. simpl. repeat split; reflexivity.
Qed.

Lemma buildOIDCCertificate_infra_without_oidc_issuer_witness :
  let cs := demo.certificateSet "infra" false false "selfsigned" [] None [] in
  let spec := certmanagerv1.Spec (buildOIDCCertificate cs) in
  cmmeta.Group (certmanagerv1.IssuerRef spec) = EmptyString
  /\ cmmeta.Kind (certmanagerv1.IssuerRef spec) = EmptyString
  /\ cmmeta.Name (certmanagerv1.IssuerRef spec) = EmptyString
  /\ certmanagerv1.IsCA spec = false
  /\ certmanagerv1.Usages spec = [].
Proof.
  apply (buildOIDCCertificate_infra_without_oidc_issuer
           (demo.certificateSet "infra" false false "selfsigned" [] None []));
    reflexivity.
Defined.
(** ** Status conditions and [setCondition] *)

Section Conditions.
Import metav1.

Lemma FindStatusCondition_Some (l : list Condition) ty c :
  meta.FindStatusCondition l ty = Some c -> In c l /\ Type_ c = ty.
Proof.
  induction l as [|c0 l IH]; simpl; [discriminate|].
  destruct (String.eqb (Type_ c0) ty) eqn:E.
  - intros [= <-]. apply String.eqb_eq in E. auto.
  - intros H. destruct (IH H). auto.
Qed.

Lemma FindStatusCondition_None (l : list Condition) ty :
  meta.FindStatusCondition l ty = None -> forall c, In c l -> Type_ c <> ty.
Proof.
  induction l as [|c0 l IH]; simpl; [tauto|].
  destruct (String.eqb (Type_ c0) ty) eqn:E; [discriminate|].
  intros H c [<-|Hin].
  - apply String.eqb_neq. exact E.
  - auto.
Qed.

Lemma FindStatusCondition_unique (l : list Condition) ty c :
  List.NoDup (List.map Type_ l) -> In c l -> Type_ c = ty ->
  meta.FindStatusCondition l ty = Some c.
Proof.
  induction l as [|c0 l IH]; simpl; [tauto|].
  intros Hnd Hin Hty. inversion Hnd as [|? ? Hnotin Hnd']; subst.
  destruct Hin as [->|Hin].
  - rewrite String.eqb_refl. reflexivity.
  - destruct (String.eqb (Type_ c0) (Type_ c)) eqn:E.
    + apply String.eqb_eq in E. exfalso. apply Hnotin. rewrite E.
      apply List.in_map. exact Hin.
    + auto.
Qed.

Lemma FindStatusCondition_replaceFirst now (l : list Condition) new c0 :
  meta.FindStatusCondition l (Type_ new) = Some c0 ->
  meta.FindStatusCondition (meta.replaceFirst now l new) (Type_ new)
  = Some (meta.updateCondition now c0 new).
Proof.
  induction l as [|c l IH]; simpl; [discriminate|].
  destruct (String.eqb (Type_ c) (Type_ new)) eqn:E.
  - intros [= ->]. simpl. rewrite E. reflexivity.
  - intros H. simpl. rewrite E. auto.
Qed.

Lemma FindStatusCondition_app_new (l : list Condition) c :
  meta.FindStatusCondition l (Type_ c) = None ->
  meta.FindStatusCondition (l ++ [c]) (Type_ c) = Some c.
Proof.
  induction l as [|c0 l IH]; simpl.
  - rewrite String.eqb_refl. reflexivity.
  - destruct (String.eqb (Type_ c0) (Type_ c)); [discriminate|auto].
Qed.

Lemma FindStatusCondition_SetStatusCondition now (l : list Condition) new :
  exists c, meta.FindStatusCondition (meta.SetStatusCondition now l new) (Type_ new)
            = Some c
            /\ Type_ c = Type_ new /\ Status c = Status new
            /\ Reason c = Reason new /\ Message c = Message new
            /\ ObservedGeneration c = ObservedGeneration new.
Proof.
  unfold meta.SetStatusCondition.
  destruct (meta.FindStatusCondition l (Type_ new)) as [c0|] eqn:E.
  - exists (meta.updateCondition now c0 new).
    split; [apply FindStatusCondition_replaceFirst; exact E|].
    apply FindStatusCondition_Some in E as [_ E]. simpl. tauto.
  - eexists. split.
    + apply (FindStatusCondition_app_new l
               {| Type_ := Type_ new; Status := Status new;
                  ObservedGeneration := ObservedGeneration new;
                  LastTransitionTime := _; Reason := Reason new;
                  Message := Message new |}). exact E.
    + simpl. tauto.
Qed.
End Conditions.

Lemma same_condition_iff (a b c st rs msg : string) (g g' : Z) :
  (String.eqb a st && String.eqb b rs && String.eqb c msg && (g =? g')) = true
  <-> a = st /\ b = rs /\ c = msg /\ g = g'.
Proof.
  rewrite !andb_true_iff, !String.eqb_eq, Z.eqb_eq. tauto.
Qed.

Lemma setCondition_false now cs ty st rs msg :
  fst (setCondition now cs ty st rs msg) = false <->
  exists c, meta.FindStatusCondition (v1alpha1.Conditions (v1alpha1.Status cs)) ty = Some c
            /\ matches cs st rs msg c.
Proof.
  unfold setCondition, matches.
  destruct (meta.FindStatusCondition _ ty) as [c|] eqn:E.
  - destruct (String.eqb (metav1.Status c) st && String.eqb (metav1.Reason c) rs
              && String.eqb (metav1.Message c) msg
              && (metav1.ObservedGeneration c =? v1alpha1.GetGeneration cs)) eqn:Hs; simpl.
    + apply same_condition_iff in Hs. split; [|reflexivity].
      intros _. exists c. tauto.
    + split; [discriminate|]. intros (c' & [= <-] & Hm).
      apply same_condition_iff in Hm. congruence.
  - simpl. split; [discriminate|]. intros (c & H & _). discriminate.
Qed.

(** C6. [setCondition(object, type, status, reason, message)] returns
    false, leaving the object as it is, if and only if the object already
    has a condition of that type whose status, reason and message equal the
    arguments and whose observed generation is the current generation of
    the object; otherwise it returns true and the condition of that type
    then carries the arguments and the current generation.  Metadata and
    spec are never touched.  The list of conditions is keyed by type (no
    two conditions of one type), as the schema of the status declares.
    The function works on the object in memory and has no access to the
    client: it issues no request. *)
Theorem setCondition_writes_iff_condition_differs :
  forall now (cs : v1alpha1.CertificateSet) (condType : string)
         (status : metav1.ConditionStatus) (reason message : string),
    List.NoDup (List.map metav1.Type_ (v1alpha1.Conditions (v1alpha1.Status cs))) ->
    let answer := setCondition now cs condType status reason message in
    let present :=
      exists c, In c (v1alpha1.Conditions (v1alpha1.Status cs))
                /\ metav1.Type_ c = condType
                /\ metav1.Status c = status
                /\ metav1.Reason c = reason
                /\ metav1.Message c = message
                /\ metav1.ObservedGeneration c = v1alpha1.GetGeneration cs in
    (fst answer = false <-> present)
    /\ (fst answer = false -> snd answer = cs)
    /\ (fst answer = true ->
        exists c, meta.FindStatusCondition
                    (v1alpha1.Conditions (v1alpha1.Status (snd answer))) condType = Some c
                  /\ metav1.Status c = status
                  /\ metav1.Reason c = reason
                  /\ metav1.Message c = message
                  /\ metav1.ObservedGeneration c = v1alpha1.GetGeneration cs)
    /\ v1alpha1.ObjectMeta (snd answer) = v1alpha1.ObjectMeta cs
    /\ v1alpha1.Spec (snd answer) = v1alpha1.Spec cs.
Proof.
  intros now cs ty st rs msg Hnd answer present. subst answer present.
  split; [|split; [|split]].
  - rewrite setCondition_false. unfold matches. split.
    + intros (c & Hf & Hm). apply FindStatusCondition_Some in Hf as [Hin Hty].
      exists c. tauto.
    + intros (c & Hin & Hty & Hm). exists c.
      split; [apply FindStatusCondition_unique; assumption | exact Hm].
  - unfold setCondition. destruct (match meta.FindStatusCondition _ _ with Some _ => _ | None => _ end); simpl; [reflexivity|discriminate].
  - unfold setCondition. destruct (match meta.FindStatusCondition _ _ with Some _ => _ | None => _ end); simpl; [discriminate|].
    intros _.
    destruct (FindStatusCondition_SetStatusCondition now
                (v1alpha1.Conditions (v1alpha1.Status cs))
                {| metav1.Type_ := ty; metav1.Status := st;
                   metav1.ObservedGeneration := v1alpha1.GetGeneration cs;
                   metav1.LastTransitionTime := 0;
                   metav1.Reason := rs; metav1.Message := msg |})
      as (c & Hf & _ & H1 & H2 & H3 & H4).
    exists c. simpl in *. tauto.
  - unfold setCondition. destruct (match meta.FindStatusCondition _ _ with Some _ => _ | None => _ end); simpl; split; reflexivity.
Qed.

Lemma setCondition_writes_iff_condition_differs_witness :
  let ready :=
    {| metav1.Type_ := "Ready"; metav1.Status := "True";
       metav1.ObservedGeneration := 1; metav1.LastTransitionTime := 50;
       metav1.Reason := "AllResourcesReady";
       metav1.Message := "All certificate resources created and ready" |} in
  let cs := demo.certificateSet "client" false false "selfsigned"
                                [finalizerName] None [ready] in
  List.NoDup (List.map metav1.Type_ (v1alpha1.Conditions (v1alpha1.Status cs)))
  /\ setCondition 100 cs "Ready" "True" "AllResourcesReady"
                  "All certificate resources created and ready" = (false, cs)
  /\ fst (setCondition 100 cs "Ready" "False" "WaitingForResources"
                       "Certificate demo-ca is not ready") = true.
Proof.
  intros ready cs.
  assert (Hnd : List.NoDup (List.map metav1.Type_
                              (v1alpha1.Conditions (v1alpha1.Status cs)))).
  { simpl. constructor; [simpl; tauto | constructor]. }
  split; [exact Hnd|].
  destruct (setCondition_writes_iff_condition_differs 100 cs "Ready" "True"
              "AllResourcesReady" "All certificate resources created and ready" Hnd)
    as (Hiff & Hsame & _).
  split.
  - assert (H : fst (setCondition 100 cs "Ready" "True" "AllResourcesReady"
                       "All certificate resources created and ready") = false).
    { apply Hiff. exists ready. simpl. tauto. }
    specialize (Hsame H).
    destruct (setCondition 100 cs "Ready" "True" "AllResourcesReady"
                "All certificate resources created and ready"); simpl in *.
    congruence.
  - reflexivity.
Defined.
(** ** The readiness oracle *)

Lemma conditionIsTrue_reportsReady conditions :
  conditionIsTrue "Ready" conditions = true -> reportsReady conditions.
Proof.
  induction conditions as [|c l IH]; simpl; [discriminate|].
  destruct (String.eqb (certmanagerv1.Type_ c) "Ready") eqn:E.
  - intros Hs. exists c. apply String.eqb_eq in E. apply String.eqb_eq in Hs.
    split; [left; reflexivity | split; assumption].
  - intros H. destruct (IH H) as (c' & Hin & Hc'). exists c'.
    split; [right; exact Hin | exact Hc'].
Qed.

Lemma conditionIsTrue_absent conditions :
  (forall cond, In cond conditions -> certmanagerv1.Type_ cond <> "Ready") ->
  conditionIsTrue "Ready" conditions = false.
Proof.
  induction conditions as [|c l IH]; simpl; [reflexivity|].
  intros H. destruct (String.eqb (certmanagerv1.Type_ c) "Ready") eqn:E.
  - apply String.eqb_eq in E. exfalso. apply (H c); auto.
  - apply IH. auto.
Qed.

Lemma hasBundle_true secret :
  bool_decide (is_Some (corev1.Data secret !! "ca.crt"))
  && bool_decide (is_Some (corev1.Data secret !! "tls.crt"))
  && bool_decide (is_Some (corev1.Data secret !! "tls.key")) = true
  <-> hasBundle secret.
Proof.
  unfold hasBundle. rewrite !andb_true_iff, !bool_decide_eq_true. tauto.
Qed.

(** C7. Each function of the readiness oracle ([isSecretReady],
    [isCertificateReady], [isIssuerReady]) answers (false, nil) when the
    lookup reports not-found, and hands any other failure of the lookup to
    the caller as a non-nil error.  [isSecretReady] answers true only for a
    stored secret whose data holds [ca.crt], [tls.crt] and [tls.key];
    [isCertificateReady] and [isIssuerReady] answer true only for a stored
    resource that reports a condition of type [Ready] with status [True],
    and answer (false, nil) for a resource without a [Ready] condition. *)
Theorem readiness_oracle_not_found_is_not_ready :
  forall (namespace name : string) (w : World),
    let n := (namespace, name) in
    (* isSecretReady *)
    ((forall e w', Get (T := corev1.Secret) n w = (Err e, w') ->
                   isSecretReady namespace name w
                   = ((false, if IsNotFound e then None else Some e), w'))
     /\ (faults w (tick w) = None -> secrets w !! n = None ->
         fst (isSecretReady namespace name w) = (false, None))
     /\ (forall err, fst (isSecretReady namespace name w) = (true, err) ->
                     err = None
                     /\ exists secret, secrets w !! n = Some secret /\ hasBundle secret)
     /\ (forall msg, faults w (tick w) = Some msg ->
                     exists e, fst (isSecretReady namespace name w) = (false, Some e)
                               /\ IsNotFound e = false))
    (* isCertificateReady *)
    /\ ((forall e w', Get (T := certmanagerv1.Certificate) n w = (Err e, w') ->
                      isCertificateReady namespace name w
                      = ((false, if IsNotFound e then None else Some e), w'))
        /\ (faults w (tick w) = None -> certificates w !! n = None ->
            fst (isCertificateReady namespace name w) = (false, None))
        /\ (forall cert, faults w (tick w) = None -> certificates w !! n = Some cert ->
                         (forall cond, In cond (certmanagerv1.StatusConditions cert) ->
                                       certmanagerv1.Type_ cond <> "Ready") ->
                         fst (isCertificateReady namespace name w) = (false, None))
        /\ (forall err, fst (isCertificateReady namespace name w) = (true, err) ->
                        err = None
                        /\ exists cert, certificates w !! n = Some cert
                                        /\ reportsReady (certmanagerv1.StatusConditions cert))
        /\ (forall msg, faults w (tick w) = Some msg ->
                        exists e, fst (isCertificateReady namespace name w) = (false, Some e)
                                  /\ IsNotFound e = false))
    (* isIssuerReady *)
    /\ ((forall e w', Get (T := certmanagerv1.Issuer) n w = (Err e, w') ->
                      isIssuerReady namespace name w
                      = ((false, if IsNotFound e then None else Some e), w'))
        /\ (faults w (tick w) = None -> issuers w !! n = None ->
            fst (isIssuerReady namespace name w) = (false, None))
        /\ (forall issuer, faults w (tick w) = None -> issuers w !! n = Some issuer ->
                           (forall cond, In cond (certmanagerv1.IssuerStatusConditions issuer) ->
                                         certmanagerv1.Type_ cond <> "Ready") ->
                           fst (isIssuerReady namespace name w) = (false, None))
        /\ (forall err, fst (isIssuerReady namespace name w) = (true, err) ->
                        err = None
                        /\ exists issuer, issuers w !! n = Some issuer
                                          /\ reportsReady (certmanagerv1.IssuerStatusConditions issuer))
        /\ (forall msg, faults w (tick w) = Some msg ->
                        exists e, fst (isIssuerReady namespace name w) = (false, Some e)
                                  /\ IsNotFound e = false)).
Proof.
  intros namespace name w n. subst n.
  split; [|split].
  - unfold isSecretReady, bind. rewrite Get_eq. simpl.
    split; [|split; [|split]].
    + intros e w' [= He <-]. rewrite He. destruct (IsNotFound e); reflexivity.
    + intros -> ->. reflexivity.
    + intros err H. destruct (faults w (tick w)); [discriminate|].
      destruct (secrets w !! (namespace, name)) as [s|]; simpl in H; [|discriminate].
      injection H as H <-. split; [reflexivity|].
      exists s. split; [reflexivity|]. apply hasBundle_true. exact H.
    + intros msg ->. simpl. eexists. split; reflexivity.
  - unfold isCertificateReady, bind. rewrite Get_eq. simpl.
    split; [|split; [|split; [|split]]].
    + intros e w' [= He <-]. rewrite He. destruct (IsNotFound e); reflexivity.
    + intros -> ->. reflexivity.
    + intros cert -> -> Hc. simpl. rewrite conditionIsTrue_absent; auto.
    + intros err H. destruct (faults w (tick w)); [discriminate|].
      destruct (certificates w !! (namespace, name)) as [c|]; simpl in H; [|discriminate].
      injection H as H <-. split; [reflexivity|].
      exists c. split; [reflexivity|]. apply conditionIsTrue_reportsReady. exact H.
    + intros msg ->. simpl. eexists. split; reflexivity.
  - unfold isIssuerReady, bind. rewrite Get_eq. simpl.
    split; [|split; [|split; [|split]]].
    + intros e w' [= He <-]. rewrite He. destruct (IsNotFound e); reflexivity.
    + intros -> ->. reflexivity.
    + intros issuer -> -> Hc. simpl. rewrite conditionIsTrue_absent; auto.
    + intros err H. destruct (faults w (tick w)); [discriminate|].
      destruct (issuers w !! (namespace, name)) as [c|]; simpl in H; [|discriminate].
      injection H as H <-. split; [reflexivity|].
      exists c. split; [reflexivity|]. apply conditionIsTrue_reportsReady. exact H.
    + intros msg ->. simpl. eexists. split; reflexivity.
Qed.

Lemma readiness_oracle_not_found_is_not_ready_witness :
  let w := demo.world [demo.certificateSet "client" false false "selfsigned"
                                            [finalizerName] None []] [] [] [] [] in
  faults w (tick w) = None
  /\ secrets w !! ("default", "demo-ca") = None
  /\ fst (isSecretReady "default" "demo-ca" w) = (false, None)
  /\ certificates w !! ("default", "demo-ca") = None
  /\ fst (isCertificateReady "default" "demo-ca" w) = (false, None).
Proof.
  intros w.
  destruct (readiness_oracle_not_found_is_not_ready "default" "demo-ca" w)
    as ((_ & Hsecret & _) & (_ & Hcert & _) & _).
  split; [reflexivity|]. split; [reflexivity|].
  split; [apply Hsecret; reflexivity|].
  split; [reflexivity|]. apply Hcert; reflexivity.
Defined.
(** ** The finalizer *)

Lemma AddFinalizer_contains (cs : v1alpha1.CertificateSet) finalizer :
  ContainsFinalizer (AddFinalizer cs finalizer) finalizer = true.
Proof.
  unfold AddFinalizer. destruct (ContainsFinalizer cs finalizer) eqn:E; [exact E|].
  unfold ContainsFinalizer. simpl. rewrite existsb_app. simpl.
  rewrite String.eqb_refl. apply orb_true_iff. right. reflexivity.
Qed.

(** Against C9 as stated: a CertificateSet that is not being deleted and has
    no finalizer, in a world where the update request fails.  The attempt
    answers with the error and without a requeue request, and the stored
    object still has no finalizer. *)
Lemma finalizer_attach_rejected_update :
  let cs := demo.certificateSet "client" false false "selfsigned" [] None [] in
  let w := demo.failing 1 (demo.world [cs] [] [] [] []) in
  let o := fst (Reconcile 100 demo.req w) in
  let w' := snd (Reconcile 100 demo.req w) in
  certificateSets w !! demo.req = Some cs
  /\ time.IsZero (metav1.DeletionTimestamp (v1alpha1.ObjectMeta cs)) = true
  /\ ContainsFinalizer cs finalizerName = false
  /\ ctrl.Requeue (result o) = false
  /\ ctrl.RequeueAfter (result o) = 0
  /\ err o = Some (StatusError StatusReasonInternalError "context deadline exceeded")
  /\ certificateSets w' !! demo.req = Some cs.
Proof.
  vm_compute. repeat split; reflexivity.
Qed.

(** C9, amended.  On every reconciliation of a CertificateSet that is not
    being deleted and does not carry the cleanup finalizer, the engine adds
    the finalizer and sends one update request.  When the update succeeds
    the stored object carries the finalizer and the answer asks for
    immediate re-invocation; when it fails the error is returned without a
    requeue request.  In both cases the read and the update are the only
    requests of the attempt: no certificate, issuer or secret is touched,
    no readiness is asked and no condition is set. *)
Theorem finalizer_attached_before_any_other_work :
  forall (now : Z) (req : NamespacedName) (w w1 : World) (cs : v1alpha1.CertificateSet),
    Get req w = (Ok cs, w1) ->
    time.IsZero (metav1.DeletionTimestamp (v1alpha1.ObjectMeta cs)) = true ->
    ContainsFinalizer cs finalizerName = false ->
    let withFinalizer := AddFinalizer cs finalizerName in
    exists (updateErr : option error) (w' : World),
      Update withFinalizer w1 = (updateErr, w')
      /\ Reconcile now req w
         = ({| result := match updateErr with
                         | None => {| ctrl.Requeue := true; ctrl.RequeueAfter := 0 |}
                         | Some _ => ctrl.zero
                         end;
               err := updateErr;
               writes := [] |}, w')
      /\ calls w' = (calls w
                     ++ [ theCall (T := v1alpha1.CertificateSet) VGet req;
                          theCall (T := v1alpha1.CertificateSet) VUpdate
                                  (ObjectKeyFromObject cs) ])%list
      /\ certificates w' = certificates w
      /\ issuers w' = issuers w
      /\ secrets w' = secrets w
      /\ (updateErr = None ->
          certificateSets w' !! ObjectKeyFromObject cs = Some withFinalizer
          /\ ContainsFinalizer withFinalizer finalizerName = true)
      /\ (updateErr <> None -> certificateSets w' = certificateSets w).
Proof.
  intros now req w w1 cs Hget Hdel Hfin withFinalizer.
  assert (Hkey : ObjectKeyFromObject withFinalizer = ObjectKeyFromObject cs).
  { unfold withFinalizer, AddFinalizer. rewrite Hfin. reflexivity. }
  destruct (Update withFinalizer w1) as [u w'] eqn:Hupd.
  exists u, w'. split; [reflexivity|]. split.
  { unfold Reconcile, bind. rewrite Hget, Hdel, Hfin. simpl.
    fold withFinalizer. rewrite Hupd. destruct u; reflexivity. }
  rewrite Get_eq in Hget. injection Hget as Hgot <-.
  unfold Update, bind in Hupd. rewrite Hkey in Hupd. simpl in Hupd.
  destruct (faults w (S (tick w))) as [msg|].
  - injection Hupd as <- <-. simpl. rewrite <- app_assoc.
    repeat split; try reflexivity; discriminate.
  - destruct (certificateSets w !! ObjectKeyFromObject cs) eqn:Hl;
      injection Hupd as <- <-; simpl; rewrite <- app_assoc;
      repeat split; try reflexivity; try discriminate.
    + apply lookup_insert_eq.
    + apply AddFinalizer_contains.
    + intros H. congruence.
Qed.

Lemma finalizer_attached_before_any_other_work_witness :
  let cs := demo.certificateSet "client" false false "selfsigned" [] None [] in
  let w := demo.world [cs] [] [] [] [] in
  Get demo.req w = (Ok cs, snd (Get (T := v1alpha1.CertificateSet) demo.req w))
  /\ time.IsZero (metav1.DeletionTimestamp (v1alpha1.ObjectMeta cs)) = true
  /\ ContainsFinalizer cs finalizerName = false
  /\ exists w', Reconcile 100 demo.req w
                = ({| result := {| ctrl.Requeue := true; ctrl.RequeueAfter := 0 |};
                      err := None; writes := [] |}, w')
                /\ certificateSets w' !! demo.req
                   = Some (AddFinalizer cs finalizerName).
Proof.
  intros cs w.
  assert (Hget : Get demo.req w
                 = (Ok cs, snd (Get (T := v1alpha1.CertificateSet) demo.req w)))
    by (vm_compute; reflexivity).
  split; [exact Hget|]. split; [reflexivity|]. split; [reflexivity|].
  destruct (finalizer_attached_before_any_other_work 100 demo.req w _ cs
              Hget eq_refl eq_refl)
    as (updateErr & w' & Hupd & Hrec & _ & _ & _ & _ & Hok & _).
  assert (Hnone : updateErr = None).
  { vm_compute in Hupd. injection Hupd as <- _. reflexivity. }
  subst updateErr. exists w'. split; [exact Hrec|].
  destruct (Hok eq_refl) as [Hstored _]. exact Hstored.
Defined.
(** ** The deletion branch *)


(** [deleteSecretIfExists]: success leaves no secret of that name, a
    failure is never a not-found and leaves the secrets as they were, and
    an absent secret is a success. *)
Lemma deleteSecretIfExists_spec namespace name w r w' :
  wf w ->
  deleteSecretIfExists namespace name w = (r, w') ->
  (r = None -> secrets w' !! (namespace, name) = None)
  /\ (forall e, r = Some e -> IsNotFound e = false /\ secrets w' = secrets w)
  /\ (faults w (tick w) = None -> secrets w !! (namespace, name) = None -> r = None).
Proof.
  intros Hwf. unfold deleteSecretIfExists, bind. rewrite Get_eq. simpl.
  destruct (faults w (tick w)) as [msg|] eqn:Hf; simpl.
  { intros [= <- <-].
    split; [discriminate | split; [intros e [= <-]; split; reflexivity | discriminate]]. }
  destruct (secrets w !! (namespace, name)) as [secret|] eqn:Hs; simpl.
  2:{ intros [= <- <-]. simpl.
      split; [intros _; exact Hs | split; [discriminate | reflexivity]]. }
  assert (Hk : ObjectKeyFromObject secret = (namespace, name))
    by exact (wf_secrets _ Hwf _ _ Hs).
  unfold Delete, bind. rewrite Hk. simpl.
  destruct (faults w (S (tick w))) as [msg|]; simpl.
  { intros [= <- <-].
    split; [discriminate | split; [intros e [= <-]; split; reflexivity | discriminate]]. }
  rewrite Hs. simpl. intros [= <- <-]. simpl.
  split; [intros _; apply lookup_delete_eq | split; [discriminate | discriminate]].
Qed.


(** ** Gate A: waiting for the CA secret *)

(** Against C3 as stated: the CA certificate is created, the CA secret is
    absent; the attempt asks to be run again in 5 seconds without error,
    but it calls [setCondition] not once, and the stored object has no
    [Progressing] condition afterwards. *)
Lemma gateA_wait_sets_no_progressing_condition :
  let cs := demo.certificateSet "client" false false "selfsigned"
                                [finalizerName] None [] in
  let w := demo.world [cs] [] [] [] [] in
  let w1 := snd (Get (T := v1alpha1.CertificateSet) demo.req w) in
  let o := fst (Reconcile 100 demo.req w) in
  let w' := snd (Reconcile 100 demo.req w) in
  fetched demo.req w cs w1
  /\ fst (reconcileCACertificates cs w1) = None
  /\ secrets w !! ("default", "demo-ca") = None
  /\ result o = {| ctrl.Requeue := false; ctrl.RequeueAfter := 5000000000 |}
  /\ err o = None
  /\ writes o = []
  /\ certificateSets w' !! demo.req = Some cs
  /\ meta.FindStatusCondition (v1alpha1.Conditions (v1alpha1.Status cs))
                              ConditionTypeProgressing = None.
Proof.
  vm_compute. repeat split; reflexivity.
Qed.

(** C3, amended.  On every reconciliation in which the CA creation phase
    succeeds and the oracle reports the CA secret as not ready (absent, or
    without one of the three fields), the engine asks to be run again after
    the fixed delay of 5 seconds and returns no error.  It sets no
    condition: [setCondition] is not called, no request is made after the
    readiness query, no request of the attempt writes a CertificateSet
    (no status patch), and the stored CertificateSets are as before. *)
Theorem gateA_wait_requeues_without_condition :
  forall (now : Z) (req : NamespacedName) (w w1 w2 w3 : World)
         (cs : v1alpha1.CertificateSet),
    wf w ->
    fetched req w cs w1 ->
    reconcileCACertificates cs w1 = (None, w2) ->
    isSecretReady (v1alpha1.GetNamespace cs) (CAName cs) w2 = ((false, None), w3) ->
    Reconcile now req w
    = ({| result := {| ctrl.Requeue := false; ctrl.RequeueAfter := 5 * time.Second |};
          err := None;
          writes := [] |}, w3)
    /\ certificateSets w3 = certificateSets w
    /\ exists l, calls w3 = (calls w ++ l)%list /\ Forall leavesParent l.
Proof.
  intros now req w w1 w2 w3 cs Hwf Hfetched Hca Hready.
  split.
  - destruct Hfetched as (Hget & Hdel & Hfin).
    unfold Reconcile, bind. rewrite Hget, Hdel, Hfin. simpl.
    rewrite Hca, Hready. reflexivity.
  - assert (R1 := fetched_reach _ _ _ _ Hwf Hfetched).
    assert (Hwf1 := reach_wf _ _ _ R1 Hwf).
    assert (R2 := reconcileCACertificates_reach _ _ _ _ Hwf1 Hca).
    assert (Hwf2 := reach_wf _ _ _ R2 Hwf1).
    assert (R3 := isSecretReady_reach _ _ _ _ _ Hwf2 Hready).
    assert (R : reach childCall w w3).
    { apply (reach_weaken certificateCall); [|exact certificateCall_childCall].
      eapply reach_trans; [exact R1|]. eapply reach_trans; [exact R2|exact R3]. }
    split.
    + apply (reach_certificateSets _ _ _ R). exact childCall_leavesParent.
    + destruct R as (l & Rl & F). exists l. split; [exact (run_calls _ _ _ Rl)|].
      eapply List.Forall_impl; [|exact F]. exact childCall_leavesParent.
Qed.

Lemma gateA_wait_requeues_without_condition_witness :
  let cs := demo.certificateSet "client" false false "selfsigned"
                                [finalizerName] None [] in
  let w := demo.world [cs] [] [] [] [] in
  let w1 := snd (Get (T := v1alpha1.CertificateSet) demo.req w) in
  let w2 := snd (reconcileCACertificates cs w1) in
  let w3 := snd (isSecretReady "default" "demo-ca" w2) in
  wf w
  /\ fetched demo.req w cs w1
  /\ reconcileCACertificates cs w1 = (None, w2)
  /\ isSecretReady (v1alpha1.GetNamespace cs) (CAName cs) w2 = ((false, None), w3)
  /\ Reconcile 100 demo.req w
     = ({| result := {| ctrl.Requeue := false; ctrl.RequeueAfter := 5 * time.Second |};
           err := None; writes := [] |}, w3)
  /\ certificateSets w3 = certificateSets w.
Proof.
  intros cs w w1 w2 w3.
  assert (Hwf : wf w) by apply wf_demo_world.
  assert (Hfetched : fetched demo.req w cs w1).
  { split; [vm_compute; reflexivity|]. split; vm_compute; reflexivity. }
  assert (Hca : reconcileCACertificates cs w1 = (None, w2))
    by (vm_compute; reflexivity).
  assert (Hready : isSecretReady (v1alpha1.GetNamespace cs) (CAName cs) w2
                   = ((false, None), w3))
    by (vm_compute; reflexivity).
  destruct (gateA_wait_requeues_without_condition 100 demo.req w w1 w2 w3 cs
              Hwf Hfetched Hca Hready) as (Hrec & Hcss & _).
  split; [exact Hwf|]. split; [exact Hfetched|]. split; [exact Hca|].
  split; [exact Hready|]. split; [exact Hrec | exact Hcss].
Defined.
(** ** The derived-secrets phase without the ArgoCD namespace *)

Lemma append_inj_l (s a b : string) : s +:+ a = s +:+ b -> a = b.
Proof.
  induction s as [|c s IH]; simpl; [auto|]. intros [= H]. auto.
Qed.

Lemma kubeconfig_is_not_registration cs :
  (v1alpha1.GetNamespace cs, KubeconfigName cs)
  <> (ArgoCDNamespace, ArgoCDClusterName cs).
Proof.
  intros [= _ H]. unfold KubeconfigName, ArgoCDClusterName in H.
  apply append_inj_l in H. discriminate.
Qed.

(** After [setCondition] the condition of that type carries the arguments
    and the generation of the object. *)
Lemma setCondition_post now cs ty st rs msg :
  exists c,
    meta.FindStatusCondition
      (v1alpha1.Conditions (v1alpha1.Status (snd (setCondition now cs ty st rs msg)))) ty
    = Some c
    /\ metav1.Status c = st /\ metav1.Reason c = rs /\ metav1.Message c = msg
    /\ metav1.ObservedGeneration c = v1alpha1.GetGeneration cs.
Proof.
  destruct (fst (setCondition now cs ty st rs msg)) eqn:E.
  - unfold setCondition in *.
    destruct (match meta.FindStatusCondition _ _ with Some _ => _ | None => _ end);
      simpl in *; [discriminate|].
    destruct (FindStatusCondition_SetStatusCondition now
                (v1alpha1.Conditions (v1alpha1.Status cs))
                {| metav1.Type_ := ty; metav1.Status := st;
                   metav1.ObservedGeneration := v1alpha1.GetGeneration cs;
                   metav1.LastTransitionTime := 0;
                   metav1.Reason := rs; metav1.Message := msg |})
      as (c & Hf & _ & H1 & H2 & H3 & H4).
    exists c. simpl in *. tauto.
  - assert (E' := E). apply setCondition_false in E' as (c & Hf & Hm).
    unfold setCondition in *.
    destruct (match meta.FindStatusCondition _ _ with Some _ => _ | None => _ end);
      simpl in *; [|discriminate].
    exists c. unfold matches in Hm. tauto.
Qed.

(** A status patch that succeeds leaves the status of the object in memory
    in the store, when the stored status was that of the snapshot. *)
Lemma patchStatus_stored cs original stored w patchErr cs' w' :
  certificateSets w !! ObjectKeyFromObject cs = Some stored ->
  v1alpha1.Status stored = v1alpha1.Status original ->
  patchStatus cs original w = ((patchErr, cs'), w') ->
  patchErr = None ->
  exists stored', certificateSets w' !! ObjectKeyFromObject cs = Some stored'
                  /\ v1alpha1.Status stored' = v1alpha1.Status cs.
Proof.
  intros Hs Hst. unfold patchStatus, StatusPatch, bind. simpl.
  destruct (faults w (tick w)); simpl; [intros [= <- _ _]; discriminate|].
  rewrite Hs. destruct (decide (v1alpha1.Status cs = v1alpha1.Status original)) as [He|Hne];
    simpl; intros [= <- _ <-] _; simpl.
  - exists stored. split; [exact Hs | congruence].
  - eexists. split; [apply lookup_insert_eq | reflexivity].
Qed.

Lemma reconcileArgoCDClusterSecret_namespace_missing cs certData w r w' :
  v1alpha1.ArgocdCluster (v1alpha1.Spec cs) = true ->
  namespaces w !! (EmptyString, ArgoCDNamespace) = None ->
  reconcileArgoCDClusterSecret cs certData w = (r, w') ->
  (exists e, r = Some e) /\ reach (fun c => verb c = VGet) w w'.
Proof.
  intros Hargo Hns. unfold reconcileArgoCDClusterSecret, bind. rewrite Hargo.
  rewrite Get_eq. simpl. rewrite Hns.
  assert (R : reach (fun c => verb c = VGet) w
                    (snd (request VGet "Namespace" (EmptyString, ArgoCDNamespace) w))).
  { eexists. split; [apply request_run|]. repeat constructor. }
  destruct (faults w (tick w)); simpl; intros [= <- <-];
    (split; [eexists; reflexivity | exact R]).
Qed.

Lemma reconcileDerivedSecrets_namespace_missing cs certData w r w' :
  wf w ->
  v1alpha1.ArgocdCluster (v1alpha1.Spec cs) = true ->
  namespaces w !! (EmptyString, ArgoCDNamespace) = None ->
  reconcileDerivedSecrets cs certData w = (r, w') ->
  (exists e, r = Some e)
  /\ reach (fun c => verb c = VGet
                     \/ onObject "Secret" (v1alpha1.GetNamespace cs, KubeconfigName cs) c)
           w w'.
Proof.
  intros Hwf Hargo Hns. unfold reconcileDerivedSecrets.
  assert (Hlast : forall w0 r0 w0', namespaces w0 !! (EmptyString, ArgoCDNamespace) = None ->
            reconcileArgoCDClusterSecret cs certData w0 = (r0, w0') ->
            (exists e, r0 = Some e)
            /\ reach (fun c => verb c = VGet
                               \/ onObject "Secret"
                                    (v1alpha1.GetNamespace cs, KubeconfigName cs) c)
                     w0 w0').
  { intros w0 r0 w0' Hns0 H0.
    destruct (reconcileArgoCDClusterSecret_namespace_missing _ _ _ _ _ Hargo Hns0 H0)
      as (He & l & R & F).
    split; [exact He|]. exists l. split; [exact R|].
    eapply List.Forall_impl; [|exact F]. intros c Hc. left. exact Hc. }
  destruct (v1alpha1.Kubeconfig (v1alpha1.Spec cs)); [|apply Hlast; exact Hns].
  simpl.
  destruct (SetControllerReference _ _ _) as [secret|e] eqn:E.
  2:{ intros [= <- <-]. split; [eexists; reflexivity | apply reach_refl]. }
  apply SetControllerReference_key in E; [|reflexivity].
  unfold bind. destruct (createOrUpdateSecret secret ["value"] w) as [err w1] eqn:Hc.
  assert (R1 : reach (fun c => verb c = VGet
                               \/ onObject "Secret"
                                    (v1alpha1.GetNamespace cs, KubeconfigName cs) c)
                     w w1).
  { eapply emits_reach;
      [apply emits_createOrUpdateSecret | | exact Hwf | exact Hc].
    intros c Hk. right. rewrite E in Hk. exact Hk. }
  destruct err as [e|].
  - intros [= <- <-]. split; [eexists; reflexivity | exact R1].
  - intros H2.
    assert (Hns1 : namespaces w1 !! (EmptyString, ArgoCDNamespace) = None).
    { rewrite (reach_namespaces _ _ _ R1); [exact Hns|].
      intros c [Hv|[Hk _]] Hw; [contradiction|]. rewrite Hk. discriminate. }
    destruct (Hlast _ _ _ Hns1 H2) as (He & R2).
    split; [exact He|]. eapply reach_trans; eassumption.
Qed.

(** C5.  If [argocdCluster] is true and the namespace [beget-argocd] does
    not exist, every reconciliation attempt that gets to the derived-secrets
    phase fails there: [reconcileDerivedSecrets] returns an error, the
    engine calls [setCondition] for [Degraded] = true with reason
    [DerivedSecretsFailed] and the message of the error, patches the status
    (after a successful patch the stored object carries that condition) and
    returns the error with the zero [Result], that is without any requeue
    request.  No request of the attempt writes the secret
    [<name>-argocd-cluster] of [beget-argocd]: the store has it no more
    than before. *)
Theorem missing_argocd_namespace_fails_hard :
  forall (now : Z) (req : NamespacedName) (w w1 w3 w6 : World)
         (cs : v1alpha1.CertificateSet) (certData : CertificateData),
    wf w ->
    v1alpha1.ArgocdCluster (v1alpha1.Spec cs) = true ->
    namespaces w !! (EmptyString, ArgoCDNamespace) = None ->
    fetched req w cs w1 ->
    passesGateA cs w1 w3 ->
    passesGateB cs w3 certData w6 ->
    let registration := (ArgoCDNamespace, ArgoCDClusterName cs) in
    exists (e : error) (w7 : World),
      reconcileDerivedSecrets cs certData w6 = (Some e, w7)
      /\ let marked := setCondition now cs ConditionTypeDegraded metav1.ConditionTrue
                                    "DerivedSecretsFailed" (Error e) in
         let patched := patchStatus (snd marked) cs w7 in
         let w' := snd patched in
         Reconcile now req w
         = ({| result := ctrl.zero;
               err := Some e;
               writes := [ {| condType := ConditionTypeDegraded;
                              condStatus := metav1.ConditionTrue;
                              condReason := "DerivedSecretsFailed";
                              condMessage := Error e;
                              changed := fst marked |} ] |}, w')
         /\ (fst (fst patched) = None ->
             exists stored c,
               certificateSets w' !! req = Some stored
               /\ meta.FindStatusCondition
                    (v1alpha1.Conditions (v1alpha1.Status stored))
                    ConditionTypeDegraded = Some c
               /\ metav1.Status c = metav1.ConditionTrue
               /\ metav1.Reason c = "DerivedSecretsFailed"
               /\ metav1.Message c = Error e)
         /\ secrets w' !! registration = secrets w !! registration
         /\ exists l, calls w' = (calls w ++ l)%list
                      /\ Forall (fun c => ~ (isWrite c
                                             /\ onObject "Secret" registration c)) l.
Proof.
  intros now req w w1 w3 w6 cs certData Hwf Hargo Hns Hfetched HgateA HgateB registration.
  assert (Hneeds : needsClientCerts cs = true).
  { unfold needsClientCerts. rewrite Hargo. apply orb_true_r. }
  assert (R1 := fetched_reach _ _ _ _ Hwf Hfetched).
  assert (Hwf1 := reach_wf _ _ _ R1 Hwf).
  assert (R2 := passesGateA_reach _ _ _ Hwf1 HgateA).
  assert (Hwf3 := reach_wf _ _ _ R2 Hwf1).
  assert (R3 := passesGateB_reach _ _ _ _ Hwf3 HgateB).
  assert (Hwf6 := reach_wf _ _ _ R3 Hwf3).
  assert (R6 : reach certificateCall w w6).
  { eapply reach_trans; [exact R1|]. eapply reach_trans; eassumption. }
  assert (Hns6 : namespaces w6 !! (EmptyString, ArgoCDNamespace) = None).
  { rewrite (reach_namespaces _ _ _ R6); [exact Hns|].
    intros c [Hv|[Hk|Hk]] Hw; [contradiction| |]; rewrite Hk; discriminate. }
  destruct (reconcileDerivedSecrets cs certData w6) as [r w7] eqn:Hd.
  destruct (reconcileDerivedSecrets_namespace_missing _ _ _ _ _ Hwf6 Hargo Hns6 Hd)
    as ((e & ->) & R7).
  assert (Hwf7 := reach_wf _ _ _ R7 Hwf6).
  exists e, w7. split; [reflexivity|].
  intros marked patched w'.
  (* what the calls up to the patch are *)
  set (Q := fun c : Call => leavesParent c
                            /\ ~ (isWrite c /\ onObject "Secret" registration c)).
  assert (RQ : reach Q w w7).
  { eapply reach_trans.
    - apply (reach_weaken _ _ _ _ R6). intros c Hc. split.
      + apply childCall_leavesParent, certificateCall_childCall, Hc.
      + intros (Hw & Hk & _). destruct Hc as [Hv|[Hk'|Hk']];
          [contradiction| |]; rewrite Hk in Hk'; discriminate.
    - apply (reach_weaken _ _ _ _ R7). intros c Hc. split.
      + intros Hw. destruct Hc as [Hv|[Hk _]]; [contradiction|].
        rewrite Hk. discriminate.
      + intros (Hw & Hk & Hkey). destruct Hc as [Hv|[_ Hkey']]; [contradiction|].
        rewrite Hkey in Hkey'. symmetry in Hkey'.
        exact (kubeconfig_is_not_registration cs Hkey'). }
  destruct (fetched_stored _ _ _ _ Hwf Hfetched) as (Hstored & Hkey & _).
  assert (Hkeym : ObjectKeyFromObject (snd marked) = req).
  { rewrite <- Hkey. unfold marked, setCondition.
    destruct (match meta.FindStatusCondition _ _ with Some _ => _ | None => _ end);
      reflexivity. }
  assert (Hstored7 : certificateSets w7 !! ObjectKeyFromObject (snd marked) = Some cs).
  { rewrite Hkeym, (reach_certificateSets _ _ _ RQ); [exact Hstored|].
    intros c [Hc _]. exact Hc. }
  assert (Rp : reach (fun c => c = theCall (T := v1alpha1.CertificateSet) VStatusPatch req)
                     w7 w').
  { eapply emits_reach;
      [apply (emits_patchStatus (snd marked) cs) | | exact Hwf7 | ].
    - intros c ->. rewrite Hkeym. reflexivity.
    - unfold w', patched. apply surjective_pairing. }
  split.
  { rewrite (Reconcile_gateA now req w cs w1 w3 Hfetched HgateA).
    rewrite (reconcileClientCredentials_gateB now cs cs w3 certData w6 Hneeds HgateB).
    rewrite Hd. unfold degraded, set, bind. simpl. fold marked.
    destruct marked as [wasNew cs'] eqn:Hm. simpl.
    unfold w', patched. simpl.
    destruct (patchStatus cs' cs w7) as [[perr cs''] w8]. reflexivity. }
  split.
  { intros Hok.
    destruct (patchStatus (snd marked) cs w7) as [[perr cs''] w8] eqn:Hp.
    simpl in Hok. subst perr.
    destruct (patchStatus_stored _ _ _ _ _ _ _ Hstored7 eq_refl Hp eq_refl)
      as (stored' & Hs' & Hst').
    destruct (setCondition_post now cs ConditionTypeDegraded metav1.ConditionTrue
                                "DerivedSecretsFailed" (Error e))
      as (c & Hf & H1 & H2 & H3 & _).
    exists stored', c. unfold w', patched. simpl.
    rewrite <- Hkeym. split; [exact Hs'|]. rewrite Hst'. fold marked in Hf. tauto. }
  assert (RQ' : reach (fun c => ~ (isWrite c /\ onObject "Secret" registration c)) w w').
  { eapply reach_trans.
    - apply (reach_weaken _ _ _ _ RQ). intros c [_ Hc]. exact Hc.
    - apply (reach_weaken _ _ _ _ Rp). intros c -> (_ & Hk & _). discriminate. }
  split.
  - apply (reach_secret _ _ _ _ RQ'). intros c Hc Hw Hkind Hkeyc.
    apply Hc. split; [exact Hw|]. split; assumption.
  - destruct RQ' as (l & R & F). exists l. split; [exact (run_calls _ _ _ R) | exact F].
Qed.

Lemma missing_argocd_namespace_fails_hard_witness :
  let cs := demo.certificateSet "client" true true "selfsigned"
                                [finalizerName] None [] in
  let w := demo.world [cs] [] [] [demo.bundle "demo-ca"; demo.bundle "demo-super-admin"] [] in
  let w1 := snd (Get (T := v1alpha1.CertificateSet) demo.req w) in
  let w2 := snd (reconcileCACertificates cs w1) in
  let w3 := snd (isSecretReady "default" "demo-ca" w2) in
  let w4 := snd (reconcileClientCertificates cs w3) in
  let w5 := snd (isSecretReady "default" "demo-super-admin" w4) in
  let certData :=
    {| CACert := "Y2E="; TLSCert := "Y2VydA=="; TLSKey := "a2V5" |} in
  let w6 := snd (getCertificateData "default" "demo-super-admin" w5) in
  wf w
  /\ v1alpha1.ArgocdCluster (v1alpha1.Spec cs) = true
  /\ namespaces w !! (EmptyString, ArgoCDNamespace) = None
  /\ fetched demo.req w cs w1
  /\ passesGateA cs w1 w3
  /\ passesGateB cs w3 certData w6
  /\ exists e wasNew w',
      Reconcile 100 demo.req w
      = ({| result := ctrl.zero;
            err := Some e;
            writes := [ {| condType := ConditionTypeDegraded;
                           condStatus := metav1.ConditionTrue;
                           condReason := "DerivedSecretsFailed";
                           condMessage := Error e;
                           changed := wasNew |} ] |}, w')
      /\ secrets w' !! (ArgoCDNamespace, ArgoCDClusterName cs)
         = secrets w !! (ArgoCDNamespace, ArgoCDClusterName cs).
Proof.
  intros cs w w1 w2 w3 w4 w5 certData w6.
  assert (Hwf : wf w) by apply wf_demo_world.
  assert (Hargo : v1alpha1.ArgocdCluster (v1alpha1.Spec cs) = true) by reflexivity.
  assert (Hns : namespaces w !! (EmptyString, ArgoCDNamespace) = None)
    by (vm_compute; reflexivity).
  assert (Hfetched : fetched demo.req w cs w1).
  { split; [vm_compute; reflexivity|]. split; vm_compute; reflexivity. }
  assert (HgateA : passesGateA cs w1 w3).
  { exists w2. split; vm_compute; reflexivity. }
  assert (HgateB : passesGateB cs w3 certData w6).
  { exists w4, w5. split; [vm_compute; reflexivity|].
    split; vm_compute; reflexivity. }
  destruct (missing_argocd_namespace_fails_hard 100 demo.req w w1 w3 w6 cs certData
              Hwf Hargo Hns Hfetched HgateA HgateB)
    as (e & w7 & _ & Hrec & _ & Hsecret & _).
  split; [exact Hwf|]. split; [exact Hargo|]. split; [exact Hns|].
  split; [exact Hfetched|]. split; [exact HgateA|]. split; [exact HgateB|].
  eexists. eexists. eexists. split; [exact Hrec | exact Hsecret].
Defined.
(** ** The readiness of all resources *)

Section Readiness.

(** One query of the oracle: its answer and the world after it. *)
Lemma isCertificateReady_inv namespace name w ready err w' :
  isCertificateReady namespace name w = ((ready, err), w') ->
  certificates w' = certificates w
  /\ issuers w' = issuers w
  /\ calls w' = (calls w ++ [readCertificate namespace name])%list
  /\ (ready = true -> err = None /\ certificateReady w namespace name).
Proof.
  unfold isCertificateReady, bind. rewrite Get_eq. simpl.
  destruct (faults w (tick w)); simpl.
  { intros [= <- <- <-]. simpl. repeat split; discriminate. }
  destruct (certificates w !! (namespace, name)) as [cert|] eqn:Hc; simpl.
  - intros [= <- <- <-]. simpl. split; [reflexivity|]. split; [reflexivity|].
    split; [reflexivity|]. intros Hr. split; [reflexivity|].
    exists cert. split; [exact Hc|]. apply conditionIsTrue_reportsReady. exact Hr.
  - intros [= <- <- <-]. simpl. repeat split; discriminate.
Qed.

Lemma isIssuerReady_inv namespace name w ready err w' :
  isIssuerReady namespace name w = ((ready, err), w') ->
  certificates w' = certificates w
  /\ issuers w' = issuers w
  /\ calls w' = (calls w ++ [readIssuer namespace name])%list
  /\ (ready = true -> err = None /\ issuerReady w namespace name).
Proof.
  unfold isIssuerReady, bind. rewrite Get_eq. simpl.
  destruct (faults w (tick w)); simpl.
  { intros [= <- <- <-]. simpl. repeat split; discriminate. }
  destruct (issuers w !! (namespace, name)) as [issuer|] eqn:Hc; simpl.
  - intros [= <- <- <-]. simpl. split; [reflexivity|]. split; [reflexivity|].
    split; [reflexivity|]. intros Hr. split; [reflexivity|].
    exists issuer. split; [exact Hc|]. apply conditionIsTrue_reportsReady. exact Hr.
  - intros [= <- <- <-]. simpl. repeat split; discriminate.
Qed.

(** The loop over the certificates.  It ends normally only if every
    certificate was found ready; it stops at the first certificate that
    is not, after the reads of the certificates up to that one. *)
Lemma checkCertificatesReady_inv namespace certNames w stopped w' :
  checkCertificatesReady namespace certNames w = (stopped, w') ->
  certificates w' = certificates w
  /\ issuers w' = issuers w
  /\ match stopped with
     | None =>
       calls w' = (calls w ++ List.map (readCertificate namespace) certNames)%list
       /\ forall name, In name certNames -> certificateReady w namespace name
     | Some (reason, err) =>
       exists before name after w0,
         certNames = (before ++ name :: after)%list
         /\ (forall n, In n before -> certificateReady w namespace n)
         /\ calls w' = (calls w ++ List.map (readCertificate namespace)
                                          (before ++ [name]))%list
         /\ certificates w0 = certificates w
         /\ match err with
            | None =>
              fst (isCertificateReady namespace name w0) = (false, None)
              /\ reason = "Certificate " +:+ name +:+ " is not ready"
            | Some e =>
              fst (isCertificateReady namespace name w0) = (false, Some e)
              /\ reason = "error checking Certificate " +:+ name +:+ ": " +:+ Error e
            end
     end.
Proof.
  revert w. induction certNames as [|name rest IH]; intros w; simpl.
  - intros [= <- <-]. split; [reflexivity|]. split; [reflexivity|].
    split; [symmetry; apply app_nil_r | intros ? []].
  - unfold bind. destruct (isCertificateReady namespace name w) as [[ready err] w1] eqn:H1.
    destruct (isCertificateReady_inv _ _ _ _ _ _ H1) as (Hc1 & Hi1 & Hl1 & Hr1).
    destruct err as [e|].
    { intros [= <- <-]. split; [exact Hc1|]. split; [exact Hi1|].
      exists [], name, rest, w. simpl. split; [reflexivity|]. split; [intros ? []|].
      split; [exact Hl1|]. split; [reflexivity|].
      rewrite H1. simpl. split; [|reflexivity].
      destruct ready; [|reflexivity]. destruct (Hr1 eq_refl) as [? _]. discriminate. }
    destruct ready; simpl.
    + intros H2. destruct (IH _ H2) as (Hc2 & Hi2 & Hrest).
      destruct (Hr1 eq_refl) as [_ Hready].
      split; [congruence|]. split; [congruence|].
      assert (Hcr : forall n, certificateReady w1 namespace n -> certificateReady w namespace n).
      { intros n (cert & Hs & Hrr). exists cert. rewrite <- Hc1. auto. }
      destruct stopped as [[reason err]|].
      * destruct Hrest as (before & n & after & w0 & -> & Hb & Hl & Hc0 & Hn).
        exists (name :: before), n, after, w0. simpl. split; [reflexivity|].
        split; [intros n' [<-|Hin]; [exact Hready | apply Hcr, Hb, Hin]|].
        split; [rewrite Hl, Hl1, <- app_assoc; reflexivity|].
        split; [congruence | exact Hn].
      * destruct Hrest as (Hl & Hall). split.
        -- rewrite Hl, Hl1, <- app_assoc. reflexivity.
        -- intros n' [<-|Hin]; [exact Hready | apply Hcr, Hall, Hin].
    + intros [= <- <-]. split; [exact Hc1|]. split; [exact Hi1|].
      exists [], name, rest, w. simpl. split; [reflexivity|]. split; [intros ? []|].
      split; [exact Hl1|]. split; [reflexivity|].
      rewrite H1. simpl. split; reflexivity.
Qed.

Lemma AllCertificateNames_spec cs name :
  In name (AllCertificateNames cs) <->
  name = CAName cs
  \/ (isSystemOrInfra (v1alpha1.Environment (v1alpha1.Spec cs)) = true
      /\ (name = ETCDName cs \/ name = ProxyName cs \/ name = CAOIDCName cs))
  \/ (needsClientCerts cs = true /\ name = SuperAdminName cs).
Proof.
  unfold AllCertificateNames, needsClientCerts.
  destruct (isSystemOrInfra _); destruct (_ || _); simpl;
    intuition (congruence || auto).
Qed.

(** [checkAllResourcesReady] answers true only if all certificates and,
    when client certificates are needed, the issuer were found ready. *)
Lemma checkAllResourcesReady_true cs w reason err w' :
  checkAllResourcesReady cs w = ((true, reason, err), w') ->
  err = None
  /\ reason = EmptyString
  /\ (forall name, In name (AllCertificateNames cs) ->
                   certificateReady w (v1alpha1.GetNamespace cs) name)
  /\ (needsClientCerts cs = true ->
      issuerReady w (v1alpha1.GetNamespace cs) (CAName cs)).
Proof.
  unfold checkAllResourcesReady, bind, needsClientCerts.
  destruct (checkCertificatesReady _ _ w) as [stopped w1] eqn:H1.
  destruct (checkCertificatesReady_inv _ _ _ _ _ H1) as (Hc1 & Hi1 & Hrest).
  destruct stopped as [[r e]|]; [discriminate|].
  destruct Hrest as (_ & Hall).
  destruct (_ || _).
  - destruct (isIssuerReady _ _ w1) as [[ready e] w2] eqn:H2.
    destruct (isIssuerReady_inv _ _ _ _ _ _ H2) as (_ & _ & _ & Hr).
    destruct e; [discriminate|]. destruct ready; simpl; [|discriminate].
    intros [= <- <- <-]. split; [reflexivity|]. split; [reflexivity|].
    split; [exact Hall|]. intros _.
    destruct (Hr eq_refl) as (_ & issuer & Hs & Hrr).
    exists issuer. rewrite <- Hi1. auto.
  - intros [= <- <- <-]. split; [reflexivity|]. split; [reflexivity|].
    split; [exact Hall | discriminate].
Qed.

(** When it answers false without error, the reason names the first
    resource found not ready, and nothing is read after that one. *)
Lemma checkAllResourcesReady_false cs w reason w' :
  checkAllResourcesReady cs w = ((false, reason, None), w') ->
  let namespace := v1alpha1.GetNamespace cs in
  (exists before name after w0,
      AllCertificateNames cs = (before ++ name :: after)%list
      /\ (forall n, In n before -> certificateReady w namespace n)
      /\ certificates w0 = certificates w
      /\ fst (isCertificateReady namespace name w0) = (false, None)
      /\ reason = "Certificate " +:+ name +:+ " is not ready"
      /\ calls w' = (calls w ++ List.map (readCertificate namespace)
                                       (before ++ [name]))%list)
  \/ ((forall n, In n (AllCertificateNames cs) -> certificateReady w namespace n)
      /\ needsClientCerts cs = true
      /\ (exists w0, issuers w0 = issuers w
                     /\ fst (isIssuerReady namespace (CAName cs) w0) = (false, None))
      /\ reason = "Issuer " +:+ CAName cs +:+ " is not ready"
      /\ calls w' = (calls w ++ List.map (readCertificate namespace)
                                       (AllCertificateNames cs)
                     ++ [readIssuer namespace (CAName cs)])%list).
Proof.
  unfold checkAllResourcesReady, bind, needsClientCerts.
  destruct (checkCertificatesReady _ _ w) as [stopped w1] eqn:H1.
  destruct (checkCertificatesReady_inv _ _ _ _ _ H1) as (Hc1 & Hi1 & Hrest).
  destruct stopped as [[r e]|].
  - intros [= <- -> <-]. left.
    destruct Hrest as (before & name & after & w0 & Hn & Hb & Hl & Hc0 & Hq & Hr).
    exists before, name, after, w0. tauto.
  - destruct Hrest as (Hl & Hall).
    destruct (_ || _); [|discriminate].
    destruct (isIssuerReady _ _ w1) as [[ready e] w2] eqn:H2.
    destruct (isIssuerReady_inv _ _ _ _ _ _ H2) as (_ & _ & Hl2 & Hr).
    destruct e; [discriminate|]. destruct ready; simpl; [discriminate|].
    intros [= <- <-]. right. split; [exact Hall|]. split; [reflexivity|].
    split; [exists w1; split; [exact Hi1 | rewrite H2; reflexivity]|].
    split; [reflexivity|]. rewrite Hl2, Hl, <- app_assoc. reflexivity.
Qed.

(** Where the outcome of an attempt comes from when [Ready] was set to
    true in it. *)
Lemma degraded_writes now cs csOriginal reason e w o w' wr :
  degraded now (cs, []) csOriginal reason e w = (o, w') ->
  In wr (writes o) -> condType wr = ConditionTypeDegraded.
Proof.
  unfold degraded, set, bind. simpl.
  destruct (setCondition _ _ _ _ _ _) as [ch cs']. simpl.
  destruct (patchStatus _ _ _) as [? ?]. intros [= <- <-]. simpl.
  intros [<-|[]]. reflexivity.
Qed.

Lemma reconcileReadiness_sets_ready now cs csOriginal w8 o w' wr :
  reconcileReadiness now cs csOriginal w8 = (o, w') ->
  In wr (writes o) -> setsReadyTrue wr ->
  condReason wr = "AllResourcesReady"
  /\ exists w9, checkAllResourcesReady cs w8 = ((true, EmptyString, None), w9).
Proof.
  unfold reconcileReadiness, bind, setsReadyTrue.
  destruct (checkAllResourcesReady cs w8) as [[[allReady reason] err] w9] eqn:Hc.
  destruct err as [e|].
  { unfold set. simpl.
    repeat match goal with
           | |- context [setCondition ?a ?b ?c ?d ?e ?f] =>
             destruct (setCondition a b c d e f) as [? ?]; simpl
           end.
    destruct (patchStatus _ _ _) as [? ?]. intros [= <- <-]. simpl.
    intros [<-|[<-|[]]] [Ht Hs]; simpl in *; discriminate. }
  destruct allReady; simpl.
  - destruct (checkAllResourcesReady_true _ _ _ _ _ Hc) as (_ & -> & _).
    unfold set. simpl.
    repeat match goal with
           | |- context [setCondition ?a ?b ?c ?d ?e ?f] =>
             destruct (setCondition a b c d e f) as [? ?]; simpl
           end.
    destruct (patchStatus _ _ _) as [[[?|] ?] ?]; intros [= <- <-]; simpl;
      (intros [<-|[<-|[<-|[]]]] [Ht Hs]; simpl in *; try discriminate;
       split; [reflexivity | exists w9; reflexivity]).
  - unfold set. simpl.
    repeat match goal with
           | |- context [setCondition ?a ?b ?c ?d ?e ?f] =>
             destruct (setCondition a b c d e f) as [? ?]; simpl
           end.
    destruct (patchStatus _ _ _) as [[[?|] ?] ?]; intros [= <- <-]; simpl;
      intros [<-|[<-|[<-|[]]]] [Ht Hs]; simpl in *; discriminate.
Qed.

Lemma Reconcile_sets_ready now req w o w' wr :
  Reconcile now req w = (o, w') ->
  In wr (writes o) -> setsReadyTrue wr ->
  exists cs w8, reachesReadiness req w cs w8
                /\ reconcileReadiness now cs cs w8 = (o, w').
Proof.
  intros Hrec Hin Hset.
  assert (Hdeg : forall cs reason e w0,
             degraded now (cs, []) cs reason e w0 = (o, w') -> False).
  { intros cs reason e w0 Hd. destruct Hset as [Ht _].
    rewrite (degraded_writes _ _ _ _ _ _ _ _ _ Hd Hin) in Ht. discriminate. }
  unfold Reconcile, bind in Hrec.
  destruct (Get req w) as [[cs|e] w1] eqn:Hget.
  2:{ destruct (IsNotFound e); injection Hrec as <- <-;
        simpl in Hin; contradiction. }
  destruct (time.IsZero _) eqn:Hdel; simpl in Hrec.
  2:{ unfold reconcileDelete, bind in Hrec.
      destruct (deleteSecretIfExists _ _ _) as [[?|] ?];
        [|destruct (Update _ _) as [[?|] ?]];
        injection Hrec as <- <-; simpl in Hin; contradiction. }
  destruct (ContainsFinalizer cs finalizerName) eqn:Hfin; simpl in Hrec.
  2:{ destruct (Update _ _) as [[?|] ?];
        injection Hrec as <- <-; simpl in Hin; contradiction. }
  destruct (reconcileCACertificates cs w1) as [[e|] w2] eqn:Hca.
  { exfalso. eapply Hdeg. exact Hrec. }
  destruct (isSecretReady _ _ w2) as [[ready [e|]] w3] eqn:Hready.
  { injection Hrec as <- <-. simpl in Hin; contradiction. }
  destruct ready; simpl in Hrec.
  2:{ injection Hrec as <- <-. simpl in Hin; contradiction. }
  assert (Hfetched : fetched req w cs w1) by (repeat split; assumption).
  assert (HgateA : passesGateA cs w1 w3) by (exists w2; split; assumption).
  (* steps 3 to 5 *)
  assert (Hclean : forall w7,
             reconcileCleanup now cs cs w7 = (o, w') ->
             exists w8,
               (if v1alpha1.ArgocdCluster (v1alpha1.Spec cs)
                then w8 = w7
                else deleteSecretIfExists ArgoCDNamespace (ArgoCDClusterName cs) w7
                     = (None, w8))
               /\ reconcileReadiness now cs cs w8 = (o, w')).
  { intros w7. unfold reconcileCleanup, bind.
    destruct (v1alpha1.ArgocdCluster (v1alpha1.Spec cs)); simpl.
    - intros H. exists w7. split; [reflexivity | exact H].
    - destruct (deleteSecretIfExists _ _ w7) as [[e|] w8] eqn:Hd.
      + intros H. exfalso. eapply Hdeg. exact H.
      + intros H. exists w8. split; [reflexivity | exact H]. }
  exists cs.
  unfold reconcileClientCredentials, bind in Hrec.
  fold (needsClientCerts cs) in Hrec.
  destruct (needsClientCerts cs) eqn:Hneeds.
  - destruct (reconcileClientCertificates cs w3) as [[e|] w4] eqn:Hclient.
    { exfalso. eapply Hdeg. exact Hrec. }
    destruct (isSecretReady _ _ w4) as [[ready [e|]] w5] eqn:Hready2.
    { injection Hrec as <- <-. simpl in Hin; contradiction. }
    destruct ready; simpl in Hrec.
    2:{ injection Hrec as <- <-. simpl in Hin; contradiction. }
    destruct (getCertificateData _ _ w5) as [[certData|e] w6] eqn:Hdata.
    2:{ injection Hrec as <- <-. simpl in Hin; contradiction. }
    destruct (reconcileDerivedSecrets cs certData w6) as [[e|] w7] eqn:Hderived.
    { exfalso. eapply Hdeg. exact Hrec. }
    destruct (Hclean _ Hrec) as (w8 & Hc8 & Hr8).
    exists w8. split; [|exact Hr8].
    exists w1, w3, w7. split; [exact Hfetched|]. split; [exact HgateA|].
    rewrite Hneeds. split; [|exact Hc8].
    exists certData, w6. split; [|exact Hderived].
    exists w4, w5. repeat split; assumption.
  - destruct (Hclean _ Hrec) as (w8 & Hc8 & Hr8).
    exists w8. split; [|exact Hr8].
    exists w1, w3, w3. split; [exact Hfetched|]. split; [exact HgateA|].
    rewrite Hneeds. split; [reflexivity | exact Hc8].
Qed.

End Readiness.

(** C4.  Reconciliation sets [Ready] to true only with the reason
    [AllResourcesReady] and only in an attempt that got as far as the
    readiness check with every Certificate of [AllCertificateNames] and,
    when [kubeconfig] or [argocdCluster] is true, the Issuer stored and
    reporting a condition of type [Ready] with status [True].
    [AllCertificateNames] is the CA always, etcd, proxy and ca-oidc for the
    environments system and infra, and super-admin when [kubeconfig] or
    [argocdCluster] is true.  When the check answers false without error,
    it has stopped at the first resource the oracle found not ready: the
    resources before it were ready, nothing is read after it, and the
    reason names it; that reason is the message of the [Ready] and
    [Progressing] conditions the attempt then sets. *)
Theorem ready_is_set_only_when_all_resources_are_ready :
  (forall (now : Z) (req : NamespacedName) (w w' : World) (o : Outcome)
          (wr : ConditionWrite),
      Reconcile now req w = (o, w') ->
      In wr (writes o) -> setsReadyTrue wr ->
      condReason wr = "AllResourcesReady"
      /\ exists cs w8,
          reachesReadiness req w cs w8
          /\ (forall name, In name (AllCertificateNames cs) ->
                           certificateReady w8 (v1alpha1.GetNamespace cs) name)
          /\ (needsClientCerts cs = true ->
              issuerReady w8 (v1alpha1.GetNamespace cs) (CAName cs)))
  /\ (forall (cs : v1alpha1.CertificateSet) (name : string),
         In name (AllCertificateNames cs) <->
         name = CAName cs
         \/ (isSystemOrInfra (v1alpha1.Environment (v1alpha1.Spec cs)) = true
             /\ (name = ETCDName cs \/ name = ProxyName cs \/ name = CAOIDCName cs))
         \/ (needsClientCerts cs = true /\ name = SuperAdminName cs))
  /\ (forall (cs : v1alpha1.CertificateSet) (w w' : World) (reason : string),
         checkAllResourcesReady cs w = ((false, reason, None), w') ->
         let namespace := v1alpha1.GetNamespace cs in
         (exists before name after w0,
             AllCertificateNames cs = (before ++ name :: after)%list
             /\ (forall n, In n before -> certificateReady w namespace n)
             /\ certificates w0 = certificates w
             /\ fst (isCertificateReady namespace name w0) = (false, None)
             /\ reason = "Certificate " +:+ name +:+ " is not ready"
             /\ calls w' = (calls w ++ List.map (readCertificate namespace)
                                              (before ++ [name]))%list)
         \/ ((forall n, In n (AllCertificateNames cs) -> certificateReady w namespace n)
             /\ needsClientCerts cs = true
             /\ (exists w0, issuers w0 = issuers w
                            /\ fst (isIssuerReady namespace (CAName cs) w0)
                               = (false, None))
             /\ reason = "Issuer " +:+ CAName cs +:+ " is not ready"
             /\ calls w' = (calls w ++ List.map (readCertificate namespace)
                                              (AllCertificateNames cs)
                            ++ [readIssuer namespace (CAName cs)])%list))
  /\ (forall (now : Z) (req : NamespacedName) (w w8 w9 : World)
             (cs : v1alpha1.CertificateSet) (reason : string),
         reachesReadiness req w cs w8 ->
         checkAllResourcesReady cs w8 = ((false, reason, None), w9) ->
         List.map (fun wr => (condType wr, condStatus wr, condReason wr, condMessage wr))
                  (writes (fst (Reconcile now req w)))
         = [ (ConditionTypeReady, metav1.ConditionFalse, "WaitingForResources", reason);
             (ConditionTypeProgressing, metav1.ConditionTrue, "ResourcesPending", reason);
             (ConditionTypeDegraded, metav1.ConditionFalse, "Healthy", "No errors") ]).
Proof.
  split; [|split; [|split]].
  - intros now req w w' o wr Hrec Hin Hset.
    destruct (Reconcile_sets_ready _ _ _ _ _ _ Hrec Hin Hset) as (cs & w8 & Hreach & Hr).
    destruct (reconcileReadiness_sets_ready _ _ _ _ _ _ _ Hr Hin Hset) as (Hreason & w9 & Hc).
    split; [exact Hreason|]. exists cs, w8. split; [exact Hreach|].
    destruct (checkAllResourcesReady_true _ _ _ _ _ Hc) as (_ & _ & Hcerts & Hissuer).
    split; assumption.
  - exact AllCertificateNames_spec.
  - intros cs w w' reason. apply checkAllResourcesReady_false.
  - intros now req w w8 w9 cs reason Hreach Hc.
    rewrite (Reconcile_reachesReadiness now _ _ _ _ Hreach).
    unfold reconcileReadiness, bind. rewrite Hc. simpl.
    unfold set. simpl.
    repeat match goal with
           | |- context [setCondition ?a ?b ?c ?d ?e ?f] =>
             destruct (setCondition a b c d e f) as [? ?]; simpl
           end.
    destruct (patchStatus _ _ _) as [[[?|] ?] ?]; reflexivity.
Qed.

Lemma ready_is_set_only_when_all_resources_are_ready_witness :
  let cs := demo.certificateSet "client" false false "selfsigned"
                                [finalizerName] None [] in
  let w := demo.world [cs] [demo.issued (buildCACertificate cs)] []
                      [demo.bundle "demo-ca"] [] in
  let wr := {| condType := ConditionTypeReady;
               condStatus := metav1.ConditionTrue;
               condReason := "AllResourcesReady";
               condMessage := "All certificate resources created and ready";
               changed := true |} in
  In wr (writes (fst (Reconcile 100 demo.req w)))
  /\ setsReadyTrue wr
  /\ exists cs' w8,
      reachesReadiness demo.req w cs' w8
      /\ certificateReady w8 (v1alpha1.GetNamespace cs') (CAName cs').
Proof.
  intros cs w wr.
  assert (Hin : In wr (writes (fst (Reconcile 100 demo.req w)))).
  { vm_compute. left. reflexivity. }
  assert (Hset : setsReadyTrue wr) by (split; reflexivity).
  destruct ready_is_set_only_when_all_resources_are_ready as (Hready & Hnames & _).
  destruct (Hready 100 demo.req w _ _ wr (surjective_pairing _) Hin Hset)
    as (_ & cs' & w8 & Hreach & Hcerts & _).
  split; [exact Hin|]. split; [exact Hset|].
  exists cs', w8. split; [exact Hreach|].
  apply Hcerts. apply Hnames. left. reflexivity.
Defined.
(** ** Reconciling a converged object again *)

(** Against C2 as stated: a converged world, reconciled once more.  The
    attempt changes nothing in the store and each of the three calls of
    [setCondition] returns false, yet it sends a status patch. *)
Lemma converged_rerun_still_patches_status :
  let w := demo.convergedWorld in
  let o := fst (Reconcile 300 demo.req w) in
  let w' := snd (Reconcile 300 demo.req w) in
  certificateSets w !! demo.req = Some demo.convergedSet
  /\ converged demo.convergedSet
  /\ o = {| result := ctrl.zero; err := None;
            writes := terminalWrites false false false |}
  /\ certificateSets w' = certificateSets w
  /\ certificates w' = certificates w
  /\ secrets w' = secrets w
  /\ calls w'
     = [ theCall (T := v1alpha1.CertificateSet) VGet demo.req;
         theCall (T := certmanagerv1.Certificate) VGet ("default", "demo-ca");
         theCall (T := corev1.Secret) VGet ("default", "demo-ca");
         theCall (T := corev1.Secret) VGet ("beget-argocd", "demo-argocd-cluster");
         theCall (T := certmanagerv1.Certificate) VGet ("default", "demo-ca");
         theCall (T := v1alpha1.CertificateSet) VStatusPatch demo.req ].
Proof.
  split; [vm_compute; reflexivity|]. split.
  - split; [|split]; (eexists; split; [reflexivity | repeat split]).
  - split; [vm_compute; reflexivity|]. split; [vm_compute; reflexivity|].
    split; [vm_compute; reflexivity|]. split; vm_compute; reflexivity.
Qed.

Lemma setCondition_noop now cs ty st rs msg :
  hasCondition cs ty st rs msg -> setCondition now cs ty st rs msg = (false, cs).
Proof.
  intros H. apply (proj2 (setCondition_false now cs ty st rs msg)) in H.
  unfold setCondition in *.
  destruct (match meta.FindStatusCondition _ _ with Some _ => _ | None => _ end);
    simpl in *; [reflexivity | discriminate].
Qed.

(** A status patch of an object whose status is that of the snapshot: the
    request is sent, the store stays as it is. *)
Lemma patchStatus_same_status cs original w r w' :
  v1alpha1.Status cs = v1alpha1.Status original ->
  patchStatus cs original w = (r, w') ->
  calls w' = (calls w ++ [theCall (T := v1alpha1.CertificateSet) VStatusPatch
                                  (ObjectKeyFromObject cs)])%list
  /\ certificateSets w' = certificateSets w
  /\ certificates w' = certificates w
  /\ issuers w' = issuers w
  /\ secrets w' = secrets w.
Proof.
  intros Hs. unfold patchStatus, StatusPatch, bind. simpl.
  destruct (faults w (tick w)); simpl.
  { intros [= <- <-]. simpl. repeat split; reflexivity. }
  destruct (certificateSets w !! ObjectKeyFromObject cs); simpl.
  - destruct (decide (v1alpha1.Status cs = v1alpha1.Status original)); [|contradiction].
    simpl. intros [= <- <-]. simpl. repeat split; reflexivity.
  - intros [= <- <-]. simpl. repeat split; reflexivity.
Qed.

(** C2, amended.  A full reconciliation of a converged CertificateSet (it
    carries the three conditions of a complete reconciliation against its
    current generation, every phase succeeds and all resources are ready)
    calls [setCondition] three times and each call returns false, so the
    status in memory stays that of the snapshot.  The status patch is sent
    all the same, once, as the last request of the attempt and the only
    one that addresses a CertificateSet for writing; its delta is empty
    and the stored CertificateSets are unchanged. *)
Theorem converged_rerun_leaves_status_unchanged :
  forall (now : Z) (req : NamespacedName) (w w8 w9 : World)
         (cs : v1alpha1.CertificateSet) (reason : string) (checkErr : option error),
    wf w ->
    reachesReadiness req w cs w8 ->
    checkAllResourcesReady cs w8 = ((true, reason, checkErr), w9) ->
    converged cs ->
    exists (patchErr : option error) (w' : World) (l : list Call),
      Reconcile now req w
      = ({| result := ctrl.zero; err := patchErr;
            writes := terminalWrites false false false |}, w')
      /\ calls w9 = (calls w ++ l)%list
      /\ Forall leavesParent l
      /\ calls w' = (calls w9 ++ [theCall (T := v1alpha1.CertificateSet)
                                          VStatusPatch req])%list
      /\ certificateSets w' = certificateSets w.
Proof.
  intros now req w w8 w9 cs reason checkErr Hwf Hreach Hc (Hready & Hdegraded & Hprogressing).
  destruct (checkAllResourcesReady_true _ _ _ _ _ Hc) as (-> & -> & _).
  assert (R8 := reachesReadiness_reach _ _ _ _ Hwf Hreach).
  assert (Hwf8 := reach_wf _ _ _ R8 Hwf).
  assert (R9 : reach childCall w w9).
  { eapply reach_trans; [exact R8|].
    eapply emits_reach; [apply emits_checkAllResourcesReady | | exact Hwf8 | exact Hc].
    intros c Hv. left. exact Hv. }
  assert (Hkey : ObjectKeyFromObject cs = req).
  { destruct Hreach as (w1 & _ & _ & Hfetched & _).
    apply (fetched_stored _ _ _ _ Hwf Hfetched). }
  destruct (patchStatus cs cs w9) as [[patchErr cs'] w'] eqn:Hp.
  destruct (patchStatus_same_status _ _ _ _ _ eq_refl Hp) as (Hcalls & Hcss & _).
  exists patchErr, w'.
  destruct R9 as (l & R & F). exists l.
  split.
  { rewrite (Reconcile_reachesReadiness now _ _ _ _ Hreach).
    unfold reconcileReadiness, bind. rewrite Hc. simpl.
    unfold set. simpl.
    rewrite (setCondition_noop _ _ _ _ _ _ Hready). simpl.
    rewrite (setCondition_noop _ _ _ _ _ _ Hdegraded). simpl.
    rewrite (setCondition_noop _ _ _ _ _ _ Hprogressing). simpl.
    rewrite Hp. destruct patchErr; reflexivity. }
  split; [exact (run_calls _ _ _ R)|].
  split; [eapply List.Forall_impl; [|exact F]; exact childCall_leavesParent|].
  split; [rewrite Hcalls, Hkey; reflexivity|].
  rewrite Hcss.
  apply (untouched_eq _ _ _ _ _ (run_certificateSets _ _ _ R)).
  eapply List.Forall_impl; [|exact F]. exact childCall_leavesParent.
Qed.

Lemma keyed_decide {T} `{Object T} (m : gmap NamespacedName T) :
  bool_decide (map_Forall (fun n obj => ObjectKeyFromObject obj = n) m) = true ->
  keyed m.
Proof. intros Hd. apply bool_decide_eq_true_1 in Hd. exact Hd. Qed.

Lemma wf_convergedWorld : wf demo.convergedWorld.
Proof.
  constructor; apply keyed_decide; vm_compute; reflexivity.
Qed.

Lemma converged_rerun_leaves_status_unchanged_witness :
  let w := demo.convergedWorld in
  let w1 := snd (Get (T := v1alpha1.CertificateSet) demo.req w) in
  let cs := demo.convergedSet in
  let w2 := snd (reconcileCACertificates cs w1) in
  let w3 := snd (isSecretReady "default" "demo-ca" w2) in
  let w8 := snd (deleteSecretIfExists "beget-argocd" "demo-argocd-cluster" w3) in
  let w9 := snd (checkAllResourcesReady cs w8) in
  wf w
  /\ reachesReadiness demo.req w cs w8
  /\ checkAllResourcesReady cs w8 = ((true, EmptyString, None), w9)
  /\ converged cs
  /\ exists w', Reconcile 300 demo.req w
                = ({| result := ctrl.zero; err := None;
                      writes := terminalWrites false false false |}, w')
                /\ certificateSets w' = certificateSets w.
Proof.
  intros w w1 cs w2 w3 w8 w9.
  assert (Hwf : wf w) by exact wf_convergedWorld.
  assert (Hreach : reachesReadiness demo.req w cs w8).
  { exists w1, w3, w3.
    split; [split; [vm_compute; reflexivity | split; vm_compute; reflexivity]|].
    split; [exists w2; split; vm_compute; reflexivity|].
    split; [vm_compute; reflexivity | vm_compute; reflexivity]. }
  assert (Hc : checkAllResourcesReady cs w8 = ((true, EmptyString, None), w9))
    by (vm_compute; reflexivity).
  assert (Hconv : converged cs).
  { split; [|split]; (eexists; split; [reflexivity | repeat split]). }
  destruct (converged_rerun_leaves_status_unchanged 300 demo.req w w8 w9 cs _ _
              Hwf Hreach Hc Hconv)
    as (patchErr & w' & l & Hrec & _ & _ & _ & Hcss).
  assert (Hnone : patchErr = None).
  { assert (Hrec' := Hrec). vm_compute in Hrec'. injection Hrec' as <- _. reflexivity. }
  subst patchErr.
  split; [exact Hwf|]. split; [exact Hreach|]. split; [exact Hc|].
  split; [exact Hconv|]. exists w'. split; [exact Hrec | exact Hcss].
Defined.
(** ** A change of the issuer reference after the CA certificate exists *)

(** Against C1 as stated: a first attempt creates the CA Certificate of
    [default/demo] with the issuer reference [selfsigned] of the parent.
    The parent is then edited to refer to [corporate-ca].  The next attempt
    reads the existing Certificate, copies the spec built from the edited
    parent over it and sends an update: the stored CA Certificate now
    refers to [corporate-ca].  [createOrUpdateCertificate] goes through
    [controllerutil.CreateOrUpdate], which is create-or-update, not
    create-if-absent. *)
Lemma existing_CA_certificate_follows_issuerRef_change :
  let before := demo.certificateSet "client" false false "selfsigned"
                                    [finalizerName] None [] in
  let edited := demo.certificateSet "client" false false "corporate-ca"
                                    [finalizerName] None [] in
  let created := snd (Reconcile 100 demo.req (demo.world [before] [] [] [] [])) in
  let after := snd (Reconcile 200 demo.req (demo.replaceSet edited created)) in
  let issuerOf (w : World) :=
    option_map (fun c => cmmeta.Name (certmanagerv1.IssuerRef (certmanagerv1.Spec c)))
               (certificates w !! ("default", "demo-ca")) in
  issuerOf created = Some "selfsigned"
  /\ issuerOf after = Some "corporate-ca"
  /\ calls after
     = (calls created
        ++ [ theCall (T := v1alpha1.CertificateSet) VGet demo.req;
             theCall (T := certmanagerv1.Certificate) VGet ("default", "demo-ca");
             theCall (T := certmanagerv1.Certificate) VUpdate ("default", "demo-ca");
             theCall (T := corev1.Secret) VGet ("default", "demo-ca") ])%list.
Proof.
  split; [vm_compute; reflexivity|]. split; vm_compute; reflexivity.
Qed.

(** ** The names of the children *)
Section Names.

Lemma list_ascii_of_string_app (a b : string) :
  list_ascii_of_string (a +:+ b)
  = (list_ascii_of_string a ++ list_ascii_of_string b)%list.
Proof. induction a as [|c a IH]; simpl; [reflexivity | rewrite IH; reflexivity]. Qed.

(** Two names that end in different characters differ. *)
Lemma append_last_char (n1 n2 p1 p2 : string) (c1 c2 : ascii) :
  n1 +:+ (p1 +:+ String c1 EmptyString) = n2 +:+ (p2 +:+ String c2 EmptyString) ->
  c1 = c2.
Proof.
  intros E. apply (f_equal list_ascii_of_string) in E.
  rewrite !list_ascii_of_string_app in E. simpl in E.
  rewrite !app_assoc in E. apply app_inj_tail in E. tauto.
Qed.

(** A common suffix cancels. *)
Lemma append_inj_r (n1 n2 s : string) : n1 +:+ s = n2 +:+ s -> n1 = n2.
Proof.
  intros E. apply (f_equal list_ascii_of_string) in E.
  rewrite !list_ascii_of_string_app in E. apply app_inv_tail in E.
  rewrite <- (string_of_list_ascii_of_string n1), E.
  apply string_of_list_ascii_of_string.
Qed.

End Names.

Ltac names_differ E :=
  exfalso; unfold suffixCA, suffixSuperAdmin, suffixETCD, suffixProxy, suffixCAOIDC,
           suffixKubeconfig, suffixArgoCDCluster in E;
  match type of E with
  | _ +:+ ?s1 = _ +:+ ?s2 =>
    let r1 := eval vm_compute in (String.rev s1) in
    let r2 := eval vm_compute in (String.rev s2) in
    match r1 with
    | String ?c1 ?p1 =>
      match r2 with
      | String ?c2 ?p2 =>
        let q1 := eval vm_compute in (String.rev p1) in
        let q2 := eval vm_compute in (String.rev p2) in
        change s1 with (q1 +:+ String c1 EmptyString) in E;
        change s2 with (q2 +:+ String c2 EmptyString) in E;
        apply append_last_char in E; discriminate E
      end
    end
  end.

(** X1: the names of the children never collide. *)
Theorem child_names_never_collide :
  forall (cs1 cs2 : v1alpha1.CertificateSet) (i j : nat) (name : string),
    childNames cs1 !! i = Some name ->
    childNames cs2 !! j = Some name ->
    i = j /\ v1alpha1.GetName cs1 = v1alpha1.GetName cs2.
Proof.
  intros cs1 cs2 i j name Hi Hj.
  assert (E : childNames cs1 !! i = childNames cs2 !! j) by congruence.
  clear Hj.
  unfold childNames, CAName, SuperAdminName, ETCDName, ProxyName, CAOIDCName,
    KubeconfigName, ArgoCDClusterName in *.
  do 7 (destruct i as [|i]; [
    do 7 (destruct j as [|j]; [
      simpl in E; injection E as E;
      first [ split; [reflexivity | exact (append_inj_r _ _ _ E)]
            | names_differ E ] |]);
    simpl in E; rewrite (lookup_nil j) in E; discriminate E |]).
  simpl in Hi. rewrite lookup_nil in Hi. discriminate Hi.
Qed.

Lemma child_names_never_collide_witness :
  let cs := demo.certificateSet "client" true true "selfsigned" [] None [] in
  childNames cs !! 5%nat = Some "demo-kubeconfig"
  /\ (5 = 5)%nat /\ v1alpha1.GetName cs = v1alpha1.GetName cs.
Proof.
  intros cs. split; [reflexivity|].
  apply (child_names_never_collide cs cs 5 5 "demo-kubeconfig"); reflexivity.
Defined.

(** X2: [AllCertificateNames] lists every certificate once: the CA name
    first, three more names in the environments [system] and [infra], one
    more when client certificates are needed. *)
Theorem AllCertificateNames_lists_each_certificate_once :
  forall cs : v1alpha1.CertificateSet,
    List.NoDup (AllCertificateNames cs)
    /\ head (AllCertificateNames cs) = Some (CAName cs)
    /\ length (AllCertificateNames cs)
       = (1 + (if isSystemOrInfra (v1alpha1.Environment (v1alpha1.Spec cs)) then 3 else 0)
          + (if needsClientCerts cs then 1 else 0))%nat.
Proof.
  intros cs. unfold AllCertificateNames, needsClientCerts.
  destruct (isSystemOrInfra _), (_ || _); simpl;
    (split; [|split; reflexivity]);
    repeat (constructor;
            [ simpl; intros H;
              repeat (destruct H as [H|H];
                      [ unfold CAName, SuperAdminName, ETCDName, ProxyName, CAOIDCName in H;
                        apply append_inj_l in H; discriminate H |]);
              exact H |]);
    constructor.
Qed.

(** X3: in the environment [system] the OIDC certificate is a CA
    certificate like the others, under the OIDC name; in [infra] with an
    OIDC issuer it differs from one in three fields: it is no CA, it is
    signed by the OIDC issuer, and it asks for no key usages. *)
Theorem buildOIDCCertificate_by_environment :
  forall cs : v1alpha1.CertificateSet,
    (v1alpha1.Environment (v1alpha1.Spec cs) = v1alpha1.EnvironmentSystem ->
     buildOIDCCertificate cs = buildCACertificateWithName cs (CAOIDCName cs))
    /\ (forall oidc : v1alpha1.IssuerReference,
           v1alpha1.Environment (v1alpha1.Spec cs) = v1alpha1.EnvironmentInfra ->
           v1alpha1.IssuerRefOidc (v1alpha1.Spec cs) = Some oidc ->
           buildOIDCCertificate cs
           = setUsages
               (setIssuerRef
                  (setIsCA (buildCACertificateWithName cs (CAOIDCName cs)) false)
                  (objectReference oidc))
               []).
Proof.
  intros cs. unfold buildOIDCCertificate, buildCACertificateWithName. split.
  - intros ->. reflexivity.
  - intros oidc -> ->. reflexivity.
Qed.

Lemma buildOIDCCertificate_by_environment_witness :
  let cs := demo.certificateSet "system" false false "selfsigned" [] None [] in
  buildOIDCCertificate cs = buildCACertificateWithName cs "demo-ca-oidc".
Proof.
  intros cs.
  exact (proj1 (buildOIDCCertificate_by_environment cs) eq_refl).
Defined.

(** ** What a request leaves in the store *)
Section Outcomes.
Context {T : Type} `{Object T} (L : Lawful T).

Lemma Get_objects n w r w' :
  Get (T := T) n w = (r, w') ->
  objects w' = objects w
  /\ w' = snd (request VGet KindOf n w)
  /\ match r with
     | Ok obj => objects w !! n = Some obj /\ faults w (tick w) = None
     | Err e =>
       if IsNotFound e
       then objects w !! n = None /\ faults w (tick w) = None
       else exists msg, faults w (tick w) = Some msg
                        /\ e = StatusError StatusReasonInternalError msg
     end.
Proof.
  rewrite Get_eq. rewrite (law_request T L).
  intros [= <- <-]. split; [apply (law_request T L)|]. split; [reflexivity|].
  destruct (faults w (tick w)) as [msg|]; simpl.
  - exists msg. split; reflexivity.
  - destruct (objects w !! n); simpl; split; reflexivity.
Qed.

Lemma Create_objects obj w r w' :
  Create obj w = (r, w') ->
  match r with
  | None => objects w !! ObjectKeyFromObject obj = None
            /\ objects w' = <[ObjectKeyFromObject obj := obj]> (objects w)
  | Some e => objects w' = objects w
  end.
Proof.
  unfold Create, bind.
  destruct (request VCreate KindOf (ObjectKeyFromObject obj) w) as [f w1] eqn:E.
  assert (Hw1 : objects w1 = objects w).
  { replace w1 with (snd (request VCreate KindOf (ObjectKeyFromObject obj) w))
      by (rewrite E; reflexivity). apply (law_request T L). }
  destruct f; [intros [= <- <-]; exact Hw1|].
  destruct (objects w1 !! ObjectKeyFromObject obj) eqn:El; intros [= <- <-].
  - exact Hw1.
  - rewrite (law_objects T L). rewrite <- Hw1. split; [exact El | reflexivity].
Qed.

Lemma Update_objects obj w r w' :
  Update obj w = (r, w') ->
  match r with
  | None => is_Some (objects w !! ObjectKeyFromObject obj)
            /\ objects w' = <[ObjectKeyFromObject obj := obj]> (objects w)
  | Some e => objects w' = objects w
  end.
Proof.
  unfold Update, bind.
  destruct (request VUpdate KindOf (ObjectKeyFromObject obj) w) as [f w1] eqn:E.
  assert (Hw1 : objects w1 = objects w).
  { replace w1 with (snd (request VUpdate KindOf (ObjectKeyFromObject obj) w))
      by (rewrite E; reflexivity). apply (law_request T L). }
  destruct f; [intros [= <- <-]; exact Hw1|].
  destruct (objects w1 !! ObjectKeyFromObject obj) eqn:El; intros [= <- <-].
  - rewrite (law_objects T L). rewrite <- Hw1. split; [rewrite El; eauto | reflexivity].
  - exact Hw1.
Qed.

(** A request that meets no fault and finds what it needs goes through. *)
Lemma Get_Some n w obj :
  faults w (tick w) = None -> objects w !! n = Some obj ->
  Get (T := T) n w = (Ok obj, snd (request VGet KindOf n w)).
Proof.
  intros Hf Ho. rewrite Get_eq, Hf, (law_request T L), Ho. reflexivity.
Qed.

Lemma Get_None n w :
  faults w (tick w) = None -> objects w !! n = None ->
  Get (T := T) n w = (Err (NewNotFound KindOf (snd n)), snd (request VGet KindOf n w)).
Proof.
  intros Hf Ho. rewrite Get_eq, Hf, (law_request T L), Ho. reflexivity.
Qed.

End Outcomes.

(** ** Derived secrets: the managed keys *)
Section ManagedKeys.

Lemma secretDataEqualForKeys_iff (existing new : gmap string string) keys :
  secretDataEqualForKeys existing new keys = true
  <-> (forall k, In k keys -> existing !! k = new !! k).
Proof.
  induction keys as [|k rest IH]; simpl.
  - split; [intros _ k [] | reflexivity].
  - destruct (existing !! k) as [ev|] eqn:Ee, (new !! k) as [nv|] eqn:En.
    + destruct (String.eqb_spec ev nv) as [->|Hne].
      * rewrite IH. split.
        -- intros Hr k' [<-|Hin]; [congruence | auto].
        -- intros Hr k' Hin. apply Hr. right. exact Hin.
      * split; [discriminate|]. intros Hr. exfalso. apply Hne.
        specialize (Hr k (or_introl eq_refl)). congruence.
    + split; [discriminate|]. intros Hr.
      specialize (Hr k (or_introl eq_refl)). congruence.
    + split; [discriminate|]. intros Hr.
      specialize (Hr k (or_introl eq_refl)). congruence.
    + rewrite IH. split.
      * intros Hr k' [<-|Hin]; [congruence | auto].
      * intros Hr k' Hin. apply Hr. right. exact Hin.
Qed.

Lemma copyKeys_other (existing new : gmap string string) keys k :
  ~ In k keys -> copyKeys existing new keys !! k = existing !! k.
Proof.
  revert existing. induction keys as [|k0 rest IH]; simpl; intros existing Hk.
  - reflexivity.
  - rewrite IH by tauto. apply lookup_insert_ne. intros ->. tauto.
Qed.

Lemma copyKeys_listed (existing new : gmap string string) keys k :
  In k keys -> copyKeys existing new keys !! k = Some (dataOf new k).
Proof.
  revert existing. induction keys as [|k0 rest IH]; simpl; intros existing Hk.
  - destruct Hk.
  - destruct (in_dec string_dec k rest) as [Hin|Hnin].
    + apply IH. exact Hin.
    + destruct Hk as [->|Hin]; [|tauto].
      rewrite copyKeys_other by exact Hnin. apply lookup_insert_eq.
Qed.

Lemma createOrUpdateSecret_eq secret managedKeys w :
  let n := ObjectKeyFromObject secret in
  let w1 := snd (request VGet "Secret" n w) in
  createOrUpdateSecret secret managedKeys w
  = match faults w (tick w) with
    | Some msg => (Some (StatusError StatusReasonInternalError msg), w1)
    | None =>
      match secrets w !! n with
      | None => Create secret w1
      | Some existing =>
        if negb (secretDataEqualForKeys (corev1.Data existing) (corev1.Data secret)
                                        managedKeys)
        then Update {| corev1.ObjectMeta := corev1.ObjectMeta existing;
                       corev1.Type_ := corev1.Type_ existing;
                       corev1.Data := copyKeys (corev1.Data existing)
                                               (corev1.Data secret) managedKeys |} w1
        else (None, w1)
      end
    end.
Proof.
  intros n w1. unfold createOrUpdateSecret, bind. rewrite Get_eq.
  change (objects (snd (request VGet KindOf (ObjectKeyFromObject secret) w)))
    with (secrets w).
  fold n. fold w1.
  destruct (faults w (tick w)); [reflexivity|].
  destruct (secrets w !! n); [destruct (negb _)|]; reflexivity.
Qed.

End ManagedKeys.

(** What a successful [createOrUpdateSecret] leaves in the store. *)
Lemma createOrUpdateSecret_stored (secret : corev1.Secret) (managedKeys : list string)
      (w w' : World) :
    wf w ->
    createOrUpdateSecret secret managedKeys w = (None, w') ->
    let n := ObjectKeyFromObject secret in
    match secrets w !! n with
    | None => secrets w' !! n = Some secret
    | Some existing =>
      exists stored,
        secrets w' !! n = Some stored
        /\ corev1.ObjectMeta stored = corev1.ObjectMeta existing
        /\ corev1.Type_ stored = corev1.Type_ existing
        /\ (forall k, ~ In k managedKeys ->
                      corev1.Data stored !! k = corev1.Data existing !! k)
        /\ (forall k, In k managedKeys -> is_Some (corev1.Data secret !! k) ->
                      corev1.Data stored !! k = corev1.Data secret !! k)
    end
    /\ (forall n', n' <> n -> secrets w' !! n' = secrets w !! n').
Proof.
  intros Hwf Hrun n. revert Hrun.
  rewrite createOrUpdateSecret_eq. fold n.
  set (w1 := snd (request VGet "Secret" n w)).
  destruct (faults w (tick w)); [discriminate|].
  destruct (secrets w !! n) as [existing|] eqn:El.
  - assert (Hkey : ObjectKeyFromObject existing = n)
      by exact (wf_secrets _ Hwf _ _ El).
    destruct (secretDataEqualForKeys _ _ _) eqn:Eq; simpl.
    + intros [= <-]. split; [|reflexivity].
      exists existing. split; [exact El|]. split; [reflexivity|].
      split; [reflexivity|]. split; [reflexivity|].
      intros k Hk _.
      exact (proj1 (secretDataEqualForKeys_iff _ _ _) Eq k Hk).
    + intros Hu. apply (Update_objects Lawful_Secret) in Hu.
      destruct Hu as [_ Hu]. change (objects w') with (secrets w') in Hu.
      change (objects w1) with (secrets w) in Hu.
      change (ObjectKeyFromObject _) with (ObjectKeyFromObject existing) in Hu.
      rewrite Hkey in Hu. rewrite Hu. split.
      * eexists. split; [apply lookup_insert_eq|]. simpl.
        split; [reflexivity|]. split; [reflexivity|]. split.
        -- intros k Hk. apply copyKeys_other. exact Hk.
        -- intros k Hk [v Hv]. rewrite copyKeys_listed by exact Hk.
           unfold dataOf. rewrite Hv. reflexivity.
      * intros n' Hn'. apply lookup_insert_ne. congruence.
  - intros Hc. apply (Create_objects Lawful_Secret) in Hc.
    destruct Hc as [_ Hc]. change (objects w') with (secrets w') in Hc.
    change (objects w1) with (secrets w) in Hc. fold n in Hc. rewrite Hc.
    split; [apply lookup_insert_eq|].
    intros n' Hn'. apply lookup_insert_ne. congruence.
Qed.

(** X4: [secretDataEqualForKeys] compares the two maps at the listed keys
    and nowhere else; a key that is absent on one side only is a
    difference, also when the value on the other side is empty. *)
Theorem secretDataEqualForKeys_compares_listed_keys :
  forall (existing new : gmap string string) (keys : list string),
    (secretDataEqualForKeys existing new keys = true
     <-> (forall k, In k keys -> existing !! k = new !! k))
    /\ (forall k, In k keys -> existing !! k = Some EmptyString -> new !! k = None ->
                  secretDataEqualForKeys existing new keys = false).
Proof.
  intros existing new keys. split; [apply secretDataEqualForKeys_iff|].
  intros k Hk He Hn.
  destruct (secretDataEqualForKeys existing new keys) eqn:E; [|reflexivity].
  apply secretDataEqualForKeys_iff with (k := k) in E; [congruence | exact Hk].
Qed.

(** X5: a successful [createOrUpdateSecret] stores the secret as given
    when there was none; of a secret that was there it keeps the metadata,
    the type and every key that is not managed, and sets the managed keys
    to the given values.  No other secret changes. *)
Theorem createOrUpdateSecret_overwrites_managed_keys_only :
  forall (secret : corev1.Secret) (managedKeys : list string) (w w' : World),
    wf w ->
    createOrUpdateSecret secret managedKeys w = (None, w') ->
    let n := ObjectKeyFromObject secret in
    match secrets w !! n with
    | None => secrets w' !! n = Some secret
    | Some existing =>
      exists stored,
        secrets w' !! n = Some stored
        /\ corev1.ObjectMeta stored = corev1.ObjectMeta existing
        /\ corev1.Type_ stored = corev1.Type_ existing
        /\ (forall k, ~ In k managedKeys ->
                      corev1.Data stored !! k = corev1.Data existing !! k)
        /\ (forall k, In k managedKeys -> is_Some (corev1.Data secret !! k) ->
                      corev1.Data stored !! k = corev1.Data secret !! k)
    end
    /\ (forall n', n' <> n -> secrets w' !! n' = secrets w !! n').
Proof. exact createOrUpdateSecret_stored. Qed.

(** X6: once [createOrUpdateSecret] has succeeded, a second call with the
    same secret finds nothing to do: it reads the secret and writes
    nothing, provided the secret given holds every managed key. *)
Theorem createOrUpdateSecret_settles :
  forall (secret : corev1.Secret) (managedKeys : list string) (w w1 : World),
    wf w ->
    (forall k, In k managedKeys -> is_Some (corev1.Data secret !! k)) ->
    createOrUpdateSecret secret managedKeys w = (None, w1) ->
    faults w1 (tick w1) = None ->
    createOrUpdateSecret secret managedKeys w1
    = (None, snd (request VGet "Secret" (ObjectKeyFromObject secret) w1)).
Proof.
  intros secret managedKeys w w1 Hwf Hkeys Hrun Hf.
  pose proof (createOrUpdateSecret_stored _ _ _ _ Hwf Hrun) as [Hst _].
  rewrite createOrUpdateSecret_eq, Hf.
  assert (Heq : exists stored,
             secrets w1 !! ObjectKeyFromObject secret = Some stored
             /\ secretDataEqualForKeys (corev1.Data stored) (corev1.Data secret)
                                       managedKeys = true).
  { destruct (secrets w !! ObjectKeyFromObject secret) as [existing|].
    - destruct Hst as (stored & Hs & _ & _ & _ & Hd). exists stored.
      split; [exact Hs|]. apply secretDataEqualForKeys_iff. intros k Hk.
      apply Hd; auto.
    - exists secret. split; [exact Hst|]. apply secretDataEqualForKeys_iff.
      reflexivity. }
  destruct Heq as (stored & -> & ->). reflexivity.
Qed.

Lemma secretDataEqualForKeys_compares_listed_keys_witness :
  secretDataEqualForKeys (corev1.Data sample.staleKubeconfig)
                         (corev1.Data sample.freshKubeconfig) ["note"] = false
  /\ secretDataEqualForKeys {[ "value" := EmptyString ]} ∅ ["value"] = false.
Proof.
  split; [reflexivity|].
  apply (proj2 (secretDataEqualForKeys_compares_listed_keys
                  {[ "value" := EmptyString ]} ∅ ["value"]) "value");
    [left; reflexivity | reflexivity | reflexivity].
Defined.

Lemma createOrUpdateSecret_overwrites_managed_keys_only_witness :
  let w := demo.world [] [] [] [sample.staleKubeconfig] [] in
  let w' := snd (createOrUpdateSecret sample.freshKubeconfig ["value"] w) in
  wf w
  /\ createOrUpdateSecret sample.freshKubeconfig ["value"] w = (None, w')
  /\ exists stored,
      secrets w' !! ("default", "demo-kubeconfig") = Some stored
      /\ corev1.ObjectMeta stored = corev1.ObjectMeta sample.staleKubeconfig
      /\ corev1.Data stored !! "note" = Some "keep"
      /\ corev1.Data stored !! "value" = Some "new".
Proof.
  intros w w'.
  assert (Hwf : wf w) by apply wf_demo_world.
  assert (Hrun : createOrUpdateSecret sample.freshKubeconfig ["value"] w = (None, w'))
    by (vm_compute; reflexivity).
  split; [exact Hwf|]. split; [exact Hrun|].
  pose proof (createOrUpdateSecret_overwrites_managed_keys_only
                sample.freshKubeconfig ["value"] w w' Hwf Hrun) as [H _].
  assert (El : secrets w !! ObjectKeyFromObject sample.freshKubeconfig
               = Some sample.staleKubeconfig) by (vm_compute; reflexivity).
  rewrite El in H. destruct H as (stored & Hs & Hm & _ & Hother & Hmanaged).
  exists stored. split; [exact Hs|]. split; [exact Hm|]. split.
  - rewrite Hother; [reflexivity|]. intros [H|[]]. discriminate H.
  - rewrite Hmanaged; [reflexivity | left; reflexivity | eexists; reflexivity].
Defined.

Lemma createOrUpdateSecret_settles_witness :
  let w := demo.world [] [] [] [sample.staleKubeconfig] [] in
  let w1 := snd (createOrUpdateSecret sample.freshKubeconfig ["value"] w) in
  wf w
  /\ createOrUpdateSecret sample.freshKubeconfig ["value"] w = (None, w1)
  /\ createOrUpdateSecret sample.freshKubeconfig ["value"] w1
     = (None, snd (request VGet "Secret" ("default", "demo-kubeconfig") w1)).
Proof.
  intros w w1.
  assert (Hwf : wf w) by apply wf_demo_world.
  assert (Hrun : createOrUpdateSecret sample.freshKubeconfig ["value"] w = (None, w1))
    by (vm_compute; reflexivity).
  split; [exact Hwf|]. split; [exact Hrun|].
  apply (createOrUpdateSecret_settles sample.freshKubeconfig ["value"] w w1 Hwf);
    [|exact Hrun | reflexivity].
  intros k [<-|[]]. eexists. reflexivity.
Defined.

(** ** Certificates and issuers: create or update *)
Section OwnerReferences.

Lemma referSameObject_controllerReference cs :
  referSameObject (controllerReference cs) (controllerReference cs) = true.
Proof.
  unfold referSameObject, controllerReference. simpl.
  rewrite String.eqb_refl. reflexivity.
Qed.

Lemma upsertOwnerRef_controller ref owners :
  metav1.Controller ref = true ->
  match GetControllerOf owners with
  | Some existing => referSameObject existing ref = true
  | None => True
  end ->
  GetControllerOf (upsertOwnerRef ref owners) = Some ref.
Proof.
  intros Hc. unfold GetControllerOf.
  induction owners as [|r rest IH]; simpl; intros H.
  - rewrite Hc. reflexivity.
  - destruct (referSameObject r ref) eqn:Es; simpl.
    + rewrite Hc. reflexivity.
    + destruct (metav1.Controller r) eqn:Er; [congruence|]. apply IH. exact H.
Qed.

Lemma upsertOwnerRef_settles ref owners :
  referSameObject ref ref = true ->
  upsertOwnerRef ref (upsertOwnerRef ref owners) = upsertOwnerRef ref owners.
Proof.
  intros Hr. induction owners as [|r rest IH]; simpl.
  - rewrite Hr. reflexivity.
  - destruct (referSameObject r ref) eqn:Es; simpl.
    + rewrite Hr. reflexivity.
    + rewrite Es, IH. reflexivity.
Qed.

End OwnerReferences.

Section CreateOrUpdate.
Context {T : Type} `{Object T} `{EqDecision T} (L : Lawful T).

(** What a successful [CreateOrUpdate] leaves in the store: the mutated
    object, made from the stored one or, when there was none, from the
    skeleton given. *)
Lemma CreateOrUpdate_stored (obj : T) (f : T -> res T) w op w' :
  CreateOrUpdate obj f w = ((op, None), w') ->
  let n := ObjectKeyFromObject obj in
  exists base obj',
    f base = Ok obj'
    /\ ObjectKeyFromObject obj' = n
    /\ objects w' !! n = Some obj'
    /\ match objects w !! n with
       | Some existing => base = existing
       | None => base = obj
       end
    /\ (forall n', n' <> n -> objects w' !! n' = objects w !! n').
Proof.
  intros Hrun n. revert Hrun. unfold CreateOrUpdate, bind. fold n.
  destruct (Get n w) as [got w1] eqn:Eg.
  apply (Get_objects L) in Eg. destruct Eg as (Ho1 & _ & Hgot).
  destruct got as [existing|e].
  - destruct Hgot as [Hex _]. unfold mutate.
    destruct (f existing) as [obj'|e'] eqn:Ef; [|discriminate].
    destruct (decide (ObjectKeyFromObject obj' = n)) as [Hk|]; [|discriminate].
    destruct (decide (existing = obj')) as [<-|Hne].
    + intros [= _ <-]. exists existing, existing.
      rewrite Ho1, Hex. repeat split; auto.
    + destruct (Update obj' w1) as [r w2] eqn:Eu.
      apply (Update_objects L) in Eu. destruct r; [discriminate|].
      intros [= _ <-]. destruct Eu as [_ Eu]. rewrite Hk, Ho1 in Eu.
      exists existing, obj'. rewrite Eu, Hex.
      split; [exact Ef|]. split; [exact Hk|]. split; [apply lookup_insert_eq|].
      split; [reflexivity|]. intros n' Hn'. apply lookup_insert_ne. congruence.
  - destruct (IsNotFound e) eqn:Enf; simpl; [|discriminate].
    destruct Hgot as [Hex _]. unfold mutate.
    destruct (f obj) as [obj'|e'] eqn:Ef; [|discriminate].
    destruct (decide (ObjectKeyFromObject obj' = n)) as [Hk|]; [|discriminate].
    destruct (Create obj' w1) as [r w2] eqn:Ec.
    apply (Create_objects L) in Ec. destruct r; [discriminate|].
    intros [= _ <-]. destruct Ec as [_ Ec]. rewrite Hk, Ho1 in Ec.
    exists obj, obj'. rewrite Ec, Hex.
    split; [exact Ef|]. split; [exact Hk|]. split; [apply lookup_insert_eq|].
    split; [reflexivity|]. intros n' Hn'. apply lookup_insert_ne. congruence.
Qed.

(** A mutate function that finds its own result in order makes the second
    [CreateOrUpdate] a read. *)
Lemma CreateOrUpdate_settles (obj : T) (f : T -> res T) w op w1 :
  CreateOrUpdate obj f w = ((op, None), w1) ->
  (forall base obj', f base = Ok obj' -> f obj' = Ok obj') ->
  faults w1 (tick w1) = None ->
  CreateOrUpdate obj f w1
  = ((OperationResultNone, None),
     snd (request VGet KindOf (ObjectKeyFromObject obj) w1)).
Proof.
  intros Hrun Hf Hfault.
  destruct (CreateOrUpdate_stored _ _ _ _ _ Hrun) as (base & obj' & Ef & Hk & Hs & _).
  unfold CreateOrUpdate, bind. rewrite (Get_Some L _ _ obj' Hfault Hs).
  unfold mutate. rewrite (Hf _ _ Ef).
  destruct (decide (ObjectKeyFromObject obj' = ObjectKeyFromObject obj)); [|contradiction].
  destruct (decide (obj' = obj')); [reflexivity | contradiction].
Qed.

(** A mutate function that fails on the stored object stops
    [CreateOrUpdate] after the read. *)
Lemma CreateOrUpdate_refused (obj : T) (f : T -> res T) w existing e :
  faults w (tick w) = None ->
  objects w !! ObjectKeyFromObject obj = Some existing ->
  f existing = Err e ->
  CreateOrUpdate obj f w
  = ((OperationResultNone, Some e),
     snd (request VGet KindOf (ObjectKeyFromObject obj) w)).
Proof.
  intros Hfault Hs Hf. unfold CreateOrUpdate, bind.
  rewrite (Get_Some L _ _ existing Hfault Hs). unfold mutate. rewrite Hf. reflexivity.
Qed.

End CreateOrUpdate.

Section Mutate.

Lemma SetControllerReference_Ok {T : Type} `{Object T}
      (Lget : forall (o : T) m, GetObjectMeta (SetObjectMeta o m) = m)
      (Lset : forall (o : T) m m', SetObjectMeta (SetObjectMeta o m) m' = SetObjectMeta o m')
      (cs : v1alpha1.CertificateSet) (controlled controlled' : T) :
  SetControllerReference GroupVersion cs controlled = Ok controlled' ->
  controlled'
  = SetObjectMeta controlled
      (metav1.withOwnerReferences (GetObjectMeta controlled)
         (upsertOwnerRef (controllerReference cs)
                         (metav1.OwnerReferences (GetObjectMeta controlled))))
  /\ controlledBy cs (GetObjectMeta controlled')
  /\ SetControllerReference GroupVersion cs controlled' = Ok controlled'.
Proof.
  unfold SetControllerReference. fold (controllerReference cs).
  destruct (negb _ && String.eqb _ _) eqn:E1; [discriminate|].
  destruct (negb _ && negb _) eqn:E2; [discriminate|].
  assert (Hc : match GetControllerOf (metav1.OwnerReferences (GetObjectMeta controlled)) with
               | Some existing => referSameObject existing (controllerReference cs) = true
               | None => True
               end ->
               forall controlled',
               controlled'
               = SetObjectMeta controlled
                   (metav1.withOwnerReferences (GetObjectMeta controlled)
                      (upsertOwnerRef (controllerReference cs)
                         (metav1.OwnerReferences (GetObjectMeta controlled)))) ->
               controlledBy cs (GetObjectMeta controlled')
               /\ SetControllerReference GroupVersion cs controlled' = Ok controlled').
  { intros Hex c' ->. unfold controlledBy. rewrite Lget. simpl.
    pose proof (upsertOwnerRef_controller (controllerReference cs) _ eq_refl Hex) as Hup.
    split; [exact Hup|].
    unfold SetControllerReference. fold (controllerReference cs).
    rewrite Lget. simpl in E1, E2 |- *.
    rewrite E1, E2, Hup, referSameObject_controllerReference.
    rewrite upsertOwnerRef_settles by apply referSameObject_controllerReference.
    rewrite Lset. reflexivity. }
  destruct (GetControllerOf _) as [existing|] eqn:Eg.
  - destruct (referSameObject existing _) eqn:Es; [|discriminate].
    intros [= <-]. split; [reflexivity|]. apply Hc; reflexivity.
  - intros [= <-]. split; [reflexivity|]. apply Hc; [exact I | reflexivity].
Qed.

Lemma mutateCertificate_Ok cs desired base obj' :
  mutateCertificate cs desired base = Ok obj' ->
  ObjectKeyFromObject obj' = ObjectKeyFromObject base
  /\ certmanagerv1.Spec obj' = certmanagerv1.Spec desired
  /\ metav1.Labels (certmanagerv1.ObjectMeta obj')
     = metav1.Labels (certmanagerv1.ObjectMeta desired)
  /\ metav1.Annotations (certmanagerv1.ObjectMeta obj')
     = metav1.Annotations (certmanagerv1.ObjectMeta desired)
  /\ controlledBy cs (certmanagerv1.ObjectMeta obj')
  /\ certmanagerv1.StatusConditions obj' = certmanagerv1.StatusConditions base
  /\ metav1.Finalizers (certmanagerv1.ObjectMeta obj')
     = metav1.Finalizers (certmanagerv1.ObjectMeta base)
  /\ mutateCertificate cs desired obj' = Ok obj'.
Proof.
  unfold mutateCertificate.
  destruct (SetControllerReference GroupVersion cs base) as [owned|e] eqn:Es;
    [|discriminate].
  apply SetControllerReference_Ok in Es; [|reflexivity|reflexivity].
  destruct Es as (-> & Hby & Hagain). intros [= <-].
  repeat (split; [reflexivity|]). split; [exact Hby|].
  repeat (split; [reflexivity|]).
  match goal with
  | |- match ?s with _ => _ end = _ =>
    assert (Hs : s = Ok (SetObjectMeta (T := certmanagerv1.Certificate)
                           {| certmanagerv1.ObjectMeta := certmanagerv1.ObjectMeta base;
                              certmanagerv1.Spec := certmanagerv1.Spec desired;
                              certmanagerv1.StatusConditions :=
                                certmanagerv1.StatusConditions base |}
                           (metav1.withOwnerReferences
                              (metav1.withAnnotations
                                 (metav1.withLabels
                                    (certmanagerv1.ObjectMeta base)
                                    (metav1.Labels (certmanagerv1.ObjectMeta desired)))
                                 (metav1.Annotations (certmanagerv1.ObjectMeta desired)))
                              (upsertOwnerRef (controllerReference cs)
                                 (metav1.OwnerReferences (certmanagerv1.ObjectMeta base))))))
  end.
  { revert Hagain. unfold SetControllerReference. simpl.
    fold (controllerReference cs).
    destruct (negb _ && String.eqb _ _); [discriminate|].
    destruct (negb _ && negb _); [discriminate|].
    unfold controlledBy in Hby. simpl in Hby. rewrite Hby.
    rewrite referSameObject_controllerReference.
    rewrite upsertOwnerRef_settles by apply referSameObject_controllerReference.
    reflexivity. }
  rewrite Hs. reflexivity.
Qed.

Lemma mutateIssuer_Ok cs desired base obj' :
  mutateIssuer cs desired base = Ok obj' ->
  ObjectKeyFromObject obj' = ObjectKeyFromObject base
  /\ certmanagerv1.IssuerSpec_ obj' = certmanagerv1.IssuerSpec_ desired
  /\ metav1.Labels (certmanagerv1.IssuerObjectMeta obj')
     = metav1.Labels (certmanagerv1.IssuerObjectMeta desired)
  /\ metav1.Annotations (certmanagerv1.IssuerObjectMeta obj')
     = metav1.Annotations (certmanagerv1.IssuerObjectMeta desired)
  /\ controlledBy cs (certmanagerv1.IssuerObjectMeta obj')
  /\ certmanagerv1.IssuerStatusConditions obj' = certmanagerv1.IssuerStatusConditions base
  /\ metav1.Finalizers (certmanagerv1.IssuerObjectMeta obj')
     = metav1.Finalizers (certmanagerv1.IssuerObjectMeta base)
  /\ mutateIssuer cs desired obj' = Ok obj'.
Proof.
  unfold mutateIssuer.
  destruct (SetControllerReference GroupVersion cs base) as [owned|e] eqn:Es;
    [|discriminate].
  apply SetControllerReference_Ok in Es; [|reflexivity|reflexivity].
  destruct Es as (-> & Hby & Hagain). intros [= <-].
  repeat (split; [reflexivity|]). split; [exact Hby|].
  repeat (split; [reflexivity|]).
  match goal with
  | |- match ?s with _ => _ end = _ =>
    assert (Hs : s = Ok (SetObjectMeta (T := certmanagerv1.Issuer)
                           {| certmanagerv1.IssuerObjectMeta :=
                                certmanagerv1.IssuerObjectMeta base;
                              certmanagerv1.IssuerSpec_ := certmanagerv1.IssuerSpec_ desired;
                              certmanagerv1.IssuerStatusConditions :=
                                certmanagerv1.IssuerStatusConditions base |}
                           (metav1.withOwnerReferences
                              (metav1.withAnnotations
                                 (metav1.withLabels
                                    (certmanagerv1.IssuerObjectMeta base)
                                    (metav1.Labels (certmanagerv1.IssuerObjectMeta desired)))
                                 (metav1.Annotations (certmanagerv1.IssuerObjectMeta desired)))
                              (upsertOwnerRef (controllerReference cs)
                                 (metav1.OwnerReferences
                                    (certmanagerv1.IssuerObjectMeta base))))))
  end.
  { revert Hagain. unfold SetControllerReference. simpl.
    fold (controllerReference cs).
    destruct (negb _ && String.eqb _ _); [discriminate|].
    destruct (negb _ && negb _); [discriminate|].
    unfold controlledBy in Hby. simpl in Hby. rewrite Hby.
    rewrite referSameObject_controllerReference.
    rewrite upsertOwnerRef_settles by apply referSameObject_controllerReference.
    reflexivity. }
  rewrite Hs. reflexivity.
Qed.

(** A controller reference to another object makes
    [SetControllerReference] fail. *)
Lemma SetControllerReference_foreign {T : Type} `{Object T}
      (cs : v1alpha1.CertificateSet) (controlled : T) other :
  metav1.Namespace (GetObjectMeta controlled) = v1alpha1.GetNamespace cs ->
  GetControllerOf (metav1.OwnerReferences (GetObjectMeta controlled)) = Some other ->
  referSameObject other (controllerReference cs) = false ->
  exists msg, SetControllerReference GroupVersion cs controlled
              = Err (AlreadyOwnedError msg).
Proof.
  intros Hns Hg Hs. unfold SetControllerReference. cbv zeta.
  fold (controllerReference cs).
  change (metav1.Namespace (GetObjectMeta cs)) with (v1alpha1.GetNamespace cs).
  rewrite Hns, Hg.
  change (referSameObject other _) with (referSameObject other (controllerReference cs)).
  rewrite Hs.
  destruct (String.eqb_spec (v1alpha1.GetNamespace cs) EmptyString) as [->|Hne]; simpl.
  - eexists. reflexivity.
  - rewrite String.eqb_refl. simpl. eexists. reflexivity.
Qed.

End Mutate.

Section Children.

Lemma createOrUpdateCertificate_stored cs desired w w' :
  createOrUpdateCertificate cs desired w = (None, w') ->
  let n := ObjectKeyFromObject desired in
  exists base stored,
    mutateCertificate cs desired base = Ok stored
    /\ certificates w' !! n = Some stored
    /\ match certificates w !! n with
       | Some existing => base = existing
       | None => certmanagerv1.StatusConditions base = []
                 /\ metav1.Finalizers (certmanagerv1.ObjectMeta base) = []
       end
    /\ (forall n', n' <> n -> certificates w' !! n' = certificates w !! n').
Proof.
  unfold createOrUpdateCertificate, bind.
  destruct (CreateOrUpdate _ _ w) as [[op [e|]] w1] eqn:E; [discriminate|].
  intros [= <-]. set (n := ObjectKeyFromObject desired).
  destruct (CreateOrUpdate_stored Lawful_Certificate _ _ _ _ _ E)
    as (base & stored & Hf & _ & Hs & Hb & Hframe).
  exists base, stored. split; [exact Hf|]. split; [exact Hs|]. split; [|exact Hframe].
  change (objects w) with (certificates w) in Hb.
  change (ObjectKeyFromObject _) with n in Hb.
  destruct (certificates w !! n); [exact Hb|]. subst base. split; reflexivity.
Qed.

Lemma createOrUpdateIssuer_stored cs desired w w' :
  createOrUpdateIssuer cs desired w = (None, w') ->
  let n := ObjectKeyFromObject desired in
  exists base stored,
    mutateIssuer cs desired base = Ok stored
    /\ issuers w' !! n = Some stored
    /\ match issuers w !! n with
       | Some existing => base = existing
       | None => certmanagerv1.IssuerStatusConditions base = []
                 /\ metav1.Finalizers (certmanagerv1.IssuerObjectMeta base) = []
       end
    /\ (forall n', n' <> n -> issuers w' !! n' = issuers w !! n').
Proof.
  unfold createOrUpdateIssuer, bind.
  destruct (CreateOrUpdate _ _ w) as [[op [e|]] w1] eqn:E; [discriminate|].
  intros [= <-]. set (n := ObjectKeyFromObject desired).
  destruct (CreateOrUpdate_stored Lawful_Issuer _ _ _ _ _ E)
    as (base & stored & Hf & _ & Hs & Hb & Hframe).
  exists base, stored. split; [exact Hf|]. split; [exact Hs|]. split; [|exact Hframe].
  change (objects w) with (issuers w) in Hb.
  change (ObjectKeyFromObject _) with n in Hb.
  destruct (issuers w !! n); [exact Hb|]. subst base. split; reflexivity.
Qed.

(** A stored object on which the mutate function changes nothing is read
    and left alone. *)
Lemma createOrUpdateCertificate_settled cs desired w stored :
  faults w (tick w) = None ->
  certificates w !! ObjectKeyFromObject desired = Some stored ->
  ObjectKeyFromObject stored = ObjectKeyFromObject desired ->
  mutateCertificate cs desired stored = Ok stored ->
  createOrUpdateCertificate cs desired w
  = (None, snd (request VGet "Certificate" (ObjectKeyFromObject desired) w)).
Proof.
  intros Hf Hs Hk Hm. unfold createOrUpdateCertificate, CreateOrUpdate, bind.
  match goal with
  | |- context [Get ?k w] => change k with (ObjectKeyFromObject desired)
  end.
  rewrite (Get_Some Lawful_Certificate _ _ stored Hf Hs).
  unfold mutate. rewrite Hm.
  match goal with
  | |- context [decide (ObjectKeyFromObject stored = ?k)] =>
    change k with (ObjectKeyFromObject desired);
      destruct (decide (ObjectKeyFromObject stored = ObjectKeyFromObject desired));
      [|contradiction]
  end.
  destruct (decide (stored = stored)); [reflexivity | contradiction].
Qed.

Lemma createOrUpdateIssuer_settled cs desired w stored :
  faults w (tick w) = None ->
  issuers w !! ObjectKeyFromObject desired = Some stored ->
  ObjectKeyFromObject stored = ObjectKeyFromObject desired ->
  mutateIssuer cs desired stored = Ok stored ->
  createOrUpdateIssuer cs desired w
  = (None, snd (request VGet "Issuer" (ObjectKeyFromObject desired) w)).
Proof.
  intros Hf Hs Hk Hm. unfold createOrUpdateIssuer, CreateOrUpdate, bind.
  match goal with
  | |- context [Get ?k w] => change k with (ObjectKeyFromObject desired)
  end.
  rewrite (Get_Some Lawful_Issuer _ _ stored Hf Hs).
  unfold mutate. rewrite Hm.
  match goal with
  | |- context [decide (ObjectKeyFromObject stored = ?k)] =>
    change k with (ObjectKeyFromObject desired);
      destruct (decide (ObjectKeyFromObject stored = ObjectKeyFromObject desired));
      [|contradiction]
  end.
  destruct (decide (stored = stored)); [reflexivity | contradiction].
Qed.

End Children.

(** X7: a successful [createOrUpdateCertificate] leaves a certificate
    with the spec, labels and annotations wanted, controlled by the parent;
    the status conditions and finalizers of a certificate that was there
    are kept, and no other certificate changes.  The same holds of
    [createOrUpdateIssuer]. *)
Theorem createOrUpdate_stores_desired_state_under_parent :
  forall (cs : v1alpha1.CertificateSet),
    (forall (desired : certmanagerv1.Certificate) (w w' : World),
        createOrUpdateCertificate cs desired w = (None, w') ->
        let n := ObjectKeyFromObject desired in
        exists stored,
          certificates w' !! n = Some stored
          /\ certmanagerv1.Spec stored = certmanagerv1.Spec desired
          /\ metav1.Labels (certmanagerv1.ObjectMeta stored)
             = metav1.Labels (certmanagerv1.ObjectMeta desired)
          /\ metav1.Annotations (certmanagerv1.ObjectMeta stored)
             = metav1.Annotations (certmanagerv1.ObjectMeta desired)
          /\ controlledBy cs (certmanagerv1.ObjectMeta stored)
          /\ match certificates w !! n with
             | Some existing =>
               certmanagerv1.StatusConditions stored
               = certmanagerv1.StatusConditions existing
               /\ metav1.Finalizers (certmanagerv1.ObjectMeta stored)
                  = metav1.Finalizers (certmanagerv1.ObjectMeta existing)
             | None => certmanagerv1.StatusConditions stored = []
             end
          /\ (forall n', n' <> n -> certificates w' !! n' = certificates w !! n'))
    /\ (forall (desired : certmanagerv1.Issuer) (w w' : World),
           createOrUpdateIssuer cs desired w = (None, w') ->
           let n := ObjectKeyFromObject desired in
           exists stored,
             issuers w' !! n = Some stored
             /\ certmanagerv1.IssuerSpec_ stored = certmanagerv1.IssuerSpec_ desired
             /\ metav1.Labels (certmanagerv1.IssuerObjectMeta stored)
                = metav1.Labels (certmanagerv1.IssuerObjectMeta desired)
             /\ metav1.Annotations (certmanagerv1.IssuerObjectMeta stored)
                = metav1.Annotations (certmanagerv1.IssuerObjectMeta desired)
             /\ controlledBy cs (certmanagerv1.IssuerObjectMeta stored)
             /\ match issuers w !! n with
                | Some existing =>
                  certmanagerv1.IssuerStatusConditions stored
                  = certmanagerv1.IssuerStatusConditions existing
                  /\ metav1.Finalizers (certmanagerv1.IssuerObjectMeta stored)
                     = metav1.Finalizers (certmanagerv1.IssuerObjectMeta existing)
                | None => certmanagerv1.IssuerStatusConditions stored = []
                end
             /\ (forall n', n' <> n -> issuers w' !! n' = issuers w !! n')).
Proof.
  intros cs. split.
  - intros desired w w' Hrun n.
    destruct (createOrUpdateCertificate_stored _ _ _ _ Hrun)
      as (base & stored & Hm & Hs & Hb & Hframe).
    apply mutateCertificate_Ok in Hm.
    destruct Hm as (_ & Hspec & Hl & Ha & Hby & Hst & Hfin & _).
    exists stored. repeat (split; [assumption|]). split; [|exact Hframe].
    fold n in Hb. destruct (certificates w !! n).
    + subst base. split; assumption.
    + destruct Hb as [Hb _]. congruence.
  - intros desired w w' Hrun n.
    destruct (createOrUpdateIssuer_stored _ _ _ _ Hrun)
      as (base & stored & Hm & Hs & Hb & Hframe).
    apply mutateIssuer_Ok in Hm.
    destruct Hm as (_ & Hspec & Hl & Ha & Hby & Hst & Hfin & _).
    exists stored. repeat (split; [assumption|]). split; [|exact Hframe].
    fold n in Hb. destruct (issuers w !! n).
    + subst base. split; assumption.
    + destruct Hb as [Hb _]. congruence.
Qed.

(** X8: a certificate that another controller owns is not taken over:
    [createOrUpdateCertificate] reads it, returns the error of
    [SetControllerReference] and writes nothing.  The same holds of
    [createOrUpdateIssuer]. *)
Theorem createOrUpdate_refuses_foreign_controller :
  forall (cs : v1alpha1.CertificateSet) (other : metav1.OwnerReference) (w : World),
    faults w (tick w) = None ->
    referSameObject other (controllerReference cs) = false ->
    (forall (desired existing : certmanagerv1.Certificate),
        certificates w !! ObjectKeyFromObject desired = Some existing ->
        metav1.Namespace (certmanagerv1.ObjectMeta existing) = v1alpha1.GetNamespace cs ->
        GetControllerOf (metav1.OwnerReferences (certmanagerv1.ObjectMeta existing))
        = Some other ->
        exists msg,
          createOrUpdateCertificate cs desired w
          = (Some (Wrapf ("failed to create/update Certificate "
                          +:+ metav1.Name (certmanagerv1.ObjectMeta desired))
                         (AlreadyOwnedError msg)),
             snd (request VGet "Certificate" (ObjectKeyFromObject desired) w)))
    /\ (forall (desired existing : certmanagerv1.Issuer),
           issuers w !! ObjectKeyFromObject desired = Some existing ->
           metav1.Namespace (certmanagerv1.IssuerObjectMeta existing)
           = v1alpha1.GetNamespace cs ->
           GetControllerOf (metav1.OwnerReferences (certmanagerv1.IssuerObjectMeta existing))
           = Some other ->
           exists msg,
             createOrUpdateIssuer cs desired w
             = (Some (Wrapf ("failed to create/update Issuer "
                             +:+ metav1.Name (certmanagerv1.IssuerObjectMeta desired))
                            (AlreadyOwnedError msg)),
                snd (request VGet "Issuer" (ObjectKeyFromObject desired) w))).
Proof.
  intros cs other w Hf Hother. split.
  - intros desired existing Hs Hns Hg.
    destruct (SetControllerReference_foreign (H := Certificate_Object)
                cs existing other Hns Hg Hother) as [msg Hset].
    exists msg. unfold createOrUpdateCertificate, bind.
    assert (Hm : mutateCertificate cs desired existing = Err (AlreadyOwnedError msg))
      by (unfold mutateCertificate; rewrite Hset; reflexivity).
    match goal with
    | |- context [CreateOrUpdate ?sk ?f w] =>
      rewrite (CreateOrUpdate_refused Lawful_Certificate sk f w existing _ Hf Hs Hm)
    end.
    reflexivity.
  - intros desired existing Hs Hns Hg.
    destruct (SetControllerReference_foreign (H := Issuer_Object)
                cs existing other Hns Hg Hother) as [msg Hset].
    exists msg. unfold createOrUpdateIssuer, bind.
    assert (Hm : mutateIssuer cs desired existing = Err (AlreadyOwnedError msg))
      by (unfold mutateIssuer; rewrite Hset; reflexivity).
    match goal with
    | |- context [CreateOrUpdate ?sk ?f w] =>
      rewrite (CreateOrUpdate_refused Lawful_Issuer sk f w existing _ Hf Hs Hm)
    end.
    reflexivity.
Qed.

(** X9: once [createOrUpdateCertificate] has succeeded, a second call for
    the same certificate reads it and writes nothing.  The same holds of
    [createOrUpdateIssuer]. *)
Theorem createOrUpdate_settles :
  forall (cs : v1alpha1.CertificateSet),
    (forall (desired : certmanagerv1.Certificate) (w w1 : World),
        createOrUpdateCertificate cs desired w = (None, w1) ->
        faults w1 (tick w1) = None ->
        createOrUpdateCertificate cs desired w1
        = (None, snd (request VGet "Certificate" (ObjectKeyFromObject desired) w1)))
    /\ (forall (desired : certmanagerv1.Issuer) (w w1 : World),
           createOrUpdateIssuer cs desired w = (None, w1) ->
           faults w1 (tick w1) = None ->
           createOrUpdateIssuer cs desired w1
           = (None, snd (request VGet "Issuer" (ObjectKeyFromObject desired) w1))).
Proof.
  intros cs. split.
  - intros desired w w1 Hrun Hf. unfold createOrUpdateCertificate, bind in *.
    destruct (CreateOrUpdate _ _ w) as [[op [e|]] w1'] eqn:E; [discriminate|].
    injection Hrun as <-.
    rewrite (CreateOrUpdate_settles Lawful_Certificate _ _ _ _ _ E); [reflexivity| |exact Hf].
    intros base obj' Hm. apply mutateCertificate_Ok in Hm. tauto.
  - intros desired w w1 Hrun Hf. unfold createOrUpdateIssuer, bind in *.
    destruct (CreateOrUpdate _ _ w) as [[op [e|]] w1'] eqn:E; [discriminate|].
    injection Hrun as <-.
    rewrite (CreateOrUpdate_settles Lawful_Issuer _ _ _ _ _ E); [reflexivity| |exact Hf].
    intros base obj' Hm. apply mutateIssuer_Ok in Hm. tauto.
Qed.

Lemma createOrUpdate_stores_desired_state_under_parent_witness :
  let cs := sample.parent "corporate-ca" in
  let desired := buildCACertificate cs in
  let existing := demo.issued (buildCACertificate (sample.parent "selfsigned")) in
  let w := demo.world [cs] [existing] [] [] [] in
  let w' := snd (createOrUpdateCertificate cs desired w) in
  createOrUpdateCertificate cs desired w = (None, w')
  /\ exists stored,
      certificates w' !! ("default", "demo-ca") = Some stored
      /\ certmanagerv1.Spec stored = certmanagerv1.Spec desired
      /\ controlledBy cs (certmanagerv1.ObjectMeta stored)
      /\ certmanagerv1.StatusConditions stored = certmanagerv1.StatusConditions existing.
Proof.
  intros cs desired existing w w'.
  assert (Hrun : createOrUpdateCertificate cs desired w = (None, w'))
    by (vm_compute; reflexivity).
  split; [exact Hrun|].
  destruct (proj1 (createOrUpdate_stores_desired_state_under_parent cs)
                  desired w w' Hrun)
    as (stored & Hs & Hspec & _ & _ & Hby & Hex & _).
  exists stored. split; [exact Hs|]. split; [exact Hspec|]. split; [exact Hby|].
  assert (El : certificates w !! ObjectKeyFromObject desired = Some existing)
    by (vm_compute; reflexivity).
  rewrite El in Hex. exact (proj1 Hex).
Defined.

Lemma createOrUpdate_refuses_foreign_controller_witness :
  let cs := sample.parent "selfsigned" in
  let w := demo.world [cs] [sample.foreignCertificate] [] [] [] in
  faults w (tick w) = None
  /\ referSameObject sample.foreignReference (controllerReference cs) = false
  /\ exists msg,
      createOrUpdateCertificate cs (buildCACertificate cs) w
      = (Some (Wrapf "failed to create/update Certificate demo-ca"
                     (AlreadyOwnedError msg)),
         snd (request VGet "Certificate" ("default", "demo-ca") w)).
Proof.
  intros cs w. split; [reflexivity|]. split; [reflexivity|].
  apply (proj1 (createOrUpdate_refuses_foreign_controller
                  cs sample.foreignReference w eq_refl eq_refl)
               (buildCACertificate cs) sample.foreignCertificate);
    reflexivity.
Defined.

Lemma createOrUpdate_settles_witness :
  let cs := sample.parent "selfsigned" in
  let w := demo.world [cs] [] [] [] [] in
  let w1 := snd (createOrUpdateCertificate cs (buildCACertificate cs) w) in
  createOrUpdateCertificate cs (buildCACertificate cs) w = (None, w1)
  /\ faults w1 (tick w1) = None
  /\ createOrUpdateCertificate cs (buildCACertificate cs) w1
     = (None, snd (request VGet "Certificate" ("default", "demo-ca") w1)).
Proof.
  intros cs w w1.
  assert (Hrun : createOrUpdateCertificate cs (buildCACertificate cs) w = (None, w1))
    by (vm_compute; reflexivity).
  split; [exact Hrun|]. split; [reflexivity|].
  exact (proj1 (createOrUpdate_settles cs) (buildCACertificate cs) w w1 Hrun eq_refl).
Defined.

(** ** Conditions: what [setCondition] keeps *)
Section MoreConditions.
Import metav1.

Lemma replaceFirst_types now (l : list Condition) new :
  List.map Type_ (meta.replaceFirst now l new) = List.map Type_ l.
Proof.
  induction l as [|c rest IH]; simpl; [reflexivity|].
  destruct (String.eqb (Type_ c) (Type_ new)); simpl; [reflexivity|].
  rewrite IH. reflexivity.
Qed.

Lemma FindStatusCondition_replaceFirst_other now (l : list Condition) new ty :
  ty <> Type_ new ->
  meta.FindStatusCondition (meta.replaceFirst now l new) ty
  = meta.FindStatusCondition l ty.
Proof.
  intros Hty. induction l as [|c rest IH]; simpl; [reflexivity|].
  destruct (String.eqb_spec (Type_ c) (Type_ new)) as [E|E]; simpl.
  - destruct (String.eqb_spec (Type_ c) ty) as [E'|E']; [congruence | reflexivity].
  - rewrite IH. reflexivity.
Qed.

Lemma FindStatusCondition_app_other (l : list Condition) c ty :
  ty <> Type_ c ->
  meta.FindStatusCondition (l ++ [c]) ty = meta.FindStatusCondition l ty.
Proof.
  intros Hty. induction l as [|c0 rest IH]; simpl.
  - destruct (String.eqb_spec (Type_ c) ty); [congruence | reflexivity].
  - rewrite IH. reflexivity.
Qed.

Lemma SetStatusCondition_other now (l : list Condition) new ty :
  ty <> Type_ new ->
  meta.FindStatusCondition (meta.SetStatusCondition now l new) ty
  = meta.FindStatusCondition l ty.
Proof.
  intros Hty. unfold meta.SetStatusCondition.
  destruct (meta.FindStatusCondition l (Type_ new)).
  - apply FindStatusCondition_replaceFirst_other. exact Hty.
  - apply FindStatusCondition_app_other. exact Hty.
Qed.

Lemma SetStatusCondition_types now (l : list Condition) new :
  List.map Type_ (meta.SetStatusCondition now l new)
  = match meta.FindStatusCondition l (Type_ new) with
    | Some _ => List.map Type_ l
    | None => (List.map Type_ l ++ [Type_ new])%list
    end.
Proof.
  unfold meta.SetStatusCondition.
  destruct (meta.FindStatusCondition l (Type_ new)).
  - apply replaceFirst_types.
  - rewrite List.map_app. reflexivity.
Qed.

Lemma FindStatusCondition_None_types (l : list Condition) ty :
  meta.FindStatusCondition l ty = None -> ~ In ty (List.map Type_ l).
Proof.
  intros Hn Hin. apply List.in_map_iff in Hin. destruct Hin as (c & Hc & Hin).
  exact (FindStatusCondition_None l ty Hn c Hin Hc).
Qed.

Lemma SetStatusCondition_transition now (l : list Condition) new :
  LastTransitionTime new = 0 ->
  exists c,
    meta.FindStatusCondition (meta.SetStatusCondition now l new) (Type_ new) = Some c
    /\ LastTransitionTime c
       = match meta.FindStatusCondition l (Type_ new) with
         | Some c0 => if String.eqb (Status c0) (Status new)
                      then LastTransitionTime c0 else now
         | None => now
         end.
Proof.
  intros Hz. unfold meta.SetStatusCondition.
  destruct (meta.FindStatusCondition l (Type_ new)) as [c0|] eqn:E.
  - eexists. split; [apply FindStatusCondition_replaceFirst; exact E|].
    simpl. rewrite Hz. reflexivity.
  - eexists. split.
    + apply (FindStatusCondition_app_new l
               {| Type_ := Type_ new; Status := Status new;
                  ObservedGeneration := ObservedGeneration new;
                  LastTransitionTime := if LastTransitionTime new =? 0 then now
                                        else LastTransitionTime new;
                  Reason := Reason new; Message := Message new |}).
      exact E.
    + simpl. rewrite Hz. reflexivity.
Qed.

Lemma setCondition_ObjectMeta now cs ty st rs msg :
  v1alpha1.ObjectMeta (snd (setCondition now cs ty st rs msg)) = v1alpha1.ObjectMeta cs
  /\ v1alpha1.Spec (snd (setCondition now cs ty st rs msg)) = v1alpha1.Spec cs.
Proof.
  unfold setCondition.
  destruct (meta.FindStatusCondition _ _) as [c|]; [destruct (_ && _)|];
    split; reflexivity.
Qed.

(** The conditions after [setCondition]: those before, or those that
    [SetStatusCondition] makes of them. *)
Lemma setCondition_conditions now cs ty st rs msg :
  let before := v1alpha1.Conditions (v1alpha1.Status cs) in
  let after := v1alpha1.Conditions
                 (v1alpha1.Status (snd (setCondition now cs ty st rs msg))) in
  after = before
  \/ after = meta.SetStatusCondition now before
               {| Type_ := ty; Status := st;
                  ObservedGeneration := v1alpha1.GetGeneration cs;
                  LastTransitionTime := 0; Reason := rs; Message := msg |}.
Proof.
  unfold setCondition.
  destruct (meta.FindStatusCondition _ _) as [c|]; [destruct (_ && _)|];
    simpl; auto.
Qed.

Lemma setCondition_other now cs ty st rs msg other :
  other <> ty ->
  meta.FindStatusCondition
    (v1alpha1.Conditions (v1alpha1.Status (snd (setCondition now cs ty st rs msg)))) other
  = meta.FindStatusCondition (v1alpha1.Conditions (v1alpha1.Status cs)) other.
Proof.
  intros Hother.
  destruct (setCondition_conditions now cs ty st rs msg) as [E|E]; rewrite E.
  - reflexivity.
  - apply SetStatusCondition_other. exact Hother.
Qed.

(** A condition that [setCondition] has set is there, and a condition of
    another type that was there still is. *)
Lemma hasCondition_set now cs ty st rs msg :
  hasCondition (snd (setCondition now cs ty st rs msg)) ty st rs msg.
Proof.
  destruct (setCondition_post now cs ty st rs msg) as (c & Hf & H1 & H2 & H3 & H4).
  exists c. split; [exact Hf|]. repeat split; try assumption.
  rewrite H4. unfold v1alpha1.GetGeneration.
  rewrite (proj1 (setCondition_ObjectMeta now cs ty st rs msg)). reflexivity.
Qed.

Lemma hasCondition_kept now cs ty st rs msg ty' st' rs' msg' :
  ty' <> ty ->
  hasCondition cs ty' st' rs' msg' ->
  hasCondition (snd (setCondition now cs ty st rs msg)) ty' st' rs' msg'.
Proof.
  intros Hne (c & Hf & H1 & H2 & H3 & H4). exists c.
  split; [rewrite setCondition_other by exact Hne; exact Hf|].
  repeat split; try assumption.
  rewrite H4. unfold v1alpha1.GetGeneration.
  rewrite (proj1 (setCondition_ObjectMeta now cs ty st rs msg)). reflexivity.
Qed.

End MoreConditions.

(** X10: [setCondition] touches the condition of its type only: every
    condition of another type is found as before, no type is lost, the one
    type that may be new is the type set, and a list without two conditions
    of a type stays one. *)
Theorem setCondition_leaves_other_conditions :
  forall (now : Z) (cs : v1alpha1.CertificateSet) (condType : string)
         (status : metav1.ConditionStatus) (reason message : string),
    let before := v1alpha1.Conditions (v1alpha1.Status cs) in
    let after := v1alpha1.Conditions
                   (v1alpha1.Status
                      (snd (setCondition now cs condType status reason message))) in
    (forall other, other <> condType ->
                   meta.FindStatusCondition after other
                   = meta.FindStatusCondition before other)
    /\ (forall ty, In ty (List.map metav1.Type_ after)
                   <-> In ty (List.map metav1.Type_ before) \/ ty = condType)
    /\ (List.NoDup (List.map metav1.Type_ before) ->
        List.NoDup (List.map metav1.Type_ after)).
Proof.
  intros now cs condType status reason message before after.
  destruct (setCondition_post now cs condType status reason message)
    as (c & Hfound & _).
  fold after in Hfound. apply FindStatusCondition_Some in Hfound.
  destruct Hfound as [Hin Hty].
  destruct (setCondition_conditions now cs condType status reason message) as [E|E];
    fold before after in E.
  - rewrite E in *. split; [reflexivity|]. split; [|trivial].
    intros ty. split; [auto|]. intros [H| ->]; [exact H|].
    apply List.in_map_iff. exists c. split; assumption.
  - split; [|split].
    + intros other Hother. unfold after. apply setCondition_other. exact Hother.
    + intros ty. rewrite E, SetStatusCondition_types. simpl.
      destruct (meta.FindStatusCondition before condType) as [c0|] eqn:Ef.
      * split; [auto|]. intros [H| ->]; [exact H|].
        apply FindStatusCondition_Some in Ef. destruct Ef as [Hin0 Hty0].
        apply List.in_map_iff. exists c0. split; assumption.
      * rewrite List.in_app_iff. simpl. intuition congruence.
    + intros Hnd. rewrite E, SetStatusCondition_types. simpl.
      destruct (meta.FindStatusCondition before condType) as [c0|] eqn:Ef;
        [exact Hnd|].
      apply FindStatusCondition_None_types in Ef.
      apply List.NoDup_app; [exact Hnd | repeat constructor; intros [] |].
      intros x Hx [<-|[]]. exact (Ef Hx).
Qed.

(** X11: [setCondition] with the values it has just set finds nothing to
    change: it returns false and leaves the object as it is. *)
Theorem setCondition_settles :
  forall (now now' : Z) (cs : v1alpha1.CertificateSet) (condType : string)
         (status : metav1.ConditionStatus) (reason message : string),
    let cs' := snd (setCondition now cs condType status reason message) in
    setCondition now' cs' condType status reason message = (false, cs').
Proof.
  intros now now' cs condType status reason message cs'.
  apply setCondition_noop. apply hasCondition_set.
Qed.

(** X12: the transition time of a condition moves only with its status:
    [setCondition] stamps the time of the call on a condition that is new
    or whose status changes, and keeps the time of a condition whose status
    stays, whatever becomes of reason and message. *)
Theorem setCondition_moves_transition_time_with_status :
  forall (now : Z) (cs : v1alpha1.CertificateSet) (condType : string)
         (status : metav1.ConditionStatus) (reason message : string),
    let before := v1alpha1.Conditions (v1alpha1.Status cs) in
    let after := v1alpha1.Conditions
                   (v1alpha1.Status
                      (snd (setCondition now cs condType status reason message))) in
    exists c,
      meta.FindStatusCondition after condType = Some c
      /\ metav1.LastTransitionTime c
         = match meta.FindStatusCondition before condType with
           | Some c0 => if String.eqb (metav1.Status c0) status
                        then metav1.LastTransitionTime c0 else now
           | None => now
           end.
Proof.
  intros now cs condType status reason message before after.
  unfold after, setCondition. fold before.
  destruct (meta.FindStatusCondition before condType) as [c0|] eqn:Ef.
  - destruct (_ && _) eqn:Esame; simpl.
    + exists c0. fold before. split; [exact Ef|].
      apply same_condition_iff in Esame. destruct Esame as [-> _].
      rewrite String.eqb_refl. reflexivity.
    + destruct (SetStatusCondition_transition now before
                  {| metav1.Type_ := condType; metav1.Status := status;
                     metav1.ObservedGeneration := v1alpha1.GetGeneration cs;
                     metav1.LastTransitionTime := 0;
                     metav1.Reason := reason; metav1.Message := message |} eq_refl)
        as (c & Hc & Ht).
      simpl in Hc, Ht. rewrite Ef in Ht. exists c. split; assumption.
  - simpl.
    destruct (SetStatusCondition_transition now before
                {| metav1.Type_ := condType; metav1.Status := status;
                   metav1.ObservedGeneration := v1alpha1.GetGeneration cs;
                   metav1.LastTransitionTime := 0;
                   metav1.Reason := reason; metav1.Message := message |} eq_refl)
      as (c & Hc & Ht).
    simpl in Hc, Ht. rewrite Ef in Ht. exists c. split; assumption.
Qed.

Lemma setCondition_leaves_other_conditions_witness :
  let ready :=
    {| metav1.Type_ := "Ready"; metav1.Status := "False";
       metav1.ObservedGeneration := 1; metav1.LastTransitionTime := 50;
       metav1.Reason := "WaitingForResources";
       metav1.Message := "Certificate demo-ca is not ready" |} in
  let cs := demo.certificateSet "client" false false "selfsigned"
                                [finalizerName] None [ready] in
  let cs' := snd (setCondition 100 cs "Progressing" "True" "ResourcesPending"
                               "Certificate demo-ca is not ready") in
  "Ready" <> "Progressing"
  /\ meta.FindStatusCondition (v1alpha1.Conditions (v1alpha1.Status cs')) "Ready"
     = Some ready
  /\ List.NoDup (List.map metav1.Type_ (v1alpha1.Conditions (v1alpha1.Status cs'))).
Proof.
  intros ready cs cs'.
  destruct (setCondition_leaves_other_conditions
              100 cs "Progressing" "True" "ResourcesPending"
              "Certificate demo-ca is not ready") as (Hother & _ & Hnd).
  split; [discriminate|]. split.
  - unfold cs'. rewrite (Hother "Ready"); [reflexivity | discriminate].
  - apply Hnd. repeat constructor. intros [].
Defined.

(** ** The outcomes of an attempt *)
Section Always.

Lemma always_ret {A} (P : A -> Prop) (a : A) : P a -> always P (ret a).
Proof. intros H w. exact H. Qed.

Lemma always_bind {A B} (P : B -> Prop) (m : M A) (k : A -> M B) :
  (forall a, always P (k a)) -> always P (bind m k).
Proof.
  intros Hk w. unfold bind. destruct (m w) as [a w1] eqn:E.
  exact (Hk a w1).
Qed.

Lemma set_writes now l ty st rs msg :
  snd (set now l ty st rs msg)
  = (snd l ++ [ {| condType := ty; condStatus := st; condReason := rs;
                   condMessage := msg;
                   changed := fst (setCondition now (fst l) ty st rs msg) |} ])%list.
Proof.
  unfold set. destruct (setCondition now (fst l) ty st rs msg). reflexivity.
Qed.

Lemma always_degraded now cs csOriginal reason e :
  In reason phaseReasons ->
  always outcomeShape (degraded now (cs, []) csOriginal reason e).
Proof.
  intros Hr. unfold degraded. apply always_bind. intros _. apply always_ret.
  apply (shape_degraded _ e reason); [exact Hr| |reflexivity|reflexivity].
  unfold said. simpl. rewrite set_writes. reflexivity.
Qed.

Lemma always_reconcileDelete cs : always outcomeShape (reconcileDelete cs).
Proof.
  unfold reconcileDelete. apply always_bind. intros [e|].
  - apply always_ret. apply (shape_error _ e); reflexivity.
  - apply always_bind. intros [e|]; apply always_ret.
    + apply (shape_error _ e); reflexivity.
    + apply shape_quiet; [reflexivity | reflexivity | left; reflexivity].
Qed.

Lemma always_reconcileReadiness now cs csOriginal :
  always outcomeShape (reconcileReadiness now cs csOriginal).
Proof.
  unfold reconcileReadiness. apply always_bind.
  intros [[allReady notReadyReason] [e|]].
  - apply always_bind. intros _. apply always_ret.
    apply (shape_check_failed _ e); [|reflexivity|reflexivity].
    unfold said. simpl. rewrite !set_writes. reflexivity.
  - destruct allReady; simpl.
    + apply always_bind. intros [[e|] ?]; apply always_ret;
        (apply shape_ready; [|reflexivity]);
        unfold said; simpl; rewrite !set_writes; reflexivity.
    + apply always_bind. intros [[e|] ?]; apply always_ret;
        (apply (shape_waiting _ notReadyReason);
         [unfold said; simpl; rewrite !set_writes; reflexivity|]).
      * right. split; [discriminate | reflexivity].
      * left. split; reflexivity.
Qed.

Lemma always_reconcileCleanup now cs csOriginal :
  always outcomeShape (reconcileCleanup now cs csOriginal).
Proof.
  unfold reconcileCleanup. destruct (negb _); [|apply always_reconcileReadiness].
  apply always_bind. intros [e|]; [|apply always_reconcileReadiness].
  apply always_degraded. simpl. tauto.
Qed.

Lemma always_reconcileClientCredentials now cs csOriginal :
  always outcomeShape (reconcileClientCredentials now cs csOriginal).
Proof.
  unfold reconcileClientCredentials.
  destruct (_ || _); [|apply always_reconcileCleanup].
  apply always_bind. intros [e|]; [apply always_degraded; simpl; tauto|].
  apply always_bind. intros [ready [e|]].
  - apply always_ret. apply (shape_error _ e); reflexivity.
  - destruct ready; simpl.
    + apply always_bind. intros [certData|e].
      * apply always_bind. intros [e|]; [apply always_degraded; simpl; tauto|].
        apply always_reconcileCleanup.
      * apply always_ret. apply (shape_error _ e); reflexivity.
    + apply always_ret. apply shape_quiet; [reflexivity | reflexivity |].
      right. right. reflexivity.
Qed.

Lemma always_Reconcile now req : always outcomeShape (Reconcile now req).
Proof.
  unfold Reconcile. apply always_bind. intros [cs|e].
  - destruct (negb (time.IsZero _)); [apply always_reconcileDelete|].
    destruct (negb (ContainsFinalizer _ _)).
    + apply always_bind. intros [e|]; apply always_ret.
      * apply (shape_error _ e); reflexivity.
      * apply shape_quiet; [reflexivity | reflexivity | right; left; reflexivity].
    + apply always_bind. intros [e|]; [apply always_degraded; simpl; tauto|].
      apply always_bind. intros [ready [e|]].
      * apply always_ret. apply (shape_error _ e); reflexivity.
      * destruct ready; simpl; [apply always_reconcileClientCredentials|].
        apply always_ret. apply shape_quiet; [reflexivity | reflexivity |].
        right. right. reflexivity.
  - destruct (IsNotFound e); apply always_ret.
    + apply shape_quiet; [reflexivity | reflexivity | left; reflexivity].
    + apply (shape_error _ e); reflexivity.
Qed.

End Always.

(** X13: whatever the cluster holds and whichever requests fail, the
    outcome of [Reconcile] has one of six shapes.  In particular an error
    never comes with a request to requeue, [Degraded] is set to true only
    together with the error whose text it records, and [Ready] is set to
    true only in an attempt that sets [Degraded] and [Progressing] to
    false. *)
Theorem Reconcile_outcome_shapes :
  forall (now : Z) (req : NamespacedName) (w : World),
    let o := fst (Reconcile now req w) in
    outcomeShape o
    /\ (err o <> None -> result o = ctrl.zero)
    /\ (forall reason message,
           In (ConditionTypeDegraded, metav1.ConditionTrue, reason, message) (said o) ->
           exists e, err o = Some e /\ message = Error e).
Proof.
  intros now req w o. pose proof (always_Reconcile now req w) as Hs. fold o in Hs.
  split; [exact Hs|]. split.
  - intros He. destruct Hs as [? ? ?| | | |? ? [[? ?]|[? ?]]|]; congruence.
  - intros reason message Hin.
    destruct Hs as [Hsaid| e Hsaid | e r _ Hsaid He _ | e Hsaid He _
                    | msg Hsaid _ | Hsaid _]; rewrite Hsaid in Hin; simpl in Hin.
    + destruct Hin.
    + destruct Hin.
    + destruct Hin as [[= _ <-]|[]]. exists e. split; [exact He | reflexivity].
    + destruct Hin as [[=]|[[= _ <-]|[]]]. exists e. split; [exact He | reflexivity].
    + destruct Hin as [[=]|[[=]|[[=]|[]]]].
    + destruct Hin as [[=]|[[=]|[[=]|[]]]].
Qed.

(** X14: the first read decides alone when the object is not there:
    without the object the attempt ends without error, without requeue and
    without a word in the status; when the read fails otherwise the error is
    returned.  Either way the read is the only request made. *)
Theorem Reconcile_ignores_missing_object :
  forall (now : Z) (req : NamespacedName) (w : World),
    let w' := snd (request VGet "CertificateSet" req w) in
    (faults w (tick w) = None -> certificateSets w !! req = None ->
     Reconcile now req w
     = ({| result := ctrl.zero; err := None; writes := [] |}, w'))
    /\ (forall msg, faults w (tick w) = Some msg ->
                    Reconcile now req w
                    = ({| result := ctrl.zero;
                          err := Some (StatusError StatusReasonInternalError msg);
                          writes := [] |}, w'))
    /\ calls w' = (calls w ++ [theCall (T := v1alpha1.CertificateSet) VGet req])%list
    /\ certificateSets w' = certificateSets w
    /\ certificates w' = certificates w
    /\ issuers w' = issuers w
    /\ secrets w' = secrets w.
Proof.
  intros now req w w'. split; [|split; [|repeat split]].
  - intros Hf Hn. unfold Reconcile, bind.
    rewrite (Get_None Lawful_CertificateSet req w Hf Hn). reflexivity.
  - intros msg Hf. unfold Reconcile, bind. rewrite Get_eq, Hf. reflexivity.
Qed.

Lemma Reconcile_ignores_missing_object_witness :
  let w := demo.world [] [] [] [demo.bundle "demo-ca"] [] in
  faults w (tick w) = None
  /\ certificateSets w !! demo.req = None
  /\ fst (Reconcile 100 demo.req w)
     = {| result := ctrl.zero; err := None; writes := [] |}.
Proof.
  intros w. split; [reflexivity|]. split; [reflexivity|].
  rewrite (proj1 (Reconcile_ignores_missing_object 100 demo.req w) eq_refl eq_refl).
  reflexivity.
Defined.

Lemma Reconcile_outcome_shapes_witness :
  let cs := sample.parent "selfsigned" in
  let w := demo.failing 1 (demo.world [cs] [] [] [] []) in
  let o := fst (Reconcile 100 demo.req w) in
  err o <> None
  /\ result o = ctrl.zero
  /\ In (ConditionTypeDegraded, metav1.ConditionTrue, "CACertificatesFailed",
         "failed to create CA Certificate: failed to create/update Certificate demo-ca: context deadline exceeded")
        (said o).
Proof.
  intros cs w o.
  assert (He : err o <> None) by (vm_compute; discriminate).
  split; [exact He|]. split.
  - exact (proj1 (proj2 (Reconcile_outcome_shapes 100 demo.req w)) He).
  - vm_compute. left. reflexivity.
Defined.

(** ** The requests of an attempt *)
Section Scope.

Ltac step :=
  match goal with
  | |- emits _ (ret _) => apply emits_ret
  | |- emits _ (bind _ _) => apply emits_bind
  | |- forall _, _ => intro
  | |- emits _ (match ?x with _ => _ end) => destruct x
  | |- emits _ (let (_, _) := ?x in _) => destruct x
  end.

Lemma emits_CreateOrUpdate_writes {T : Type} `{Object T} `{EqDecision T}
      (L : Lawful T) (obj : T) (f : T -> res T) :
  emits (fun c => verb c = VGet
                  \/ writeTo [VCreate; VUpdate] KindOf (ObjectKeyFromObject obj) c)
        (CreateOrUpdate obj f).
Proof.
  unfold CreateOrUpdate. apply emits_bind.
  - eapply emits_weaken; [apply emits_Get|]. intros c ->. left. reflexivity.
  - intros [existing|e].
    + unfold mutate. destruct (f existing) as [obj'|e']; [|apply emits_ret].
      destruct (decide (ObjectKeyFromObject obj' = ObjectKeyFromObject obj)) as [Hk|];
        [|apply emits_ret].
      destruct (decide (existing = obj')); [apply emits_ret|].
      apply emits_bind.
      * eapply emits_weaken; [apply (emits_Update L)|]. intros c ->. rewrite Hk.
        right. split; [simpl; tauto | split; reflexivity].
      * intros [?|]; apply emits_ret.
    + destruct (negb (IsNotFound e)); [apply emits_ret|].
      unfold mutate. destruct (f obj) as [obj'|e']; [|apply emits_ret].
      destruct (decide (ObjectKeyFromObject obj' = ObjectKeyFromObject obj)) as [Hk|];
        [|apply emits_ret].
      apply emits_bind.
      * eapply emits_weaken; [apply (emits_Create L)|]. intros c ->. rewrite Hk.
        right. split; [simpl; tauto | split; reflexivity].
      * intros [?|]; apply emits_ret.
Qed.

Lemma emits_createOrUpdateCertificate_writes cs desired :
  emits (fun c => verb c = VGet
                  \/ writeTo [VCreate; VUpdate] "Certificate"
                             (ObjectKeyFromObject desired) c)
        (createOrUpdateCertificate cs desired).
Proof.
  unfold createOrUpdateCertificate. apply emits_bind.
  - eapply emits_weaken; [apply (emits_CreateOrUpdate_writes Lawful_Certificate)|].
    intros c Hc. exact Hc.
  - repeat step.
Qed.

Lemma emits_createOrUpdateIssuer_writes cs desired :
  emits (fun c => verb c = VGet
                  \/ writeTo [VCreate; VUpdate] "Issuer" (ObjectKeyFromObject desired) c)
        (createOrUpdateIssuer cs desired).
Proof.
  unfold createOrUpdateIssuer. apply emits_bind.
  - eapply emits_weaken; [apply (emits_CreateOrUpdate_writes Lawful_Issuer)|].
    intros c Hc. exact Hc.
  - repeat step.
Qed.

Lemma emits_createOrUpdateSecret_writes secret managedKeys :
  emits (fun c => verb c = VGet
                  \/ writeTo [VCreate; VUpdate] "Secret" (ObjectKeyFromObject secret) c)
        (createOrUpdateSecret secret managedKeys).
Proof.
  unfold createOrUpdateSecret.
  apply (emits_bind_post
           (fun got => match got with
                       | Ok existing => ObjectKeyFromObject existing
                                        = ObjectKeyFromObject secret
                       | Err _ => True
                       end)).
  - intros w [existing|e] w' Hwf Hg; [|trivial].
    exact (Get_Ok_key Lawful_Secret _ _ _ _ Hwf Hg).
  - eapply emits_weaken; [apply emits_Get|]. intros c ->. left. reflexivity.
  - intros [existing|e] Hk.
    + destruct (negb _); [|apply emits_ret].
      eapply emits_weaken; [apply (emits_Update Lawful_Secret)|].
      intros c ->. right. split; [simpl; tauto|]. split; [reflexivity|exact Hk].
    + destruct (IsNotFound e); [|apply emits_ret].
      eapply emits_weaken; [apply (emits_Create Lawful_Secret)|].
      intros c ->. right. split; [simpl; tauto|]. split; reflexivity.
Qed.

Section Attempt.
Variable cs : v1alpha1.CertificateSet.

Lemma attempt_certificate name c :
  live cs -> In name (AllCertificateNames cs) ->
  verb c = VGet
  \/ writeTo [VCreate; VUpdate] "Certificate" (v1alpha1.GetNamespace cs, name) c ->
  attemptCall cs c.
Proof.
  intros Hl Hin [H|H]; [left; exact H|]. right. left. split; [exact Hl|].
  exists name. split; assumption.
Qed.

Lemma emits_reconcileCACertificates_attempt :
  live cs -> emits (attemptCall cs) (reconcileCACertificates cs).
Proof.
  intros Hl. unfold reconcileCACertificates.
  assert (Hca : In (CAName cs) (AllCertificateNames cs))
    by (apply AllCertificateNames_spec; tauto).
  apply emits_bind.
  { eapply emits_weaken; [apply emits_createOrUpdateCertificate_writes|].
    intros c Hc. exact (attempt_certificate (CAName cs) c Hl Hca Hc). }
  intros [e|]; [apply emits_ret|].
  destruct (isSystemOrInfra _) eqn:Eenv; [|apply emits_ret].
  apply emits_bind.
  { eapply emits_weaken; [apply emits_createOrUpdateCertificate_writes|].
    intros c Hc. apply (attempt_certificate (ETCDName cs) c Hl); [|exact Hc].
    apply AllCertificateNames_spec. tauto. }
  intros [e|]; [apply emits_ret|].
  apply emits_bind.
  { eapply emits_weaken; [apply emits_createOrUpdateCertificate_writes|].
    intros c Hc. apply (attempt_certificate (ProxyName cs) c Hl); [|exact Hc].
    apply AllCertificateNames_spec. tauto. }
  intros [e|]; [apply emits_ret|].
  apply emits_bind.
  { eapply emits_weaken; [apply emits_createOrUpdateCertificate_writes|].
    assert (Hk : ObjectKeyFromObject (buildOIDCCertificate cs)
                 = (v1alpha1.GetNamespace cs, CAOIDCName cs)).
    { unfold buildOIDCCertificate.
      destruct (String.eqb _ _); [reflexivity|].
      destruct (String.eqb _ _); [|reflexivity].
      destruct (v1alpha1.IssuerRefOidc _); reflexivity. }
    rewrite Hk.
    intros c Hc. apply (attempt_certificate (CAOIDCName cs) c Hl); [|exact Hc].
    apply AllCertificateNames_spec. tauto. }
  intros [e|]; apply emits_ret.
Qed.

Lemma emits_reconcileClientCertificates_attempt :
  live cs -> needsClientCerts cs = true ->
  emits (attemptCall cs) (reconcileClientCertificates cs).
Proof.
  intros Hl Hn. unfold reconcileClientCertificates.
  apply emits_bind.
  { eapply emits_weaken; [apply emits_createOrUpdateIssuer_writes|].
    intros c [H|H]; [left; exact H|]. right. right. left. auto. }
  intros [e|]; [apply emits_ret|].
  apply emits_bind.
  { eapply emits_weaken; [apply emits_createOrUpdateCertificate_writes|].
    intros c Hc. apply (attempt_certificate (SuperAdminName cs) c Hl); [|exact Hc].
    apply AllCertificateNames_spec. tauto. }
  intros [e|]; apply emits_ret.
Qed.

Lemma emits_read_attempt {A} (m : M A) :
  emits (fun c => verb c = VGet) m -> emits (attemptCall cs) m.
Proof. intros H. eapply emits_weaken; [exact H|]. intros c Hc. left. exact Hc. Qed.

Lemma emits_isSecretReady_attempt namespace name :
  emits (attemptCall cs) (isSecretReady namespace name).
Proof.
  eapply emits_weaken; [apply emits_isSecretReady|]. intros c [H _]. left. exact H.
Qed.

Lemma emits_getCertificateData_attempt namespace name :
  emits (attemptCall cs) (getCertificateData namespace name).
Proof.
  eapply emits_weaken; [apply emits_getCertificateData|]. intros c [H _]. left. exact H.
Qed.

Lemma emits_reconcileArgoCDClusterSecret_attempt certData :
  live cs -> emits (attemptCall cs) (reconcileArgoCDClusterSecret cs certData).
Proof.
  intros Hl. unfold reconcileArgoCDClusterSecret.
  destruct (v1alpha1.ArgocdCluster _) eqn:Ea; [|apply emits_ret].
  apply emits_bind.
  - apply emits_read_attempt. eapply emits_weaken; [apply emits_Get|].
    intros c ->. reflexivity.
  - intros [ns|e]; [|repeat step].
    simpl. apply emits_bind; [|repeat step].
    eapply emits_weaken; [apply emits_createOrUpdateSecret_writes|].
    intros c [H|H]; [left; exact H|]. do 4 right. left. auto.
Qed.

Lemma emits_reconcileDerivedSecrets_attempt certData :
  live cs -> emits (attemptCall cs) (reconcileDerivedSecrets cs certData).
Proof.
  intros Hl. unfold reconcileDerivedSecrets.
  destruct (v1alpha1.Kubeconfig _) eqn:Ek;
    [|apply emits_reconcileArgoCDClusterSecret_attempt; exact Hl].
  simpl.
  destruct (SetControllerReference _ _ _) as [secret|e] eqn:E; [|apply emits_ret].
  apply SetControllerReference_key in E; [|reflexivity].
  apply emits_bind.
  - eapply emits_weaken; [apply emits_createOrUpdateSecret_writes|].
    intros c [H|H]; [left; exact H|]. do 3 right. left. rewrite E in H. auto.
  - intros [e|]; [apply emits_ret|].
    apply emits_reconcileArgoCDClusterSecret_attempt. exact Hl.
Qed.

Lemma emits_deleteSecretIfExists_attempt :
  ~ live cs \/ v1alpha1.ArgocdCluster (v1alpha1.Spec cs) = false ->
  emits (attemptCall cs) (deleteSecretIfExists ArgoCDNamespace (ArgoCDClusterName cs)).
Proof.
  intros Hd. eapply emits_weaken; [apply emits_deleteSecretIfExists|].
  intros c [[Hv|Hv] [Hk Hn]]; [left; exact Hv|].
  do 5 right. left. split; [exact Hd|]. split; [rewrite Hv; simpl; tauto|].
  split; assumption.
Qed.

Lemma emits_patchStatus_attempt cs' original :
  ObjectKeyFromObject cs' = ObjectKeyFromObject cs ->
  emits (attemptCall cs) (patchStatus cs' original).
Proof.
  intros Hk. eapply emits_weaken; [apply emits_patchStatus|].
  intros c ->. do 6 right. split; [simpl; tauto|]. split; [reflexivity|exact Hk].
Qed.

Lemma emits_Update_attempt (cs' : v1alpha1.CertificateSet) :
  ObjectKeyFromObject cs' = ObjectKeyFromObject cs ->
  emits (attemptCall cs) (Update cs').
Proof.
  intros Hk. eapply emits_weaken; [apply (emits_Update Lawful_CertificateSet)|].
  intros c ->. do 6 right. split; [simpl; tauto|]. split; [reflexivity|exact Hk].
Qed.

Lemma set_key now l ty st rs msg :
  ObjectKeyFromObject (fst (set now l ty st rs msg)) = ObjectKeyFromObject (fst l).
Proof.
  unfold set. destruct (setCondition now (fst l) ty st rs msg) as [ch cs'] eqn:E.
  simpl. replace cs' with (snd (setCondition now (fst l) ty st rs msg))
    by (rewrite E; reflexivity).
  unfold ObjectKeyFromObject. simpl.
  rewrite (proj1 (setCondition_ObjectMeta now (fst l) ty st rs msg)). reflexivity.
Qed.

Lemma emits_degraded_attempt now reason e :
  emits (attemptCall cs) (degraded now (cs, []) cs reason e).
Proof.
  unfold degraded. apply emits_bind; [|repeat step].
  apply emits_patchStatus_attempt. apply set_key.
Qed.

Lemma emits_reconcileReadiness_attempt now :
  emits (attemptCall cs) (reconcileReadiness now cs cs).
Proof.
  unfold reconcileReadiness. apply emits_bind.
  - apply emits_read_attempt. apply emits_checkAllResourcesReady.
  - intros [[allReady notReadyReason] [e|]].
    + apply emits_bind; [|repeat step].
      apply emits_patchStatus_attempt. rewrite !set_key. reflexivity.
    + destruct (negb allReady).
      * apply emits_bind; [|repeat step].
        apply emits_patchStatus_attempt. rewrite !set_key. reflexivity.
      * apply emits_bind; [|repeat step].
        apply emits_patchStatus_attempt. rewrite !set_key. reflexivity.
Qed.

Lemma emits_reconcileCleanup_attempt now :
  emits (attemptCall cs) (reconcileCleanup now cs cs).
Proof.
  unfold reconcileCleanup.
  destruct (v1alpha1.ArgocdCluster _) eqn:Ea; simpl;
    [apply emits_reconcileReadiness_attempt|].
  apply emits_bind; [apply emits_deleteSecretIfExists_attempt; right; exact Ea|].
  intros [e|]; [apply emits_degraded_attempt | apply emits_reconcileReadiness_attempt].
Qed.

Lemma emits_reconcileClientCredentials_attempt now :
  live cs -> emits (attemptCall cs) (reconcileClientCredentials now cs cs).
Proof.
  intros Hl. unfold reconcileClientCredentials.
  destruct (_ || _) eqn:En; [|apply emits_reconcileCleanup_attempt].
  apply emits_bind; [apply emits_reconcileClientCertificates_attempt; assumption|].
  intros [e|]; [apply emits_degraded_attempt|].
  apply emits_bind; [apply emits_isSecretReady_attempt|].
  intros [ready [e|]]; [apply emits_ret|].
  destruct (negb ready); [apply emits_ret|].
  apply emits_bind; [apply emits_getCertificateData_attempt|].
  intros [certData|e]; [|apply emits_ret].
  apply emits_bind; [apply emits_reconcileDerivedSecrets_attempt; exact Hl|].
  intros [e|]; [apply emits_degraded_attempt | apply emits_reconcileCleanup_attempt].
Qed.

Lemma emits_reconcileDelete_attempt :
  ~ live cs -> emits (attemptCall cs) (reconcileDelete cs).
Proof.
  intros Hd. unfold reconcileDelete.
  apply emits_bind; [apply emits_deleteSecretIfExists_attempt; left; exact Hd|].
  intros [e|]; [apply emits_ret|].
  apply emits_bind; [apply emits_Update_attempt; reflexivity|].
  intros [e|]; apply emits_ret.
Qed.

End Attempt.
End Scope.

Ltac decompose_call F :=
  repeat match goal with
         | H : _ /\ _ |- _ => destruct H
         | H : exists _, _ |- _ => destruct H
         end.

(** The secrets that the certificates fill are not the derived ones. *)
Lemma certificate_names_are_not_derived cs name :
  In name (AllCertificateNames cs) ->
  name <> KubeconfigName cs /\ name <> ArgoCDClusterName cs.
Proof.
  intros Hin. apply AllCertificateNames_spec in Hin.
  unfold CAName, ETCDName, ProxyName, CAOIDCName, SuperAdminName,
    KubeconfigName, ArgoCDClusterName in *.
  destruct Hin as [->|[[_ [->|[->| ->]]]|[_ ->]]];
    split; intros E; apply append_inj_l in E; discriminate E.
Qed.

(** The run of an attempt on the stored parent [cs]. *)
Lemma Reconcile_run now req w cs :
  wf w ->
  certificateSets w !! req = Some cs ->
  exists l, run l w (snd (Reconcile now req w)) /\ Forall (attemptCall cs) l.
Proof.
  intros Hwf Hcs.
  assert (Hkey : ObjectKeyFromObject cs = req)
    by exact (wf_certificateSets _ Hwf _ _ Hcs).
  unfold Reconcile, bind.
destruct (Get req w) as [got w1] eqn:Eg.
pose proof (emits_Get (T := v1alpha1.CertificateSet) req w got w1 Hwf Eg)
  as (l1 & R1 & F1).
apply (Get_objects Lawful_CertificateSet) in Eg. destruct Eg as (_ & _ & Hgot).
assert (Hwf1 : wf w1) by exact (run_wf _ _ _ R1 Hwf).
assert (F1' : Forall (attemptCall cs) l1).
{ eapply List.Forall_impl; [|exact F1]. intros c ->. left. reflexivity. }
match goal with
| |- context [snd (?m w1)] =>
  assert (Hm : emits (attemptCall cs) m);
    [| destruct (m w1) as [o w2] eqn:Em;
       destruct (Hm _ _ _ Hwf1 Em) as (l2 & R2 & F2);
       exists (l1 ++ l2)%list; split;
       [eapply run_trans; eassumption | apply List.Forall_app; auto] ]
end.
destruct got as [cs'|e].
- destruct Hgot as [Hgot _]. change (objects w) with (certificateSets w) in Hgot.
  assert (cs' = cs) as -> by congruence.
  destruct (time.IsZero _) eqn:Elive; simpl.
  + destruct (ContainsFinalizer cs finalizerName) eqn:Efin; simpl.
    * apply emits_bind; [apply emits_reconcileCACertificates_attempt; exact Elive|].
      intros [e|]; [apply emits_degraded_attempt|].
      apply emits_bind; [apply emits_isSecretReady_attempt|].
      intros [ready [e|]]; [apply emits_ret|].
      destruct (negb ready); [apply emits_ret|].
      apply emits_reconcileClientCredentials_attempt. exact Elive.
    * apply emits_bind.
      -- apply emits_Update_attempt. unfold AddFinalizer. rewrite Efin. reflexivity.
      -- intros [e|]; apply emits_ret.
  + apply emits_reconcileDelete_attempt. unfold live. congruence.
- destruct (IsNotFound e); apply emits_ret.
Qed.

(** X15: the requests of an attempt stay with the parent and its
    children.  Besides reads, [Reconcile] creates or updates only the
    certificates that [AllCertificateNames] lists, the issuer and the two
    derived secrets of the parent, each only when the spec asks for it and
    never for a parent under deletion; the only object it ever deletes is
    the ArgoCD cluster secret; of the parent itself it sends the update and
    the status patch.  Every other object of the cluster is left as it
    is: no namespace changes, nor does any secret besides the two derived
    ones, in particular not the secrets that the certificates fill. *)
Theorem Reconcile_requests_stay_with_the_children :
  forall (now : Z) (req : NamespacedName) (w : World) (cs : v1alpha1.CertificateSet),
    wf w ->
    certificateSets w !! req = Some cs ->
    let w' := snd (Reconcile now req w) in
    let namespace := v1alpha1.GetNamespace cs in
    exists l,
      calls w' = (calls w ++ l)%list
      /\ Forall (attemptCall cs) l
      /\ namespaces w' = namespaces w
      /\ (forall n, n <> (namespace, KubeconfigName cs) ->
                    n <> (ArgoCDNamespace, ArgoCDClusterName cs) ->
                    secrets w' !! n = secrets w !! n)
      /\ (forall n, (forall name, In name (AllCertificateNames cs) ->
                                  n <> (namespace, name)) ->
                    certificates w' !! n = certificates w !! n)
      /\ (forall n, n <> (namespace, CAName cs) -> issuers w' !! n = issuers w !! n)
      /\ (forall n, n <> req -> certificateSets w' !! n = certificateSets w !! n)
      /\ (forall name, In name (AllCertificateNames cs) ->
                       secrets w' !! (namespace, name) = secrets w !! (namespace, name)).
Proof.
  intros now req w cs Hwf Hcs w' namespace.
  assert (Hkey : ObjectKeyFromObject cs = req)
    by exact (wf_certificateSets _ Hwf _ _ Hcs).
  destruct (Reconcile_run now req w cs Hwf Hcs) as (l & R & F). fold w' in R.
  exists l. subst namespace.
  rewrite List.Forall_forall in F.
  split; [exact (run_calls _ _ _ R)|]. split; [apply List.Forall_forall; exact F|].
  split; [|split; [|split; [|split; [|split]]]].
  - apply (untouched_eq _ _ _ _ _ (run_namespaces _ _ _ R)).
    apply List.Forall_forall. intros c Hin Hw Hk. specialize (F c Hin).
    unfold attemptCall, writeTo in F.
    destruct F as [F|[F|[F|[F|[F|[F|F]]]]]]; [exact (Hw F)|..];
      decompose_call F; congruence.
  - intros n Hn1 Hn2. apply (run_secrets _ _ _ R).
    intros c Hin Hw Hk Hkey'. specialize (F c Hin).
    unfold attemptCall, writeTo in F.
    destruct F as [F|[F|[F|[F|[F|[F|F]]]]]]; [exact (Hw F)|..];
      decompose_call F; congruence.
  - intros n Hn. apply (run_certificates _ _ _ R).
    intros c Hin Hw Hk Hkey'. specialize (F c Hin).
    unfold attemptCall, writeTo in F.
    destruct F as [F|[F|[F|[F|[F|[F|F]]]]]]; [exact (Hw F)|..];
      decompose_call F; try congruence.
    match goal with
    | Hname : In ?name (AllCertificateNames cs) |- _ => apply (Hn name Hname)
    end.
    congruence.
  - intros n Hn. apply (run_issuers _ _ _ R).
    intros c Hin Hw Hk Hkey'. specialize (F c Hin).
    unfold attemptCall, writeTo in F.
    destruct F as [F|[F|[F|[F|[F|[F|F]]]]]]; [exact (Hw F)|..];
      decompose_call F; congruence.
  - intros n Hn. apply (run_certificateSets _ _ _ R).
    intros c Hin Hw Hk Hkey'. specialize (F c Hin).
    unfold attemptCall, writeTo in F.
    destruct F as [F|[F|[F|[F|[F|[F|F]]]]]]; [exact (Hw F)|..];
      decompose_call F; congruence.
  - intros name Hname. apply (run_secrets _ _ _ R).
    destruct (certificate_names_are_not_derived cs name Hname) as [Hn1 Hn2].
    intros c Hin Hw Hk Hkey'. specialize (F c Hin).
    unfold attemptCall, writeTo in F.
    destruct F as [F|[F|[F|[F|[F|[F|F]]]]]]; [exact (Hw F)|..];
      decompose_call F; congruence.
Qed.

Lemma Reconcile_requests_stay_with_the_children_witness :
  let cs := sample.parent "selfsigned" in
  let w := demo.world [cs] [] [] [demo.bundle "demo-ca"] [] in
  wf w
  /\ certificateSets w !! demo.req = Some cs
  /\ secrets (snd (Reconcile 100 demo.req w)) !! ("default", "demo-ca")
     = Some (demo.bundle "demo-ca").
Proof.
  intros cs w.
  assert (Hwf : wf w) by apply wf_demo_world.
  assert (Hcs : certificateSets w !! demo.req = Some cs) by (vm_compute; reflexivity).
  split; [exact Hwf|]. split; [exact Hcs|].
  destruct (Reconcile_requests_stay_with_the_children 100 demo.req w cs Hwf Hcs)
    as (l & _ & _ & _ & _ & _ & _ & _ & Hsecrets).
  change ("default", "demo-ca") with (v1alpha1.GetNamespace cs, "demo-ca").
  rewrite (Hsecrets "demo-ca"); [vm_compute; reflexivity|].
  left. reflexivity.
Defined.


(** ** The status that an attempt leaves *)
Section Status.

Lemma set_fst now l ty st rs msg :
  fst (set now l ty st rs msg) = snd (setCondition now (fst l) ty st rs msg).
Proof.
  unfold set. destruct (setCondition now (fst l) ty st rs msg). reflexivity.
Qed.

Lemma hasCondition_ext a b ty st rs msg :
  v1alpha1.Status a = v1alpha1.Status b ->
  v1alpha1.ObjectMeta a = v1alpha1.ObjectMeta b ->
  hasCondition a ty st rs msg -> hasCondition b ty st rs msg.
Proof.
  intros Hs Hm (c & Hf & H1 & H2 & H3 & H4). exists c.
  rewrite <- Hs. split; [exact Hf|]. repeat split; try assumption.
  rewrite H4. unfold v1alpha1.GetGeneration. rewrite Hm. reflexivity.
Qed.

(** A status patch that goes through leaves the stored object with the
    status sent and with its own metadata and spec; no other store
    changes. *)
Lemma patchStatus_writes_status cs original stored w cs' w' :
  certificateSets w !! ObjectKeyFromObject cs = Some stored ->
  v1alpha1.Status stored = v1alpha1.Status original ->
  patchStatus cs original w = ((None, cs'), w') ->
  exists stored',
    certificateSets w' !! ObjectKeyFromObject cs = Some stored'
    /\ v1alpha1.Status stored' = v1alpha1.Status cs
    /\ v1alpha1.ObjectMeta stored' = v1alpha1.ObjectMeta stored
    /\ v1alpha1.Spec stored' = v1alpha1.Spec stored
    /\ certificates w' = certificates w
    /\ issuers w' = issuers w
    /\ secrets w' = secrets w.
Proof.
  intros Hs Hst. unfold patchStatus, StatusPatch, bind. simpl.
  destruct (faults w (tick w)); simpl; [discriminate|].
  rewrite Hs.
  destruct (decide (v1alpha1.Status cs = v1alpha1.Status original)) as [He|Hne];
    simpl; intros [= _ <-]; simpl.
  - exists stored. split; [exact Hs|]. split; [congruence|]. repeat split.
  - eexists. split; [apply lookup_insert_eq|]. repeat split.
Qed.

Lemma degraded_err now l csOriginal reason e w o w' :
  degraded now l csOriginal reason e w = (o, w') -> err o = Some e.
Proof.
  unfold degraded, bind. destruct (patchStatus _ _ _) as [? ?].
  intros [= <- _]. reflexivity.
Qed.

(** An attempt that ends without error and has set a condition has gone
    through all the phases: what it returns is what the last two steps
    return. *)
Lemma Reconcile_reports now req w o w' :
  Reconcile now req w = (o, w') ->
  err o = None -> writes o <> [] ->
  exists cs w8, reachesReadiness req w cs w8
                /\ reconcileReadiness now cs cs w8 = (o, w').
Proof.
  intros Hrec Herr Hwr.
  assert (Hdeg : forall cs reason e w0,
             degraded now (cs, []) cs reason e w0 = (o, w') -> False).
  { intros cs reason e w0 Hd. apply degraded_err in Hd. congruence. }
  unfold Reconcile, bind in Hrec.
  destruct (Get req w) as [[cs|e] w1] eqn:Hget.
  2:{ destruct (IsNotFound e); injection Hrec as <- <-; simpl in Hwr; congruence. }
  destruct (time.IsZero _) eqn:Hdel; simpl in Hrec.
  2:{ unfold reconcileDelete, bind in Hrec.
      destruct (deleteSecretIfExists _ _ _) as [[?|] ?];
        [|destruct (Update _ _) as [[?|] ?]];
        injection Hrec as <- <-; simpl in Hwr; congruence. }
  destruct (ContainsFinalizer cs finalizerName) eqn:Hfin; simpl in Hrec.
  2:{ destruct (Update _ _) as [[?|] ?];
        injection Hrec as <- <-; simpl in Hwr; congruence. }
  destruct (reconcileCACertificates cs w1) as [[e|] w2] eqn:Hca.
  { exfalso. eapply Hdeg. exact Hrec. }
  destruct (isSecretReady _ _ w2) as [[ready [e|]] w3] eqn:Hready.
  { injection Hrec as <- <-. simpl in Hwr; congruence. }
  destruct ready; simpl in Hrec.
  2:{ injection Hrec as <- <-. simpl in Hwr; congruence. }
  assert (Hfetched : fetched req w cs w1) by (repeat split; assumption).
  assert (HgateA : passesGateA cs w1 w3) by (exists w2; split; assumption).
  assert (Hclean : forall w7,
             reconcileCleanup now cs cs w7 = (o, w') ->
             exists w8,
               (if v1alpha1.ArgocdCluster (v1alpha1.Spec cs)
                then w8 = w7
                else deleteSecretIfExists ArgoCDNamespace (ArgoCDClusterName cs) w7
                     = (None, w8))
               /\ reconcileReadiness now cs cs w8 = (o, w')).
  { intros w7. unfold reconcileCleanup, bind.
    destruct (v1alpha1.ArgocdCluster (v1alpha1.Spec cs)); simpl.
    - intros H. exists w7. split; [reflexivity | exact H].
    - destruct (deleteSecretIfExists _ _ w7) as [[e|] w8] eqn:Hd.
      + intros H. exfalso. eapply Hdeg. exact H.
      + intros H. exists w8. split; [reflexivity | exact H]. }
  exists cs.
  unfold reconcileClientCredentials, bind in Hrec.
  fold (needsClientCerts cs) in Hrec.
  destruct (needsClientCerts cs) eqn:Hneeds.
  - destruct (reconcileClientCertificates cs w3) as [[e|] w4] eqn:Hclient.
    { exfalso. eapply Hdeg. exact Hrec. }
    destruct (isSecretReady _ _ w4) as [[ready [e|]] w5] eqn:Hready2.
    { injection Hrec as <- <-. simpl in Hwr; congruence. }
    destruct ready; simpl in Hrec.
    2:{ injection Hrec as <- <-. simpl in Hwr; congruence. }
    destruct (getCertificateData _ _ w5) as [[certData|e] w6] eqn:Hdata.
    2:{ injection Hrec as <- <-. simpl in Hwr; congruence. }
    destruct (reconcileDerivedSecrets cs certData w6) as [[e|] w7] eqn:Hderived.
    { exfalso. eapply Hdeg. exact Hrec. }
    destruct (Hclean _ Hrec) as (w8 & Hc8 & Hr8).
    exists w8. split; [|exact Hr8].
    exists w1, w3, w7. split; [exact Hfetched|]. split; [exact HgateA|].
    rewrite Hneeds. split; [|exact Hc8].
    exists certData, w6. split; [|exact Hderived].
    exists w4, w5. repeat split; assumption.
  - destruct (Hclean _ Hrec) as (w8 & Hc8 & Hr8).
    exists w8. split; [|exact Hr8].
    exists w1, w3, w3. split; [exact Hfetched|]. split; [exact HgateA|].
    rewrite Hneeds. split; [reflexivity | exact Hc8].
Qed.

(** The readiness check reads: the parent is stored after it as before. *)
Lemma checkAllResourcesReady_reads cs w r w' :
  wf w -> checkAllResourcesReady cs w = (r, w') ->
  wf w'
  /\ certificateSets w' = certificateSets w
  /\ secrets w' = secrets w.
Proof.
  intros Hwf Hc.
  assert (R : reach (fun c => verb c = VGet) w w').
  { eapply emits_reach; [apply emits_checkAllResourcesReady | | exact Hwf | exact Hc].
    auto. }
  split; [exact (reach_wf _ _ _ R Hwf)|]. split.
  - apply (reach_certificateSets _ _ _ R). intros c Hv Hw. contradiction.
  - apply map_eq. intros n. apply (reach_secret _ _ _ n R).
    intros c Hv Hw. contradiction.
Qed.

End Status.

(** X16: while the super-admin secret is not ready the attempt waits as
    it does for the CA secret: it asks to be run again after five seconds,
    returns no error, sets no condition and sends no status patch; no
    secret has been written. *)
Theorem gateB_wait_requeues_without_condition :
  forall (now : Z) (req : NamespacedName) (w w1 w3 w4 w5 : World)
         (cs : v1alpha1.CertificateSet),
    wf w ->
    fetched req w cs w1 ->
    passesGateA cs w1 w3 ->
    needsClientCerts cs = true ->
    reconcileClientCertificates cs w3 = (None, w4) ->
    isSecretReady (v1alpha1.GetNamespace cs) (SuperAdminName cs) w4
    = ((false, None), w5) ->
    Reconcile now req w
    = ({| result := requeueLater; err := None; writes := [] |}, w5)
    /\ certificateSets w5 = certificateSets w
    /\ secrets w5 = secrets w
    /\ exists l, calls w5 = (calls w ++ l)%list /\ Forall certificateCall l.
Proof.
  intros now req w w1 w3 w4 w5 cs Hwf Hfetched HgateA Hneeds Hclient Hready.
  split.
  - rewrite (Reconcile_gateA now req w cs w1 w3 Hfetched HgateA).
    unfold reconcileClientCredentials, bind. unfold needsClientCerts in Hneeds.
    rewrite Hneeds, Hclient, Hready. reflexivity.
  - assert (R1 : reach certificateCall w w1) by exact (fetched_reach _ _ _ _ Hwf Hfetched).
    assert (Hwf1 : wf w1) by exact (reach_wf _ _ _ R1 Hwf).
    assert (R3 : reach certificateCall w1 w3) by exact (passesGateA_reach _ _ _ Hwf1 HgateA).
    assert (Hwf3 : wf w3) by exact (reach_wf _ _ _ R3 Hwf1).
    assert (R4 : reach certificateCall w3 w4).
    { eapply emits_reach; [apply emits_reconcileClientCertificates | | exact Hwf3
                           | exact Hclient].
      intros c [H|H]; right; [right|left]; exact H. }
    assert (Hwf4 : wf w4) by exact (reach_wf _ _ _ R4 Hwf3).
    assert (R5 : reach certificateCall w4 w5)
      by exact (isSecretReady_reach _ _ _ _ _ Hwf4 Hready).
    assert (R : reach certificateCall w w5).
    { eapply reach_trans; [exact R1|]. eapply reach_trans; [exact R3|].
      eapply reach_trans; [exact R4 | exact R5]. }
    split; [|split].
    + apply (reach_certificateSets _ _ _ R).
      intros c [Hv|[Hk|Hk]] Hw; [contradiction | |]; rewrite Hk; discriminate.
    + apply map_eq. intros n. apply (reach_secret _ _ _ n R).
      intros c [Hv|[Hk|Hk]] Hw Hs; [contradiction | |]; rewrite Hk in Hs; discriminate.
    + destruct R as (l & Rl & Fl). exists l. split; [exact (run_calls _ _ _ Rl) | exact Fl].
Qed.

Lemma gateB_wait_requeues_without_condition_witness :
  let cs := demo.certificateSet "client" true false "selfsigned"
                                [finalizerName] None [] in
  let w := demo.world [cs] [] [] [demo.bundle "demo-ca"] [] in
  let w1 := snd (Get (T := v1alpha1.CertificateSet) demo.req w) in
  let w2 := snd (reconcileCACertificates cs w1) in
  let w3 := snd (isSecretReady "default" "demo-ca" w2) in
  let w4 := snd (reconcileClientCertificates cs w3) in
  let w5 := snd (isSecretReady "default" "demo-super-admin" w4) in
  wf w
  /\ fetched demo.req w cs w1
  /\ passesGateA cs w1 w3
  /\ needsClientCerts cs = true
  /\ reconcileClientCertificates cs w3 = (None, w4)
  /\ isSecretReady (v1alpha1.GetNamespace cs) (SuperAdminName cs) w4 = ((false, None), w5)
  /\ Reconcile 100 demo.req w
     = ({| result := requeueLater; err := None; writes := [] |}, w5)
  /\ secrets w5 = secrets w.
Proof.
  intros cs w w1 w2 w3 w4 w5.
  assert (Hwf : wf w) by apply wf_demo_world.
  assert (Hfetched : fetched demo.req w cs w1).
  { split; [vm_compute; reflexivity | split; vm_compute; reflexivity]. }
  assert (HgateA : passesGateA cs w1 w3).
  { exists w2. split; vm_compute; reflexivity. }
  assert (Hneeds : needsClientCerts cs = true) by reflexivity.
  assert (Hclient : reconcileClientCertificates cs w3 = (None, w4))
    by (vm_compute; reflexivity).
  assert (Hready : isSecretReady (v1alpha1.GetNamespace cs) (SuperAdminName cs) w4
                   = ((false, None), w5)) by (vm_compute; reflexivity).
  repeat (split; [assumption|]).
  destruct (gateB_wait_requeues_without_condition
              100 demo.req w w1 w3 w4 w5 cs Hwf Hfetched HgateA Hneeds Hclient Hready)
    as (Hrec & _ & Hsec & _).
  split; [exact Hrec | exact Hsec].
Defined.

(** What the last two steps leave in the store when they end without
    error. *)
Lemma reported_status_stored now req w cs w8 w' o :
  wf w ->
  reachesReadiness req w cs w8 ->
  reconcileReadiness now cs cs w8 = (o, w') ->
  err o = None ->
  exists stored,
    certificateSets w !! req = Some cs
    /\ certificateSets w' !! req = Some stored
    /\ v1alpha1.ObjectMeta stored = v1alpha1.ObjectMeta cs
    /\ v1alpha1.Spec stored = v1alpha1.Spec cs
    /\ (forall ty st rs msg,
           In (ty, st, rs, msg) (said o) -> hasCondition stored ty st rs msg)
    /\ (result o = ctrl.zero -> converged stored).
Proof.
  intros Hwf Hreach Hready Herr.
  pose proof Hreach as (w1 & w3 & w7 & Hfetched & _).
  destruct (fetched_stored _ _ _ _ Hwf Hfetched) as (Hcs & Hkey & _).
  pose proof (reachesReadiness_reach _ _ _ _ Hwf Hreach) as R8.
  assert (Hwf8 : wf w8) by exact (reach_wf _ _ _ R8 Hwf).
  assert (Hcs8 : certificateSets w8 = certificateSets w).
  { apply (reach_certificateSets _ _ _ R8). intros c Hc. exact (childCall_leavesParent c Hc). }
  revert Hready. unfold reconcileReadiness, bind.
  destruct (checkAllResourcesReady cs w8) as [[[allReady reason] [e|]] w9] eqn:Hcheck.
  { destruct (patchStatus _ _ _) as [? ?]. intros [= <- _]. discriminate Herr. }
  destruct (checkAllResourcesReady_reads _ _ _ _ Hwf8 Hcheck) as (_ & Hcs9 & _).
  assert (Hstored9 : forall l : Local,
             ObjectKeyFromObject (fst l) = ObjectKeyFromObject cs ->
             certificateSets w9 !! ObjectKeyFromObject (fst l) = Some cs).
  { intros l ->. rewrite Hcs9, Hcs8, Hkey. exact Hcs. }
  destruct allReady; simpl.
  - match goal with
    | |- context [patchStatus (fst ?l) cs w9] =>
      set (l3 := l); pose proof (Hstored9 l3) as Hs9;
        destruct (patchStatus (fst l3) cs w9) as [[[e|] cs''] w10] eqn:Hpatch
    end.
    { intros [= <- _]. discriminate Herr. }
    intros [= <- <-].
    destruct (patchStatus_writes_status _ _ _ _ _ _ (Hs9 ltac:(unfold l3; rewrite !set_key; reflexivity))
                eq_refl Hpatch)
      as (stored & Hst & Hstatus & Hmeta & Hspec & _).
    assert (Hk3 : ObjectKeyFromObject (fst l3) = req)
      by (unfold l3; rewrite !set_key; exact Hkey).
    rewrite Hk3 in Hst. exists stored.
    split; [exact Hcs|]. split; [exact Hst|]. split; [exact Hmeta|]. split; [exact Hspec|].
    assert (Hmeta3 : v1alpha1.ObjectMeta (fst l3) = v1alpha1.ObjectMeta stored).
    { rewrite Hmeta. unfold l3. rewrite !set_fst.
      rewrite !(proj1 (setCondition_ObjectMeta _ _ _ _ _ _)). reflexivity. }
    assert (H1 : hasCondition stored ConditionTypeReady metav1.ConditionTrue
                              "AllResourcesReady"
                              "All certificate resources created and ready").
    { apply (hasCondition_ext (fst l3)); [congruence | exact Hmeta3|].
      unfold l3. rewrite !set_fst.
      apply hasCondition_kept; [discriminate|].
      apply hasCondition_kept; [discriminate|]. apply hasCondition_set. }
    assert (H2 : hasCondition stored ConditionTypeDegraded metav1.ConditionFalse
                              "Healthy" "No errors").
    { apply (hasCondition_ext (fst l3)); [congruence | exact Hmeta3|].
      unfold l3. rewrite !set_fst.
      apply hasCondition_kept; [discriminate|]. apply hasCondition_set. }
    assert (H3 : hasCondition stored ConditionTypeProgressing metav1.ConditionFalse
                              "Complete" "Reconciliation complete").
    { apply (hasCondition_ext (fst l3)); [congruence | exact Hmeta3|].
      unfold l3. rewrite !set_fst. apply hasCondition_set. }
    split.
    + intros ty st rs msg. unfold said. simpl. unfold l3. rewrite !set_writes. simpl.
      intros [[= <- <- <- <-]|[[= <- <- <- <-]|[[= <- <- <- <-]|[]]]]; assumption.
    + intros _. split; [exact H1|]. split; assumption.
  - match goal with
    | |- context [patchStatus (fst ?l) cs w9] =>
      set (l3 := l); pose proof (Hstored9 l3) as Hs9;
        destruct (patchStatus (fst l3) cs w9) as [[[e|] cs''] w10] eqn:Hpatch
    end.
    { intros [= <- _]. discriminate Herr. }
    intros [= <- <-].
    destruct (patchStatus_writes_status _ _ _ _ _ _ (Hs9 ltac:(unfold l3; rewrite !set_key; reflexivity))
                eq_refl Hpatch)
      as (stored & Hst & Hstatus & Hmeta & Hspec & _).
    assert (Hk3 : ObjectKeyFromObject (fst l3) = req)
      by (unfold l3; rewrite !set_key; exact Hkey).
    rewrite Hk3 in Hst. exists stored.
    split; [exact Hcs|]. split; [exact Hst|]. split; [exact Hmeta|]. split; [exact Hspec|].
    assert (Hmeta3 : v1alpha1.ObjectMeta (fst l3) = v1alpha1.ObjectMeta stored).
    { rewrite Hmeta. unfold l3. rewrite !set_fst.
      rewrite !(proj1 (setCondition_ObjectMeta _ _ _ _ _ _)). reflexivity. }
    split; [|discriminate].
    intros ty st rs msg. unfold said. simpl. unfold l3. rewrite !set_writes. simpl.
    intros [[= <- <- <- <-]|[[= <- <- <- <-]|[[= <- <- <- <-]|[]]]];
      (apply (hasCondition_ext (fst l3)); [congruence | exact Hmeta3|]);
      unfold l3; rewrite !set_fst.
    + apply hasCondition_kept; [discriminate|].
      apply hasCondition_kept; [discriminate|]. apply hasCondition_set.
    + apply hasCondition_kept; [discriminate|]. apply hasCondition_set.
    + apply hasCondition_set.
Qed.

(** X17: an attempt that ends without error after setting conditions
    has them stored: the parent in the store carries every condition the
    attempt has set, recorded against its generation, with metadata and spec
    as they were; when the attempt asks for no requeue, the stored parent
    is converged. *)
Theorem stored_status_shows_what_the_attempt_said :
  forall (now : Z) (req : NamespacedName) (w w' : World) (o : Outcome),
    wf w ->
    Reconcile now req w = (o, w') ->
    err o = None ->
    writes o <> [] ->
    exists cs stored,
      certificateSets w !! req = Some cs
      /\ certificateSets w' !! req = Some stored
      /\ v1alpha1.ObjectMeta stored = v1alpha1.ObjectMeta cs
      /\ v1alpha1.Spec stored = v1alpha1.Spec cs
      /\ (forall ty st rs msg,
             In (ty, st, rs, msg) (said o) -> hasCondition stored ty st rs msg)
      /\ (result o = ctrl.zero -> converged stored).
Proof.
  intros now req w w' o Hwf Hrec Herr Hwr.
  destruct (Reconcile_reports _ _ _ _ _ Hrec Herr Hwr) as (cs & w8 & Hreach & Hready).
  destruct (reported_status_stored _ _ _ _ _ _ _ Hwf Hreach Hready Herr) as (stored & H).
  exists cs, stored. exact H.
Qed.

Lemma stored_status_shows_what_the_attempt_said_witness :
  let cs := sample.parent "selfsigned" in
  let w := demo.world [cs] [demo.issued (buildCACertificate cs)] []
                      [demo.bundle "demo-ca"] [] in
  let o := fst (Reconcile 100 demo.req w) in
  let w' := snd (Reconcile 100 demo.req w) in
  wf w
  /\ err o = None
  /\ writes o <> []
  /\ result o = ctrl.zero
  /\ exists stored, certificateSets w' !! demo.req = Some stored /\ converged stored.
Proof.
  intros cs w o w'.
  assert (Hwf : wf w) by apply wf_demo_world.
  assert (Hrec : Reconcile 100 demo.req w = (o, w')) by apply surjective_pairing.
  assert (Herr : err o = None) by (vm_compute; reflexivity).
  assert (Hwr : writes o <> []) by (vm_compute; discriminate).
  assert (Hres : result o = ctrl.zero) by (vm_compute; reflexivity).
  repeat (split; [assumption|]).
  destruct (stored_status_shows_what_the_attempt_said
              100 demo.req w w' o Hwf Hrec Herr Hwr)
    as (cs0 & stored & _ & Hst & _ & _ & _ & Hconv).
  exists stored. split; [exact Hst | exact (Hconv Hres)].
Defined.

Section Cleanup.

Lemma emits_reconcileReadiness_parent now cs csOriginal :
  emits (fun c => verb c = VGet \/ kind c = "CertificateSet")
        (reconcileReadiness now cs csOriginal).
Proof.
  assert (Hp : forall l : Local,
             emits (fun c => verb c = VGet \/ kind c = "CertificateSet")
                   (patchStatus (fst l) csOriginal)).
  { intros l. eapply emits_weaken; [apply emits_patchStatus|].
    intros c ->. right. reflexivity. }
  unfold reconcileReadiness. apply emits_bind.
  - eapply emits_weaken; [apply emits_checkAllResourcesReady|]. auto.
  - intros [[allReady notReadyReason] [e|]].
    + apply emits_bind; [apply Hp|]. intros ?. apply emits_ret.
    + destruct (negb allReady); (apply emits_bind; [apply Hp|]);
        intros [[?|] ?]; apply emits_ret.
Qed.

Lemma reachesReadiness_cleanup req w cs w8 :
  wf w -> reachesReadiness req w cs w8 ->
  v1alpha1.ArgocdCluster (v1alpha1.Spec cs) = false ->
  wf w8 /\ secrets w8 !! (ArgoCDNamespace, ArgoCDClusterName cs) = None.
Proof.
  intros Hwf Hreach Hargo.
  assert (Hwf8 : wf w8)
    by exact (reach_wf _ _ _ (reachesReadiness_reach _ _ _ _ Hwf Hreach) Hwf).
  split; [exact Hwf8|].
  destruct Hreach as (w1 & w3 & w7 & Hfetched & HgateA & Hclient & Hclean).
  rewrite Hargo in Hclean.
  assert (Hwf1 : wf w1) by exact (reach_wf _ _ _ (fetched_reach _ _ _ _ Hwf Hfetched) Hwf).
  assert (Hwf3 : wf w3) by exact (reach_wf _ _ _ (passesGateA_reach _ _ _ Hwf1 HgateA) Hwf1).
  assert (Hwf7 : wf w7).
  { destruct (needsClientCerts cs).
    - destruct Hclient as (certData & w6 & HgateB & Hderived).
      assert (Hwf6 : wf w6)
        by exact (reach_wf _ _ _ (passesGateB_reach _ _ _ _ Hwf3 HgateB) Hwf3).
      destruct (emits_reconcileDerivedSecrets cs certData _ _ _ Hwf6 Hderived)
        as (l & R & _).
      exact (run_wf _ _ _ R Hwf6).
    - subst w7. exact Hwf3. }
  exact (proj1 (deleteSecretIfExists_spec _ _ _ _ _ Hwf7 Hclean) eq_refl).
Qed.

End Cleanup.

(** X18: a parent that asks for no ArgoCD cluster secret has none once an
    attempt has reported on its readiness: the attempt has removed the
    secret if there was one, and nothing has brought it back. *)
Theorem argocd_secret_is_gone_when_not_asked_for :
  forall (now : Z) (req : NamespacedName) (w w' : World) (o : Outcome)
         (cs : v1alpha1.CertificateSet),
    wf w ->
    certificateSets w !! req = Some cs ->
    v1alpha1.ArgocdCluster (v1alpha1.Spec cs) = false ->
    Reconcile now req w = (o, w') ->
    err o = None ->
    writes o <> [] ->
    secrets w' !! (ArgoCDNamespace, ArgoCDClusterName cs) = None.
Proof.
  intros now req w w' o cs Hwf Hcs Hargo Hrec Herr Hwr.
  destruct (Reconcile_reports _ _ _ _ _ Hrec Herr Hwr) as (cs0 & w8 & Hreach & Hready).
  assert (cs0 = cs) as ->.
  { destruct Hreach as (w1 & _ & _ & Hfetched & _).
    destruct (fetched_stored _ _ _ _ Hwf Hfetched) as (Hcs0 & _). congruence. }
  destruct (reachesReadiness_cleanup _ _ _ _ Hwf Hreach Hargo) as [Hwf8 Hgone].
  assert (R : reach (fun c => verb c = VGet \/ kind c = "CertificateSet") w8 w').
  { eapply emits_reach; [apply emits_reconcileReadiness_parent | | exact Hwf8 | exact Hready].
    auto. }
  rewrite (reach_secret _ _ _ (ArgoCDNamespace, ArgoCDClusterName cs) R); [exact Hgone|].
  intros c [Hv|Hk] Hw Hs; [contradiction|]. rewrite Hk in Hs. discriminate.
Qed.

Lemma argocd_secret_is_gone_when_not_asked_for_witness :
  let cs := sample.parent "selfsigned" in
  let registration :=
    {| corev1.ObjectMeta :=
         metav1.newObjectMeta "demo-argocd-cluster" "beget-argocd" ∅ ∅;
       corev1.Type_ := corev1.SecretTypeOpaque;
       corev1.Data := {[ "name" := "demo" ]} |} in
  let w := demo.world [cs] [] [] [demo.bundle "demo-ca"; registration] [] in
  let o := fst (Reconcile 100 demo.req w) in
  let w' := snd (Reconcile 100 demo.req w) in
  wf w
  /\ certificateSets w !! demo.req = Some cs
  /\ v1alpha1.ArgocdCluster (v1alpha1.Spec cs) = false
  /\ err o = None
  /\ writes o <> []
  /\ secrets w !! ("beget-argocd", "demo-argocd-cluster") = Some registration
  /\ secrets w' !! ("beget-argocd", "demo-argocd-cluster") = None.
Proof.
  intros cs registration w o w'.
  assert (Hwf : wf w) by apply wf_demo_world.
  assert (Hcs : certificateSets w !! demo.req = Some cs) by (vm_compute; reflexivity).
  assert (Hrec : Reconcile 100 demo.req w = (o, w')) by apply surjective_pairing.
  assert (Herr : err o = None) by (vm_compute; reflexivity).
  assert (Hwr : writes o <> []) by (vm_compute; discriminate).
  split; [exact Hwf|]. split; [exact Hcs|]. split; [reflexivity|].
  split; [exact Herr|]. split; [exact Hwr|]. split; [vm_compute; reflexivity|].
  exact (argocd_secret_is_gone_when_not_asked_for
           100 demo.req w w' o cs Hwf Hcs eq_refl Hrec Herr Hwr).
Defined.

(** ** The phases: what is in place after them *)
Section Phases.

Lemma desiredCertificates_names cs :
  List.map (fun d => metav1.Name (certmanagerv1.ObjectMeta d)) (desiredCertificates cs)
  = AllCertificateNames cs.
Proof.
  unfold desiredCertificates, caCertificates, AllCertificateNames, needsClientCerts.
  assert (Ho : metav1.Name (certmanagerv1.ObjectMeta (buildOIDCCertificate cs))
               = CAOIDCName cs).
  { unfold buildOIDCCertificate.
    destruct (String.eqb _ _); [reflexivity|].
    destruct (String.eqb _ _); [|reflexivity].
    destruct (v1alpha1.IssuerRefOidc _); reflexivity. }
  destruct (isSystemOrInfra _), (_ || _); simpl; rewrite ?Ho; reflexivity.
Qed.

Lemma desiredCertificates_namespace cs desired :
  In desired (desiredCertificates cs) ->
  ObjectKeyFromObject desired
  = (v1alpha1.GetNamespace cs, metav1.Name (certmanagerv1.ObjectMeta desired)).
Proof.
  unfold desiredCertificates, caCertificates. intros Hin.
  apply in_app_or in Hin.
  assert (Ho : ObjectKeyFromObject (buildOIDCCertificate cs)
               = (v1alpha1.GetNamespace cs,
                  metav1.Name (certmanagerv1.ObjectMeta (buildOIDCCertificate cs)))).
  { unfold buildOIDCCertificate.
    destruct (String.eqb _ _); [reflexivity|].
    destruct (String.eqb _ _); [|reflexivity].
    destruct (v1alpha1.IssuerRefOidc _); reflexivity. }
  destruct Hin as [[<-|Hin]|Hin]; [reflexivity| |].
  - destruct (isSystemOrInfra _); [|destruct Hin].
    destruct Hin as [<-|[<-|[<-|[]]]]; [reflexivity | reflexivity | exact Ho].
  - destruct (needsClientCerts cs); [|destruct Hin].
    destruct Hin as [<-|[]]. reflexivity.
Qed.

(** What is in place carries the wanted state. *)
Lemma certificateInPlace_state cs w desired :
  certificateInPlace cs w desired ->
  exists stored,
    certificates w !! ObjectKeyFromObject desired = Some stored
    /\ certmanagerv1.Spec stored = certmanagerv1.Spec desired
    /\ metav1.Labels (certmanagerv1.ObjectMeta stored)
       = metav1.Labels (certmanagerv1.ObjectMeta desired)
    /\ metav1.Annotations (certmanagerv1.ObjectMeta stored)
       = metav1.Annotations (certmanagerv1.ObjectMeta desired)
    /\ controlledBy cs (certmanagerv1.ObjectMeta stored).
Proof.
  intros (stored & Hs & Hm). exists stored. split; [exact Hs|].
  apply mutateCertificate_Ok in Hm. tauto.
Qed.

Lemma issuerInPlace_state cs w desired :
  issuerInPlace cs w desired ->
  exists stored,
    issuers w !! ObjectKeyFromObject desired = Some stored
    /\ certmanagerv1.IssuerSpec_ stored = certmanagerv1.IssuerSpec_ desired
    /\ metav1.Labels (certmanagerv1.IssuerObjectMeta stored)
       = metav1.Labels (certmanagerv1.IssuerObjectMeta desired)
    /\ metav1.Annotations (certmanagerv1.IssuerObjectMeta stored)
       = metav1.Annotations (certmanagerv1.IssuerObjectMeta desired)
    /\ controlledBy cs (certmanagerv1.IssuerObjectMeta stored).
Proof.
  intros (stored & Hs & Hm). exists stored. split; [exact Hs|].
  apply mutateIssuer_Ok in Hm. tauto.
Qed.

Lemma createOrUpdateCertificate_inPlace cs desired w w' :
  createOrUpdateCertificate cs desired w = (None, w') ->
  certificateInPlace cs w' desired
  /\ (forall n', n' <> ObjectKeyFromObject desired ->
                 certificates w' !! n' = certificates w !! n').
Proof.
  intros Hrun.
  destruct (createOrUpdateCertificate_stored _ _ _ _ Hrun)
    as (base & stored & Hm & Hs & _ & Hframe).
  split; [|exact Hframe]. exists stored. split; [exact Hs|].
  apply mutateCertificate_Ok in Hm. tauto.
Qed.

Lemma createOrUpdateIssuer_inPlace cs desired w w' :
  createOrUpdateIssuer cs desired w = (None, w') ->
  issuerInPlace cs w' desired
  /\ (forall n', n' <> ObjectKeyFromObject desired -> issuers w' !! n' = issuers w !! n').
Proof.
  intros Hrun.
  destruct (createOrUpdateIssuer_stored _ _ _ _ Hrun)
    as (base & stored & Hm & Hs & _ & Hframe).
  split; [|exact Hframe]. exists stored. split; [exact Hs|].
  apply mutateIssuer_Ok in Hm. tauto.
Qed.

Lemma certificateInPlace_frame cs w w' desired :
  certificates w' !! ObjectKeyFromObject desired
  = certificates w !! ObjectKeyFromObject desired ->
  certificateInPlace cs w desired -> certificateInPlace cs w' desired.
Proof. intros E (stored & Hs & Hm). exists stored. rewrite E. auto. Qed.

Lemma issuerInPlace_frame cs w w' desired :
  issuers w' !! ObjectKeyFromObject desired = issuers w !! ObjectKeyFromObject desired ->
  issuerInPlace cs w desired -> issuerInPlace cs w' desired.
Proof. intros E (stored & Hs & Hm). exists stored. rewrite E. auto. Qed.

Lemma secretInPlace_frame w w' desired managedKeys :
  secrets w' !! ObjectKeyFromObject desired = secrets w !! ObjectKeyFromObject desired ->
  secretInPlace w desired managedKeys -> secretInPlace w' desired managedKeys.
Proof. intros E (stored & Hs & Hm). exists stored. rewrite E. auto. Qed.

(** What is in place is read and left alone. *)
Lemma certificateInPlace_read cs w desired :
  wf w -> faults w (tick w) = None ->
  certificateInPlace cs w desired ->
  createOrUpdateCertificate cs desired w
  = (None, snd (request VGet "Certificate" (ObjectKeyFromObject desired) w)).
Proof.
  intros Hwf Hf (stored & Hs & Hm).
  apply (createOrUpdateCertificate_settled cs desired w stored Hf Hs); [|exact Hm].
  exact (wf_certificates _ Hwf _ _ Hs).
Qed.

Lemma issuerInPlace_read cs w desired :
  wf w -> faults w (tick w) = None ->
  issuerInPlace cs w desired ->
  createOrUpdateIssuer cs desired w
  = (None, snd (request VGet "Issuer" (ObjectKeyFromObject desired) w)).
Proof.
  intros Hwf Hf (stored & Hs & Hm).
  apply (createOrUpdateIssuer_settled cs desired w stored Hf Hs); [|exact Hm].
  exact (wf_issuers _ Hwf _ _ Hs).
Qed.

Lemma secretInPlace_read w desired managedKeys :
  faults w (tick w) = None ->
  secretInPlace w desired managedKeys ->
  createOrUpdateSecret desired managedKeys w
  = (None, snd (request VGet "Secret" (ObjectKeyFromObject desired) w)).
Proof.
  intros Hf (stored & Hs & Hk).
  rewrite createOrUpdateSecret_eq, Hf, Hs.
  rewrite (proj2 (secretDataEqualForKeys_iff _ _ _) Hk). reflexivity.
Qed.

Lemma createOrUpdateSecret_inPlace desired managedKeys w w' :
  wf w ->
  (forall k, In k managedKeys -> is_Some (corev1.Data desired !! k)) ->
  createOrUpdateSecret desired managedKeys w = (None, w') ->
  secretInPlace w' desired managedKeys
  /\ (forall n', n' <> ObjectKeyFromObject desired -> secrets w' !! n' = secrets w !! n').
Proof.
  intros Hwf Hkeys Hrun.
  destruct (createOrUpdateSecret_stored _ _ _ _ Hwf Hrun) as [Hst Hframe].
  split; [|exact Hframe].
  destruct (secrets w !! ObjectKeyFromObject desired) as [existing|].
  - destruct Hst as (stored & Hs & _ & _ & _ & Hd). exists stored.
    split; [exact Hs|]. intros k Hk. apply Hd; auto.
  - exists desired. split; [exact Hst|]. reflexivity.
Qed.

End Phases.

Section Reads.

Lemma onlyReads_refl w : onlyReads w w.
Proof. apply reach_refl. Qed.

Lemma onlyReads_trans w w1 w2 : onlyReads w w1 -> onlyReads w1 w2 -> onlyReads w w2.
Proof. apply reach_trans. Qed.

Lemma onlyReads_request k n w : onlyReads w (snd (request VGet k n w)).
Proof. eexists. split; [apply request_run|]. repeat constructor. Qed.

Lemma onlyReads_stores w w' :
  onlyReads w w' ->
  certificateSets w' = certificateSets w
  /\ certificates w' = certificates w
  /\ issuers w' = issuers w
  /\ secrets w' = secrets w
  /\ namespaces w' = namespaces w
  /\ faults w' = faults w
  /\ (wf w -> wf w').
Proof.
  intros R.
  split; [apply (reach_certificateSets _ _ _ R); intros c Hv Hw; contradiction|].
  split; [apply (reach_certificates _ _ _ R); intros c Hv Hw; contradiction|].
  split; [apply (reach_issuers _ _ _ R); intros c Hv Hw; contradiction|].
  split; [apply map_eq; intros n; apply (reach_secret _ _ _ n R);
          intros c Hv Hw; contradiction|].
  split; [apply (reach_namespaces _ _ _ R); intros c Hv Hw; contradiction|].
  destruct R as (l & R & _). split; [exact (run_faults _ _ _ R) | exact (run_wf _ _ _ R)].
Qed.

Lemma onlyReads_faultless w w' : onlyReads w w' -> faultless w -> faultless w'.
Proof.
  intros R Hf t. destruct (onlyReads_stores _ _ R) as (_ & _ & _ & _ & _ & E & _).
  rewrite E. apply Hf.
Qed.

Lemma emits_onlyReads {A} (m : M A) w a w' :
  emits (fun c => verb c = VGet) m -> wf w -> m w = (a, w') -> onlyReads w w'.
Proof. intros Hm Hwf E. eapply emits_reach; [exact Hm | auto | exact Hwf | exact E]. Qed.

Lemma certificateInPlace_onlyReads cs w w' desired :
  onlyReads w w' -> certificateInPlace cs w desired -> certificateInPlace cs w' desired.
Proof.
  intros R. apply certificateInPlace_frame.
  destruct (onlyReads_stores _ _ R) as (_ & -> & _). reflexivity.
Qed.

Lemma issuerInPlace_onlyReads cs w w' desired :
  onlyReads w w' -> issuerInPlace cs w desired -> issuerInPlace cs w' desired.
Proof.
  intros R. apply issuerInPlace_frame.
  destruct (onlyReads_stores _ _ R) as (_ & _ & -> & _). reflexivity.
Qed.

Lemma secretInPlace_onlyReads w w' desired managedKeys :
  onlyReads w w' -> secretInPlace w desired managedKeys ->
  secretInPlace w' desired managedKeys.
Proof.
  intros R. apply secretInPlace_frame.
  destruct (onlyReads_stores _ _ R) as (_ & _ & _ & -> & _). reflexivity.
Qed.

End Reads.

Section CAPhase.

Lemma buildOIDCCertificate_key cs :
  ObjectKeyFromObject (buildOIDCCertificate cs)
  = (v1alpha1.GetNamespace cs, CAOIDCName cs).
Proof.
  unfold buildOIDCCertificate.
  destruct (String.eqb _ _); [reflexivity|].
  destruct (String.eqb _ _); [|reflexivity].
  destruct (v1alpha1.IssuerRefOidc _); reflexivity.
Qed.

(** The keys of two certificates of different names differ. *)
Lemma child_keys_differ (namespace name a b : string) :
  a <> b -> (namespace, name +:+ a) <> (namespace, name +:+ b).
Proof. intros Hab [= E]. apply append_inj_l in E. exact (Hab E). Qed.

Lemma certificates_step cs d ds w w' :
  createOrUpdateCertificate cs d w = (None, w') ->
  Forall (certificateInPlace cs w) ds ->
  Forall (fun d' => ObjectKeyFromObject d' <> ObjectKeyFromObject d) ds ->
  Forall (certificateInPlace cs w') (ds ++ [d]).
Proof.
  intros Hrun Hin Hne. destruct (createOrUpdateCertificate_inPlace _ _ _ _ Hrun)
    as [Hd Hframe].
  apply List.Forall_app. split; [|repeat constructor; exact Hd].
  rewrite List.Forall_forall in *. intros d' Hd'.
  apply (certificateInPlace_frame cs w); [|auto]. apply Hframe. auto.
Qed.

(** After the first phase the certificates it builds are in place; it has
    written certificates only. *)
Lemma reconcileCACertificates_inPlace cs w w' :
  wf w ->
  reconcileCACertificates cs w = (None, w') ->
  Forall (certificateInPlace cs w') (caCertificates cs)
  /\ reach (fun c => kind c = "Certificate") w w'.
Proof.
  intros Hwf Hrun. split.
  2:{ eapply emits_reach; [apply emits_reconcileCACertificates | | exact Hwf | exact Hrun].
      auto. }
  revert Hrun. unfold reconcileCACertificates, caCertificates, bind.
  destruct (createOrUpdateCertificate cs (buildCACertificate cs) w) as [[e|] w1] eqn:E1;
    [discriminate|].
  pose proof (certificates_step _ _ [] _ _ E1 (List.Forall_nil _) (List.Forall_nil _)) as H1.
  destruct (isSystemOrInfra _); [|intros [= <-]; exact H1].
  destruct (createOrUpdateCertificate cs (buildETCDCertificate cs) w1) as [[e|] w2] eqn:E2;
    [discriminate|].
  assert (H2 := certificates_step _ _ _ _ _ E2 H1). simpl in H2.
  destruct (createOrUpdateCertificate cs (buildProxyCertificate cs) w2) as [[e|] w3] eqn:E3;
    [discriminate|].
  assert (H3 := fun H => certificates_step _ _ _ _ _ E3 (H2 H)). simpl in H3.
  destruct (createOrUpdateCertificate cs (buildOIDCCertificate cs) w3) as [[e|] w4] eqn:E4;
    [discriminate|].
  assert (H4 := fun H H' => certificates_step _ _ _ _ _ E4 (H3 H H')). simpl in H4.
  intros [= <-]. apply H4.
  - repeat constructor. apply child_keys_differ. discriminate.
  - repeat constructor; apply child_keys_differ; discriminate.
  - rewrite buildOIDCCertificate_key.
    repeat constructor; apply child_keys_differ; discriminate.
Qed.

(** When they are in place the first phase reads them and writes
    nothing. *)
Lemma reconcileCACertificates_read cs w :
  wf w -> faultless w ->
  Forall (certificateInPlace cs w) (caCertificates cs) ->
  exists w', reconcileCACertificates cs w = (None, w') /\ onlyReads w w'.
Proof.
  intros Hwf Hf Hin.
  assert (Hstep : forall d w0,
             onlyReads w w0 -> In d (caCertificates cs) ->
             exists w1, createOrUpdateCertificate cs d w0 = (None, w1)
                        /\ onlyReads w w1).
  { intros d w0 R Hd. eexists. split.
    - apply certificateInPlace_read.
      + exact (proj2 (proj2 (proj2 (proj2 (proj2 (proj2 (onlyReads_stores _ _ R)))))) Hwf).
      + apply (onlyReads_faultless _ _ R Hf).
      + apply (certificateInPlace_onlyReads _ _ _ _ R).
        rewrite List.Forall_forall in Hin. auto.
    - eapply onlyReads_trans; [exact R | apply onlyReads_request]. }
  revert Hstep. unfold reconcileCACertificates, caCertificates, bind.
  intros Hstep.
  destruct (Hstep (buildCACertificate cs) w (onlyReads_refl w)) as (w1 & -> & R1);
    [left; reflexivity|].
  destruct (isSystemOrInfra _); [|exists w1; split; [reflexivity | exact R1]].
  destruct (Hstep (buildETCDCertificate cs) w1 R1) as (w2 & -> & R2);
    [simpl; tauto|].
  destruct (Hstep (buildProxyCertificate cs) w2 R2) as (w3 & -> & R3);
    [simpl; tauto|].
  destruct (Hstep (buildOIDCCertificate cs) w3 R3) as (w4 & -> & R4);
    [simpl; tauto|].
  exists w4. split; [reflexivity | exact R4].
Qed.

End CAPhase.

Section ClientPhase.

(** After the phase of the client certificates the issuer and the
    super-admin certificate are in place; no other certificate has
    changed. *)
Lemma reconcileClientCertificates_inPlace cs w w' :
  wf w ->
  reconcileClientCertificates cs w = (None, w') ->
  issuerInPlace cs w' (buildIssuer cs)
  /\ certificateInPlace cs w' (buildSuperAdminCertificate cs (CAName cs))
  /\ (forall n, n <> (v1alpha1.GetNamespace cs, SuperAdminName cs) ->
                certificates w' !! n = certificates w !! n)
  /\ reach (fun c => kind c = "Issuer" \/ kind c = "Certificate") w w'.
Proof.
  intros Hwf Hrun.
  assert (R : reach (fun c => kind c = "Issuer" \/ kind c = "Certificate") w w').
  { eapply emits_reach; [apply emits_reconcileClientCertificates | | exact Hwf | exact Hrun].
    auto. }
  revert Hrun. unfold reconcileClientCertificates, bind.
  destruct (createOrUpdateIssuer cs (buildIssuer cs) w) as [[e|] w1] eqn:E1;
    [discriminate|].
  change (metav1.Name (certmanagerv1.IssuerObjectMeta (buildIssuer cs)))
    with (CAName cs).
  destruct (createOrUpdateCertificate cs _ w1) as [[e|] w2] eqn:E2; [discriminate|].
  intros [= <-].
  assert (R1 : reach (fun c => kind c = "Issuer") w w1).
  { eapply emits_reach; [apply emits_createOrUpdateIssuer | | exact Hwf | exact E1]. auto. }
  assert (R2 : reach (fun c => kind c = "Certificate") w1 w2).
  { eapply emits_reach; [apply emits_createOrUpdateCertificate | | | exact E2];
      [auto | exact (reach_wf _ _ _ R1 Hwf)]. }
  destruct (createOrUpdateIssuer_inPlace _ _ _ _ E1) as [Hi _].
  destruct (createOrUpdateCertificate_inPlace _ _ _ _ E2) as [Hc Hframe].
  split; [|split; [exact Hc|split; [|exact R]]].
  - apply (issuerInPlace_frame cs w1); [|exact Hi].
    rewrite (reach_issuers _ _ _ R2); [reflexivity|].
    intros c Hk _. rewrite Hk. discriminate.
  - intros n Hn. rewrite (Hframe n Hn).
    rewrite (reach_certificates _ _ _ R1); [reflexivity|].
    intros c Hk _. rewrite Hk. discriminate.
Qed.

Lemma reconcileClientCertificates_read cs w :
  wf w -> faultless w ->
  issuerInPlace cs w (buildIssuer cs) ->
  certificateInPlace cs w (buildSuperAdminCertificate cs (CAName cs)) ->
  exists w', reconcileClientCertificates cs w = (None, w') /\ onlyReads w w'.
Proof.
  intros Hwf Hf Hi Hc. unfold reconcileClientCertificates, bind.
  rewrite (issuerInPlace_read cs w _ Hwf (Hf _) Hi).
  change (metav1.Name (certmanagerv1.IssuerObjectMeta (buildIssuer cs)))
    with (CAName cs).
  set (w1 := snd (request VGet "Issuer" _ w)).
  assert (R1 : onlyReads w w1) by apply onlyReads_request.
  rewrite (certificateInPlace_read cs w1).
  - eexists. split; [reflexivity|].
    eapply onlyReads_trans; [exact R1 | apply onlyReads_request].
  - exact (proj2 (proj2 (proj2 (proj2 (proj2 (proj2 (onlyReads_stores _ _ R1)))))) Hwf).
  - apply (onlyReads_faultless _ _ R1 Hf).
  - exact (certificateInPlace_onlyReads _ _ _ _ R1 Hc).
Qed.

End ClientPhase.

Section DerivedPhase.

Lemma desiredKubeconfigSecret_Ok cs certData secret :
  desiredKubeconfigSecret cs certData = Ok secret ->
  ObjectKeyFromObject secret = (v1alpha1.GetNamespace cs, KubeconfigName cs)
  /\ corev1.Data secret
     = {[ "value" := kubeconfigTemplate
                       {| ClusterName := v1alpha1.GetName cs;
                          Server := v1alpha1.KubeconfigEndpoint (v1alpha1.Spec cs);
                          kCACert := CACert certData;
                          kTLSCert := TLSCert certData;
                          kTLSKey := TLSKey certData |} ]}.
Proof.
  unfold desiredKubeconfigSecret. simpl. intros E.
  pose proof E as Hk. apply SetControllerReference_key in Hk; [|reflexivity].
  split; [exact Hk|].
  apply SetControllerReference_Ok in E; [|reflexivity|reflexivity].
  destruct E as (-> & _). reflexivity.
Qed.

(** The ArgoCD cluster secret that [buildArgoCDClusterSecret] makes. *)
Lemma buildArgoCDClusterSecret_Ok cs certData :
  exists secret,
    buildArgoCDClusterSecret cs certData = Ok secret
    /\ ObjectKeyFromObject secret = (ArgoCDNamespace, ArgoCDClusterName cs)
    /\ corev1.Data secret !! "config" = Some (argoCDConfigTemplate certData)
    /\ corev1.Data secret !! "name" = Some (v1alpha1.GetName cs)
    /\ corev1.Data secret !! "server"
       = Some (v1alpha1.KubeconfigEndpoint (v1alpha1.Spec cs)).
Proof.
  eexists. split; [reflexivity|]. split; [reflexivity|]. simpl.
  split; [apply lookup_insert_eq|]. split.
  - rewrite lookup_insert_ne by discriminate. apply lookup_insert_eq.
  - rewrite lookup_insert_ne by discriminate.
    rewrite lookup_insert_ne by discriminate. apply lookup_singleton_eq.
Qed.

Lemma reconcileArgoCDClusterSecret_inPlace cs certData w w' :
  wf w ->
  v1alpha1.ArgocdCluster (v1alpha1.Spec cs) = true ->
  reconcileArgoCDClusterSecret cs certData w = (None, w') ->
  is_Some (namespaces w !! (EmptyString, ArgoCDNamespace))
  /\ (exists secret,
         buildArgoCDClusterSecret cs certData = Ok secret
         /\ secretInPlace w' secret ["config"; "name"; "server"])
  /\ (forall n, n <> (ArgoCDNamespace, ArgoCDClusterName cs) ->
                secrets w' !! n = secrets w !! n).
Proof.
  intros Hwf Hargo. unfold reconcileArgoCDClusterSecret, bind. rewrite Hargo.
  destruct (Get (T := corev1.Namespace) (EmptyString, ArgoCDNamespace) w)
    as [[ns|e] w1] eqn:Eg.
  2:{ destruct (IsNotFound e); discriminate. }
  pose proof (emits_onlyReads _ _ _ _
                ltac:(eapply emits_weaken; [apply (emits_Get (T := corev1.Namespace))|];
                      intros c ->; reflexivity) Hwf Eg) as R1.
  apply (Get_objects Lawful_Namespace) in Eg. destruct Eg as (_ & _ & Hgot).
  destruct Hgot as [Hns _].
  destruct (onlyReads_stores _ _ R1) as (_ & _ & _ & Hs1 & _ & _ & Hwf1).
  destruct (buildArgoCDClusterSecret_Ok cs certData) as (secret & Hb & Hk & Hc & Hn & Hsv).
  rewrite Hb.
  destruct (createOrUpdateSecret secret _ w1) as [[e|] w2] eqn:Ec; [discriminate|].
  intros [= <-].
  assert (Hkeys : forall k, In k ["config"; "name"; "server"] ->
                            is_Some (corev1.Data secret !! k))
    by (intros k [<-|[<-|[<-|[]]]]; eauto).
  destruct (createOrUpdateSecret_inPlace _ _ _ _ (Hwf1 Hwf) Hkeys Ec) as [Hin Hframe].
  split; [change (objects w) with (namespaces w) in Hns; rewrite Hns; eauto|].
  split; [exists secret; split; [reflexivity | exact Hin]|].
  intros n Hn'. rewrite Hframe by (rewrite Hk; exact Hn'). rewrite Hs1. reflexivity.
Qed.

Lemma reconcileArgoCDClusterSecret_off cs certData w :
  v1alpha1.ArgocdCluster (v1alpha1.Spec cs) = false ->
  reconcileArgoCDClusterSecret cs certData w = (None, w).
Proof. intros Hargo. unfold reconcileArgoCDClusterSecret. rewrite Hargo. reflexivity. Qed.

(** After the phase of the derived secrets, those that the spec asks for
    are in place. *)
Lemma reconcileDerivedSecrets_inPlace cs certData w w' :
  wf w ->
  reconcileDerivedSecrets cs certData w = (None, w') ->
  (v1alpha1.Kubeconfig (v1alpha1.Spec cs) = true ->
   exists secret, desiredKubeconfigSecret cs certData = Ok secret
                  /\ secretInPlace w' secret ["value"])
  /\ (v1alpha1.ArgocdCluster (v1alpha1.Spec cs) = true ->
      is_Some (namespaces w !! (EmptyString, ArgoCDNamespace))
      /\ exists secret, buildArgoCDClusterSecret cs certData = Ok secret
                        /\ secretInPlace w' secret ["config"; "name"; "server"])
  /\ reach (derivedCall cs) w w'.
Proof.
  intros Hwf Hrun.
  assert (R : reach (derivedCall cs) w w').
  { eapply emits_reach; [apply emits_reconcileDerivedSecrets | | exact Hwf | exact Hrun].
    auto. }
  split; [|split; [|exact R]]; revert Hrun; unfold reconcileDerivedSecrets, bind.
  - intros Hrun Hk. rewrite Hk in Hrun. revert Hrun.
    unfold desiredKubeconfigSecret.
    destruct (buildKubeconfigSecret cs certData) as [built|e] eqn:Eb; [|discriminate].
    destruct (SetControllerReference GroupVersion cs built) as [secret|e] eqn:Es;
      [|discriminate].
    destruct (createOrUpdateSecret secret ["value"] w) as [[e|] w1] eqn:Ec;
      [discriminate|].
    intros Hargo. exists secret. split; [reflexivity|].
    assert (Hd : desiredKubeconfigSecret cs certData = Ok secret)
      by (unfold desiredKubeconfigSecret; rewrite Eb; exact Es).
    apply desiredKubeconfigSecret_Ok in Hd. destruct Hd as [Hkey Hdata].
    assert (Hkeys : forall k, In k ["value"] -> is_Some (corev1.Data secret !! k))
      by (intros k [<-|[]]; rewrite Hdata; rewrite lookup_singleton_eq; eauto).
    destruct (createOrUpdateSecret_inPlace _ _ _ _ Hwf Hkeys Ec) as [Hin _].
    assert (Hwf1 : wf w1).
    { destruct (emits_createOrUpdateSecret secret ["value"] _ _ _ Hwf Ec) as (l & Rl & _).
      exact (run_wf _ _ _ Rl Hwf). }
    destruct (v1alpha1.ArgocdCluster (v1alpha1.Spec cs)) eqn:Ea.
    + destruct (reconcileArgoCDClusterSecret_inPlace _ _ _ _ Hwf1 Ea Hargo)
        as (_ & _ & Hframe).
      apply (secretInPlace_frame w1); [|exact Hin].
      apply Hframe. rewrite Hkey. apply kubeconfig_is_not_registration.
    + rewrite (reconcileArgoCDClusterSecret_off _ _ _ Ea) in Hargo.
      injection Hargo as <-. exact Hin.
  - intros Hrun Ha.
    destruct (v1alpha1.Kubeconfig (v1alpha1.Spec cs)).
    + revert Hrun.
      destruct (buildKubeconfigSecret cs certData) as [built|e] eqn:Eb; [|discriminate].
      destruct (SetControllerReference GroupVersion cs built) as [secret|e] eqn:Es;
        [|discriminate].
      destruct (createOrUpdateSecret secret ["value"] w) as [[e|] w1] eqn:Ec;
        [discriminate|].
      intros Hargo.
      assert (R1 : reach (onObject "Secret" (ObjectKeyFromObject secret)) w w1).
      { eapply emits_reach; [apply emits_createOrUpdateSecret | | exact Hwf | exact Ec].
        auto. }
      destruct (reconcileArgoCDClusterSecret_inPlace _ _ _ _ (reach_wf _ _ _ R1 Hwf) Ha Hargo)
        as (Hns & Hin & _).
      split; [|exact Hin].
      rewrite <- (reach_namespaces _ _ _ R1); [exact Hns|].
      intros c [Hk _] _. rewrite Hk. discriminate.
    + destruct (reconcileArgoCDClusterSecret_inPlace _ _ _ _ Hwf Ha Hrun)
        as (Hns & Hin & _).
      split; assumption.
Qed.

End DerivedPhase.

(** ** A cluster in which everything is in place *)
Section Gates.

Lemma isSecretReady_true namespace name w err w' :
  wf w ->
  isSecretReady namespace name w = ((true, err), w') ->
  err = None
  /\ onlyReads w w'
  /\ exists secret, secrets w !! (namespace, name) = Some secret /\ hasBundle secret.
Proof.
  intros Hwf Hrun.
  assert (R : onlyReads w w').
  { eapply emits_onlyReads; [|exact Hwf|exact Hrun].
    eapply emits_weaken; [apply emits_isSecretReady|]. intros c [H _]. exact H. }
  revert Hrun. unfold isSecretReady, bind.
  destruct (Get (T := corev1.Secret) (namespace, name) w) as [[secret|e] w1] eqn:Eg.
  - apply (Get_objects Lawful_Secret) in Eg. destruct Eg as (_ & _ & Hgot).
    destruct Hgot as [Hs _]. intros [= Hb <- _].
    split; [reflexivity|]. split; [exact R|]. exists secret.
    split; [exact Hs|]. apply hasBundle_true. exact Hb.
  - destruct (IsNotFound e); discriminate.
Qed.

Lemma isSecretReady_read namespace name w secret :
  faults w (tick w) = None ->
  secrets w !! (namespace, name) = Some secret -> hasBundle secret ->
  isSecretReady namespace name w
  = ((true, None), snd (request VGet "Secret" (namespace, name) w)).
Proof.
  intros Hf Hs Hb. unfold isSecretReady, bind.
  rewrite (Get_Some Lawful_Secret _ _ secret Hf Hs).
  apply hasBundle_true in Hb. unfold ret. rewrite Hb. reflexivity.
Qed.

Lemma getCertificateData_Ok namespace name w certData w' :
  wf w ->
  getCertificateData namespace name w = (Ok certData, w') ->
  onlyReads w w'
  /\ exists secret, secrets w !! (namespace, name) = Some secret
                    /\ certData = credentialsOf secret.
Proof.
  intros Hwf Hrun.
  assert (R : onlyReads w w').
  { eapply emits_onlyReads; [|exact Hwf|exact Hrun].
    eapply emits_weaken; [apply emits_getCertificateData|]. intros c [H _]. exact H. }
  split; [exact R|]. revert Hrun. unfold getCertificateData, bind.
  destruct (Get (T := corev1.Secret) (namespace, name) w) as [[secret|e] w1] eqn:Eg;
    [|discriminate].
  apply (Get_objects Lawful_Secret) in Eg. destruct Eg as (_ & _ & Hgot).
  destruct Hgot as [Hs _]. intros [= <- _]. exists secret. split; [exact Hs | reflexivity].
Qed.

Lemma getCertificateData_read namespace name w secret :
  faults w (tick w) = None ->
  secrets w !! (namespace, name) = Some secret ->
  getCertificateData namespace name w
  = (Ok (credentialsOf secret), snd (request VGet "Secret" (namespace, name) w)).
Proof.
  intros Hf Hs. unfold getCertificateData, bind.
  rewrite (Get_Some Lawful_Secret _ _ secret Hf Hs). reflexivity.
Qed.

Lemma deleteSecretIfExists_read namespace name w :
  faults w (tick w) = None ->
  secrets w !! (namespace, name) = None ->
  deleteSecretIfExists namespace name w
  = (None, snd (request VGet "Secret" (namespace, name) w)).
Proof.
  intros Hf Hs. unfold deleteSecretIfExists, bind.
  rewrite (Get_None Lawful_Secret _ _ Hf Hs). reflexivity.
Qed.

End Gates.

Section Readiness.

Lemma isCertificateReady_true namespace name w err w' :
  isCertificateReady namespace name w = ((true, err), w') ->
  err = None
  /\ exists cert, certificates w !! (namespace, name) = Some cert
                  /\ conditionIsTrue certmanagerv1.CertificateConditionReady
                                     (certmanagerv1.StatusConditions cert) = true.
Proof.
  unfold isCertificateReady, bind.
  destruct (Get (T := certmanagerv1.Certificate) (namespace, name) w)
    as [[cert|e] w1] eqn:Eg.
  - apply (Get_objects Lawful_Certificate) in Eg. destruct Eg as (_ & _ & Hgot).
    destruct Hgot as [Hs _]. intros [= Hb <- _]. split; [reflexivity|].
    exists cert. split; assumption.
  - destruct (IsNotFound e); discriminate.
Qed.

Lemma isIssuerReady_true namespace name w err w' :
  isIssuerReady namespace name w = ((true, err), w') ->
  err = None
  /\ exists issuer, issuers w !! (namespace, name) = Some issuer
                    /\ conditionIsTrue certmanagerv1.IssuerConditionReady
                                       (certmanagerv1.IssuerStatusConditions issuer) = true.
Proof.
  unfold isIssuerReady, bind.
  destruct (Get (T := certmanagerv1.Issuer) (namespace, name) w)
    as [[issuer|e] w1] eqn:Eg.
  - apply (Get_objects Lawful_Issuer) in Eg. destruct Eg as (_ & _ & Hgot).
    destruct Hgot as [Hs _]. intros [= Hb <- _]. split; [reflexivity|].
    exists issuer. split; assumption.
  - destruct (IsNotFound e); discriminate.
Qed.

Lemma isCertificateReady_read namespace name w cert :
  faults w (tick w) = None ->
  certificates w !! (namespace, name) = Some cert ->
  conditionIsTrue certmanagerv1.CertificateConditionReady
                  (certmanagerv1.StatusConditions cert) = true ->
  isCertificateReady namespace name w
  = ((true, None), snd (request VGet "Certificate" (namespace, name) w)).
Proof.
  intros Hf Hs Hb. unfold isCertificateReady, bind.
  rewrite (Get_Some Lawful_Certificate _ _ cert Hf Hs). unfold ret. rewrite Hb.
  reflexivity.
Qed.

Lemma isIssuerReady_read namespace name w issuer :
  faults w (tick w) = None ->
  issuers w !! (namespace, name) = Some issuer ->
  conditionIsTrue certmanagerv1.IssuerConditionReady
                  (certmanagerv1.IssuerStatusConditions issuer) = true ->
  isIssuerReady namespace name w
  = ((true, None), snd (request VGet "Issuer" (namespace, name) w)).
Proof.
  intros Hf Hs Hb. unfold isIssuerReady, bind.
  rewrite (Get_Some Lawful_Issuer _ _ issuer Hf Hs). unfold ret. rewrite Hb.
  reflexivity.
Qed.

Lemma checkCertificatesReady_true namespace certNames w w' :
  wf w ->
  checkCertificatesReady namespace certNames w = (None, w') ->
  onlyReads w w'
  /\ forall name, In name certNames ->
                  exists cert,
                    certificates w !! (namespace, name) = Some cert
                    /\ conditionIsTrue certmanagerv1.CertificateConditionReady
                                       (certmanagerv1.StatusConditions cert) = true.
Proof.
  intros Hwf Hrun.
  assert (R : onlyReads w w')
    by exact (emits_onlyReads _ _ _ _ (emits_checkCertificatesReady _ _) Hwf Hrun).
  split; [exact R|]. clear R. revert w Hwf Hrun.
  induction certNames as [|name rest IH]; intros w Hwf Hrun; [intros ? []|].
  revert Hrun. simpl. unfold bind, ret.
  destruct (isCertificateReady namespace name w) as [[ready [e|]] w1] eqn:E1;
    [discriminate|].
  destruct ready; simpl; [|discriminate].
  intros Hrest.
  pose proof (emits_onlyReads _ _ _ _ (emits_isCertificateReady _ _) Hwf E1) as R1.
  destruct (onlyReads_stores _ _ R1) as (_ & Hc1 & _ & _ & _ & _ & Hwf1).
  destruct (isCertificateReady_true _ _ _ _ _ E1) as [_ Hname].
  intros name' [<-|Hin]; [exact Hname|].
  rewrite <- Hc1. exact (IH w1 (Hwf1 Hwf) Hrest name' Hin).
Qed.

Lemma checkCertificatesReady_read namespace certNames w :
  faultless w ->
  (forall name, In name certNames ->
                exists cert,
                  certificates w !! (namespace, name) = Some cert
                  /\ conditionIsTrue certmanagerv1.CertificateConditionReady
                                     (certmanagerv1.StatusConditions cert) = true) ->
  exists w', checkCertificatesReady namespace certNames w = (None, w')
             /\ onlyReads w w'.
Proof.
  revert w. induction certNames as [|name rest IH]; intros w Hf Hall.
  - exists w. split; [reflexivity | apply onlyReads_refl].
  - destruct (Hall name (or_introl eq_refl)) as (cert & Hs & Hb).
    simpl. unfold bind.
    rewrite (isCertificateReady_read _ _ _ cert (Hf _) Hs Hb). simpl.
    set (w1 := snd (request VGet "Certificate" (namespace, name) w)).
    assert (R1 : onlyReads w w1) by apply onlyReads_request.
    destruct (IH w1 (onlyReads_faultless _ _ R1 Hf)) as (w' & Hrun & R').
    { intros name' Hin. exact (Hall name' (or_intror Hin)). }
    exists w'. split; [exact Hrun|]. eapply onlyReads_trans; eassumption.
Qed.

Lemma checkAllResourcesReady_allReady cs w reason err w' :
  wf w ->
  checkAllResourcesReady cs w = ((true, reason, err), w') ->
  allReady cs w /\ onlyReads w w'.
Proof.
  intros Hwf Hrun.
  assert (R : onlyReads w w')
    by exact (emits_onlyReads _ _ _ _ (emits_checkAllResourcesReady _) Hwf Hrun).
  split; [|exact R]. revert Hrun. unfold checkAllResourcesReady, bind, ret.
  destruct (checkCertificatesReady _ _ w) as [[[r e]|] w1] eqn:E1; [discriminate|].
  destruct (checkCertificatesReady_true _ _ _ _ Hwf E1) as [R1 Hcerts].
  fold (needsClientCerts cs).
  destruct (needsClientCerts cs) eqn:En.
  - destruct (isIssuerReady _ _ w1) as [[ready [e|]] w2] eqn:E2; [discriminate|].
    destruct ready; simpl; [|discriminate].
    intros _. split; [exact Hcerts|]. intros _.
    destruct (isIssuerReady_true _ _ _ _ _ E2) as [_ (issuer & Hs & Hb)].
    exists issuer. split; [|exact Hb].
    destruct (onlyReads_stores _ _ R1) as (_ & _ & <- & _). exact Hs.
  - intros _. split; [exact Hcerts | congruence].
Qed.

Lemma checkAllResourcesReady_read cs w :
  faultless w -> allReady cs w ->
  exists w', checkAllResourcesReady cs w = ((true, EmptyString, None), w')
             /\ onlyReads w w'.
Proof.
  intros Hf [Hcerts Hissuer]. unfold checkAllResourcesReady, bind.
  destruct (checkCertificatesReady_read _ _ w Hf Hcerts) as (w1 & -> & R1).
  fold (needsClientCerts cs). destruct (needsClientCerts cs) eqn:En.
  - destruct (Hissuer eq_refl) as (issuer & Hs & Hb).
    destruct (onlyReads_stores _ _ R1) as (_ & _ & Hi1 & _).
    rewrite <- Hi1 in Hs.
    rewrite (isIssuerReady_read _ _ _ issuer (onlyReads_faultless _ _ R1 Hf _) Hs Hb).
    simpl. eexists. split; [reflexivity|].
    eapply onlyReads_trans; [exact R1 | apply onlyReads_request].
  - exists w1. split; [reflexivity | exact R1].
Qed.

End Readiness.

Section InPlace.

Lemma caCertificates_not_superAdmin cs d :
  In d (caCertificates cs) ->
  ObjectKeyFromObject d <> (v1alpha1.GetNamespace cs, SuperAdminName cs).
Proof.
  unfold caCertificates. intros [<-|Hin].
  - apply child_keys_differ. discriminate.
  - destruct (isSystemOrInfra _); [|destruct Hin].
    destruct Hin as [<-|[<-|[<-|[]]]]; rewrite ?buildOIDCCertificate_key;
      apply child_keys_differ; discriminate.
Qed.

Lemma certificate_secrets_not_derived cs :
  (v1alpha1.GetNamespace cs, CAName cs) <> (v1alpha1.GetNamespace cs, KubeconfigName cs)
  /\ (v1alpha1.GetNamespace cs, CAName cs) <> (ArgoCDNamespace, ArgoCDClusterName cs)
  /\ (v1alpha1.GetNamespace cs, SuperAdminName cs)
     <> (v1alpha1.GetNamespace cs, KubeconfigName cs)
  /\ (v1alpha1.GetNamespace cs, SuperAdminName cs)
     <> (ArgoCDNamespace, ArgoCDClusterName cs).
Proof.
  unfold CAName, SuperAdminName, KubeconfigName, ArgoCDClusterName.
  split; [|split; [|split]].
  - intros [= E]. apply append_inj_l in E. discriminate E.
  - intros [= _ E]. apply append_inj_l in E. discriminate E.
  - intros [= E]. apply append_inj_l in E. discriminate E.
  - intros [= _ E]. apply append_inj_l in E. discriminate E.
Qed.

(** What the stores hold decides whether everything is in place. *)
Lemma inPlace_frame cs w w' :
  certificates w' = certificates w ->
  issuers w' = issuers w ->
  secrets w' = secrets w ->
  namespaces w' = namespaces w ->
  inPlace cs w -> inPlace cs w'.
Proof.
  intros Hc Hi Hs Hn [H1 H2 H3 H4].
  unfold certificateInPlace, issuerInPlace, secretInPlace in *.
  constructor; unfold certificateInPlace, issuerInPlace, secretInPlace;
    rewrite ?Hc, ?Hi, ?Hs, ?Hn; assumption.
Qed.

(** A derived-secrets phase leaves certificates, issuers and namespaces
    alone, and the secrets of the certificates too. *)
Lemma derivedCall_frame cs w w' :
  reach (derivedCall cs) w w' ->
  certificates w' = certificates w
  /\ issuers w' = issuers w
  /\ namespaces w' = namespaces w
  /\ certificateSets w' = certificateSets w
  /\ (forall n, n <> (v1alpha1.GetNamespace cs, KubeconfigName cs) ->
                n <> (ArgoCDNamespace, ArgoCDClusterName cs) ->
                secrets w' !! n = secrets w !! n).
Proof.
  intros R. unfold derivedCall, onObject in R.
  split; [apply (reach_certificates _ _ _ R)|].
  { intros c [[Hk _]|[[Hv _]|[Hk _]]] Hw; [rewrite Hk; discriminate | contradiction
                                           | rewrite Hk; discriminate]. }
  split; [apply (reach_issuers _ _ _ R)|].
  { intros c [[Hk _]|[[Hv _]|[Hk _]]] Hw; [rewrite Hk; discriminate | contradiction
                                           | rewrite Hk; discriminate]. }
  split; [apply (reach_namespaces _ _ _ R)|].
  { intros c [[Hk _]|[[Hv _]|[Hk _]]] Hw; [rewrite Hk; discriminate | contradiction
                                           | rewrite Hk; discriminate]. }
  split; [apply (reach_certificateSets _ _ _ R)|].
  { intros c [[Hk _]|[[Hv _]|[Hk _]]] Hw; [rewrite Hk; discriminate | contradiction
                                           | rewrite Hk; discriminate]. }
  intros n Hn1 Hn2. apply (reach_secret _ _ _ n R).
  intros c [[_ Hk]|[[Hv _]|[_ Hk]]] Hw _; [congruence | contradiction | congruence].
Qed.

(** An attempt that gets as far as the readiness check has put
    everything in place. *)
Lemma reachesReadiness_inPlace req w cs w8 :
  wf w -> reachesReadiness req w cs w8 -> inPlace cs w8.
Proof.
  intros Hwf (w1 & w3 & w7 & Hfetched & (w2 & Hca & Hready) & Hclient & Hclean).
  destruct (certificate_secrets_not_derived cs) as (Hd1 & Hd2 & Hd3 & Hd4).
  assert (Hwf1 : wf w1) by exact (reach_wf _ _ _ (fetched_reach _ _ _ _ Hwf Hfetched) Hwf).
  destruct (reconcileCACertificates_inPlace _ _ _ Hwf1 Hca) as [Hcerts2 R2].
  assert (Hwf2 : wf w2) by exact (reach_wf _ _ _ R2 Hwf1).
  destruct (isSecretReady_true _ _ _ _ _ Hwf2 Hready) as (_ & R3 & ca & Hca2 & Hbundle).
  destruct (onlyReads_stores _ _ R3) as (_ & Hc3 & Hi3 & Hs3 & Hn3 & _ & Hwf3).
  specialize (Hwf3 Hwf2).
  (* the state after the gate of the CA secret *)
  assert (Hcerts3 : Forall (certificateInPlace cs w3) (caCertificates cs)).
  { eapply List.Forall_impl; [|exact Hcerts2]. intros d.
    apply certificateInPlace_onlyReads. exact R3. }
  assert (Hca3 : secrets w3 !! (v1alpha1.GetNamespace cs, CAName cs) = Some ca)
    by (rewrite Hs3; exact Hca2).
  (* steps 3 to 5 *)
  assert (H7 : wf w7
               /\ Forall (certificateInPlace cs w7) (desiredCertificates cs)
               /\ secrets w7 !! (v1alpha1.GetNamespace cs, CAName cs) = Some ca
               /\ (needsClientCerts cs = true ->
                   issuerInPlace cs w7 (buildIssuer cs)
                   /\ exists superAdmin,
                       secrets w7 !! (v1alpha1.GetNamespace cs, SuperAdminName cs)
                       = Some superAdmin
                       /\ hasBundle superAdmin
                       /\ (v1alpha1.Kubeconfig (v1alpha1.Spec cs) = true ->
                           exists secret,
                             desiredKubeconfigSecret cs (credentialsOf superAdmin)
                             = Ok secret
                             /\ secretInPlace w7 secret ["value"])
                       /\ (v1alpha1.ArgocdCluster (v1alpha1.Spec cs) = true ->
                           is_Some (namespaces w7 !! (EmptyString, ArgoCDNamespace))
                           /\ exists secret,
                               buildArgoCDClusterSecret cs (credentialsOf superAdmin)
                               = Ok secret
                               /\ secretInPlace w7 secret ["config"; "name"; "server"]))).
  { unfold desiredCertificates. destruct (needsClientCerts cs) eqn:Hneeds.
    - destruct Hclient as (certData & w6 & (w4 & w5 & Hcc & Hready2 & Hdata) & Hderived).
      destruct (reconcileClientCertificates_inPlace _ _ _ Hwf3 Hcc)
        as (Hissuer4 & Hsa4 & Hframe4 & R4).
      assert (Hwf4 : wf w4) by exact (reach_wf _ _ _ R4 Hwf3).
      assert (Hs4 : secrets w4 = secrets w3).
      { apply map_eq. intros n. apply (reach_secret _ _ _ n R4).
        intros c [Hk|Hk] _ Hs; rewrite Hk in Hs; discriminate. }
      destruct (isSecretReady_true _ _ _ _ _ Hwf4 Hready2)
        as (_ & R5 & superAdmin & Hsa & Hbundle2).
      destruct (onlyReads_stores _ _ R5) as (_ & Hc5 & Hi5 & Hs5 & Hn5 & _ & Hwf5).
      specialize (Hwf5 Hwf4).
      destruct (getCertificateData_Ok _ _ _ _ _ Hwf5 Hdata)
        as (R6 & superAdmin' & Hsa' & ->).
      assert (superAdmin' = superAdmin) as -> by (rewrite Hs5 in Hsa'; congruence).
      destruct (onlyReads_stores _ _ R6) as (_ & Hc6 & Hi6 & Hs6 & Hn6 & _ & Hwf6).
      specialize (Hwf6 Hwf5).
      destruct (reconcileDerivedSecrets_inPlace _ _ _ _ Hwf6 Hderived)
        as (Hkube & Hargo & R7).
      destruct (derivedCall_frame _ _ _ R7) as (Hc7 & Hi7 & Hn7 & _ & Hs7).
      split; [exact (reach_wf _ _ _ R7 Hwf6)|].
      assert (Hc74 : certificates w7 = certificates w4) by congruence.
      split; [|split].
      + apply List.Forall_app. split.
        * rewrite List.Forall_forall in *. intros d Hd.
          apply (certificateInPlace_frame cs w3); [|auto].
          rewrite Hc74. apply Hframe4. apply caCertificates_not_superAdmin. exact Hd.
        * repeat constructor.
          apply (certificateInPlace_frame cs w4); [rewrite Hc74; reflexivity | exact Hsa4].
      + rewrite Hs7 by assumption. rewrite Hs6, Hs5, Hs4. exact Hca3.
      + intros _. split.
        * apply (issuerInPlace_frame cs w4); [|exact Hissuer4]. congruence.
        * exists superAdmin. split.
          { rewrite Hs7 by assumption. rewrite Hs6, Hs5. exact Hsa. }
          split; [exact Hbundle2|]. split; [exact Hkube|].
          intros Ha. destruct (Hargo Ha) as [Hns Hsec]. split; [|exact Hsec].
          rewrite Hn7. exact Hns.
    - subst w7. split; [exact Hwf3|]. split; [|split; [exact Hca3 | discriminate]].
      rewrite app_nil_r. exact Hcerts3. }
  destruct H7 as (Hwf7 & Hcerts7 & Hca7 & Hclient7).
  (* the removal of a stale ArgoCD cluster secret *)
  destruct (v1alpha1.ArgocdCluster (v1alpha1.Spec cs)) eqn:Hargo.
  - subst w8. constructor; [exact Hcerts7 | exists ca; auto | | congruence].
    rewrite Hargo. exact Hclient7.
  - pose proof (emits_reach _ (fun c => (verb c = VGet \/ verb c = VDelete)
                                        /\ onObject "Secret"
                                             (ArgoCDNamespace, ArgoCDClusterName cs) c)
                            _ _ _ _ (emits_deleteSecretIfExists _ _) (fun c H => H)
                            Hwf7 Hclean) as R8.
    assert (Hc8 : certificates w8 = certificates w7).
    { apply (reach_certificates _ _ _ R8). intros c [_ [Hk _]] _. rewrite Hk. discriminate. }
    assert (Hi8 : issuers w8 = issuers w7).
    { apply (reach_issuers _ _ _ R8). intros c [_ [Hk _]] _. rewrite Hk. discriminate. }
    assert (Hs8 : forall n, n <> (ArgoCDNamespace, ArgoCDClusterName cs) ->
                            secrets w8 !! n = secrets w7 !! n).
    { intros n Hn. apply (reach_secret _ _ _ n R8). intros c [_ [_ Hk]] _ _. congruence. }
    constructor.
    + eapply List.Forall_impl; [|exact Hcerts7]. intros d.
      apply certificateInPlace_frame. rewrite Hc8. reflexivity.
    + exists ca. split; [|exact Hbundle]. rewrite Hs8 by assumption. exact Hca7.
    + intros Hneeds. destruct (Hclient7 Hneeds)
        as (Hissuer & superAdmin & Hsa & Hb & Hkube & _).
      split; [apply (issuerInPlace_frame cs w7); [rewrite Hi8; reflexivity | exact Hissuer]|].
      exists superAdmin. split; [rewrite Hs8 by assumption; exact Hsa|].
      split; [exact Hb|]. split; [|congruence].
      intros Hk. destruct (Hkube Hk) as (secret & Hd & Hin). exists secret.
      split; [exact Hd|]. apply (secretInPlace_frame w7); [|exact Hin].
      apply Hs8. destruct (desiredKubeconfigSecret_Ok _ _ _ Hd) as [-> _].
      apply kubeconfig_is_not_registration.
    + intros _. exact (proj1 (deleteSecretIfExists_spec _ _ _ _ _ Hwf7 Hclean) eq_refl).
Qed.

End InPlace.

Section LeftAlone.

Lemma onlyReads_inPlace cs w w' : onlyReads w w' -> inPlace cs w -> inPlace cs w'.
Proof.
  intros R. destruct (onlyReads_stores _ _ R) as (_ & Hc & Hi & Hs & Hn & _).
  apply inPlace_frame; assumption.
Qed.

Lemma onlyReads_allReady cs w w' : onlyReads w w' -> allReady cs w -> allReady cs w'.
Proof.
  intros R. destruct (onlyReads_stores _ _ R) as (_ & Hc & Hi & _).
  unfold allReady. rewrite Hc, Hi. trivial.
Qed.

Lemma onlyReads_wf w w' : onlyReads w w' -> wf w -> wf w'.
Proof. intros R. exact (proj2 (proj2 (proj2 (proj2 (proj2 (proj2 (onlyReads_stores _ _ R))))))). Qed.

Lemma onlyReads_sameStores w w' : onlyReads w w' -> sameStores w w'.
Proof.
  intros R. destruct (onlyReads_stores _ _ R) as (H1 & H2 & H3 & H4 & H5 & _).
  repeat split; assumption.
Qed.

Lemma isSecretReady_reads namespace name w w0 secret :
  onlyReads w0 w -> faultless w0 ->
  secrets w0 !! (namespace, name) = Some secret -> hasBundle secret ->
  exists w', isSecretReady namespace name w = ((true, None), w') /\ onlyReads w0 w'.
Proof.
  intros R Hf Hs Hb. eexists. split.
  - apply (isSecretReady_read namespace name w secret);
      [apply (onlyReads_faultless _ _ R Hf) | | exact Hb].
    destruct (onlyReads_stores _ _ R) as (_ & _ & _ & -> & _). exact Hs.
  - eapply onlyReads_trans; [exact R | apply onlyReads_request].
Qed.

Lemma getCertificateData_reads namespace name w w0 secret :
  onlyReads w0 w -> faultless w0 ->
  secrets w0 !! (namespace, name) = Some secret ->
  exists w', getCertificateData namespace name w = (Ok (credentialsOf secret), w')
             /\ onlyReads w0 w'.
Proof.
  intros R Hf Hs. eexists. split.
  - apply (getCertificateData_read namespace name w secret);
      [apply (onlyReads_faultless _ _ R Hf)|].
    destruct (onlyReads_stores _ _ R) as (_ & _ & _ & -> & _). exact Hs.
  - eapply onlyReads_trans; [exact R | apply onlyReads_request].
Qed.

Lemma deleteSecretIfExists_reads namespace name w w0 :
  onlyReads w0 w -> faultless w0 ->
  secrets w0 !! (namespace, name) = None ->
  exists w', deleteSecretIfExists namespace name w = (None, w') /\ onlyReads w0 w'.
Proof.
  intros R Hf Hs. eexists. split.
  - apply (deleteSecretIfExists_read namespace name w);
      [apply (onlyReads_faultless _ _ R Hf)|].
    destruct (onlyReads_stores _ _ R) as (_ & _ & _ & -> & _). exact Hs.
  - eapply onlyReads_trans; [exact R | apply onlyReads_request].
Qed.

Lemma reconcileArgoCDClusterSecret_read cs certData w :
  faultless w ->
  (v1alpha1.ArgocdCluster (v1alpha1.Spec cs) = true ->
   is_Some (namespaces w !! (EmptyString, ArgoCDNamespace))
   /\ exists secret,
       buildArgoCDClusterSecret cs certData = Ok secret
       /\ secretInPlace w secret ["config"; "name"; "server"]) ->
  exists w', reconcileArgoCDClusterSecret cs certData w = (None, w') /\ onlyReads w w'.
Proof.
  intros Hf Hin. unfold reconcileArgoCDClusterSecret, bind.
  destruct (v1alpha1.ArgocdCluster (v1alpha1.Spec cs));
    [|exists w; split; [reflexivity | apply onlyReads_refl]].
  destruct (Hin eq_refl) as ([ns Hns] & secret & Hb & Hs).
  rewrite (Get_Some Lawful_Namespace _ _ ns (Hf _) Hns).
  set (w1 := snd (request VGet _ _ w)).
  assert (R1 : onlyReads w w1) by apply onlyReads_request.
  rewrite Hb.
  rewrite (secretInPlace_read w1 secret _ (onlyReads_faultless _ _ R1 Hf _)
             (secretInPlace_onlyReads _ _ _ _ R1 Hs)).
  eexists. split; [reflexivity|].
  eapply onlyReads_trans; [exact R1 | apply onlyReads_request].
Qed.

Lemma reconcileDerivedSecrets_read cs certData w :
  faultless w ->
  (v1alpha1.Kubeconfig (v1alpha1.Spec cs) = true ->
   exists secret, desiredKubeconfigSecret cs certData = Ok secret
                  /\ secretInPlace w secret ["value"]) ->
  (v1alpha1.ArgocdCluster (v1alpha1.Spec cs) = true ->
   is_Some (namespaces w !! (EmptyString, ArgoCDNamespace))
   /\ exists secret,
       buildArgoCDClusterSecret cs certData = Ok secret
       /\ secretInPlace w secret ["config"; "name"; "server"]) ->
  exists w', reconcileDerivedSecrets cs certData w = (None, w') /\ onlyReads w w'.
Proof.
  intros Hf Hkube Hargo. unfold reconcileDerivedSecrets, bind.
  destruct (v1alpha1.Kubeconfig (v1alpha1.Spec cs)).
  - destruct (Hkube eq_refl) as (secret & Hd & Hs).
    unfold desiredKubeconfigSecret in Hd.
    destruct (buildKubeconfigSecret cs certData) as [built|e]; [|discriminate].
    rewrite Hd. rewrite (secretInPlace_read w secret _ (Hf _) Hs).
    set (w1 := snd (request VGet _ _ w)).
    assert (R1 : onlyReads w w1) by apply onlyReads_request.
    destruct (reconcileArgoCDClusterSecret_read cs certData w1
                (onlyReads_faultless _ _ R1 Hf)) as (w2 & Hrun & R2).
    { intros Ha. destruct (Hargo Ha) as (Hns & secret' & Hb & Hs'). split.
      - destruct (onlyReads_stores _ _ R1) as (_ & _ & _ & _ & -> & _). exact Hns.
      - exists secret'. split; [exact Hb|].
        exact (secretInPlace_onlyReads _ _ _ _ R1 Hs'). }
    exists w2. split; [exact Hrun|]. eapply onlyReads_trans; eassumption.
  - apply reconcileArgoCDClusterSecret_read; assumption.
Qed.

Lemma set_noop now cs l ty st rs msg :
  hasCondition cs ty st rs msg ->
  set now (cs, l) ty st rs msg
  = (cs, (l ++ [ {| condType := ty; condStatus := st; condReason := rs;
                    condMessage := msg; changed := false |} ])%list).
Proof.
  intros H. unfold set. simpl. rewrite (setCondition_noop now cs _ _ _ _ H).
  reflexivity.
Qed.

(** The status patch of an object that says what is stored changes
    nothing. *)
Lemma patchStatus_nothing cs w :
  faults w (tick w) = None ->
  certificateSets w !! ObjectKeyFromObject cs = Some cs ->
  exists w', patchStatus cs cs w = ((None, cs), w')
             /\ sameStores w w'
             /\ calls w' = (calls w ++ [theCall (T := v1alpha1.CertificateSet)
                                                VStatusPatch (ObjectKeyFromObject cs)])%list.
Proof.
  intros Hf Hs. unfold patchStatus, StatusPatch, bind. simpl. rewrite Hf. simpl.
  rewrite Hs.
  destruct (decide (v1alpha1.Status cs = v1alpha1.Status cs)); [|contradiction].
  eexists. split; [reflexivity|]. split; [repeat split|reflexivity].
Qed.

(** In a cluster in which everything is in place and ready, an attempt on
    a converged parent reads and sends one status patch that changes
    nothing. *)
Lemma settled_left_alone now req w cs :
  wf w -> faultless w ->
  certificateSets w !! req = Some cs ->
  live cs -> ContainsFinalizer cs finalizerName = true ->
  inPlace cs w -> allReady cs w -> converged cs ->
  exists w' l,
    Reconcile now req w
    = ({| result := ctrl.zero; err := None;
          writes := terminalWrites false false false |}, w')
    /\ sameStores w w'
    /\ calls w' = (calls w ++ l ++ [theCall (T := v1alpha1.CertificateSet)
                                            VStatusPatch req])%list
    /\ Forall (fun c => verb c = VGet) l.
Proof.
  intros Hwf Hf Hcs Hlive Hfin Hin Hall (Hready & Hdegraded & Hprogressing).
  assert (Hkey : ObjectKeyFromObject cs = req) by exact (wf_certificateSets _ Hwf _ _ Hcs).
  (* the steps before the status patch are reads *)
  assert (Hreads : exists w9,
             onlyReads w w9
             /\ Reconcile now req w
                 = (let l := (cs, []) in
                    let l := set now l ConditionTypeReady metav1.ConditionTrue
                                 "AllResourcesReady"
                                 "All certificate resources created and ready" in
                    let l := set now l ConditionTypeDegraded metav1.ConditionFalse
                                 "Healthy" "No errors" in
                    let l := set now l ConditionTypeProgressing metav1.ConditionFalse
                                 "Complete" "Reconciliation complete" in
                    bind (patchStatus (fst l) cs)
                         (fun '(err, _) =>
                            match err with
                            | Some e => ret {| result := ctrl.zero; err := Some e;
                                               writes := snd l |}
                            | None => ret {| result := ctrl.zero; err := None;
                                             writes := snd l |}
                            end)) w9).
  { unfold Reconcile, bind.
    rewrite (Get_Some Lawful_CertificateSet _ _ cs (Hf _) Hcs).
    set (w1 := snd (request VGet _ req w)).
    assert (R1 : onlyReads w w1) by apply onlyReads_request.
    unfold live in Hlive. rewrite Hlive, Hfin. simpl.
    destruct Hin as [Hcerts (ca & Hca & Hbundle) Hclient Hclean].
    unfold desiredCertificates in Hcerts. apply List.Forall_app in Hcerts.
    destruct Hcerts as [Hcerts Hsa].
    destruct (reconcileCACertificates_read cs w1 (onlyReads_wf _ _ R1 Hwf)
                (onlyReads_faultless _ _ R1 Hf)) as (w2 & -> & R2).
    { eapply List.Forall_impl; [|exact Hcerts]. intros d.
      apply certificateInPlace_onlyReads. exact R1. }
    assert (R02 : onlyReads w w2) by (eapply onlyReads_trans; eassumption).
    destruct (isSecretReady_reads _ _ w2 w ca R02 Hf Hca Hbundle) as (w3 & -> & R3).
    simpl.
    (* steps 3 to 5 *)
    assert (H7 : exists w7,
               onlyReads w w7
               /\ reconcileClientCredentials now cs cs w3
                   = reconcileCleanup now cs cs w7).
    { unfold reconcileClientCredentials, bind. fold (needsClientCerts cs).
      destruct (needsClientCerts cs) eqn:Hneeds.
      - destruct (Hclient eq_refl) as (Hissuer & superAdmin & Hsas & Hb & Hkube & Hargo).
        apply List.Forall_inv in Hsa.
        destruct (reconcileClientCertificates_read cs w3 (onlyReads_wf _ _ R3 Hwf)
                    (onlyReads_faultless _ _ R3 Hf)
                    (issuerInPlace_onlyReads _ _ _ _ R3 Hissuer)
                    (certificateInPlace_onlyReads _ _ _ _ R3 Hsa)) as (w4 & -> & R4).
        assert (R04 : onlyReads w w4) by (eapply onlyReads_trans; eassumption).
        destruct (isSecretReady_reads _ _ w4 w superAdmin R04 Hf Hsas Hb)
          as (w5 & -> & R5).
        simpl.
        destruct (getCertificateData_reads _ _ w5 w superAdmin R5 Hf Hsas)
          as (w6 & -> & R6).
        destruct (reconcileDerivedSecrets_read cs (credentialsOf superAdmin) w6
                    (onlyReads_faultless _ _ R6 Hf)) as (w7 & -> & R7).
        { intros Hk. destruct (Hkube Hk) as (secret & Hd & Hs). exists secret.
          split; [exact Hd | exact (secretInPlace_onlyReads _ _ _ _ R6 Hs)]. }
        { intros Ha. destruct (Hargo Ha) as (Hns & secret & Hd & Hs). split.
          - destruct (onlyReads_stores _ _ R6) as (_ & _ & _ & _ & -> & _). exact Hns.
          - exists secret. split; [exact Hd | exact (secretInPlace_onlyReads _ _ _ _ R6 Hs)]. }
        exists w7. split; [eapply onlyReads_trans; eassumption | reflexivity].
      - exists w3. split; [exact R3 | reflexivity]. }
    destruct H7 as (w7 & R7 & E7). rewrite E7.
    (* the removal of a stale ArgoCD cluster secret *)
    assert (H8 : exists w8,
               onlyReads w w8
               /\ reconcileCleanup now cs cs w7 = reconcileReadiness now cs cs w8).
    { unfold reconcileCleanup, bind.
      destruct (v1alpha1.ArgocdCluster (v1alpha1.Spec cs)) eqn:Ha; simpl.
      - exists w7. split; [exact R7 | reflexivity].
      - destruct (deleteSecretIfExists_reads _ _ w7 w R7 Hf (Hclean eq_refl))
          as (w8 & -> & R8).
        exists w8. split; [exact R8 | reflexivity]. }
    destruct H8 as (w8 & R8 & ->).
    (* step 6 *)
    unfold reconcileReadiness, bind.
    destruct (checkAllResourcesReady_read cs w8 (onlyReads_faultless _ _ R8 Hf)
                (onlyReads_allReady _ _ _ R8 Hall)) as (w9 & -> & R9).
    exists w9. split; [eapply onlyReads_trans; eassumption|]. reflexivity. }
  destruct Hreads as (w9 & R9 & Hrec).
  rewrite Hrec. clear Hrec.
  (* step 7: nothing to set *)
  cbv zeta.
  rewrite (set_noop now cs _ _ _ _ _ Hready).
  rewrite (set_noop now cs _ _ _ _ _ Hdegraded).
  rewrite (set_noop now cs _ _ _ _ _ Hprogressing). simpl.
  destruct (onlyReads_stores _ _ R9) as (Hcs9 & _).
  destruct (patchStatus_nothing cs w9 (onlyReads_faultless _ _ R9 Hf _))
    as (w' & Hpatch & Hsame & Hcalls).
  { rewrite Hkey, Hcs9. exact Hcs. }
  unfold bind. rewrite Hpatch. destruct R9 as (l & Rl & Fl).
  exists w', l. split; [reflexivity|]. split.
  - destruct (onlyReads_sameStores w w9 (ex_intro _ l (conj Rl Fl)))
      as (H1 & H2 & H3 & H4 & H5).
    destruct Hsame as (G1 & G2 & G3 & G4 & G5).
    repeat split; congruence.
  - split; [|exact Fl]. rewrite Hcalls, (run_calls _ _ _ Rl), Hkey.
    symmetry. apply app_assoc.
Qed.

End LeftAlone.

Section Settled.

(** What is in place for a parent depends on its metadata and its spec
    alone. *)
Lemma inPlace_ext a b w :
  v1alpha1.ObjectMeta b = v1alpha1.ObjectMeta a ->
  v1alpha1.Spec b = v1alpha1.Spec a ->
  inPlace a w -> inPlace b w.
Proof.
  destruct a as [ma sa ta], b as [mb sb tb]. simpl. intros -> ->.
  intros [H1 H2 H3 H4]. constructor.
  - exact H1.
  - exact H2.
  - exact H3.
  - exact H4.
Qed.

Lemma allReady_ext a b w :
  v1alpha1.ObjectMeta b = v1alpha1.ObjectMeta a ->
  v1alpha1.Spec b = v1alpha1.Spec a ->
  allReady a w -> allReady b w.
Proof.
  destruct a as [ma sa ta], b as [mb sb tb]. simpl. intros -> ->.
  intros H. exact H.
Qed.

Lemma allReady_frame cs w w' :
  certificates w' = certificates w ->
  issuers w' = issuers w ->
  allReady cs w -> allReady cs w'.
Proof.
  intros Hc Hi [H1 H2]. split.
  - intros name Hin. rewrite Hc. exact (H1 name Hin).
  - intros Hn. rewrite Hi. exact (H2 Hn).
Qed.

(** The world that an attempt leaves when it has reported on the
    readiness of the resources. *)
Lemma reported_attempt_settled now req w o w' :
  wf w ->
  Reconcile now req w = (o, w') ->
  err o = None -> writes o <> [] ->
  exists stored,
    certificateSets w' !! req = Some stored
    /\ live stored
    /\ ContainsFinalizer stored finalizerName = true
    /\ inPlace stored w'
    /\ (result o = ctrl.zero -> allReady stored w' /\ converged stored)
    /\ wf w'
    /\ faults w' = faults w.
Proof.
  intros Hwf Hrec Herr Hwr.
  destruct (Reconcile_reports _ _ _ _ _ Hrec Herr Hwr) as (cs & w8 & Hreach & Hready).
  destruct (reported_status_stored _ _ _ _ _ _ _ Hwf Hreach Hready Herr)
    as (stored & Hcs & Hst & Hmeta & Hspec & _ & Hconv).
  assert (Hin : inPlace cs w8) by exact (reachesReadiness_inPlace _ _ _ _ Hwf Hreach).
  assert (Hwf8 : wf w8)
    by exact (reach_wf _ _ _ (reachesReadiness_reach _ _ _ _ Hwf Hreach) Hwf).
  assert (R : reach (fun c => verb c = VGet \/ kind c = "CertificateSet") w8 w').
  { eapply emits_reach;
      [apply emits_reconcileReadiness_parent | | exact Hwf8 | exact Hready]. auto. }
  assert (Ec : certificates w' = certificates w8).
  { apply (reach_certificates _ _ _ R). intros c [Hv| ->] Hw; [contradiction|discriminate]. }
  assert (Ei : issuers w' = issuers w8).
  { apply (reach_issuers _ _ _ R). intros c [Hv| ->] Hw; [contradiction|discriminate]. }
  assert (En : namespaces w' = namespaces w8).
  { apply (reach_namespaces _ _ _ R). intros c [Hv| ->] Hw; [contradiction|discriminate]. }
  assert (Es : secrets w' = secrets w8).
  { apply map_eq. intros n. apply (reach_secret _ _ _ n R).
    intros c [Hv|Hk] Hw Hs; [contradiction|congruence]. }
  exists stored. split; [exact Hst|].
  destruct Hreach as (w1 & _ & _ & (_ & Hlive & Hfin) & _).
  split; [unfold live; rewrite Hmeta; exact Hlive|].
  split.
  { revert Hfin. unfold ContainsFinalizer. simpl. rewrite Hmeta. trivial. }
  split.
  { apply (inPlace_ext cs); [exact Hmeta | exact Hspec|].
    exact (inPlace_frame _ _ _ Ec Ei Es En Hin). }
  split.
  { intros Hres. split; [|exact (Hconv Hres)].
    apply (allReady_ext cs); [exact Hmeta | exact Hspec|].
    apply (allReady_frame cs w8); [exact Ec | exact Ei|].
    revert Hready. unfold reconcileReadiness, bind.
    destruct (checkAllResourcesReady cs w8) as [[[ready reason] [e|]] w9] eqn:Echeck.
    - destruct (patchStatus _ _ w9) as [? ?]. unfold ret. intros [= <- _].
      discriminate Herr.
    - destruct ready; simpl.
      + intros _. exact (proj1 (checkAllResourcesReady_allReady _ _ _ _ _ Hwf8 Echeck)).
      + destruct (patchStatus _ _ w9) as [[[e|] ?] ?]; unfold ret; intros [= <- _].
        * discriminate Herr.
        * discriminate Hres. }
  destruct (Reconcile_run now req w cs Hwf Hcs) as (l & Rl & _).
  rewrite Hrec in Rl. simpl in Rl.
  split; [exact (run_wf _ _ _ Rl Hwf) | exact (run_faults _ _ _ Rl)].
Qed.

End Settled.

(** X19: an attempt that reports on the readiness of the resources has put
    everything in place.  When [Reconcile] returns no error and has set
    conditions, the world it leaves holds, for the stored parent, every
    certificate that [AllCertificateNames] lists in the state that
    [createOrUpdateCertificate] aims at, the CA secret with its bundle,
    and, when client certificates are needed, the issuer, the super-admin
    secret and the derived secrets made from its credentials; no ArgoCD
    cluster secret is left when the spec asks for none.  When the result
    asks for no requeue, every resource passed the readiness test as
    well. *)
Theorem reporting_attempt_has_put_everything_in_place :
  forall (now : Z) (req : NamespacedName) (w w' : World) (o : Outcome),
    wf w ->
    Reconcile now req w = (o, w') ->
    err o = None ->
    writes o <> [] ->
    exists stored,
      certificateSets w' !! req = Some stored
      /\ inPlace stored w'
      /\ (result o = ctrl.zero -> allReady stored w').
Proof.
  intros now req w w' o Hwf Hrec Herr Hwr.
  destruct (reported_attempt_settled _ _ _ _ _ Hwf Hrec Herr Hwr)
    as (stored & Hst & _ & _ & Hin & Hall & _).
  exists stored. split; [exact Hst|]. split; [exact Hin|].
  intros Hres. exact (proj1 (Hall Hres)).
Qed.

Lemma reporting_attempt_has_put_everything_in_place_witness :
  let cs := demo.certificateSet "client" true false "selfsigned"
                                [finalizerName] None [] in
  let w := demo.world [cs]
                      [demo.issued (buildCACertificate cs)]
                      []
                      [demo.bundle "demo-ca"; demo.bundle "demo-super-admin"] [] in
  let o := fst (Reconcile 100 demo.req w) in
  let w' := snd (Reconcile 100 demo.req w) in
  wf w
  /\ err o = None
  /\ writes o <> []
  /\ exists stored, certificateSets w' !! demo.req = Some stored /\ inPlace stored w'.
Proof.
  intros cs w o w'.
  assert (Hwf : wf w) by apply wf_demo_world.
  assert (Hrec : Reconcile 100 demo.req w = (o, w')) by apply surjective_pairing.
  assert (Herr : err o = None) by (vm_compute; reflexivity).
  assert (Hwr : writes o <> []) by (vm_compute; discriminate).
  repeat (split; [assumption|]).
  destruct (reporting_attempt_has_put_everything_in_place
              100 demo.req w w' o Hwf Hrec Herr Hwr)
    as (stored & Hst & Hin & _).
  exists stored. split; [exact Hst | exact Hin].
Defined.

(** X20: a settled cluster is left alone.  Where no request fails, the
    parent is live, carries the finalizer and the three conditions of a
    complete reconciliation, every child the spec asks for is in place
    and every resource is ready, an attempt only reads and then sends one
    status patch: it returns the zero result and no error, none of the
    three [setCondition] calls changes a condition, and every store, that
    of the parents included, is the same afterwards. *)
Theorem settled_cluster_is_left_alone :
  forall (now : Z) (req : NamespacedName) (w : World) (cs : v1alpha1.CertificateSet),
    wf w -> faultless w ->
    certificateSets w !! req = Some cs ->
    live cs -> ContainsFinalizer cs finalizerName = true ->
    inPlace cs w -> allReady cs w -> converged cs ->
    exists w' l,
      Reconcile now req w
      = ({| result := ctrl.zero; err := None;
            writes := terminalWrites false false false |}, w')
      /\ sameStores w w'
      /\ calls w' = (calls w ++ l ++ [theCall (T := v1alpha1.CertificateSet)
                                              VStatusPatch req])%list
      /\ Forall (fun c => verb c = VGet) l.
Proof. exact settled_left_alone. Qed.

(** X21: a complete attempt is followed by quiet ones.  Where no request
    fails, once [Reconcile] has returned the zero result with no error
    after setting conditions, a further attempt at any later time, on the
    world the first one left, changes no store and no condition: it reads,
    sends one status patch and returns the zero result again. *)
Theorem complete_attempt_is_followed_by_a_quiet_one :
  forall (now later : Z) (req : NamespacedName) (w w' : World) (o : Outcome),
    wf w -> faultless w ->
    Reconcile now req w = (o, w') ->
    err o = None ->
    writes o <> [] ->
    result o = ctrl.zero ->
    exists w'',
      Reconcile later req w'
      = ({| result := ctrl.zero; err := None;
            writes := terminalWrites false false false |}, w'')
      /\ sameStores w' w''.
Proof.
  intros now later req w w' o Hwf Hf Hrec Herr Hwr Hres.
  destruct (reported_attempt_settled _ _ _ _ _ Hwf Hrec Herr Hwr)
    as (stored & Hst & Hlive & Hfin & Hin & Hall & Hwf' & Hfaults).
  destruct (Hall Hres) as [Hready Hconv].
  assert (Hf' : faultless w') by (intros t; rewrite Hfaults; apply Hf).
  destruct (settled_left_alone later req w' stored Hwf' Hf' Hst Hlive Hfin Hin
                               Hready Hconv) as (w'' & l & E & Hsame & _).
  exists w''. split; [exact E | exact Hsame].
Qed.

Lemma complete_attempt_is_followed_by_a_quiet_one_witness :
  let cs := demo.certificateSet "client" false false "selfsigned"
                                [finalizerName] None [] in
  let w := demo.world [cs] [demo.issued (buildCACertificate cs)] []
                      [demo.bundle "demo-ca"] [] in
  let o := fst (Reconcile 100 demo.req w) in
  let w' := snd (Reconcile 100 demo.req w) in
  wf w /\ faultless w
  /\ err o = None
  /\ writes o <> []
  /\ result o = ctrl.zero
  /\ exists w'', Reconcile 200 demo.req w'
                 = ({| result := ctrl.zero; err := None;
                       writes := terminalWrites false false false |}, w'')
                 /\ sameStores w' w''.
Proof.
  intros cs w o w'.
  assert (Hwf : wf w) by apply wf_demo_world.
  assert (Hf : faultless w) by (intros t; reflexivity).
  assert (Hrec : Reconcile 100 demo.req w = (o, w')) by apply surjective_pairing.
  assert (Herr : err o = None) by (vm_compute; reflexivity).
  assert (Hwr : writes o <> []) by (vm_compute; discriminate).
  assert (Hres : result o = ctrl.zero) by (vm_compute; reflexivity).
  repeat (split; [assumption|]).
  exact (complete_attempt_is_followed_by_a_quiet_one
           100 200 demo.req w w' o Hwf Hf Hrec Herr Hwr Hres).
Defined.

Lemma settled_cluster_is_left_alone_witness :
  let w := demo.convergedWorld in
  let cs := demo.convergedSet in
  wf w /\ faultless w
  /\ certificateSets w !! demo.req = Some cs
  /\ live cs /\ ContainsFinalizer cs finalizerName = true
  /\ inPlace cs w /\ allReady cs w /\ converged cs
  /\ exists w', fst (Reconcile 300 demo.req w)
                = {| result := ctrl.zero; err := None;
                     writes := terminalWrites false false false |}
                /\ sameStores w w'.
Proof.
  intros w cs.
  assert (Hwf : wf w) by exact wf_convergedWorld.
  assert (Hf : faultless w) by (intros t; reflexivity).
  assert (Hcs : certificateSets w !! demo.req = Some cs) by (vm_compute; reflexivity).
  assert (Hlive : live cs) by reflexivity.
  assert (Hfin : ContainsFinalizer cs finalizerName = true) by (vm_compute; reflexivity).
  assert (Hin : inPlace cs w).
  { constructor.
    - repeat constructor.
      exists (demo.issued
                (default (buildCACertificate cs)
                         (certificates w !! ("default", "demo-ca")))).
      split; vm_compute; reflexivity.
    - exists (demo.bundle "demo-ca"). split; [vm_compute; reflexivity|].
      apply hasBundle_true. vm_compute. reflexivity.
    - intros Hneeds. discriminate Hneeds.
    - intros _. vm_compute. reflexivity. }
  assert (Hall : allReady cs w).
  { split.
    - intros name [<-|[]].
      exists (demo.issued
                (default (buildCACertificate cs)
                         (certificates w !! ("default", "demo-ca")))).
      split; vm_compute; reflexivity.
    - intros Hneeds. discriminate Hneeds. }
  assert (Hconv : converged cs).
  { split; [|split]; (eexists; split; [reflexivity | repeat split]). }
  repeat (split; [assumption|]).
  destruct (settled_cluster_is_left_alone 300 demo.req w cs Hwf Hf Hcs Hlive Hfin
                                          Hin Hall Hconv)
    as (w' & l & E & Hsame & _).
  exists w'. split; [rewrite E; reflexivity | exact Hsame].
Defined.

Section Metadata.

(** Every certificate an attempt wants is built on [buildObjectMeta] and
    writes to the secret of its own name. *)
Lemma desiredCertificates_shape cs d :
  In d (desiredCertificates cs) ->
  certmanagerv1.ObjectMeta d
  = buildObjectMeta cs (metav1.Name (certmanagerv1.ObjectMeta d))
  /\ certmanagerv1.CommonName (certmanagerv1.Spec d)
     = metav1.Name (certmanagerv1.ObjectMeta d)
  /\ certmanagerv1.SecretName (certmanagerv1.Spec d)
     = metav1.Name (certmanagerv1.ObjectMeta d).
Proof.
  unfold desiredCertificates, caCertificates. intros Hin.
  apply in_app_or in Hin.
  assert (Ho : let o := buildOIDCCertificate cs in
               certmanagerv1.ObjectMeta o
               = buildObjectMeta cs (metav1.Name (certmanagerv1.ObjectMeta o))
               /\ certmanagerv1.CommonName (certmanagerv1.Spec o)
                  = metav1.Name (certmanagerv1.ObjectMeta o)
               /\ certmanagerv1.SecretName (certmanagerv1.Spec o)
                  = metav1.Name (certmanagerv1.ObjectMeta o)).
  { unfold buildOIDCCertificate.
    destruct (String.eqb _ _); [repeat split|].
    destruct (String.eqb _ _); [|repeat split].
    destruct (v1alpha1.IssuerRefOidc _); repeat split. }
  destruct Hin as [[<-|Hin]|Hin]; [repeat split| |].
  - destruct (isSystemOrInfra _); [|destruct Hin].
    destruct Hin as [<-|[<-|[<-|[]]]]; [repeat split | repeat split | exact Ho].
  - destruct (needsClientCerts cs); [|destruct Hin].
    destruct Hin as [<-|[]]. repeat split.
Qed.

End Metadata.

(** X22: the certificates that a reporting attempt leaves are the
    parent's.  When [Reconcile] returns no error and has set conditions,
    every name that [AllCertificateNames] lists is the name of a stored
    certificate of the parent's namespace that has the parent as its
    controller, carries the parent's labels and the parent's annotations
    except [kubectl.kubernetes.io/last-applied-configuration], which it
    never carries, and names itself as common name and as the secret it
    writes to. *)
Theorem reported_certificates_carry_the_parent_metadata :
  forall (now : Z) (req : NamespacedName) (w w' : World) (o : Outcome),
    wf w ->
    Reconcile now req w = (o, w') ->
    err o = None ->
    writes o <> [] ->
    exists parent,
      certificateSets w' !! req = Some parent
      /\ forall name,
          In name (AllCertificateNames parent) ->
          exists cert,
            certificates w' !! (v1alpha1.GetNamespace parent, name) = Some cert
            /\ controlledBy parent (certmanagerv1.ObjectMeta cert)
            /\ metav1.Labels (certmanagerv1.ObjectMeta cert)
               = metav1.Labels (v1alpha1.ObjectMeta parent)
            /\ metav1.Annotations (certmanagerv1.ObjectMeta cert)
                 !! "kubectl.kubernetes.io/last-applied-configuration" = None
            /\ (forall k, k <> "kubectl.kubernetes.io/last-applied-configuration" ->
                          metav1.Annotations (certmanagerv1.ObjectMeta cert) !! k
                          = metav1.Annotations (v1alpha1.ObjectMeta parent) !! k)
            /\ certmanagerv1.CommonName (certmanagerv1.Spec cert) = name
            /\ certmanagerv1.SecretName (certmanagerv1.Spec cert) = name.
Proof.
  intros now req w w' o Hwf Hrec Herr Hwr.
  destruct (reported_attempt_settled _ _ _ _ _ Hwf Hrec Herr Hwr)
    as (parent & Hst & _ & _ & [Hcerts _ _ _] & _).
  exists parent. split; [exact Hst|]. intros name Hin.
  rewrite <- desiredCertificates_names in Hin. apply in_map_iff in Hin.
  destruct Hin as (d & Hname & Hd).
  rewrite List.Forall_forall in Hcerts.
  destruct (certificateInPlace_state _ _ _ (Hcerts d Hd))
    as (cert & Hs & Hspec & Hlabels & Hann & Hctl).
  destruct (desiredCertificates_shape _ _ Hd) as (Hmeta & Hcn & Hsn).
  rewrite (desiredCertificates_namespace _ _ Hd), Hname in Hs.
  exists cert. split; [exact Hs|]. split; [exact Hctl|].
  rewrite Hlabels, Hann, Hspec, Hcn, Hsn, Hmeta.
  unfold buildObjectMeta, copyAnnotationsForChildResource. simpl.
  split; [reflexivity|]. split; [apply lookup_delete_eq|].
  split; [intros k Hk; apply lookup_delete_ne; congruence|].
  split; exact Hname.
Qed.

Lemma reported_certificates_carry_the_parent_metadata_witness :
  let cs := demo.certificateSet "infra" true false "selfsigned"
                                [finalizerName] None [] in
  let w := demo.world [cs] [] []
                      [demo.bundle "demo-ca"; demo.bundle "demo-super-admin"] [] in
  let o := fst (Reconcile 100 demo.req w) in
  let w' := snd (Reconcile 100 demo.req w) in
  wf w
  /\ err o = None
  /\ writes o <> []
  /\ exists parent,
      certificateSets w' !! demo.req = Some parent
      /\ forall name,
          In name (AllCertificateNames parent) ->
          exists cert,
            certificates w' !! (v1alpha1.GetNamespace parent, name) = Some cert
            /\ controlledBy parent (certmanagerv1.ObjectMeta cert)
            /\ certmanagerv1.SecretName (certmanagerv1.Spec cert) = name.
Proof.
  intros cs w o w'.
  assert (Hwf : wf w) by apply wf_demo_world.
  assert (Hrec : Reconcile 100 demo.req w = (o, w')) by apply surjective_pairing.
  assert (Herr : err o = None) by (vm_compute; reflexivity).
  assert (Hwr : writes o <> []) by (vm_compute; discriminate).
  repeat (split; [assumption|]).
  pose proof (reported_certificates_carry_the_parent_metadata
                100 demo.req w w' o Hwf Hrec Herr Hwr) as H.
  destruct H as (parent & Hst & Hall).
  exists parent. split; [exact Hst|]. intros name Hin.
  destruct (Hall name Hin) as (cert & Hc & Hctl & _ & _ & _ & _ & Hsn).
  exists cert. split; [exact Hc|]. split; [exact Hctl | exact Hsn].
Defined.


(** X23: the derived secrets that a reporting attempt leaves are made of
    the credentials in the store.  When [Reconcile] returns no error and
    has set conditions for a parent that needs client certificates, the
    super-admin secret is stored with its bundle; when asked for, the
    kubeconfig secret holds under [value] the kubeconfig rendered from the
    parent's name and endpoint and the base64 text of the three fields of
    that super-admin secret, and the ArgoCD cluster secret of the namespace
    [beget-argocd] holds the rendered [config], the parent's name and the
    endpoint. *)
Theorem reported_derived_secrets_hold_the_stored_credentials :
  forall (now : Z) (req : NamespacedName) (w w' : World) (o : Outcome),
    wf w ->
    Reconcile now req w = (o, w') ->
    err o = None ->
    writes o <> [] ->
    exists parent,
      certificateSets w' !! req = Some parent
      /\ (needsClientCerts parent = true ->
          exists superAdmin,
            secrets w' !! (v1alpha1.GetNamespace parent, SuperAdminName parent)
            = Some superAdmin
            /\ hasBundle superAdmin
            /\ (v1alpha1.Kubeconfig (v1alpha1.Spec parent) = true ->
                exists secret,
                  secrets w' !! (v1alpha1.GetNamespace parent, KubeconfigName parent)
                  = Some secret
                  /\ corev1.Data secret !! "value"
                     = Some (kubeconfigTemplate
                               {| ClusterName := v1alpha1.GetName parent;
                                  Server := v1alpha1.KubeconfigEndpoint
                                              (v1alpha1.Spec parent);
                                  kCACert := base64.EncodeToString
                                               (dataOf (corev1.Data superAdmin) "ca.crt");
                                  kTLSCert := base64.EncodeToString
                                                (dataOf (corev1.Data superAdmin) "tls.crt");
                                  kTLSKey := base64.EncodeToString
                                               (dataOf (corev1.Data superAdmin) "tls.key")
                               |}))
            /\ (v1alpha1.ArgocdCluster (v1alpha1.Spec parent) = true ->
                exists secret,
                  secrets w' !! (ArgoCDNamespace, ArgoCDClusterName parent) = Some secret
                  /\ corev1.Data secret !! "config"
                     = Some (argoCDConfigTemplate (credentialsOf superAdmin))
                  /\ corev1.Data secret !! "name" = Some (v1alpha1.GetName parent)
                  /\ corev1.Data secret !! "server"
                     = Some (v1alpha1.KubeconfigEndpoint (v1alpha1.Spec parent)))).
Proof.
  intros now req w w' o Hwf Hrec Herr Hwr.
  destruct (reported_attempt_settled _ _ _ _ _ Hwf Hrec Herr Hwr)
    as (parent & Hst & _ & _ & [_ _ Hclient _] & _).
  exists parent. split; [exact Hst|]. intros Hneeds.
  destruct (Hclient Hneeds) as (_ & superAdmin & Hsa & Hb & Hkube & Hargo).
  exists superAdmin. split; [exact Hsa|]. split; [exact Hb|]. split.
  - intros Hk. destruct (Hkube Hk) as (desired & Hd & stored & Hs & Hdata).
    apply desiredKubeconfigSecret_Ok in Hd. destruct Hd as [Hkey Hval].
    rewrite Hkey in Hs. exists stored. split; [exact Hs|].
    rewrite (Hdata "value") by (left; reflexivity).
    rewrite Hval. apply lookup_singleton_eq.
  - intros Ha. destruct (Hargo Ha) as (_ & desired & Hd & stored & Hs & Hdata).
    destruct (buildArgoCDClusterSecret_Ok parent (credentialsOf superAdmin))
      as (desired' & Hd' & Hkey & Hconfig & Hname & Hserver).
    assert (desired' = desired) as -> by congruence.
    rewrite Hkey in Hs. exists stored. split; [exact Hs|].
    rewrite !Hdata by (simpl; tauto). auto.
Qed.

Lemma reported_derived_secrets_hold_the_stored_credentials_witness :
  let cs := demo.certificateSet "client" true false "selfsigned"
                                [finalizerName] None [] in
  let w := demo.world [cs] [] []
                      [demo.bundle "demo-ca"; demo.bundle "demo-super-admin"] [] in
  let o := fst (Reconcile 100 demo.req w) in
  let w' := snd (Reconcile 100 demo.req w) in
  wf w
  /\ err o = None
  /\ writes o <> []
  /\ exists parent,
      certificateSets w' !! demo.req = Some parent
      /\ (needsClientCerts parent = true ->
          v1alpha1.Kubeconfig (v1alpha1.Spec parent) = true ->
          exists secret,
            secrets w' !! (v1alpha1.GetNamespace parent, KubeconfigName parent)
            = Some secret
            /\ is_Some (corev1.Data secret !! "value")).
Proof.
  intros cs w o w'.
  assert (Hwf : wf w) by apply wf_demo_world.
  assert (Hrec : Reconcile 100 demo.req w = (o, w')) by apply surjective_pairing.
  assert (Herr : err o = None) by (vm_compute; reflexivity).
  assert (Hwr : writes o <> []) by (vm_compute; discriminate).
  repeat (split; [assumption|]).
  pose proof (reported_derived_secrets_hold_the_stored_credentials
                100 demo.req w w' o Hwf Hrec Herr Hwr) as H.
  destruct H as (parent & Hst & Hall).
  exists parent. split; [exact Hst|]. intros Hneeds Hk.
  destruct (Hall Hneeds) as (superAdmin & _ & _ & Hkube & _).
  destruct (Hkube Hk) as (secret & Hs & Hv).
  exists secret. split; [exact Hs|]. rewrite Hv. eexists. reflexivity.
Defined.

(** ** Existing children follow the current spec *)
Section Spares.

Variable n : NamespacedName.

Lemma spares_read c : verb c = VGet -> sparesCertificate n c.
Proof. intros Hv Hw. contradiction. Qed.

Lemma spares_kind c : kind c <> "Certificate" -> sparesCertificate n c.
Proof. intros Hk _ Hk'. contradiction. Qed.

Lemma emits_createOrUpdateCertificate_spares cs desired :
  ObjectKeyFromObject desired <> n ->
  emits (sparesCertificate n) (createOrUpdateCertificate cs desired).
Proof.
  intros Hne. eapply emits_weaken; [apply emits_createOrUpdateCertificate_writes|].
  intros c [Hv|(_ & _ & Hkey)]; [apply spares_read; exact Hv|].
  intros _ _. congruence.
Qed.

Lemma emits_patchStatus_spares cs original :
  emits (sparesCertificate n) (patchStatus cs original).
Proof.
  eapply emits_weaken; [apply emits_patchStatus|].
  intros c ->. apply spares_kind. discriminate.
Qed.

Lemma emits_degraded_spares now l csOriginal reason e :
  emits (sparesCertificate n) (degraded now l csOriginal reason e).
Proof.
  unfold degraded. apply emits_bind; [apply emits_patchStatus_spares|].
  intros ?. apply emits_ret.
Qed.

Lemma emits_isSecretReady_spares namespace name :
  emits (sparesCertificate n) (isSecretReady namespace name).
Proof.
  eapply emits_weaken; [apply emits_isSecretReady|].
  intros c [Hv _]. apply spares_read. exact Hv.
Qed.

Lemma emits_reconcileCleanup_spares now cs csOriginal :
  emits (sparesCertificate n) (reconcileCleanup now cs csOriginal).
Proof.
  assert (Hr : emits (sparesCertificate n) (reconcileReadiness now cs csOriginal)).
  { eapply emits_weaken; [apply emits_reconcileReadiness_parent|].
    intros c [Hv|Hk]; [apply spares_read; exact Hv|].
    apply spares_kind. rewrite Hk. discriminate. }
  unfold reconcileCleanup. destruct (negb _); [|exact Hr].
  apply emits_bind.
  - eapply emits_weaken; [apply emits_deleteSecretIfExists|].
    intros c [_ [Hk _]]. apply spares_kind. rewrite Hk. discriminate.
  - intros [e|]; [apply emits_degraded_spares | exact Hr].
Qed.

End Spares.

Lemma emits_reconcileClientCredentials_spares now cs csOriginal :
  emits (sparesCertificate (v1alpha1.GetNamespace cs, CAName cs))
        (reconcileClientCredentials now cs csOriginal).
Proof.
  unfold reconcileClientCredentials.
  destruct (_ || _); [|apply emits_reconcileCleanup_spares].
  apply emits_bind.
  { unfold reconcileClientCertificates. apply emits_bind.
    - eapply emits_weaken; [apply emits_createOrUpdateIssuer|].
      intros c Hk. apply spares_kind. rewrite Hk. discriminate.
    - intros [e|]; [apply emits_ret|]. apply emits_bind.
      + apply emits_createOrUpdateCertificate_spares.
        apply child_keys_differ. discriminate.
      + intros [e|]; apply emits_ret. }
  intros [e|]; [apply emits_degraded_spares|].
  apply emits_bind; [apply emits_isSecretReady_spares|].
  intros [ready [e|]]; [apply emits_ret|].
  destruct (negb ready); [apply emits_ret|].
  apply emits_bind.
  { eapply emits_weaken; [apply emits_getCertificateData|].
    intros c [Hv _]. apply spares_read. exact Hv. }
  intros [certData|e]; [|apply emits_ret].
  apply emits_bind.
  { eapply emits_weaken; [apply emits_reconcileDerivedSecrets|].
    intros c [[Hk _]|[[Hv _]|[Hk _]]];
      [apply spares_kind; rewrite Hk; discriminate
      |apply spares_read; exact Hv
      |apply spares_kind; rewrite Hk; discriminate]. }
  intros [e|]; [apply emits_degraded_spares | apply emits_reconcileCleanup_spares].
Qed.


(** After the first step of [reconcileCACertificates] no request of the
    attempt writes the CA certificate. *)
Lemma Reconcile_after_CA_certificate now req w cs w1 w2 :
  wf w ->
  fetched req w cs w1 ->
  createOrUpdateCertificate cs (buildCACertificate cs) w1 = (None, w2) ->
  certificates (snd (Reconcile now req w)) !! (v1alpha1.GetNamespace cs, CAName cs)
  = certificates w2 !! (v1alpha1.GetNamespace cs, CAName cs).
Proof.
  intros Hwf Hfetched Hfirst.
  set (n := (v1alpha1.GetNamespace cs, CAName cs)).
  assert (Hwf1 : wf w1)
    by exact (reach_wf _ _ _ (fetched_reach _ _ _ _ Hwf Hfetched) Hwf).
  assert (Hwf2 : wf w2).
  { destruct (emits_createOrUpdateCertificate cs _ _ _ _ Hwf1 Hfirst) as (l & R & _).
    exact (run_wf _ _ _ R Hwf1). }
  (* the steps that follow, as one computation from [w2] *)
  assert (Hrest : exists rest : M Outcome,
             Reconcile now req w = rest w2 /\ emits (sparesCertificate n) rest).
  { destruct Hfetched as (Hget & Hdel & Hfin).
    exists (bind (if isSystemOrInfra (v1alpha1.Environment (v1alpha1.Spec cs))
                  then
                    let* err := createOrUpdateCertificate cs (buildETCDCertificate cs) in
                    match err with
                    | Some e => ret (Some (Wrapf "failed to create ETCD Certificate" e))
                    | None =>
                      let* err := createOrUpdateCertificate cs (buildProxyCertificate cs) in
                      match err with
                      | Some e => ret (Some (Wrapf "failed to create Proxy Certificate" e))
                      | None =>
                        let* err := createOrUpdateCertificate cs (buildOIDCCertificate cs) in
                        match err with
                        | Some e => ret (Some (Wrapf "failed to create OIDC Certificate" e))
                        | None => ret None
                        end
                      end
                    end
                  else ret None)
                 (fun err =>
                    match err with
                    | Some e => degraded now (cs, []) cs "CACertificatesFailed" e
                    | None =>
                      let* (caSecretReady, err) :=
                        isSecretReady (v1alpha1.GetNamespace cs) (CAName cs) in
                      match err with
                      | Some e => ret {| result := ctrl.zero; err := Some e; writes := [] |}
                      | None =>
                        if negb caSecretReady then
                          ret {| result := {| ctrl.Requeue := false;
                                              ctrl.RequeueAfter := defaultRequeueAfter |};
                                 err := None; writes := [] |}
                        else reconcileClientCredentials now cs cs
                      end
                    end)).
    split.
    - unfold Reconcile, reconcileCACertificates, bind.
      rewrite Hget, Hdel, Hfin. simpl. rewrite Hfirst. reflexivity.
    - apply emits_bind.
      + destruct (isSystemOrInfra _); [|apply emits_ret].
        apply emits_bind;
          [apply emits_createOrUpdateCertificate_spares;
           apply child_keys_differ; discriminate|].
        intros [e|]; [apply emits_ret|].
        apply emits_bind;
          [apply emits_createOrUpdateCertificate_spares;
           apply child_keys_differ; discriminate|].
        intros [e|]; [apply emits_ret|].
        apply emits_bind;
          [apply emits_createOrUpdateCertificate_spares;
           rewrite buildOIDCCertificate_key; apply child_keys_differ; discriminate|].
        intros [e|]; apply emits_ret.
      + intros [e|]; [apply emits_degraded_spares|].
        apply emits_bind; [apply emits_isSecretReady_spares|].
        intros [ready [e|]]; [apply emits_ret|].
        destruct (negb ready); [apply emits_ret|].
        apply emits_reconcileClientCredentials_spares. }
  destruct Hrest as (rest & -> & Hemits).
  destruct (rest w2) as [o w'] eqn:Erest.
  destruct (Hemits _ _ _ Hwf2 Erest) as (l & R & F). simpl.
  apply (run_certificates _ _ _ R).
  intros c Hin Hw Hk. rewrite List.Forall_forall in F. exact (F c Hin Hw Hk).
Qed.

(** C1, amended.  Certificates and the Issuer are created or updated, not
    created at most once.  In every attempt on a live CertificateSet with
    the finalizer in which the first step, [createOrUpdateCertificate] for
    the CA certificate, succeeds, a CA Certificate that existed before is
    stored at the end of the attempt with the spec built from the parent as
    it is now: in particular its issuer reference is the parent's current
    [issuerRef], whatever it was before.  Its status conditions and its
    finalizers are kept.  The same helper serves every Certificate, and
    [createOrUpdateIssuer] the Issuer: where it succeeds, the existing
    object is stored with the desired spec and its own status. *)
Theorem existing_children_are_updated_to_the_current_spec :
  forall (cs : v1alpha1.CertificateSet),
    (forall (now : Z) (req : NamespacedName) (w w1 w2 : World)
            (existing : certmanagerv1.Certificate),
        wf w ->
        fetched req w cs w1 ->
        certificates w !! (v1alpha1.GetNamespace cs, CAName cs) = Some existing ->
        createOrUpdateCertificate cs (buildCACertificate cs) w1 = (None, w2) ->
        exists stored,
          certificates (snd (Reconcile now req w)) !! (v1alpha1.GetNamespace cs, CAName cs)
          = Some stored
          /\ certmanagerv1.Spec stored = certmanagerv1.Spec (buildCACertificate cs)
          /\ certmanagerv1.IssuerRef (certmanagerv1.Spec stored)
             = objectReference (v1alpha1.IssuerRef (v1alpha1.Spec cs))
          /\ certmanagerv1.StatusConditions stored
             = certmanagerv1.StatusConditions existing
          /\ metav1.Finalizers (certmanagerv1.ObjectMeta stored)
             = metav1.Finalizers (certmanagerv1.ObjectMeta existing))
    /\ (forall (desired existing : certmanagerv1.Certificate) (w w' : World),
           certificates w !! ObjectKeyFromObject desired = Some existing ->
           createOrUpdateCertificate cs desired w = (None, w') ->
           exists stored,
             certificates w' !! ObjectKeyFromObject desired = Some stored
             /\ certmanagerv1.Spec stored = certmanagerv1.Spec desired
             /\ certmanagerv1.StatusConditions stored
                = certmanagerv1.StatusConditions existing)
    /\ (forall (desired existing : certmanagerv1.Issuer) (w w' : World),
           issuers w !! ObjectKeyFromObject desired = Some existing ->
           createOrUpdateIssuer cs desired w = (None, w') ->
           exists stored,
             issuers w' !! ObjectKeyFromObject desired = Some stored
             /\ certmanagerv1.IssuerSpec_ stored = certmanagerv1.IssuerSpec_ desired
             /\ certmanagerv1.IssuerStatusConditions stored
                = certmanagerv1.IssuerStatusConditions existing).
Proof.
  intros cs. split; [|split].
  - intros now req w w1 w2 existing Hwf Hfetched Hex Hfirst.
    rewrite (Reconcile_after_CA_certificate now req w cs w1 w2 Hwf Hfetched Hfirst).
    destruct (createOrUpdateCertificate_stored _ _ _ _ Hfirst)
      as (base & stored & Hm & Hs & Hb & _).
    assert (E1 : certificates w1 = certificates w).
    { destruct (fetched_stored _ _ _ _ Hwf Hfetched) as (_ & _ & ->).
      exact (proj1 (proj2 (onlyReads_stores _ _ (onlyReads_request _ _ _)))). }
    change (ObjectKeyFromObject (buildCACertificate cs))
      with (v1alpha1.GetNamespace cs, CAName cs) in Hs, Hb.
    rewrite E1, Hex in Hb. subst base.
    apply mutateCertificate_Ok in Hm.
    destruct Hm as (_ & Hspec & _ & _ & _ & Hst & Hfin & _).
    exists stored. split; [exact Hs|]. split; [exact Hspec|].
    split; [rewrite Hspec; reflexivity|]. split; [exact Hst | exact Hfin].
  - intros desired existing w w' Hex Hrun.
    destruct (createOrUpdateCertificate_stored _ _ _ _ Hrun)
      as (base & stored & Hm & Hs & Hb & _).
    rewrite Hex in Hb. subst base. apply mutateCertificate_Ok in Hm.
    destruct Hm as (_ & Hspec & _ & _ & _ & Hst & _).
    exists stored. split; [exact Hs|]. split; [exact Hspec | exact Hst].
  - intros desired existing w w' Hex Hrun.
    destruct (createOrUpdateIssuer_stored _ _ _ _ Hrun)
      as (base & stored & Hm & Hs & Hb & _).
    rewrite Hex in Hb. subst base. apply mutateIssuer_Ok in Hm.
    destruct Hm as (_ & Hspec & _ & _ & _ & Hst & _).
    exists stored. split; [exact Hs|]. split; [exact Hspec | exact Hst].
Qed.

Lemma existing_children_are_updated_to_the_current_spec_witness :
  let before := demo.certificateSet "client" false false "selfsigned"
                                    [finalizerName] None [] in
  let cs := demo.certificateSet "client" false false "corporate-ca"
                                [finalizerName] None [] in
  let created := snd (Reconcile 100 demo.req (demo.world [before] [] [] [] [])) in
  let w := demo.replaceSet cs (demo.markReady created) in
  let w1 := snd (Get (T := v1alpha1.CertificateSet) demo.req w) in
  let w2 := snd (createOrUpdateCertificate cs (buildCACertificate cs) w1) in
  let existing := default (buildCACertificate before)
                       (certificates w !! ("default", "demo-ca")) in
  wf w
  /\ fetched demo.req w cs w1
  /\ option_map (fun c => cmmeta.Name (certmanagerv1.IssuerRef (certmanagerv1.Spec c)))
                (certificates w !! ("default", "demo-ca")) = Some "selfsigned"
  /\ createOrUpdateCertificate cs (buildCACertificate cs) w1 = (None, w2)
  /\ exists stored,
      certificates (snd (Reconcile 200 demo.req w)) !! ("default", "demo-ca") = Some stored
      /\ cmmeta.Name (certmanagerv1.IssuerRef (certmanagerv1.Spec stored)) = "corporate-ca"
      /\ certmanagerv1.StatusConditions stored
         = certmanagerv1.StatusConditions (demo.issued (buildCACertificate before)).
Proof.
  intros before cs created w w1 w2 existing.
  assert (Hwf : wf w).
  { split; apply keyed_decide; vm_compute; reflexivity. }
  assert (Hfetched : fetched demo.req w cs w1).
  { split; [vm_compute; reflexivity|]. split; vm_compute; reflexivity. }
  assert (Hex : certificates w !! (v1alpha1.GetNamespace cs, CAName cs) = Some existing).
  { vm_compute. reflexivity. }
  assert (Hfirst : createOrUpdateCertificate cs (buildCACertificate cs) w1 = (None, w2))
    by (vm_compute; reflexivity).
  split; [exact Hwf|]. split; [exact Hfetched|].
  split; [vm_compute; reflexivity|]. split; [exact Hfirst|].
  pose proof (proj1 (existing_children_are_updated_to_the_current_spec cs)
                    200 demo.req w w1 w2 existing Hwf Hfetched Hex Hfirst) as H.
  destruct H as (stored & Hs & _ & Hissuer & Hst & _).
  exists stored. split; [exact Hs|]. split; [rewrite Hissuer; reflexivity|].
  rewrite Hst. vm_compute. reflexivity.
Defined.
